(* ===== verification/_CoqProject ===== *)
-Q . S2P
Prelude.v
GoText.v
Sha256.v
GoTime.v
Clock.v
GoFloat.v
Cliutil.v
Flag.v
FlagTheorems.v
Netip.v
NetipText.v
NetipRange.v
Json.v
JsonText.v
JsonFuel.v
JsonPrefix.v
Model.v
Address.v
Api.v
ApiText.v
Identity.v
Transport.v
Authorization.v
AuthorizationTheorems.v
Store.v
StoreSpec.v
StoreCodec.v
StoreRefine.v
StoreFaults.v
StoreSafety.v
StoreTheorems.v
Migrate.v
MigrateTheorems.v
Publisher.v
System.v
Backlog.v
PublisherTheorems.v
Dnswriter.v
DnswriterTheorems.v
Controller.v
ControllerTheorems.v
Agent.v
AgentHost.v
AgentTheorems.v
AgentLoop.v
EndToEnd.v
Served.v
Commands.v
CommandOptions.v
