(* ===== verification/Prelude.v ===== *)
(** * Kaiba secure-device dynamic DNS: a verification library

    The program (under [src/dns/]) keeps public DNS address records of devices
    that are named by their certificates.  An agent on a device sends the
    device's addresses to a controller; the controller authenticates it, checks
    the addresses and writes them as the device's desired state, with a lease,
    into an SQLite database; a publisher turns desired state into DNS updates
    (RFC 2136), marks what it applied, and marks what an observer sees at the
    public servers.  Controllers and publisher share nothing but the database.

    ** The files

    Foundations, what the program uses of Go:
    - [Prelude] (this file): results, 64-bit integers, instants, tactics, lists;
    - [GoText]: [strings], [strconv]; [Sha256]: [crypto/sha256];
      [GoTime]: [time.RFC3339Nano] texts; [GoFloat]: [float64]; [Flag],
      [FlagTheorems]: package [flag], and that it reads a grammar of command
      lines;
    - [Netip], [NetipText], [NetipRange]: [net/netip], that texts of addresses
      read back, and that what is read is in range;
    - [Json], [JsonText], [JsonFuel], [JsonPrefix]: [encoding/json], that printed
      documents parse back, that the fuel is enough, and values read one by one
      from a text.

    The packages, one file each, with their theorems in a second one where they
    are long:
    - [Model] ([internal/model/model.go]): intents, canonical address lists,
      their equality and hash, the status of an intent;
    - [Address] ([internal/address/validation.go]): which addresses are public, with
      and without a zone;
    - [Api], [ApiText] ([internal/api]): wire types and their texts, generation
      ETags;
    - [Identity] ([internal/identity/identity.go], [workload.go]): devices from
      certificates; [Transport] ([transport.go], and the TLS settings of
      [controller.go] and [agent.go]); [Authorization] ([authorization.go]): the
      fleet's decisions;
    - [Store] ([internal/store]): the two tables as maps of rows, each statement
      a function on them, each operation of [store.SQLite] a program in a monad
      of transactions ([begin_tx], [tx_query], [tx_exec], [commit], ...);
      [Migrate]: opening a database, over tables with their columns;
    - [Controller] ([internal/controller/controller.go]): the handlers, over any
      store ([Class DesiredState], the Go interface);
    - [Publisher] ([internal/publisher/publisher.go]): [RunOnce] and [Run], over
      any store, writer and observer ([Class Writer], [Class Observer]);
    - [Dnswriter] ([internal/dnswriter/dnswriter.go]): the RFC 2136 writer and
      the observer;
    - [Agent] ([internal/agent/agent.go]): every function as a program of
      effects (files, requests, random bytes, the clock, waiting), a tree
      [Prog] whose nodes are the calls the code makes;
    - [Clock] ([internal/clock/clock.go]), [Cliutil] ([internal/cliutil/env.go]);
    - [Commands], [CommandOptions] ([cmd]): the three commands, from environment
      and arguments to the services they run.

    A Go method that changes state is a function from a state to an answer and a
    state; an [error] result is the [Err] case of [result].  Names are the
    source's; a record field that would clash carries its record's prefix.

    ** The store

    [StoreSpec] states the contract of [store.DesiredState] on a [Register]: a
    map of intents and a log of answered requests, without tables, JSON or SQL.
    [StoreCodec] and [StoreRefine] prove that every operation, run where no call
    fails, refines it ([call_refines]).  [StoreFaults] lets any database call
    fail, lose its reply or cut its rows short (a schedule of [Fault]s) and
    bounds what an operation can then do ([outcome]); the proof goes once over
    the programs' shape ([Faithful]).  [StoreSafety] is the register as a
    transition system, with the invariant [sound]; [StoreTheorems] has the
    properties: the contract, atomicity (with the one exception the code has: an
    expiry whose query is cut short withdraws the leases it saw), lost updates,
    retries, leases, marks, work lists.  [MigrateTheorems] shows, under the same
    faults, that opening an older database loses no intent and no response, and no
    precondition unless the inspection of the columns is cut short, and that the
    store then answers the older version's requests again ([opened_db] joins the
    two views of the tables).

    ** The system

    [System] interleaves any calls of controllers, under any faults, with one
    publisher that may crash between its list, write and mark calls.  The writer
    is used through its contract [Class WriterSpec]: a success leaves exactly the
    list's records, a failure the old or the new ones, no other name changes.  The
    main property is that a row whose current generation is marked
    origin-applied is what the zone serves.  [PublisherTheorems] proves that
    [RunOnce] of the code is a run of that machine, and that the polling loop,
    while nothing fails, reaches a run that leaves nothing unpublished: [Backlog]
    counts what is left, and a run that does not clear it works off a full batch.  [DnswriterTheorems] discharges the
    writer's contract for the RFC 2136 writer, over a server that applies an
    update atomically, and proves the observer exact over steady servers.
    [ControllerTheorems] puts the handlers on the SQLite store: repeated writes,
    status reads, and the status-then-write cycle.

    ** The agent

    [AgentHost] says what a host may answer to each effect (a failed write leaves
    any text in its file, a failed rename or removal may have happened) and
    carries weakest preconditions over [Prog].  [AgentTheorems]: an update is
    sent only as the state file records it, a restarted agent that finds the same
    addresses first sends the same request again, and an update makes at most two status requests and two
    endpoint updates.  [AgentLoop]: the traces of [Run] follow the schedule of
    renewals and doubling back-off, and end as it says.  [EndToEnd] puts the
    agent's requests, whole or lost on the way there or back, on the controller's
    handlers and the SQLite store with other calls in between: an update that
    returns a state is in the tables.  [Served] adds the system's machine: the
    publisher's polling loop then makes the zone serve it, unless a later
    generation has replaced it.

    ** Decisions and settings

    [Authorization] reads the fleet's decision token by token as the code does;
    [AuthorizationTheorems] shows that exactly the closed documents are accepted
    and exactly the decisions in force name a device.  [Commands] shows that a
    controller that starts authenticates devices in exactly one mode;
    [CommandOptions] lists every option with its variable and default, and shows
    that the commands read exactly these, or stop; [Clock]
    that the file clock keeps its last good reading and reports each change.

    ** Bounds

    A generation is an int64 that a call raises by at most two, so [few n]
    calls ([2 * n] below the largest int64) since the empty database cannot
    overflow it; theorems on histories count their calls and assume [few], and
    [EndToEnd] counts the calls between and during the agent's requests.  Parsers
    recurse on a fuel of the text's length, which every step shortens
    ([text_fuel]); that it is enough is part of the round trips and of
    [JsonFuel].  [Flag.Parse] has as much fuel as arguments ([parse_all_fuel]).
    [run_bound] counts the calls of one publication run; the runs that a backlog
    takes are bounded by twice the table's rows over the batch size.  [Agent.Run] takes a
    number of rounds, and [run_rounds] returns [None] when they are used up; its
    theorem holds for every number.  Instants are nanoseconds; where the code
    stores them as int64, theorems assume [int64_range].  Jitter and fractions of
    durations are float64 rounded at each operation (no fused multiply-add).

    ** What is a parameter

    Code outside the repository: chain verification and the Workload API
    (go-spiffe), TLS and certificate files, [url.Parse], the DNS library and the
    network of [dnswriter], the HTTP server around [ServeHTTP] and the agent's
    HTTP client, random bytes, the mapping of SQL texts to functions on the
    tables ([Store] and [Migrate] read the statements literally; SQLite itself is
    not modelled).  Theorems that compare addresses by their hash assume no
    collision of SHA-256 between the payloads compared.

    ** What is not modelled

    Deadlines and cancellation inside a call (a timed-out call is a failed one),
    signals, logging and the texts of error messages that go only to logs, the
    printed usage of package flag, the one-connection pool of the database, the
    [Close] methods, and the NixOS modules, tests and web site around the
    service. *)

From stdpp Require Export base tactics option list sorting gmap strings.
From Stdlib Require Export ZArith Lia Ascii.

#[export] Set Warnings "-clear-no-such-hyp".

(** ** Results: Go's (value, error) pairs *)

(** A Go function returning [(A, error)] that is used only through its error
    test: [Ok] carries the value of a nil error, [Err] the error. *)
Inductive result (E A : Type) : Type :=
| Ok (a : A)
| Err (e : E).
Arguments Ok {_ _} _.
Arguments Err {_ _} _.

#[export] Instance result_ret {E} : MRet (result E) := fun _ a => Ok a.
#[export] Instance result_bind {E} : MBind (result E) :=
  fun _ _ f r => match r with Ok a => f a | Err e => Err e end.
#[export] Instance result_fmap {E} : FMap (result E) :=
  fun _ _ f r => match r with Ok a => Ok (f a) | Err e => Err e end.
#[export] Instance result_eq_dec {E A} `{EqDecision E, EqDecision A} :
  EqDecision (result E A).
Proof. solve_decision. Defined.

Definition is_ok {E A} (r : result E A) : bool :=
  match r with Ok _ => true | Err _ => false end.

Definition map_err {E F A} (f : E -> F) (r : result E A) : result F A :=
  match r with Ok a => Ok a | Err e => Err (f e) end.

Definition of_option {E A} (e : E) (o : option A) : result E A :=
  match o with Some a => Ok a | None => Err e end.

(** ** Machine integers *)

(** int64 wrap-around. *)
Definition wrap64 (z : Z) : Z := ((z + 2 ^ 63) mod 2 ^ 64 - 2 ^ 63)%Z.

Definition int64_range (z : Z) : Prop := (- 2 ^ 63 <= z < 2 ^ 63)%Z.

#[export] Instance int64_range_dec z : Decision (int64_range z).
Proof. unfold int64_range. apply _. Defined.

Lemma wrap64_id z : int64_range z -> wrap64 z = z.
Proof.
  unfold int64_range, wrap64. intros H. rewrite Z.mod_small; lia.
Qed.

Lemma wrap64_range z : int64_range (wrap64 z).
Proof.
  unfold int64_range, wrap64.
  pose proof (Z.mod_pos_bound (z + 2 ^ 63) (2 ^ 64) ltac:(lia)). lia.
Qed.

Lemma wrap64_overflow : wrap64 (2 ^ 63 - 1 + 1) = (- 2 ^ 63)%Z.
Proof. reflexivity. Qed.

(** ** Time *)

(** A [time.Time] is its instant: nanoseconds since the Unix epoch, unbounded.
    Location and monotonic reading do not take part in any comparison the
    modelled code makes between an instant read from storage and another. *)
Definition time := Z.
Definition duration := Z.
Definition second : duration := (10 ^ 9)%Z.

(** [t.Before(u)], [t.After(u)], [t.Add(d)], [t.Sub(u)], [t.UnixNano()],
    [time.Unix(0, ns)], [t.IsZero()] (January 1, year 1, UTC). *)
Definition Before (t u : time) : bool := (t <? u)%Z.
Definition After (t u : time) : bool := (u <? t)%Z.
Definition Add (t : time) (d : duration) : time := (t + d)%Z.
Definition UnixNano (t : time) : Z := wrap64 t.
Definition UnixTime (ns : Z) : time := ns.
Definition IsZero (t : time) : bool := (t =? -62135596800 * 10 ^ 9)%Z.

(** ** Tactics *)

(** Split a boolean conjunction, disjunction or comparison in every hypothesis. *)
Ltac simp_bool :=
  repeat match goal with
  | H : (_ && _)%bool = true |- _ => apply andb_true_iff in H; destruct H
  | H : (_ || _)%bool = false |- _ => apply orb_false_iff in H; destruct H
  | H : negb _ = true |- _ => apply negb_true_iff in H
  | H : negb _ = false |- _ => apply negb_false_iff in H
  | H : Z.ltb _ _ = true |- _ => apply Z.ltb_lt in H
  | H : Z.ltb _ _ = false |- _ => apply Z.ltb_ge in H
  | H : Z.leb _ _ = true |- _ => apply Z.leb_le in H
  | H : Z.leb _ _ = false |- _ => apply Z.leb_gt in H
  | H : Z.eqb _ _ = true |- _ => apply Z.eqb_eq in H
  | H : Z.eqb _ _ = false |- _ => apply Z.eqb_neq in H
  | H : bool_decide _ = true |- _ => apply bool_decide_eq_true in H
  | H : bool_decide _ = false |- _ => apply bool_decide_eq_false in H
  end.

(** Case analysis on the outermost match or conditional of a hypothesis. *)
Ltac case_hyp H :=
  match type of H with
  | context [match ?x with _ => _ end] => let E := fresh "E" in destruct x eqn:E
  end.

(** ** Lists *)

Section lists.
Context {A : Type}.

Lemma existsb_elem_of `{EqDecision A} (x : A) l :
  existsb (fun y => bool_decide (x = y)) l = true <-> x ∈ l.
Proof.
  rewrite existsb_exists. setoid_rewrite <- list_elem_of_In.
  split.
  - intros (y & Hy & E). simp_bool. by subst.
  - intros Hx. exists x. split; [done|]. by apply bool_decide_eq_true.
Qed.

Lemma map_NoDup_inj {B} (f : A -> B) l :
  (forall x y, x ∈ l -> y ∈ l -> f x = f y -> x = y) -> NoDup l -> NoDup (f <$> l).
Proof.
  intros Hinj. induction 1 as [|x l Hx Hl IH]; simpl; constructor.
  - rewrite list_elem_of_fmap. intros (y & E & Hy).
    assert (x = y) as -> by (apply Hinj; set_solver). done.
  - apply IH. intros; apply Hinj; set_solver.
Qed.
End lists.

(** Sorting commutes with a map that keeps the order, and filters compose with it. *)
Section map_sort.
Context {A B : Type} (f : A -> B) (R : relation A) (S : relation B).
Context `{!RelDecision R, !RelDecision S} (HRS : forall x y, R x y <-> S (f x) (f y)).

Lemma list_merge_fmap l1 l2 : list_merge S (f <$> l1) (f <$> l2) = f <$> list_merge R l1 l2.
Proof.
  revert l2. induction l1 as [|x1 l1 IH1]; intros l2; [by destruct l2|].
  induction l2 as [|x2 l2 IH2]; [done|].
  change (f <$> x1 :: l1) with (f x1 :: (f <$> l1)) in *.
  change (f <$> x2 :: l2) with (f x2 :: (f <$> l2)).
  rewrite !list_merge_cons. destruct (decide (R x1 x2)) as [Hr|Hr].
  - rewrite decide_True by (by apply HRS). cbn. f_equal. apply (IH1 (x2 :: l2)).
  - rewrite decide_False by (by rewrite <- HRS). cbn. f_equal. exact IH2.
Qed.

#[local] Definition map_stack (st : list (option (list A))) : list (option (list B)) :=
  List.map (option_map (List.map f)) st.

Lemma merge_stack_fmap st :
  merge_stack S (map_stack st) = f <$> merge_stack R st.
Proof.
  induction st as [|[l|] st IH]; cbn; [done| |exact IH].
  rewrite <- list_merge_fmap. f_equal. exact IH.
Qed.

Lemma merge_list_to_stack_fmap st l :
  merge_list_to_stack S (map_stack st) (f <$> l)
  = map_stack (merge_list_to_stack R st l).
Proof.
  revert l. induction st as [|[l'|] st IH]; intros l; cbn; [done| |done].
  f_equal. rewrite <- IH, <- list_merge_fmap. done.
Qed.

Lemma merge_sort_fmap l : merge_sort S (f <$> l) = f <$> merge_sort R l.
Proof.
  unfold merge_sort.
  assert (forall st, merge_sort_aux S (map_stack st) (f <$> l)
          = f <$> merge_sort_aux R st l) as H; [|apply (H [])].
  induction l as [|x l IH]; intros st; cbn; [apply merge_stack_fmap|].
  rewrite <- IH. f_equal. apply (merge_list_to_stack_fmap st [x]).
Qed.

End map_sort.

Lemma filter_fmap {A B} (f : A -> B) (p : A -> bool) (q : B -> bool) l :
  (forall x, x ∈ l -> q (f x) = p x) -> List.filter q (f <$> l) = f <$> List.filter p l.
Proof.
  induction l as [|x l IH]; intros H; csimpl; [done|].
  rewrite H by set_solver. rewrite IH by (intros; apply H; set_solver). by destruct (p x).
Qed.

(** Running a fallible function over a list, left to right, stopping at the
    first error: Go's [for ... { v, err := f(x); if err != nil { return err } }]. *)
Fixpoint map_result {E A B} (f : A -> result E B) (l : list A) : result E (list B) :=
  match l with
  | [] => Ok []
  | x :: l' =>
      match f x with
      | Err e => Err e
      | Ok y => match map_result f l' with Ok ys => Ok (y :: ys) | Err e => Err e end
      end
  end.

Lemma map_result_Ok {E A B} (f : A -> result E B) (g : A -> B) l :
  (forall x, x ∈ l -> f x = Ok (g x)) -> map_result f l = Ok (g <$> l).
Proof.
  induction l as [|x l IH]; intros H; simpl; [done|].
  rewrite H by set_solver. rewrite IH; [done|]. intros; apply H; set_solver.
Qed.

Lemma map_result_inverse {E A B} (f : A -> result E B) (h : B -> A) l :
  (forall y, y ∈ l -> f (h y) = Ok y) -> map_result f (h <$> l) = Ok l.
Proof.
  induction l as [|y l IH]; intros H; csimpl; [done|].
  rewrite H by set_solver. rewrite IH; [done|]. intros; apply H; set_solver.
Qed.

Lemma last_cons_default {A} (x : A) l d : List.last (x :: l) d = List.last l x.
Proof.
  revert x d. induction l as [|y l IH]; intros x d; [done|].
  change (List.last (x :: y :: l) d) with (List.last (y :: l) d). by rewrite !IH.
Qed.
