(* ===== verification/GoText.v ===== *)
(** * Go strings, [strings] and [strconv]

    Go strings are byte strings; a [string] here is a sequence of bytes
    ([ascii] being 8 bits).  This file models the functions of the packages
    [strings] and [strconv] the program calls, with the lemmas that make
    printing and parsing of integers inverse to each other. *)

From S2P Require Export Prelude.
From Stdlib Require Import String.
#[local] Open Scope Z_scope.

(** ** Bytes *)

Definition byte (n : nat) : ascii := ascii_of_nat n.
Definition code (c : ascii) : Z := Z.of_N (N_of_ascii c).
(** The one-byte string holding the double quote. *)
Definition dquote : ascii := byte 34.
Definition dq : string := String dquote "".

Definition is_digit (c : ascii) : bool := (48 <=? code c) && (code c <=? 57).
Definition is_upper (c : ascii) : bool := (65 <=? code c) && (code c <=? 90).
Definition is_lower (c : ascii) : bool := (97 <=? code c) && (code c <=? 122).
Definition digit_value (c : ascii) : Z := code c - 48.
Definition digit_char (d : Z) : ascii := ascii_of_N (Z.to_N (d + 48)).

Fixpoint string_forallb (p : ascii -> bool) (s : string) : bool :=
  match s with
  | EmptyString => true
  | String c s' => p c && string_forallb p s'
  end.

Fixpoint string_map (f : ascii -> ascii) (s : string) : string :=
  match s with
  | EmptyString => ""
  | String c s' => String (f c) (string_map f s')
  end.

(** ** Package strings *)

(** [strings.HasPrefix], [strings.HasSuffix], [strings.TrimPrefix],
    [strings.TrimSuffix]. *)
Fixpoint strip_prefix (p s : string) : option string :=
  match p, s with
  | EmptyString, _ => Some s
  | String c p', String d s' => if Ascii.eqb c d then strip_prefix p' s' else None
  | String _ _, EmptyString => None
  end.

Definition HasPrefix (s p : string) : bool :=
  match strip_prefix p s with Some _ => true | None => false end.

Definition TrimPrefix (s p : string) : string := default s (strip_prefix p s).

Fixpoint strip_suffix (x s : string) : option string :=
  if String.eqb x s then Some ""%string else
  match s with
  | EmptyString => None
  | String c s' => String c <$> strip_suffix x s'
  end.

Definition HasSuffix (s x : string) : bool :=
  match strip_suffix x s with Some _ => true | None => false end.

Definition TrimSuffix (s x : string) : string := default s (strip_suffix x s).

(** The UTF-8 encodings of the code points [unicode.IsSpace] accepts. *)
Definition bytes (l : list nat) : string := string_of_list_ascii (byte <$> l).

Definition space_runes : list string :=
  bytes <$>
  ([[9]; [10]; [11]; [12]; [13]; [32]; [194; 133]; [194; 160]; [225; 154; 128];
    [226; 128; 128]; [226; 128; 129]; [226; 128; 130]; [226; 128; 131];
    [226; 128; 132]; [226; 128; 133]; [226; 128; 134]; [226; 128; 135];
    [226; 128; 136]; [226; 128; 137]; [226; 128; 138]; [226; 128; 168];
    [226; 128; 169]; [226; 128; 175]; [226; 129; 159]; [227; 128; 128]])%nat.

(** Remove one leading (trailing) space rune, if there is one. *)
Fixpoint first_strip (strip : string -> string -> option string)
    (rs : list string) (s : string) : option string :=
  match rs with
  | [] => None
  | r :: rs' =>
      match strip r s with Some s' => Some s' | None => first_strip strip rs' s end
  end.

Fixpoint trim_with (strip : string -> string -> option string)
    (fuel : nat) (s : string) : string :=
  match fuel with
  | O => s
  | S fuel' =>
      match first_strip strip space_runes s with
      | Some s' => trim_with strip fuel' s'
      | None => s
      end
  end.

(** [strings.TrimSpace]: each round removes at least one byte. *)
Definition TrimSpace (s : string) : string :=
  let s' := trim_with strip_prefix (String.length s) s in
  trim_with strip_suffix (String.length s') s'.

(** [strings.ToLower] on ASCII text. *)
Definition lower (c : ascii) : ascii :=
  if is_upper c then ascii_of_N (N_of_ascii c + 32) else c.
Definition ToLower : string -> string := string_map lower.

(** [strings.Split(s, sep)] for a one-byte separator. *)
Fixpoint Split (s : string) (sep : ascii) : list string :=
  match s with
  | EmptyString => [""%string]
  | String c s' =>
      if Ascii.eqb c sep then ""%string :: Split s' sep
      else match Split s' sep with
           | p :: ps => String c p :: ps
           | [] => [String c ""]
           end
  end.

(** [strings.Join]. *)
Fixpoint Join (l : list string) (sep : string) : string :=
  match l with
  | [] => ""
  | [x] => x
  | x :: l' => x +:+ sep +:+ Join l' sep
  end.

(** Split at the first byte that satisfies [p]: what stands before it and the
    string from it on. *)
Fixpoint span (p : ascii -> bool) (s : string) : string * string :=
  match s with
  | EmptyString => (""%string, ""%string)
  | String c s' =>
      if p c then let '(a, b) := span p s' in (String c a, b) else (""%string, s)
  end.

(** ** Package strconv, base 10 *)

(** Decimal digits of a non-negative number, in front of [acc]. *)
Fixpoint format_digits (fuel : nat) (z : Z) (acc : string) : string :=
  match fuel with
  | O => acc
  | S fuel' =>
      let acc' := String (digit_char (z mod 10)) acc in
      if z <? 10 then acc' else format_digits fuel' (z / 10) acc'
  end.

Definition FormatUint (z : Z) : string :=
  format_digits (S (Z.to_nat (Z.log2 z))) z "".

(** [fmt.Sprintf] with the verb d, and [strconv.FormatInt(z, 10)]. *)
Definition FormatInt (z : Z) : string :=
  if z <? 0 then String "-" (FormatUint (- z)) else FormatUint z.

(** The value of a digit string in front of which [acc] was read. *)
Fixpoint parse_digits (acc : Z) (s : string) : option Z :=
  match s with
  | EmptyString => Some acc
  | String c s' =>
      if is_digit c then parse_digits (acc * 10 + digit_value c) s' else None
  end.

(** [strconv.ParseUint(s, 10, bits)]. *)
Definition ParseUint (bits : Z) (s : string) : option Z :=
  match s with
  | EmptyString => None
  | _ => match parse_digits 0 s with
         | Some v => if v <? 2 ^ bits then Some v else None
         | None => None
         end
  end.

(** [strconv.ParseInt(s, 10, 64)]. *)
Definition ParseInt (s : string) : option Z :=
  let '(neg, digits) :=
    match s with
    | String c s' =>
        if Ascii.eqb c "+" then (false, s')
        else if Ascii.eqb c "-" then (true, s')
        else (false, s)
    | EmptyString => (false, s)
    end in
  match ParseUint 64 digits with
  | None => None
  | Some v =>
      if neg then if v <=? 2 ^ 63 then Some (- v) else None
      else if v <? 2 ^ 63 then Some v else None
  end.

(** [strconv.ParseBool]. *)
Definition ParseBool (s : string) : option bool :=
  if bool_decide (s ∈ ["1"; "t"; "T"; "TRUE"; "true"; "True"]%string) then Some true
  else if bool_decide (s ∈ ["0"; "f"; "F"; "FALSE"; "false"; "False"]%string)
  then Some false else None.

(** [hex.EncodeToString] of byte values. *)
Definition hex_char (d : Z) : ascii :=
  if d <? 10 then digit_char d else ascii_of_N (Z.to_N (d + 87)).

Fixpoint hex_encode (l : list Z) : string :=
  match l with
  | [] => ""
  | b :: l' => String (hex_char (b / 16)) (String (hex_char (b mod 16)) (hex_encode l'))
  end.

(** ** Lemmas: appending *)

#[global] Arguments String.append !_ _ /.

Lemma app_assoc_s a b c : (a +:+ b) +:+ c = a +:+ b +:+ c.
Proof. induction a as [|x a IH]; [done|]. cbn. by rewrite <- IH. Qed.

Lemma app_nil_r_s a : a +:+ "" = a.
Proof. induction a as [|x a IH]; [done|]. cbn. by rewrite <- IH at 2. Qed.

Lemma app_cons_s c a b : String c a +:+ b = String c (a +:+ b).
Proof. done. Qed.

Lemma length_app_s a b : String.length (a +:+ b) = (String.length a + String.length b)%nat.
Proof. induction a as [|x a IH]; [done|]. cbn. by rewrite <- IH. Qed.

Lemma app_eq_nil_s a b : a +:+ b = ""%string -> a = ""%string /\ b = ""%string.
Proof. by destruct a, b. Qed.

Create Rewrite HintDb gotext.
#[export] Hint Rewrite app_assoc_s app_nil_r_s app_cons_s length_app_s : gotext.

Lemma strip_prefix_app p s : strip_prefix p (p +:+ s) = Some s.
Proof.
  induction p as [|c p IH]; [done|]. cbn. by rewrite Ascii.eqb_refl.
Qed.

Lemma strip_prefix_Some p s r : strip_prefix p s = Some r -> s = p +:+ r.
Proof.
  revert s. induction p as [|c p IH]; intros [|d s]; cbn; try by intros [= ->].
  destruct (Ascii.eqb_spec c d) as [->|]; [|done]. intros H.
  cbn. f_equal. by apply IH.
Qed.

Lemma strip_suffix_Some x s r : strip_suffix x s = Some r -> s = r +:+ x.
Proof.
  revert r. induction s as [|c s IH]; intros r; cbn.
  - destruct (String.eqb_spec x ""); [|done]. intros [= <-]. by subst.
  - destruct (String.eqb_spec x (String c s)); [intros [= <-]; by subst|].
    destruct (strip_suffix x s) as [r'|]; [|done]. intros [= <-].
    cbn. f_equal. by apply IH.
Qed.

Lemma strip_suffix_app x s : strip_suffix x (s +:+ x) = Some s.
Proof.
  induction s as [|c s IH]; cbn.
  - destruct x; cbn; [done|]. by rewrite Ascii.eqb_refl, String.eqb_refl.
  - destruct (String.eqb_spec x (String c (s +:+ x))) as [E|]; [exfalso|].
    + apply (f_equal String.length) in E. cbn in E.
      rewrite length_app_s in E. lia.
    + change (String.append s x) with (s +:+ x). by rewrite IH.
Qed.

Lemma HasPrefix_true s p : HasPrefix s p = true <-> exists r, s = p +:+ r.
Proof.
  unfold HasPrefix. split.
  - destruct (strip_prefix p s) as [r|] eqn:E; [|done]. intros _.
    exists r. by apply strip_prefix_Some.
  - intros [r ->]. by rewrite strip_prefix_app.
Qed.

Lemma string_forallb_app p a b :
  string_forallb p (a +:+ b) = string_forallb p a && string_forallb p b.
Proof.
  induction a as [|c a IH]; [done|]. cbn. rewrite <- andb_assoc. by rewrite <- IH.
Qed.

(** ** Lemmas: characters and digits *)

Lemma code_range c : 0 <= code c < 256.
Proof. unfold code. pose proof (N_ascii_bounded c). lia. Qed.

Lemma code_ascii_of_N n : (n < 256)%N -> code (ascii_of_N n) = Z.of_N n.
Proof. intros H. unfold code. by rewrite N_ascii_embedding. Qed.

Lemma code_inj c d : code c = code d -> c = d.
Proof.
  unfold code. intros H. rewrite <- (ascii_N_embedding c), <- (ascii_N_embedding d).
  f_equal. lia.
Qed.

Lemma digit_char_code d : 0 <= d < 10 -> code (digit_char d) = d + 48.
Proof. intros H. unfold digit_char. rewrite code_ascii_of_N; lia. Qed.

Lemma is_digit_char d : 0 <= d < 10 -> is_digit (digit_char d) = true.
Proof. intros H. unfold is_digit. rewrite digit_char_code by lia. lia. Qed.

Lemma digit_value_char d : 0 <= d < 10 -> digit_value (digit_char d) = d.
Proof. intros H. unfold digit_value. rewrite digit_char_code by lia. lia. Qed.

Lemma digit_char_value c : is_digit c = true -> digit_char (digit_value c) = c.
Proof.
  unfold is_digit. intros H. simp_bool. apply code_inj.
  rewrite digit_char_code; unfold digit_value; lia.
Qed.

Lemma format_digits_parse fuel z acc :
  0 <= z < 10 ^ Z.of_nat fuel ->
  parse_digits 0 (format_digits fuel z acc) = parse_digits z acc.
Proof.
  revert z acc. induction fuel as [|fuel IH]; intros z acc H.
  { replace z with 0 by lia. done. }
  assert (0 <= z mod 10 < 10) by (apply Z.mod_pos_bound; lia).
  cbn [format_digits]. destruct (Z.ltb_spec z 10).
  - cbn [parse_digits]. rewrite is_digit_char, digit_value_char by done.
    f_equal. rewrite Z.mod_small; lia.
  - rewrite IH.
    + cbn [parse_digits]. rewrite is_digit_char, digit_value_char by done.
      f_equal. pose proof (Z.div_mod z 10). lia.
    + rewrite Nat2Z.inj_succ, Z.pow_succ_r in H by lia.
      split; [apply Z.div_pos; lia|]. apply Z.div_lt_upper_bound; lia.
Qed.

Lemma log2_fuel z : 0 <= z -> z < 10 ^ Z.of_nat (S (Z.to_nat (Z.log2 z))).
Proof.
  intros Hz. pose proof (Z.log2_nonneg z).
  rewrite Nat2Z.inj_succ, Z2Nat.id by done.
  destruct (Z.eq_dec z 0) as [->|]; [done|].
  pose proof (Z.log2_spec z ltac:(lia)).
  assert (2 ^ Z.succ (Z.log2 z) <= 10 ^ Z.succ (Z.log2 z))
    by (apply Z.pow_le_mono_l; lia).
  lia.
Qed.

Lemma FormatUint_parse z : 0 <= z -> parse_digits 0 (FormatUint z) = Some z.
Proof.
  intros Hz. unfold FormatUint.
  rewrite format_digits_parse; [done|]. pose proof (log2_fuel z Hz). lia.
Qed.

Lemma format_digits_digits fuel z acc :
  0 <= z -> string_forallb is_digit acc = true ->
  string_forallb is_digit (format_digits fuel z acc) = true.
Proof.
  revert z acc. induction fuel as [|fuel IH]; intros z acc Hz Hacc; [done|].
  assert (0 <= z mod 10 < 10) by (apply Z.mod_pos_bound; lia).
  cbn [format_digits]. destruct (z <? 10).
  - cbn [string_forallb]. by rewrite is_digit_char, Hacc.
  - apply IH; [apply Z.div_pos; lia|]. cbn [string_forallb].
    by rewrite is_digit_char, Hacc.
Qed.

Lemma FormatUint_digits z : 0 <= z -> string_forallb is_digit (FormatUint z) = true.
Proof. intros. by apply format_digits_digits. Qed.

(** The leading digit of a positive number is not zero. *)
Lemma format_digits_head fuel z acc :
  0 < z < 10 ^ Z.of_nat fuel ->
  exists c s, format_digits fuel z acc = String c s /\ is_digit c = true /\ code c <> 48.
Proof.
  revert z acc. induction fuel as [|fuel IH]; intros z acc H; [lia|].
  assert (0 <= z mod 10 < 10) by (apply Z.mod_pos_bound; lia).
  cbn [format_digits]. destruct (Z.ltb_spec z 10).
  - eexists _, _. split; [done|]. rewrite is_digit_char, digit_char_code by done.
    rewrite Z.mod_small by lia. split; [done|lia].
  - apply IH. rewrite Nat2Z.inj_succ, Z.pow_succ_r in H by lia.
    split; [apply Z.div_str_pos; lia|]. apply Z.div_lt_upper_bound; lia.
Qed.

Lemma FormatUint_head z :
  0 < z ->
  exists c s, FormatUint z = String c s /\ is_digit c = true /\ code c <> 48.
Proof.
  intros Hz. apply format_digits_head. pose proof (log2_fuel z). lia.
Qed.

Lemma FormatUint_nonempty z : FormatUint z <> ""%string.
Proof.
  unfold FormatUint. cbn [format_digits]. destruct (z <? 10); [done|].
  generalize (Z.to_nat (Z.log2 z)) as f, (z / 10) as y.
  assert (forall f y c a, format_digits f y (String c a) <> ""%string) as H; [|auto].
  induction f as [|f IH]; intros y c a; [done|].
  cbn [format_digits]. destruct (y <? 10); [done|apply IH].
Qed.

Lemma FormatUint_inj x y : 0 <= x -> 0 <= y -> FormatUint x = FormatUint y -> x = y.
Proof.
  intros Hx Hy E. apply (f_equal (parse_digits 0)) in E.
  rewrite !FormatUint_parse in E by done. by injection E.
Qed.

Lemma ParseUint_digits bits s v :
  ParseUint bits s = Some v -> parse_digits 0 s = Some v /\ v < 2 ^ bits.
Proof.
  unfold ParseUint. destruct s; [done|]. destruct (parse_digits 0 _) as [w|]; [|done].
  destruct (Z.ltb_spec w (2 ^ bits)); [|done]. by intros [= <-].
Qed.

Lemma ParseUint_Format bits z :
  0 <= z < 2 ^ bits -> ParseUint bits (FormatUint z) = Some z.
Proof.
  intros H. unfold ParseUint. pose proof (FormatUint_nonempty z).
  pose proof (FormatUint_parse z ltac:(lia)) as E.
  destruct (FormatUint z); [done|]. rewrite E.
  destruct (Z.ltb_spec z (2 ^ bits)); [done|lia].
Qed.

(** Printing an int64 and reading it back gives it again. *)
Lemma ParseInt_Format z : int64_range z -> ParseInt (FormatInt z) = Some z.
Proof.
  unfold int64_range, ParseInt, FormatInt. intros Hz.
  destruct (Z.ltb_spec z 0).
  - cbn -[ParseUint FormatUint]. rewrite ParseUint_Format by lia.
    destruct (Z.leb_spec (- z) (2 ^ 63)); [f_equal; lia|lia].
  - assert (ParseUint 64 (FormatUint z) = Some z) as E by (apply ParseUint_Format; lia).
    pose proof (FormatUint_digits z ltac:(lia)) as Hd.
    destruct (FormatUint z) as [|c s] eqn:Ez; [by destruct (FormatUint_nonempty z)|].
    cbn [string_forallb] in Hd. apply andb_true_iff in Hd as [Hc _].
    destruct (Ascii.eqb_spec c "+") as [->|]; [done|].
    destruct (Ascii.eqb_spec c "-") as [->|]; [done|].
    rewrite E. destruct (Z.ltb_spec z (2 ^ 63)); [done|lia].
Qed.

(** Digits determine the value, and a canonical digit string is its printing. *)
Lemma parse_digits_nonneg acc s v : 0 <= acc -> parse_digits acc s = Some v -> 0 <= v.
Proof.
  revert acc. induction s as [|c s IH]; intros acc Ha; cbn; [by intros [= <-]|].
  destruct (is_digit c) eqn:E; [|done]. apply IH.
  unfold is_digit, digit_value in *. simp_bool. lia.
Qed.

Lemma parse_digits_Some acc s :
  string_forallb is_digit s = true -> is_Some (parse_digits acc s).
Proof.
  revert acc. induction s as [|c s IH]; intros acc; cbn; [by eexists|].
  intros H. apply andb_true_iff in H as [-> H]. by apply IH.
Qed.

Lemma string_forallb_digits acc s v :
  parse_digits acc s = Some v -> string_forallb is_digit s = true.
Proof.
  revert acc. induction s as [|c s IH]; intros acc; cbn; [done|].
  destruct (is_digit c); [|done]. apply IH.
Qed.

Lemma parse_digits_bound acc s v :
  parse_digits acc s = Some v ->
  acc * 10 ^ Z.of_nat (String.length s) <= v
  < (acc + 1) * 10 ^ Z.of_nat (String.length s).
Proof.
  revert acc. induction s as [|c s IH]; intros acc.
  { cbn. intros [= <-]. lia. }
  cbn [parse_digits String.length]. destruct (is_digit c) eqn:E; [|done].
  intros H%IH. rewrite Nat2Z.inj_succ, Z.pow_succ_r by lia.
  unfold is_digit, digit_value in *. simp_bool.
  set (P := 10 ^ Z.of_nat (String.length s)) in *.
  assert (0 < P) by (apply Z.pow_pos_nonneg; lia). nia.
Qed.

Lemma parse_digits_inj acc acc' s s' v :
  String.length s = String.length s' ->
  parse_digits acc s = Some v -> parse_digits acc' s' = Some v -> acc = acc' /\ s = s'.
Proof.
  revert acc acc' s'. induction s as [|c s IH]; intros acc acc' [|c' s'] Hl Hs Hs';
    try discriminate; cbn in *; [split; congruence|].
  destruct (is_digit c) eqn:Ec, (is_digit c') eqn:Ec'; try discriminate.
  destruct (IH _ _ s' ltac:(lia) Hs Hs') as [Ha ->].
  unfold is_digit, digit_value in *. simp_bool.
  assert (acc = acc') by lia. split; [done|]. f_equal. apply code_inj. lia.
Qed.

(** A digit string with a non-zero leading digit is the printing of its value. *)
Lemma FormatUint_canonical c s v :
  code c <> 48 -> parse_digits 0 (String c s) = Some v -> FormatUint v = String c s.
Proof.
  intros Hc Hp.
  assert (0 < v) as Hv.
  { pose proof Hp as Hp'. cbn in Hp'. destruct (is_digit c) eqn:E; [|done].
    apply parse_digits_bound in Hp'. unfold is_digit, digit_value in *. simp_bool.
    assert (0 < 10 ^ Z.of_nat (String.length s)) by (apply Z.pow_pos_nonneg; lia). nia. }
  destruct (FormatUint_head v Hv) as (c' & s' & E' & _ & Hc').
  pose proof (FormatUint_parse v ltac:(lia)) as Hp'. rewrite E' in Hp' |- *.
  assert (forall c s, code c <> 48 -> parse_digits 0 (String c s) = Some v ->
    10 ^ Z.of_nat (String.length s) <= v < 10 ^ Z.of_nat (S (String.length s))) as Hb.
  { clear. intros c s Hc H. cbn in H. destruct (is_digit c) eqn:E; [|done].
    apply parse_digits_bound in H. unfold is_digit, digit_value in *. simp_bool.
    rewrite Nat2Z.inj_succ, Z.pow_succ_r by lia.
    set (P := 10 ^ Z.of_nat (String.length s)) in *.
    assert (0 < P) by (apply Z.pow_pos_nonneg; lia). nia. }
  pose proof (Hb _ _ Hc Hp) as B. pose proof (Hb _ _ Hc' Hp') as B'.
  assert (String.length s' = String.length s) as Hl.
  { destruct (Nat.lt_trichotomy (String.length s') (String.length s)) as [L|[L|L]]; [|done|].
    - assert (10 ^ Z.of_nat (S (String.length s')) <= 10 ^ Z.of_nat (String.length s))
        by (apply Z.pow_le_mono_r; lia). lia.
    - assert (10 ^ Z.of_nat (S (String.length s)) <= 10 ^ Z.of_nat (String.length s'))
        by (apply Z.pow_le_mono_r; lia). lia. }
  eapply parse_digits_inj; [|exact Hp'|exact Hp]. cbn. by rewrite Hl.
Qed.

(** ** Split and Join *)

Definition free_of (sep : ascii) : string -> bool :=
  string_forallb (fun c => negb (Ascii.eqb c sep)).

Lemma Split_cons_ne c s sep :
  Ascii.eqb c sep = false ->
  exists p ps, Split s sep = p :: ps /\ Split (String c s) sep = String c p :: ps.
Proof.
  intros E. cbn. rewrite E. destruct (Split s sep) as [|p ps] eqn:Es; [|by exists p, ps].
  destruct s as [|d s]; [done|]. cbn in Es. case_match; [done|by case_match].
Qed.

Lemma Split_free s sep : Forall (fun p => free_of sep p = true) (Split s sep).
Proof.
  induction s as [|c s IH]; [by repeat constructor|].
  destruct (Ascii.eqb c sep) eqn:E; [cbn; rewrite E; by constructor|].
  destruct (Split_cons_ne c s sep E) as (p & ps & Es & ->). rewrite Es in IH.
  apply Forall_cons in IH as [Hp Hps]. constructor; [|done]. unfold free_of in *. cbn. by rewrite E.
Qed.

Lemma Join_Split s sep : Join (Split s sep) (String sep "") = s.
Proof.
  induction s as [|c s IH]; [done|].
  destruct (Ascii.eqb c sep) eqn:E.
  - cbn [Split]. rewrite E. apply Ascii.eqb_eq in E as ->.
    destruct (Split s sep) as [|p ps] eqn:Es; [by destruct s; [|cbn in Es; repeat case_match]|].
    cbn [Join] in *. rewrite IH. done.
  - destruct (Split_cons_ne c s sep E) as (p & ps & Es & ->). rewrite Es in IH.
    destruct ps as [|q ps]; cbn [Join] in *; [by rewrite IH|].
    change (String c p +:+ String sep "" +:+ Join (q :: ps) (String sep "") = String c s).
    rewrite app_cons_s. f_equal. exact IH.
Qed.

Lemma Split_free_id s sep : free_of sep s = true -> Split s sep = [s].
Proof.
  induction s as [|c s IH]; [done|]. unfold free_of. cbn. intros H. simp_bool.
  rewrite H, IH by done. done.
Qed.

Lemma Split_app_sep s sep r :
  free_of sep s = true -> Split (s +:+ String sep r) sep = s :: Split r sep.
Proof.
  induction s as [|c s IH]; unfold free_of; intros H.
  - cbn. by rewrite Ascii.eqb_refl.
  - cbn in H. simp_bool. change (String c s +:+ String sep r) with (String c (s +:+ String sep r)).
    cbn [Split]. rewrite H, IH by done. done.
Qed.

Lemma Split_Join l sep :
  l <> [] -> Forall (fun p => free_of sep p = true) l -> Split (Join l (String sep "")) sep = l.
Proof.
  intros Hl H. induction H as [|p l Hp _ IH]; [done|].
  destruct l as [|q l]; [by apply Split_free_id|].
  etrans; [exact (Split_app_sep p sep (Join (q :: l) (String sep "")) Hp)|]. f_equal. by apply IH.
Qed.

(** ** Ends of strings *)

Fixpoint last_char (s : string) : option ascii :=
  match s with
  | EmptyString => None
  | String c EmptyString => Some c
  | String _ r => last_char r
  end.

Lemma append_inj_l a b c : a +:+ b = a +:+ c -> b = c.
Proof. induction a as [|x a IH]; [done|]. intros [= E]. by apply IH. Qed.

Lemma last_char_app a b : b <> ""%string -> last_char (a +:+ b) = last_char b.
Proof.
  intros Hb. induction a as [|c a IH]; [done|].
  change (String c a +:+ b) with (String c (a +:+ b)). cbn [last_char]. rewrite IH.
  destruct (a +:+ b) eqn:E; [|done]. apply app_eq_nil_s in E as [_ ?]. done.
Qed.

Lemma trim_with_id strip fuel s : first_strip strip space_runes s = None -> trim_with strip fuel s = s.
Proof. intros H. destruct fuel; cbn [trim_with]; [done|]. by rewrite H. Qed.

Lemma first_strip_suffix_None rs s c :
  last_char s = Some c ->
  forallb (fun r => match last_char r with Some d => negb (Ascii.eqb d c) | None => false end) rs = true ->
  first_strip strip_suffix rs s = None.
Proof.
  intros Hs. induction rs as [|r rs IH]; [done|]. cbn [forallb first_strip]. intros H. simp_bool.
  destruct (strip_suffix r s) as [t|] eqn:E; [|by apply IH]. exfalso.
  apply strip_suffix_Some in E as ->. destruct r as [|d r]; [done|].
  rewrite last_char_app in Hs by done. rewrite Hs in *. simp_bool.
  by rewrite Ascii.eqb_refl in *.
Qed.

(** Quoted text has nothing to trim. *)
Lemma TrimSpace_quoted x : TrimSpace (dq +:+ x +:+ dq) = dq +:+ x +:+ dq.
Proof.
  unfold TrimSpace.
  rewrite (trim_with_id strip_prefix) by reflexivity.
  apply trim_with_id, (first_strip_suffix_None _ _ dquote); [|reflexivity].
  rewrite <- app_assoc_s. by rewrite last_char_app.
Qed.

(** What [span] takes of any text, and of one that ends in a known place. *)
Lemma span_spec p s a b : span p s = (a, b) -> s = a +:+ b /\ string_forallb p a = true.
Proof.
  revert a b. induction s as [|c s IH]; intros a b; cbn [span]; [by intros [= <- <-]|].
  destruct (p c) eqn:Ec; [|by intros [= <- <-]]. destruct (span p s) as [x y]. intros [= <- <-].
  destruct (IH x y eq_refl) as [-> Hx]. cbn. by rewrite Ec, Hx.
Qed.

Lemma span_first p s a c b : span p s = (a, String c b) -> p c = false.
Proof.
  revert a. induction s as [|d s IH]; intros a; cbn [span]; [done|].
  destruct (p d) eqn:Ed; [|by intros [= <- <- <-]]. destruct (span p s) as [x y]. intros [= <- ->]. by apply (IH x).
Qed.

Lemma span_app p a b :
  string_forallb p a = true ->
  match b with EmptyString => True | String c _ => p c = false end ->
  span p (a +:+ b) = (a, b).
Proof.
  intros Ha Hb. induction a as [|c a IH]; cbn.
  - destruct b; cbn; [done|]. by rewrite Hb.
  - cbn in Ha. apply andb_true_iff in Ha as [-> Ha].
    change (String.append a b) with (a +:+ b). by rewrite IH.
Qed.
