(* ===== verification/Sha256.v ===== *)
(** * crypto/sha256

    [sha256.Sum256] on a byte string (FIPS 180-4), used by
    [model.AddressesHash].  Words are 32-bit integers as [Z]. *)

From S2P Require Export GoText.
From Stdlib Require Import String.
#[local] Open Scope Z_scope.

Definition w32 (z : Z) : Z := Z.land z 0xffffffff.
Definition add32 (x y : Z) : Z := w32 (x + y).
Definition rotr (n x : Z) : Z :=
  Z.lor (Z.shiftr x n) (w32 (Z.shiftl x (32 - n))).
Definition not32 (x : Z) : Z := Z.lxor x 0xffffffff.

Definition ch (x y z : Z) : Z := Z.lxor (Z.land x y) (Z.land (not32 x) z).
Definition maj (x y z : Z) : Z :=
  Z.lxor (Z.lxor (Z.land x y) (Z.land x z)) (Z.land y z).
Definition bsig0 (x : Z) : Z := Z.lxor (Z.lxor (rotr 2 x) (rotr 13 x)) (rotr 22 x).
Definition bsig1 (x : Z) : Z := Z.lxor (Z.lxor (rotr 6 x) (rotr 11 x)) (rotr 25 x).
Definition ssig0 (x : Z) : Z := Z.lxor (Z.lxor (rotr 7 x) (rotr 18 x)) (Z.shiftr x 3).
Definition ssig1 (x : Z) : Z := Z.lxor (Z.lxor (rotr 17 x) (rotr 19 x)) (Z.shiftr x 10).

(** The constants: the first 32 fractional bits of the cube roots of the first 64
    primes, and of the square roots of the first 8. *)
Definition divides_any (l : list nat) (n : nat) : bool := existsb (fun p => (n mod p =? 0)%nat) l.

Definition primes : list nat :=
  foldl (fun found n => if divides_any found n then found else found ++ [n]) [] (seq 2 310).

(** The integer cube root below [2 ^ bits], bit by bit. *)
Fixpoint cube_root (bits : nat) (z acc : Z) : Z :=
  match bits with
  | O => acc
  | S b => let try := acc + 2 ^ Z.of_nat b in cube_root b z (if try ^ 3 <=? z then try else acc)
  end.

Definition K256 : list Z :=
  Eval vm_compute in
    (fun p => w32 (cube_root 36 (Z.of_nat p * 2 ^ 96) 0)) <$> take 64 primes.

Definition H256 : list Z :=
  Eval vm_compute in (fun p => w32 (Z.sqrt (Z.of_nat p * 2 ^ 64))) <$> take 8 primes.

(** The padded message: 0x80, zeros, the bit length on 8 bytes. *)
Fixpoint be_bytes (n : nat) (z : Z) : list Z :=
  match n with
  | O => []
  | S n' => be_bytes n' (Z.shiftr z 8) ++ [Z.land z 0xff]
  end.

Definition sha_pad (msg : list Z) : list Z :=
  let len := List.length msg in
  let zeros := Z.to_nat ((55 - Z.of_nat len) mod 64) in
  msg ++ [0x80] ++ replicate zeros 0 ++ be_bytes 8 (8 * Z.of_nat len).

Fixpoint be_words (l : list Z) : list Z :=
  match l with
  | a :: b :: c :: d :: l' =>
      Z.lor (Z.shiftl a 24) (Z.lor (Z.shiftl b 16) (Z.lor (Z.shiftl c 8) d)) :: be_words l'
  | _ => []
  end.

(** The message schedule: [ws] holds the last sixteen words, oldest first. *)
Fixpoint schedule (n : nat) (ws : list Z) : list Z :=
  match n with
  | O => []
  | S n' =>
      let w t := nth t ws 0 in
      let next := add32 (add32 (ssig1 (w 14%nat)) (w 9%nat)) (add32 (ssig0 (w 1%nat)) (w 0%nat)) in
      w 0%nat :: schedule n' (tail ws ++ [next])
  end.

Definition sha_round (st : list Z) (kw : Z * Z) : list Z :=
  match st with
  | [a; b; c; d; e; f; g; h] =>
      let t1 := add32 (add32 h (bsig1 e)) (add32 (ch e f g) (add32 (fst kw) (snd kw))) in
      let t2 := add32 (bsig0 a) (maj a b c) in
      [add32 t1 t2; a; b; c; add32 d t1; e; f; g]
  | _ => st
  end.

Definition sha_block (h : list Z) (block : list Z) : list Z :=
  let ws := schedule 64 (be_words block) in
  zip_with add32 h (foldl sha_round h (zip K256 ws)).

Fixpoint sha_blocks (n : nat) (h : list Z) (msg : list Z) : list Z :=
  match n with
  | O => h
  | S n' => sha_blocks n' (sha_block h (take 64 msg)) (drop 64 msg)
  end.

Definition Sum256 (s : string) : list Z :=
  let msg := sha_pad (code <$> list_ascii_of_string s) in
  sha_blocks (Nat.div (List.length msg) 64) H256 msg ≫= be_bytes 4.

(** FIPS 180-4 test vectors: one block, and two blocks. *)
Example Sum256_abc :
  hex_encode (Sum256 "abc") =
  "ba7816bf8f01cfea414140de5dae2223b00361a396177a9cb410ff61f20015ad"%string.
Proof. vm_compute. reflexivity. Qed.

Example Sum256_two_blocks :
  hex_encode (Sum256 "abcdbcdecdefdefgefghfghighijhijkijkljklmklmnlmnomnopnopq") =
  "248d6a61d20638b8e5c026930c3e6039a33ce45964ff2167f6ecedd419db06c1"%string.
Proof. vm_compute. reflexivity. Qed.
