(* ===== verification/GoTime.v ===== *)
(** * Package time: RFC 3339 timestamps

    Instants as calendar dates, the text [time.Time.Format] gives with the layout
    [RFC3339Nano] to an instant in UTC, and what [time.Parse] accepts under the
    same layout: its fast path accepts less, with the same results.  The
    calendar is the proleptic Gregorian one, on days since 1970-01-01. *)

From S2P Require Export GoText.
From Stdlib Require Import String.
#[local] Open Scope Z_scope.
#[local] Abbreviation length := List.length.

(** ** The calendar *)

(** Years counted from March, in cycles of 400. *)
Definition days_from_civil (y m d : Z) : Z :=
  let y' := if m <=? 2 then y - 1 else y in
  let yoe := y' mod 400 in
  let doy := (153 * ((m + 9) mod 12) + 2) / 5 + d - 1 in
  y' / 400 * 146097 + (yoe * 365 + yoe / 4 - yoe / 100 + doy) - 719468.

(** Year, month and day of a day of a cycle, the year counted in the cycle: a
    cycle has four centuries of 36524 days and one day, a century groups of 1461
    days, the last one a day short, a group four years of 365 days and one day. *)
Definition civil_of_cycle (doe : Z) : Z * Z * Z :=
  let n100 := Z.min 3 (doe / 36524) in
  let r := doe - n100 * 36524 in
  let n1 := Z.min 3 (r mod 1461 / 365) in
  let yoe := 100 * n100 + 4 * (r / 1461) + n1 in
  let doy := r mod 1461 - n1 * 365 in
  let mp := (5 * doy + 2) / 153 in
  let m := if mp <? 10 then mp + 3 else mp - 9 in
  (if m <=? 2 then yoe + 1 else yoe, m, doy - (153 * mp + 2) / 5 + 1).

Definition civil_from_days (z : Z) : Z * Z * Z :=
  let '(y, m, d) := civil_of_cycle ((z + 719468) mod 146097) in
  (y + (z + 719468) / 146097 * 400, m, d).

Definition is_leap (y : Z) : bool :=
  (y mod 4 =? 0) && (negb (y mod 100 =? 0) || (y mod 400 =? 0)).

Definition days_in (m y : Z) : Z :=
  if m =? 2 then (if is_leap y then 29 else 28)
  else if (m =? 4) || (m =? 6) || (m =? 9) || (m =? 11) then 30 else 31.

Definition nanos_per_day : Z := 86400 * 10 ^ 9.

(** [time.Date(y, m, d, hour, min, sec, nsec, UTC)] for fields in range. *)
Definition Date (y m d hour min sec nsec : Z) : time :=
  (days_from_civil y m d * 86400 + hour * 3600 + min * 60 + sec) * 10 ^ 9 + nsec.

(** ** Printing *)

Definition pad2 (n : Z) : string := String (digit_char (n / 10)) (String (digit_char (n mod 10)) "").
Definition pad4 (n : Z) : string := pad2 (n / 100) +:+ pad2 (n mod 100).

(** The digits of a number below [10 ^ k], leading zeros included. *)
Fixpoint digits_of (k : nat) (n : Z) : list Z :=
  match k with
  | O => []
  | S k' => n / 10 ^ Z.of_nat k' :: digits_of k' (n mod 10 ^ Z.of_nat k')
  end.

(** Trailing zeros removed. *)
Fixpoint trim_zeros (l : list Z) : list Z :=
  match l with
  | [] => []
  | d :: l' => match trim_zeros l' with [] => if d =? 0 then [] else [d] | t => d :: t end
  end.

Definition digits_text (l : list Z) : string := string_of_list_ascii (digit_char <$> l).

Definition format_fraction (nsec : Z) : string :=
  match trim_zeros (digits_of 9 nsec) with [] => "" | l => "." +:+ digits_text l end.

(** [t.UTC().Format(time.RFC3339Nano)] for years 0 to 9999. *)
Definition FormatRFC3339Nano (t : time) : string :=
  let days := t / nanos_per_day in
  let s := t mod nanos_per_day / 10 ^ 9 in
  let '(y, m, d) := civil_from_days days in
  pad4 y +:+ "-" +:+ pad2 m +:+ "-" +:+ pad2 d +:+ "T" +:+ pad2 (s / 3600) +:+ ":"
  +:+ pad2 (s / 60 mod 60) +:+ ":" +:+ pad2 (s mod 60) +:+ format_fraction (t mod 10 ^ 9) +:+ "Z".

(** [MarshalJSON] refuses a year outside [0, 9999]. *)
Definition year_of (t : time) : Z := let '(y, _, _) := civil_from_days (t / nanos_per_day) in y.
Definition printable_time (t : time) : bool := (0 <=? year_of t) && (year_of t <=? 9999).

(** ** Parsing *)

(** [getnum(s, true)] and [getnum(s, false)]: two digits; one or two digits. *)
Definition getnum_fixed (s : string) : option (Z * string) :=
  match s with
  | String a (String b r) =>
      if is_digit a && is_digit b then Some (10 * digit_value a + digit_value b, r) else None
  | _ => None
  end.
Definition getnum (s : string) : option (Z * string) :=
  match getnum_fixed s with
  | Some p => Some p
  | None =>
      match s with
      | String a r => if is_digit a then Some (digit_value a, r) else None
      | EmptyString => None
      end
  end.

Definition literal_char (c : ascii) (s : string) : option string :=
  match s with String d r => if Ascii.eqb c d then Some r else None | EmptyString => None end.

(** Nanoseconds of the digits after a fraction's mark; digits past the ninth do
    not count. *)
Fixpoint fraction_value (k : nat) (s : string) : Z :=
  match k, s with
  | S k', String c r => digit_value c * 10 ^ Z.of_nat k' + fraction_value k' r
  | _, _ => 0
  end.

Definition parse_fraction (s : string) : Z * string :=
  match s with
  | String c (String d _ as r) =>
      if (Ascii.eqb c "." || Ascii.eqb c ",") && is_digit d
      then let '(digits, rest) := span is_digit r in (fraction_value 9 digits, rest)
      else (0, s)
  | _ => (0, s)
  end.

(** The offset of a zone in seconds, up to 24 hours and 60 minutes. *)
Definition parse_zone (s : string) : option Z :=
  if (s =? "Z")%string then Some 0 else
  match s with
  | String sign r =>
      '(hr, r) ← getnum_fixed r;
      r ← literal_char ":" r;
      '(mm, r) ← getnum_fixed r;
      if negb (r =? "")%string || (24 <? hr) || (60 <? mm) then None else
      if Ascii.eqb sign "+" then Some ((hr * 60 + mm) * 60) else
      if Ascii.eqb sign "-" then Some (- ((hr * 60 + mm) * 60)) else None
  | EmptyString => None
  end.

(** [time.Parse(time.RFC3339Nano, s)], and [time.Parse(time.RFC3339, s)], which
    takes a fraction as well. *)
Definition ParseRFC3339 (s : string) : option time :=
  '(y1, r) ← getnum_fixed s;
  '(y2, r) ← getnum_fixed r;
  let year := 100 * y1 + y2 in
  r ← literal_char "-" r;
  '(month, r) ← getnum_fixed r;
  r ← literal_char "-" r;
  '(day, r) ← getnum_fixed r;
  r ← literal_char "T" r;
  '(hour, r) ← getnum r;
  r ← literal_char ":" r;
  '(min, r) ← getnum_fixed r;
  r ← literal_char ":" r;
  '(sec, r) ← getnum_fixed r;
  let '(nsec, r) := parse_fraction r in
  offset ← parse_zone r;
  if (month <=? 0) || (12 <? month) || (24 <=? hour) || (60 <=? min) || (60 <=? sec)
     || (day <? 1) || (days_in month year <? day) then None
  else Some (Date year month day hour min sec nsec - offset * 10 ^ 9).

Example timestamps :
  ParseRFC3339 "1970-01-01T00:00:00Z" = Some 0 /\
  ParseRFC3339 "2024-02-29T23:59:59.5+01:30" = Some 1709245799500000000 /\
  ParseRFC3339 "2023-02-29T00:00:00Z" = None /\
  ParseRFC3339 "2024-02-29T7:59:59,25Z" = Some 1709193599250000000 /\
  ParseRFC3339 "0001-01-01T00:00:00Z" = Some (-62135596800 * 10 ^ 9) /\
  FormatRFC3339Nano 1709245799500000000 = "2024-02-29T22:29:59.5Z"%string /\
  FormatRFC3339Nano (-1) = "1969-12-31T23:59:59.999999999Z"%string.
Proof. vm_compute. repeat split. Qed.

(** ** The calendar's round trip *)

(** Month and day of a day of a year that starts in March. *)
Lemma month_of_day doy :
  0 <= doy <= 365 ->
  let mp := (5 * doy + 2) / 153 in
  let d := doy - (153 * mp + 2) / 5 + 1 in
  0 <= mp <= 11 /\ 1 <= d <= 31 /\
  (mp = 1 \/ mp = 3 \/ mp = 6 \/ mp = 8 -> d <= 30) /\
  (mp = 11 -> d <= 29 /\ (d = 29 -> doy = 365)).
Proof. intros H. cbv zeta. Z.to_euclidean_division_equations. lia. Qed.

Lemma year_of_day doe :
  0 <= doe < 146097 ->
  let n100 := Z.min 3 (doe / 36524) in
  let r := doe - n100 * 36524 in
  let n1 := Z.min 3 (r mod 1461 / 365) in
  let yoe := 100 * n100 + 4 * (r / 1461) + n1 in
  let doy := r mod 1461 - n1 * 365 in
  0 <= yoe < 400 /\ 0 <= doy <= 365 /\ yoe * 365 + yoe / 4 - yoe / 100 + doy = doe /\
  (doy = 365 -> (yoe + 1) mod 4 = 0 /\ ((yoe + 1) mod 100 = 0 -> yoe = 399)).
Proof.
  intros H. cbv zeta. Z.to_euclidean_division_equations. lia.
Qed.

(** Days and dates correspond; the date is a valid one. *)
Lemma civil_from_days_spec z :
  let '(y, m, d) := civil_from_days z in
  1 <= m <= 12 /\ 1 <= d <= days_in m y /\ days_from_civil y m d = z.
Proof.
  unfold civil_from_days, civil_of_cycle. set (q := (z + 719468) / 146097).
  assert (z = q * 146097 + (z + 719468) mod 146097 - 719468) as Hz
    by (unfold q; Z.to_euclidean_division_equations; lia).
  assert (0 <= (z + 719468) mod 146097 < 146097) as Hdoe by (apply Z.mod_pos_bound; lia).
  revert Hz Hdoe. generalize ((z + 719468) mod 146097) as doe. intros doe Hz Hdoe.
  pose proof (year_of_day doe Hdoe) as Hy. cbv zeta in *. revert Hy.
  generalize (Z.min 3 ((doe - Z.min 3 (doe / 36524) * 36524) mod 1461 / 365)) as n1.
  intros n1. set (yoe := 100 * _ + _ + n1). set (doy := (_ mod 1461) - _).
  clearbody yoe doy. intros (Hyoe & Hdoy & Esum & Hleap).
  pose proof (month_of_day doy Hdoy) as Hm. cbv zeta in Hm. revert Hm.
  generalize ((5 * doy + 2) / 153) as mp. intros mp.
  set (d := doy - (153 * mp + 2) / 5 + 1). intros (Hmp & Hd & Hd30 & Hd29).
  set (m := if mp <? 10 then mp + 3 else mp - 9).
  assert (mp < 10 /\ m = mp + 3 \/ 10 <= mp /\ m = mp - 9) as Em.
  { unfold m. destruct (Z.ltb_spec mp 10); lia. }
  assert ((m + 9) mod 12 = mp) as Hmp'.
  { destruct Em as [[? ->]|[? ->]]; Z.to_euclidean_division_equations; lia. }
  split; [lia|]. split.
  - split; [lia|]. unfold days_in.
    destruct (Z.eqb_spec m 2) as [E2|].
    + destruct (is_leap _) eqn:Hl; [lia|]. destruct (decide (d = 29)); [|lia]. exfalso.
      destruct Hd29 as [_ H365]; [lia|]. destruct (Hleap (H365 ltac:(done))) as [H4 H100].
      revert Hl. rewrite E2. cbn [Z.leb]. change (2 <=? 2) with true. cbn iota.
      unfold is_leap. replace ((yoe + 1 + q * 400) mod 4) with 0
        by (Z.to_euclidean_division_equations; lia). cbn [Z.eqb andb].
      destruct (Z.eqb_spec ((yoe + 1 + q * 400) mod 100) 0) as [E|]; [|done]. cbn [negb orb].
      replace ((yoe + 1 + q * 400) mod 400) with 0; [done|].
      rewrite H100 in * by (Z.to_euclidean_division_equations; lia).
      Z.to_euclidean_division_equations; lia.
    + destruct ((m =? 4) || (m =? 6) || (m =? 9) || (m =? 11)) eqn:E; [|lia].
      rewrite !orb_true_iff, !Z.eqb_eq in E. apply Hd30. lia.
  - unfold days_from_civil. rewrite Hmp'.
    replace (if m <=? 2 then (if m <=? 2 then yoe + 1 else yoe) + q * 400 - 1
             else (if m <=? 2 then yoe + 1 else yoe) + q * 400) with (yoe + q * 400)
      by (destruct (m <=? 2); lia).
    rewrite Z.div_add, Z_mod_plus_full, Z.div_small, Z.mod_small by lia.
    unfold d. lia.
Qed.

(** ** A printed timestamp reads back *)

Lemma getnum_pad2 n r : 0 <= n < 100 -> getnum_fixed (pad2 n +:+ r) = Some (n, r).
Proof.
  intros H. unfold pad2. rewrite !app_cons_s. cbn [getnum_fixed].
  assert (0 <= n / 10 < 10 /\ 0 <= n mod 10 < 10) as [? ?] by (Z.to_euclidean_division_equations; lia).
  rewrite !is_digit_char, !digit_value_char by done. cbn [andb].
  do 2 f_equal. Z.to_euclidean_division_equations; lia.
Qed.

Lemma getnum_hour n r : 0 <= n < 100 -> getnum (pad2 n +:+ r) = Some (n, r).
Proof. intros H. unfold getnum. by rewrite getnum_pad2. Qed.

Lemma literal_same c r : literal_char c (String c r) = Some r.
Proof. cbn. by rewrite Ascii.eqb_refl. Qed.

Lemma literal_app c r : literal_char c (String c "" +:+ r) = Some r.
Proof. apply literal_same. Qed.

Definition is_decimal (d : Z) : Prop := 0 <= d < 10.

(** The value of the digits of a fraction. *)
Fixpoint fraction_digits (k : nat) (l : list Z) : Z :=
  match k, l with
  | S k', d :: l' => d * 10 ^ Z.of_nat k' + fraction_digits k' l'
  | _, _ => 0
  end.

Lemma fraction_value_text k l :
  Forall is_decimal l -> fraction_value k (digits_text l) = fraction_digits k l.
Proof.
  intros Hl. revert k. induction Hl as [|d l Hd _ IH]; intros k; [by destruct k|].
  destruct k as [|k]; [done|]. unfold digits_text in *. cbn [fmap list_fmap string_of_list_ascii].
  cbn [fraction_value fraction_digits]. by rewrite digit_value_char, IH.
Qed.

Lemma fraction_trim k l : fraction_digits k (trim_zeros l) = fraction_digits k l.
Proof.
  revert k. induction l as [|d l IH]; intros k; [done|]. destruct k as [|k].
  { cbn. by repeat case_match. }
  cbn [trim_zeros fraction_digits]. rewrite <- IH.
  destruct (trim_zeros l); [|done]. destruct (Z.eqb_spec d 0) as [->|]; [|done]. by destruct k.
Qed.

Lemma digits_of_value k n : 0 <= n < 10 ^ Z.of_nat k -> fraction_digits k (digits_of k n) = n.
Proof.
  revert n. induction k as [|k IH]; intros n H; [cbn in *; lia|].
  cbn [digits_of fraction_digits]. rewrite IH by (apply Z.mod_pos_bound; lia).
  pose proof (Z.div_mod n (10 ^ Z.of_nat k)). lia.
Qed.

Lemma digits_of_decimal k n : 0 <= n < 10 ^ Z.of_nat k -> Forall is_decimal (digits_of k n).
Proof.
  revert n. induction k as [|k IH]; intros n H; cbn [digits_of]; constructor.
  - rewrite Nat2Z.inj_succ, Z.pow_succ_r in H by lia. split.
    + apply Z.div_pos; lia.
    + apply Z.div_lt_upper_bound; lia.
  - apply IH. apply Z.mod_pos_bound. lia.
Qed.

Lemma trim_zeros_decimal l : Forall is_decimal l -> Forall is_decimal (trim_zeros l).
Proof.
  induction 1 as [|d l Hd Hl IH]; cbn [trim_zeros]; [done|].
  destruct (trim_zeros l); [case_match; auto|by constructor].
Qed.

Lemma digits_text_digits l : Forall is_decimal l -> string_forallb is_digit (digits_text l) = true.
Proof.
  induction 1 as [|d l Hd _ IH]; [done|]. unfold digits_text in *. cbn. by rewrite is_digit_char, IH.
Qed.

Lemma parse_fraction_format n :
  0 <= n < 10 ^ 9 -> parse_fraction (format_fraction n +:+ "Z") = (n, "Z"%string).
Proof.
  intros H. unfold format_fraction.
  pose proof (trim_zeros_decimal _ (digits_of_decimal 9 n H)) as Hd.
  pose proof (fraction_trim 9 (digits_of 9 n)) as Hv. rewrite digits_of_value in Hv by done.
  destruct (trim_zeros (digits_of 9 n)) as [|d l] eqn:E; [by rewrite <- Hv|].
  pose proof (digits_text_digits _ Hd) as Ht. rewrite <- (fraction_value_text 9 _ Hd) in Hv.
  apply Forall_cons in Hd as [Hd _].
  change (("." +:+ digits_text (d :: l)) +:+ "Z") with (String "." (digits_text (d :: l) +:+ "Z")).
  unfold parse_fraction.
  change (digits_text (d :: l) +:+ "Z") with (String (digit_char d) (digits_text l +:+ "Z")) at 1.
  cbn iota. rewrite is_digit_char by done. cbn [Ascii.eqb orb andb].
  change (String (digit_char d) (digits_text l +:+ "Z")) with (digits_text (d :: l) +:+ "Z").
  rewrite span_app by done. by rewrite Hv.
Qed.

Lemma year_digits y : 0 <= y <= 9999 -> 0 <= y / 100 < 100 /\ 0 <= y mod 100 < 100 /\ 100 * (y / 100) + y mod 100 = y.
Proof. intros H. Z.to_euclidean_division_equations; lia. Qed.

Lemma days_in_bound m y : days_in m y <= 31.
Proof. unfold days_in. repeat case_match; lia. Qed.

(** Fields in range, printed and parsed. *)
Lemma parse_fields y m d hour min sec nsec :
  0 <= y <= 9999 -> 1 <= m <= 12 -> 1 <= d <= days_in m y -> 0 <= hour < 24 -> 0 <= min < 60 ->
  0 <= sec < 60 -> 0 <= nsec < 10 ^ 9 ->
  ParseRFC3339 (pad4 y +:+ "-" +:+ pad2 m +:+ "-" +:+ pad2 d +:+ "T" +:+ pad2 hour +:+ ":"
    +:+ pad2 min +:+ ":" +:+ pad2 sec +:+ format_fraction nsec +:+ "Z")
  = Some (Date y m d hour min sec nsec).
Proof.
  intros Hy Hm Hd Hhour Hmin Hsec Hns. pose proof (days_in_bound m y).
  destruct (year_digits y Hy) as (Hy1 & Hy2 & Ey). unfold pad4. rewrite !app_assoc_s.
  unfold ParseRFC3339.
  repeat (first [rewrite getnum_pad2 by lia | rewrite getnum_hour by lia | rewrite literal_app];
          cbn [mbind option_bind]).
  rewrite parse_fraction_format by lia. rewrite Ey.
  change (parse_zone "Z") with (Some 0). cbn [mbind option_bind].
  replace (_ || _) with false.
  - f_equal. lia.
  - symmetry. rewrite !orb_false_iff, !Z.leb_gt, !Z.ltb_ge. lia.
Qed.

(** The text of an instant of the years 0 to 9999 reads back. *)
Lemma ParseRFC3339_Format t : printable_time t = true -> ParseRFC3339 (FormatRFC3339Nano t) = Some t.
Proof.
  unfold printable_time, year_of, FormatRFC3339Nano. cbv zeta.
  pose proof (civil_from_days_spec (t / nanos_per_day)) as Hc.
  destruct (civil_from_days (t / nanos_per_day)) as [[y m] d]. destruct Hc as (Hm & Hd & Ed).
  intros H. simp_bool.
  assert (0 <= t mod nanos_per_day / 10 ^ 9 < 86400) as Hs.
  { unfold nanos_per_day. Z.to_euclidean_division_equations; lia. }
  rewrite parse_fields; try done.
  - unfold Date. rewrite Ed. f_equal. unfold nanos_per_day in *. clear -Hs.
    assert (forall s, 0 <= s < 86400 -> s / 3600 * 3600 + s / 60 mod 60 * 60 + s mod 60 = s) as E
      by (intros; Z.to_euclidean_division_equations; lia).
    transitivity ((t / (86400 * 10 ^ 9) * 86400 + t mod (86400 * 10 ^ 9) / 10 ^ 9) * 10 ^ 9 + t mod 10 ^ 9).
    + rewrite <- (E _ Hs) at 4. lia.
    + clear. Z.to_euclidean_division_equations; lia.
  - Z.to_euclidean_division_equations; lia.
  - apply Z.mod_pos_bound; lia.
  - apply Z.mod_pos_bound; lia.
  - apply Z.mod_pos_bound; lia.
Qed.

(** Every instant that an int64 of nanoseconds holds is printable. *)
Lemma days_year y m d :
  1 <= m <= 12 -> 1 <= d <= 31 -> -719000 <= days_from_civil y m d <= 2932000 -> 0 <= y <= 9999.
Proof.
  intros Hm Hd. unfold days_from_civil. destruct (Z.leb_spec m 2); Z.to_euclidean_division_equations; lia.
Qed.

Lemma int64_printable t : int64_range t -> printable_time t = true.
Proof.
  intros Ht. unfold printable_time, year_of. pose proof (civil_from_days_spec (t / nanos_per_day)) as Hc.
  destruct (civil_from_days (t / nanos_per_day)) as [[y m] d]. destruct Hc as (Hm & Hd & Ed).
  pose proof (days_in_bound m y).
  assert (0 <= y <= 9999); [|apply andb_true_intro; split; apply Z.leb_le; lia].
  apply (days_year y m d); [done|lia|]. rewrite Ed. unfold int64_range, nanos_per_day in *.
  Z.to_euclidean_division_equations; lia.
Qed.
