(* ===== verification/Clock.v ===== *)
(** * Package clock: a clock in a file

    [src/dns/internal/clock/clock.go].  The clock reads its file at every call;
    a failure keeps the last instant, and the callback is told once of every
    distinct failure and once of a recovery.  A failure is compared by its text,
    which names the file, the error of the system or the value that is no
    timestamp. *)

From S2P Require Export GoTime.
From Stdlib Require Import String.
#[local] Open Scope Z_scope.
#[local] Abbreviation length := List.length.

(** ** Definitions *)

Inductive Problem : Type :=
| PathRequired
| Unreadable (path message : string)
| Unparsable (path value : string).

#[export] Instance Problem_eq_dec : EqDecision Problem.
Proof. solve_decision. Defined.

(** [File]; the empty [lastProblem] is [None]. *)
Record File : Type := {
  path : string;
  has_onError : bool;
  last : time;
  lastProblem : option Problem;
}.

(** [read], of what [os.ReadFile] answers. *)
Definition read (path : string) (answer : result string string) : result Problem time :=
  match answer with
  | Err message => Err (Unreadable path message)
  | Ok payload =>
      let value := TrimSpace payload in
      match ParseRFC3339 value with
      | None => Err (Unparsable path value)
      | Some instant => Ok instant
      end
  end.

Definition Open (file_path : string) (has_onError : bool) (answer : string -> result string string)
    : result Problem File :=
  let file_path := TrimSpace file_path in
  if (file_path =? "")%string then Err PathRequired else
  match read file_path (answer file_path) with
  | Err e => Err e
  | Ok instant =>
      Ok {| path := file_path; has_onError := has_onError; last := instant; lastProblem := None |}
  end.

(** [New]: the wall clock ([None]) when no path is given. *)
Definition NewClock (file_path : string) (has_onError : bool) (answer : string -> result string string)
    : result Problem (option File) :=
  if (TrimSpace file_path =? "")%string then Ok None else
  match Open file_path has_onError answer with
  | Err e => Err e
  | Ok f => Ok (Some f)
  end.

(** [Now], under the lock: the instant, the calls of the callback ([None] is
    nil), and the clock after it. *)
Definition Now (f : File) (answer : result string string) : time * list (option Problem) * File :=
  match read (path f) answer with
  | Err problem =>
      (last f,
       if negb (bool_decide (Some problem = lastProblem f)) && has_onError f then [Some problem] else [],
       {| path := path f; has_onError := has_onError f; last := last f; lastProblem := Some problem |})
  | Ok instant =>
      (instant,
       if negb (bool_decide (lastProblem f = None)) && has_onError f then [None] else [],
       {| path := path f; has_onError := has_onError f; last := instant; lastProblem := None |})
  end.

(** Calls in sequence. *)
Fixpoint run_clock (f : File) (answers : list (result string string)) : list time * list (option Problem) :=
  match answers with
  | [] => ([], [])
  | a :: answers' =>
      let '(t, told, f') := Now f a in
      let '(ts, rest) := run_clock f' answers' in (t :: ts, told ++ rest)
  end.

(** ** Specification *)

(** The state of the file at a call: its problem, if any. *)
Definition status (path : string) (answer : result string string) : option Problem :=
  match read path answer with Err p => Some p | Ok _ => None end.

(** A list without what repeats its predecessor. *)
Fixpoint changes {A} `{EqDecision A} (previous : A) (l : list A) : list A :=
  match l with
  | [] => []
  | x :: l' => if decide (x = previous) then changes x l' else x :: changes x l'
  end.

(** The instants of the readable files among the first calls. *)
Definition valid_instants (path : string) (answers : list (result string string)) : list time :=
  omap (fun a => match read path a with Ok t => Some t | Err _ => None end) answers.

(** ** Lemmas *)

Lemma run_clock_path f a : path (snd (Now f a)) = path f /\ has_onError (snd (Now f a)) = has_onError f.
Proof. unfold Now. by destruct (read _ _). Qed.

Lemma valid_instants_cons p a answers :
  valid_instants p (a :: answers) =
  match read p a with Ok t => t :: valid_instants p answers | Err _ => valid_instants p answers end.
Proof. unfold valid_instants. cbn [omap list_omap]. by destruct (read p a). Qed.

Lemma run_clock_times f answers n t :
  fst (run_clock f answers) !! n = Some t ->
  t = List.last (valid_instants (path f) (take (S n) answers)) (last f).
Proof.
  revert f n. induction answers as [|a answers IH]; intros f n; cbn [run_clock]; [done|].
  change (take (S n) (a :: answers)) with (a :: take n answers). rewrite valid_instants_cons. unfold Now.
  destruct (read (path f) a) as [instant|p] eqn:Er;
    match goal with |- context [run_clock ?g answers] => specialize (IH g);
      destruct (run_clock g answers) as [ts told] end; cbn [fst path last] in *;
    (destruct n as [|n]; [intros [= <-]; done|]); intros Ht; apply (IH n) in Ht; rewrite Ht.
  - by rewrite last_cons_default.
  - done.
Qed.

Lemma run_clock_told f answers :
  snd (run_clock f answers)
  = if has_onError f then changes (lastProblem f) (status (path f) <$> answers) else [].
Proof.
  revert f. induction answers as [|a answers IH]; intros f; cbn [run_clock].
  { by destruct (has_onError f). }
  unfold Now, status. rewrite fmap_cons. cbn [changes].
  destruct (read (path f) a) as [instant|p] eqn:Er;
    match goal with |- context [run_clock ?g answers] => specialize (IH g);
      destruct (run_clock g answers) as [ts told] end;
    cbn [snd path has_onError lastProblem] in *; rewrite IH;
    destruct (has_onError f); rewrite ?andb_true_r, ?andb_false_r; try done.
  - case_bool_decide as Hb; case_decide as Hd; try done; by destruct Hd || by destruct Hb.
  - case_bool_decide as Hb; case_decide as Hd; try done.
Qed.

(** ** Properties *)

(** C31: The file clock never invents or forgets an instant and never repeats itself:
    each call returns the last timestamp that could be read, the one it was
    opened with at first, and over any calls the callback is told exactly the
    changes of the file's state: a failure when it is not the one just told,
    and nil when the file can be read again. *)
Theorem clock_retains_and_reports p b answer f answers
    (Hopen : Open p b answer = Ok f) :
  (exists instant, read (TrimSpace p) (answer (TrimSpace p)) = Ok instant /\
    forall n t, fst (run_clock f answers) !! n = Some t ->
      t = List.last (valid_instants (TrimSpace p) (take (S n) answers)) instant) /\
  snd (run_clock f answers) = if b then changes None (status (TrimSpace p) <$> answers) else [].
Proof.
  unfold Open in Hopen. destruct (_ =? "")%string; [done|].
  destruct (read (TrimSpace p) (answer (TrimSpace p))) as [instant|e]; [|done]. injection Hopen as <-.
  split; [|apply run_clock_told]. exists instant. split; [done|]. intros n t. apply run_clock_times.
Qed.

Lemma clock_retains_and_reports_witness :
  run_clock {| path := "/clock"; has_onError := true; last := 0; lastProblem := None |}
    [Ok "1970-"; Ok "1970-"; Err "is a directory"; Ok "1970-01-01T00:00:01Z"]%string
  = ([0; 0; 0; 1000000000],
     [Some (Unparsable "/clock" "1970-"); Some (Unreadable "/clock" "is a directory"); None]%string) /\
  changes None (status "/clock" <$> [Ok "1970-"; Ok "1970-"; Err "is a directory"; Ok "1970-01-01T00:00:01Z"]%string)
  = [Some (Unparsable "/clock" "1970-"); Some (Unreadable "/clock" "is a directory"); None]%string.
Proof.
  split; [vm_compute; reflexivity|].
  pose proof (clock_retains_and_reports " /clock" true (fun _ => Ok "1970-01-01T00:00:00Z"%string)
    {| path := "/clock"; has_onError := true; last := 0; lastProblem := None |}
    [Ok "1970-"; Ok "1970-"; Err "is a directory"; Ok "1970-01-01T00:00:01Z"]%string ltac:(vm_compute; reflexivity))
    as [_ H].
  etransitivity; [symmetry; exact H|]. vm_compute. reflexivity.
Defined.
