(* ===== verification/GoFloat.v ===== *)
(** * Go's float64

    Arithmetic on float64, rounded to nearest at each operation, and the
    conversions from and to integers the program uses. *)

From S2P Require Export GoText.
From Stdlib Require Import SpecFloat.
#[local] Open Scope Z_scope.

Definition float := spec_float.
Definition to_float (z : Z) : float := binary_normalize 53 1024 z 0 false.
Definition fmul : float -> float -> float := SFmul 53 1024.
Definition fadd : float -> float -> float := SFadd 53 1024.
Definition fdiv : float -> float -> float := SFdiv 53 1024.

(** Conversion to an integer truncates. *)
Definition to_int (f : float) : Z :=
  match f with
  | S754_finite s m e =>
      let n := if 0 <=? e then Z.pos m * 2 ^ e else Z.pos m / 2 ^ (- e) in if s then - n else n
  | _ => 0
  end.
