(* ===== verification/Cliutil.v ===== *)
(** * Package cliutil: settings from the environment

    [src/dns/internal/cliutil/env.go], with [time.ParseDuration], which reads
    durations of the environment. *)

From S2P Require Export GoFloat.
From Stdlib Require Import String.
#[local] Open Scope Z_scope.
#[local] Abbreviation length := List.length.

(** ** [time.ParseDuration] *)

Definition ns_per_second : Z := 10 ^ 9.

(** The units; the two spellings of the micro sign are two bytes each. *)
Definition unitMap : list (string * Z) :=
  [("ns", 1); ("us", 1000); (bytes [194; 181; 115]%nat, 1000); (bytes [206; 188; 115]%nat, 1000);
   ("ms", 1000000); ("s", ns_per_second); ("m", 60 * ns_per_second); ("h", 3600 * ns_per_second)]%string.

Fixpoint find_unit (u : string) (l : list (string * Z)) : option Z :=
  match l with
  | [] => None
  | (name, unit) :: l' => if (name =? u)%string then Some unit else find_unit u l'
  end.

(** [leadingInt]: [None] on overflow. *)
Fixpoint leadingInt (x : Z) (s : string) : option (Z * string) :=
  match s with
  | String c r =>
      if negb (is_digit c) then Some (x, s) else
      if 2 ^ 63 / 10 <? x then None else
      let x := x * 10 + digit_value c in
      if 2 ^ 63 <? x then None else leadingInt x r
  | EmptyString => Some (x, s)
  end.

(** [leadingFraction]: the digits that fit, and the power of ten they are
    divided by. *)
Fixpoint leadingFraction (x : Z) (scale : float) (overflow : bool) (s : string) : Z * float * string :=
  match s with
  | String c r =>
      if negb (is_digit c) then (x, scale, s) else
      if overflow || ((2 ^ 63 - 1) / 10 <? x) then leadingFraction x scale true r else
      let y := x * 10 + digit_value c in
      if 2 ^ 63 <? y then leadingFraction x scale true r
      else leadingFraction y (fmul scale (to_float 10)) false r
  | EmptyString => (x, scale, s)
  end.

Definition unit_char (c : ascii) : bool := negb (Ascii.eqb c "." || is_digit c).

(** One number with its unit: its nanoseconds, and what follows. *)
Definition duration_term (s : string) : option (Z * string) :=
  match s with
  | EmptyString => None
  | String c _ =>
      if negb (Ascii.eqb c "." || is_digit c) then None else
      '(v, r) ← leadingInt 0 s;
      let pre := negb (String.length r =? String.length s)%nat in
      let '(f, scale, post, r) :=
        match r with
        | String d r' =>
            if Ascii.eqb d "." then
              let '(f, scale, r'') := leadingFraction 0 (to_float 1) false r' in
              (f, scale, negb (String.length r'' =? String.length r')%nat, r'')
            else (0, to_float 1, false, r)
        | EmptyString => (0, to_float 1, false, r)
        end in
      if negb pre && negb post then None else
      let '(u, r) := span unit_char r in
      if (u =? "")%string then None else
      unit ← find_unit u unitMap;
      if 2 ^ 63 / unit <? v then None else
      let v := v * unit in
      if 0 <? f then
        let v := (v + to_int (fmul (to_float f) (fdiv (to_float unit) scale))) mod 2 ^ 64 in
        if 2 ^ 63 <? v then None else Some (v, r)
      else Some (v, r)
  end.

(** The loop over the terms; each takes at least one byte. *)
Fixpoint duration_terms (fuel : nat) (d : Z) (s : string) : option Z :=
  match s, fuel with
  | EmptyString, _ => Some d
  | _, O => None
  | _, S fuel' =>
      '(v, r) ← duration_term s;
      let d := (d + v) mod 2 ^ 64 in
      if 2 ^ 63 <? d then None else duration_terms fuel' d r
  end.

Definition ParseDuration (s : string) : option duration :=
  let '(neg, s) :=
    match s with
    | String c r => if Ascii.eqb c "-" then (true, r) else if Ascii.eqb c "+" then (false, r) else (false, s)
    | EmptyString => (false, s)
    end in
  if (s =? "0")%string then Some 0 else
  if (s =? "")%string then None else
  d ← duration_terms (String.length s) 0 s;
  if neg then Some (wrap64 (- d)) else
  if 2 ^ 63 - 1 <? d then None else Some d.

Example durations :
  ParseDuration "6h" = Some (6 * 3600 * ns_per_second) /\
  ParseDuration "1h15m30.918273645s" = Some 4530918273645 /\
  ParseDuration "-1.5h" = Some (- 5400 * ns_per_second) /\
  ParseDuration "39ms" = Some 39000000 /\ ParseDuration "0" = Some 0 /\
  ParseDuration "0.3333333333333333333h" = Some 1200000000000 /\
  ParseDuration "9223372036854775807ns" = Some (2 ^ 63 - 1) /\
  ParseDuration "9223372036854775808ns" = None /\
  ParseDuration "-9223372036854775808ns" = Some (- 2 ^ 63) /\
  ParseDuration "" = None /\ ParseDuration "3" = None /\ ParseDuration ".s" = None /\
  ParseDuration "1d" = None /\ ParseDuration "1 s" = None.
Proof. vm_compute. repeat split. Qed.

(** ** The environment *)

Section env.
(** [os.LookupEnv]. *)
Context (environment : gmap string string).

Definition Env (name fallback : string) : string := default fallback (environment !! name).

(** A setting that is read with [parse]; the error names the variable. *)
Definition EnvDuration (name : string) (fallback : duration) : result string duration :=
  match environment !! name with
  | None => Ok fallback
  | Some value => of_option name (ParseDuration value)
  end.

Definition EnvBool (name : string) (fallback : bool) : result string bool :=
  match environment !! name with
  | None => Ok fallback
  | Some value => of_option name (ParseBool value)
  end.

Definition EnvUint32 (name : string) (fallback : Z) : result string Z :=
  match environment !! name with
  | None => Ok fallback
  | Some value => of_option name (ParseUint 32 value)
  end.

(** [CSVEnv]: the empty list and nil are the same to the callers. *)
Definition csv_item (part : string) : option string :=
  let item := TrimSpace part in if (item =? "")%string then None else Some item.
Definition CSVEnv (name : string) : list string :=
  let value := TrimSpace (default ""%string (environment !! name)) in
  if (value =? "")%string then [] else omap csv_item (Split value ",").
End env.

(** [StringList.String] and [StringList.Set]. *)
Definition StringList_String (s : list string) : string := Join s ",".
Definition StringList_Set (s : list string) (value : string) : result string (list string) :=
  if (value =? "")%string then Err "value must not be empty"%string else Ok (s ++ [value]).

(** ** Lemmas *)

(** No item of a list from the environment is empty. *)
Lemma CSVEnv_items environment name item : item ∈ CSVEnv environment name -> item <> ""%string.
Proof.
  unfold CSVEnv. destruct (_ =? "")%string; [by intros ?%elem_of_nil|].
  intros (part & _ & Hp)%list_elem_of_omap. unfold csv_item in Hp.
  destruct (String.eqb_spec (TrimSpace part) ""); [done|]. by injection Hp as <-.
Qed.

Lemma EnvUint32_range environment name fallback v :
  0 <= fallback < 2 ^ 32 -> EnvUint32 environment name fallback = Ok v -> 0 <= v < 2 ^ 32.
Proof.
  intros Hf. unfold EnvUint32. destruct (environment !! name) as [value|]; [|by intros [= <-]].
  destruct (ParseUint 32 value) as [w|] eqn:E; [|done]. intros [= <-].
  unfold ParseUint in E. destruct value; [done|].
  destruct (parse_digits 0 _) as [x|] eqn:Ep; [|done]. destruct (Z.ltb_spec x (2 ^ 32)); [|done].
  injection E as <-. split; [|done]. by eapply (parse_digits_nonneg 0).
Qed.
