(* ===== verification/Flag.v ===== *)
(** * Package flag: the command line

    What the commands under [src/dns/cmd] use of Go's package flag: options with
    defaults, declared by [flag.String], [flag.Bool], [flag.Duration],
    [flag.Uint] and [flag.Var] (on a [cliutil.StringList]), and [flag.Parse].
    A parsing failure ends a command: [ErrHelp] after printing its usage. *)

From S2P Require Export Cliutil.
From Stdlib Require Import String.
#[local] Open Scope Z_scope.
#[local] Abbreviation length := List.length.

(** ** [strconv.ParseUint(s, 0, bits)] *)

Definition is_letter (c : ascii) : bool := is_lower (lower c).

(** A letter counts from 10, as in base 36. *)
Definition any_digit (c : ascii) : option Z :=
  if is_digit c then Some (digit_value c) else
  if is_letter c then Some (code (lower c) - 87) else None.

(** The digits in a base, between underscores; a value above [limit] is out of
    range. *)
Fixpoint parse_base (base limit acc : Z) (s : string) : option Z :=
  match s with
  | EmptyString => Some acc
  | String c s' =>
      if Ascii.eqb c "_" then parse_base base limit acc s' else
      d ← any_digit c;
      if base <=? d then None else
      let acc := acc * base + d in
      if limit <? acc then None else parse_base base limit acc s'
  end.

(** The base that a prefix selects, and what follows the prefix. *)
Definition base_prefix (s : string) : Z * string :=
  match s with
  | String z (String p (String c r)) =>
      if Ascii.eqb z "0" then
        if Ascii.eqb (lower p) "b" then (2, String c r) else
        if Ascii.eqb (lower p) "o" then (8, String c r) else
        if Ascii.eqb (lower p) "x" then (16, String c r) else (8, String p (String c r))
      else (10, s)
  | String z s' => if Ascii.eqb z "0" then (8, s') else (10, s)
  | EmptyString => (10, s)
  end.

(** [underscoreOK]: underscores stand between digits only, a prefix counting as
    one.  The state is what came last. *)
Inductive Last : Type := Beginning | Digit | Underscore | Other.

Fixpoint underscores_ok (hex : bool) (last : Last) (s : string) : bool :=
  match s with
  | EmptyString => match last with Underscore => false | _ => true end
  | String c s' =>
      if is_digit c || (hex && (97 <=? code (lower c)) && (code (lower c) <=? 102))
      then underscores_ok hex Digit s'
      else if Ascii.eqb c "_" then
        match last with Digit => underscores_ok hex Underscore s' | _ => false end
      else match last with Underscore => false | _ => underscores_ok hex Other s' end
  end.

Definition underscoreOK (s : string) : bool :=
  match s with
  | String z (String p r) =>
      let l := lower p in
      if Ascii.eqb z "0" && (Ascii.eqb l "b" || Ascii.eqb l "o" || Ascii.eqb l "x")
      then underscores_ok (Ascii.eqb l "x") Digit r
      else underscores_ok false Beginning s
  | _ => underscores_ok false Beginning s
  end.

Definition has_underscore (s : string) : bool := negb (string_forallb (fun c => negb (Ascii.eqb c "_")) s).

Definition ParseUint0 (bits : Z) (s : string) : option Z :=
  match s with
  | EmptyString => None
  | _ =>
      let '(base, digits) := base_prefix s in
      v ← parse_base base (2 ^ bits - 1) 0 digits;
      if has_underscore digits && negb (underscoreOK s) then None else Some v
  end.

Example uints :
  ParseUint0 64 "300" = Some 300 /\ ParseUint0 64 "0" = Some 0 /\ ParseUint0 64 "0x12c" = Some 300 /\
  ParseUint0 64 "0454" = Some 300 /\ ParseUint0 64 "0b1_0" = Some 2 /\ ParseUint0 64 "3_00" = Some 300 /\
  ParseUint0 64 "3__00" = None /\ ParseUint0 64 "_300" = None /\ ParseUint0 64 "0_7" = Some 7 /\
  ParseUint0 64 "09" = None /\ ParseUint0 64 "0x" = None /\ ParseUint0 64 "" = None /\ ParseUint0 64 "-1" = None /\
  ParseUint0 64 "18446744073709551615" = Some (2 ^ 64 - 1) /\ ParseUint0 64 "18446744073709551616" = None.
Proof. vm_compute. repeat split. Qed.

(** ** The options *)

Inductive FlagValue : Type :=
| StringValue (s : string)
| BoolValue (b : bool)
| DurationValue (d : duration)
| UintValue (n : Z)
| ListValue (l : list string).

(** The method [Set] of each kind. *)
Definition Set_ (v : FlagValue) (s : string) : option FlagValue :=
  match v with
  | StringValue _ => Some (StringValue s)
  | BoolValue _ => BoolValue <$> ParseBool s
  | DurationValue _ => DurationValue <$> ParseDuration s
  | UintValue _ => UintValue <$> ParseUint0 64 s
  | ListValue l => match StringList_Set l s with Ok l => Some (ListValue l) | Err _ => None end
  end.

Definition IsBoolFlag (v : FlagValue) : bool := match v with BoolValue _ => true | _ => false end.

Abbreviation FlagSet := (gmap string FlagValue).

(** Declaring a name twice panics: it is [None]. *)
Fixpoint declare (l : list (string * FlagValue)) : option FlagSet :=
  match l with
  | [] => Some ∅
  | (name, v) :: l' =>
      flags ← declare l';
      match flags !! name with Some _ => None | None => Some (<[name := v]> flags) end
  end.

Inductive ParseError : Type := ErrHelp | Misuse (message : string).

(** ** [flag.Parse] *)

(** [Seen]: an option was read, and these options and arguments remain. *)
Inductive Parsed : Type :=
| Seen (flags : FlagSet) (args : list string)
| Finished
| Failed (e : ParseError).

(** The name, and the value after an equals sign, which cannot be first. *)
Definition name_and_value (s : string) : string * option string :=
  match s with
  | EmptyString => (s, None)
  | String c r =>
      let '(name, rest) := span (fun d => negb (Ascii.eqb d "=")) r in
      (String c name, match rest with EmptyString => None | String _ value => Some value end)
  end.

Definition assign (flags : FlagSet) (name : string) (v : FlagValue) (value : string) (args : list string) : Parsed :=
  match Set_ v value with
  | Some v' => Seen (<[name := v']> flags) args
  | None => Failed (Misuse ("invalid value for flag -" +:+ name))
  end.

(** An option's text after its minus signs, and the arguments behind it. *)
Definition parse_option (flags : FlagSet) (text : string) (args : list string) : Parsed :=
  if (text =? "")%string || HasPrefix text "-" || HasPrefix text "=" then Failed (Misuse ("bad flag syntax: " +:+ text)) else
  let '(name, value) := name_and_value text in
  match flags !! name with
  | None =>
      if (name =? "help")%string || (name =? "h")%string then Failed ErrHelp
      else Failed (Misuse ("flag provided but not defined: -" +:+ name))
  | Some v =>
      if IsBoolFlag v then assign flags name v (default "true"%string value) args else
      match value, args with
      | Some value, _ => assign flags name v value args
      | None, value :: args' => assign flags name v value args'
      | None, [] => Failed (Misuse ("flag needs an argument: -" +:+ name))
      end
  end.

Definition parseOne (flags : FlagSet) (args : list string) : Parsed :=
  match args with
  | [] => Finished
  | s :: rest =>
      match s with
      | String m (String c r) =>
          if negb (Ascii.eqb m "-") then Finished else
          if Ascii.eqb c "-" then
            match r with EmptyString => Finished | _ => parse_option flags r rest end
          else parse_option flags (String c r) rest
      | _ => Finished
      end
  end.

Fixpoint parse_all (fuel : nat) (flags : FlagSet) (args : list string) : result ParseError FlagSet :=
  match parseOne flags args, fuel with
  | Finished, _ => Ok flags
  | Failed e, _ => Err e
  | Seen _ _, O => Err (Misuse "")
  | Seen flags' args', S fuel' => parse_all fuel' flags' args'
  end.

(** Each step takes an argument, so their number is fuel enough. *)
Definition Parse (flags : FlagSet) (args : list string) : result ParseError FlagSet :=
  parse_all (length args) flags args.

(** ** Lemmas *)

Lemma assign_Seen flags name v value args flags' args' :
  assign flags name v value args = Seen flags' args' ->
  exists v', Set_ v value = Some v' /\ flags' = <[name := v']> flags /\ args' = args.
Proof. unfold assign. destruct (Set_ v value) as [v'|]; [|done]. intros [= <- <-]. by exists v'. Qed.

(** A step sets one declared option, from the arguments it takes. *)
Lemma parse_option_Seen flags text args flags' args' :
  parse_option flags text args = Seen flags' args' ->
  exists name v value v', flags !! name = Some v /\ Set_ v value = Some v' /\
    flags' = <[name := v']> flags /\ (args' = args \/ args = value :: args').
Proof.
  unfold parse_option. destruct (_ || _ || _); [done|]. destruct (name_and_value text) as [name value].
  destruct (flags !! name) as [v|] eqn:Ev; [|by destruct (_ || _)].
  destruct (IsBoolFlag v).
  { intros (v' & ? & -> & ->)%assign_Seen. exists name, v. eauto 10. }
  destruct value as [value|]; [|destruct args as [|value args]; [done|]];
    intros (v' & ? & -> & ->)%assign_Seen; exists name, v; eauto 10.
Qed.

Lemma parseOne_Seen flags args flags' args' :
  parseOne flags args = Seen flags' args' ->
  (length args' < length args)%nat /\
  exists name v value v', flags !! name = Some v /\ Set_ v value = Some v' /\ flags' = <[name := v']> flags.
Proof.
  destruct args as [|s rest]; [done|]. cbn [parseOne length].
  destruct s as [|m [|c r]]; [done..|]. destruct (negb (Ascii.eqb m "-")); [done|].
  intros H. assert (exists text, parse_option flags text rest = Seen flags' args') as [text Ht].
  { destruct (Ascii.eqb c "-"); [|by eexists]. destruct r; [done|by eexists]. }
  apply parse_option_Seen in Ht as (name & v & value & v' & ? & ? & ? & Ha).
  split; [|by exists name, v, value, v'].
  destruct Ha as [->| ->]; cbn [length]; lia.
Qed.

(** The number of arguments is fuel enough: more changes nothing. *)
Lemma parse_all_fuel n m flags args :
  (length args <= n)%nat -> (length args <= m)%nat -> parse_all n flags args = parse_all m flags args.
Proof.
  revert m flags args. induction n as [|n IH]; intros m flags args Hn Hm.
  - destruct args; [|by cbn in Hn; lia]. by destruct m.
  - destruct (parseOne flags args) as [flags' args'| |e] eqn:E.
    + destruct (parseOne_Seen _ _ _ _ E) as [Hl _].
      destruct m as [|m]; [lia|]. cbn [parse_all]. rewrite E. apply IH; lia.
    + destruct m; cbn [parse_all]; by rewrite E.
    + destruct m; cbn [parse_all]; by rewrite E.
Qed.

(** Two values of one kind. *)
Definition same_kind (v w : FlagValue) : Prop :=
  match v, w with
  | StringValue _, StringValue _ | BoolValue _, BoolValue _ | DurationValue _, DurationValue _
  | UintValue _, UintValue _ => True
  | ListValue l, ListValue l' => l `prefix_of` l'
  | _, _ => False
  end.

#[export] Instance same_kind_preorder : PreOrder same_kind.
Proof.
  split.
  - by intros [ | | | |l]; cbn.
  - intros [ | | | |l] [ | | | |l'] [ | | | |l'']; cbn; try done. by apply transitivity.
Qed.

Lemma Set_kind v s v' : Set_ v s = Some v' -> same_kind v v'.
Proof.
  destruct v as [x|b|d|n|l]; cbn [Set_].
  - by intros [= <-].
  - by destruct (ParseBool s) as [?|]; [intros [= <-]|].
  - by destruct (ParseDuration s) as [?|]; [intros [= <-]|].
  - by destruct (ParseUint0 64 s) as [?|]; [intros [= <-]|].
  - unfold StringList_Set. destruct (_ =? "")%string; [done|]. intros [= <-]. by exists [s].
Qed.

(** Parsing keeps every option, with its kind; a list only grows. *)
Lemma Parse_kinds flags args flags' :
  Parse flags args = Ok flags' -> map_relation (fun _ => same_kind) (fun _ _ => False) (fun _ _ => False) flags flags'.
Proof.
  unfold Parse. generalize (length args) as fuel. intros fuel. revert flags args.
  assert (Hrefl : forall flags : FlagSet,
    map_relation (fun _ => same_kind) (fun _ _ => False) (fun _ _ => False) flags flags).
  { intros flags name. unfold option_relation. by destruct (flags !! name). }
  induction fuel as [|fuel IH]; intros flags args; cbn [parse_all];
    destruct (parseOne flags args) as [flags1 args1| |e] eqn:E; try done; try (intros [= <-]; apply Hrefl).
  intros H. apply IH in H. apply parseOne_Seen in E as (_ & name & v & value & v' & Hv & Hs & ->).
  intros x. specialize (H x). destruct (decide (x = name)) as [->|Hx].
  - rewrite Hv. rewrite lookup_insert_eq in H. destruct (flags' !! name) as [w|]; cbn in *; [|done].
    transitivity v'; [by eapply Set_kind|done].
  - by rewrite lookup_insert_ne in H.
Qed.

Lemma Parse_lookup flags args flags' name v :
  Parse flags args = Ok flags' -> flags !! name = Some v -> exists w, flags' !! name = Some w /\ same_kind v w.
Proof.
  intros H Hv. specialize (Parse_kinds _ _ _ H name). rewrite Hv. cbn.
  destruct (flags' !! name) as [w|]; [|done]. by exists w.
Qed.
