(* ===== verification/FlagTheorems.v ===== *)
(** * What a command line says

    A grammar of command lines, independent of the parser, and that [Parse]
    accepts exactly the command lines of the grammar whose texts can be read. *)

From S2P Require Export Flag.
From Stdlib Require Import String.
#[local] Open Scope Z_scope.
#[local] Abbreviation length := List.length.

(** ** The grammar of a command line *)

(** The name of an option: not empty, without an equals sign, not starting with
    a minus sign. *)
Definition option_name (name : string) : Prop :=
  name <> ""%string /\ free_of "=" name = true /\ HasPrefix name "-" = false.

Definition dashes (dash : string) : Prop := dash = "-"%string \/ dash = "--"%string.

(** Where the options end: at two minus signs or at what is no option. *)
Definition ends (args : list string) : Prop :=
  match args with
  | [] => True
  | s :: _ => s = "--"%string \/ (String.length s < 2)%nat \/ HasPrefix s "-" = false
  end.

(** The options a command line spells, each with its text; [kinds] has the
    declared names, and which are booleans. *)
Inductive spells (kinds : gmap string bool) : list string -> list (string * string) -> Prop :=
| spells_end args : ends args -> spells kinds args []
| spells_equals dash name value rest l :
    dashes dash -> option_name name -> is_Some (kinds !! name) -> spells kinds rest l ->
    spells kinds ((dash +:+ name +:+ "=" +:+ value) :: rest) ((name, value) :: l)
| spells_alone dash name rest l :
    dashes dash -> option_name name -> kinds !! name = Some true -> spells kinds rest l ->
    spells kinds ((dash +:+ name) :: rest) ((name, "true"%string) :: l)
| spells_next dash name value rest l :
    dashes dash -> option_name name -> kinds !! name = Some false -> spells kinds rest l ->
    spells kinds ((dash +:+ name) :: value :: rest) ((name, value) :: l).

(** Setting options in order. *)
Fixpoint set_each (flags : FlagSet) (l : list (string * string)) : option FlagSet :=
  match l with
  | [] => Some flags
  | (name, value) :: l' => v ← flags !! name; v' ← Set_ v value; set_each (<[name := v']> flags) l'
  end.

Definition kinds_of (flags : FlagSet) : gmap string bool := IsBoolFlag <$> flags.

Lemma Set_IsBoolFlag v s v' : Set_ v s = Some v' -> IsBoolFlag v' = IsBoolFlag v.
Proof. intros H%Set_kind. by destruct v, v'. Qed.

Lemma kinds_of_set flags name v s v' :
  flags !! name = Some v -> Set_ v s = Some v' -> kinds_of (<[name := v']> flags) = kinds_of flags.
Proof.
  intros Hv Hs. unfold kinds_of. rewrite fmap_insert. apply insert_id.
  rewrite lookup_fmap, Hv. cbn. f_equal. symmetry. by eapply Set_IsBoolFlag.
Qed.

Lemma HasPrefix_char c d r : HasPrefix (String c r) (String d "") = Ascii.eqb d c.
Proof. unfold HasPrefix. cbn [strip_prefix]. by destruct (Ascii.eqb d c). Qed.

Lemma parse_option_not_finished flags text args : parse_option flags text args <> Finished.
Proof.
  assert (forall fs name v value l, assign fs name v value l <> Finished) as Ha
    by (intros; unfold assign; by destruct (Set_ _ _)).
  unfold parse_option. destruct (_ || _ || _); [done|]. destruct (name_and_value text) as [name value].
  destruct (flags !! name) as [v|]; [|by destruct (_ || _)].
  destruct (IsBoolFlag v); [apply Ha|]. destruct value; [apply Ha|]. destruct args; [done|apply Ha].
Qed.

(** The name and the value split a text at its first equals sign. *)
Lemma name_and_value_spec text name value :
  text <> ""%string -> HasPrefix text "-" = false -> HasPrefix text "=" = false ->
  name_and_value text = (name, value) ->
  option_name name /\ text = match value with Some v => name +:+ "=" +:+ v | None => name end.
Proof.
  destruct text as [|c r]; [done|]. intros _ Hd He. unfold name_and_value.
  destruct (span _ r) as [n b] eqn:E. pose proof (span_spec _ _ _ _ E) as [-> Hn]. intros [= <- <-].
  assert (option_name (String c n)) as Hname.
  { split; [done|]. split; [|by rewrite !HasPrefix_char in *].
    unfold free_of. cbn [string_forallb]. rewrite HasPrefix_char, Ascii.eqb_sym in He. by rewrite He. }
  split; [done|]. destruct b as [|d v]; [by rewrite app_nil_r_s|].
  apply span_first, negb_false_iff, Ascii.eqb_eq in E as ->. done.
Qed.

Lemma name_and_value_complete name value :
  option_name name ->
  name_and_value (match value with Some v => name +:+ "=" +:+ v | None => name end) = (name, value).
Proof.
  intros (Hne & Hf & _). destruct name as [|c r]; [done|]. unfold free_of in Hf. cbn [string_forallb] in Hf.
  apply andb_true_iff in Hf as [_ Hf]. destruct value as [v|]; cbn [name_and_value].
  - change (String c r +:+ "=" +:+ v) with (String c (r +:+ String "=" v)). cbn [name_and_value].
    by rewrite span_app.
  - rewrite <- (app_nil_r_s r) at 1. by rewrite span_app.
Qed.

(** An option's text is not mistaken for anything else. *)
Lemma option_text_ok name value :
  option_name name ->
  let text := match value with Some v => name +:+ "=" +:+ v | None => name end in
  (text =? "")%string || HasPrefix text "-" || HasPrefix text "=" = false.
Proof.
  intros (Hne & Hf & Hd). destruct name as [|c r]; [done|]. rewrite HasPrefix_char in Hd.
  unfold free_of in Hf. cbn [string_forallb] in Hf. apply andb_true_iff in Hf as [Hc _].
  apply negb_true_iff in Hc. rewrite Ascii.eqb_sym in Hc.
  destruct value as [v|]; cbn zeta beta;
    [change (String c r +:+ "=" +:+ v) with (String c (r +:+ "=" +:+ v))|]; by rewrite !HasPrefix_char, Hd, Hc.
Qed.

Lemma parseOne_option flags dash text args :
  dashes dash -> text <> ""%string -> HasPrefix text "-" = false ->
  parseOne flags ((dash +:+ text) :: args) = parse_option flags text args.
Proof.
  intros Hdash Hne Hp. destruct text as [|c r]; [done|]. rewrite HasPrefix_char in Hp.
  destruct Hdash as [-> | ->]; [|done]. change ("-" +:+ String c r) with (String "-" (String c r)).
  cbn [parseOne]. rewrite Ascii.eqb_refl, (Ascii.eqb_sym c), Hp. done.
Qed.

Lemma kinds_lookup flags name : kinds_of flags !! name = IsBoolFlag <$> flags !! name.
Proof. apply lookup_fmap. Qed.

(** ** Parsing reads what the grammar spells *)

Lemma parse_option_spells flags text args flags' args' dash :
  parse_option flags text args = Seen flags' args' -> dashes dash ->
  exists name value v v', flags !! name = Some v /\ Set_ v value = Some v' /\ flags' = <[name := v']> flags /\
    forall l, spells (kinds_of flags) args' l -> spells (kinds_of flags) ((dash +:+ text) :: args) ((name, value) :: l).
Proof.
  unfold parse_option. destruct (_ || _ || _) eqn:Et; [done|]. simp_bool.
  destruct (name_and_value text) as [name value] eqn:En.
  apply name_and_value_spec in En as [Hname ->]; [|by apply String.eqb_neq|done|done].
  destruct (flags !! name) as [v|] eqn:Ev; [|by destruct (_ || _)].
  assert (kinds_of flags !! name = Some (IsBoolFlag v)) as Hk by (by rewrite kinds_lookup, Ev).
  intros Hp Hdash. destruct (IsBoolFlag v) eqn:Eb.
  { apply assign_Seen in Hp as (v' & Hs & -> & ->). exists name, (default "true"%string value), v, v'.
    split_and!; [done..|]. intros l Hl.
    destruct value as [value|]; [by apply spells_equals|by apply spells_alone]. }
  destruct value as [value|]; [|destruct args as [|value args]; [done|]];
    apply assign_Seen in Hp as (v' & Hs & -> & ->); exists name, value, v, v'; (split_and!; [done..|]);
    intros l Hl; [by apply spells_equals|by apply spells_next].
Qed.

Lemma parseOne_spells flags args flags' args' :
  parseOne flags args = Seen flags' args' ->
  exists name value v v', flags !! name = Some v /\ Set_ v value = Some v' /\ flags' = <[name := v']> flags /\
    forall l, spells (kinds_of flags) args' l -> spells (kinds_of flags) args ((name, value) :: l).
Proof.
  destruct args as [|s rest]; [done|]. cbn [parseOne]. destruct s as [|m [|c r]]; [done..|].
  destruct (Ascii.eqb_spec m "-") as [->|]; [|done]. cbn [negb]. destruct (Ascii.eqb_spec c "-") as [->|].
  - destruct r as [|d r]; [done|]. intros H. apply (parse_option_spells _ _ _ _ _ "--" H). by right.
  - intros H. apply (parse_option_spells _ _ _ _ _ "-" H). by left.
Qed.

Lemma parseOne_ends flags args : parseOne flags args = Finished <-> ends args.
Proof.
  destruct args as [|s rest]; [done|]. cbn [parseOne ends]. destruct s as [|m [|c r]].
  - split; [|done]. intros _. right; left. cbn. lia.
  - split; [|done]. intros _. right; left. cbn. lia.
  - rewrite HasPrefix_char. destruct (Ascii.eqb_spec "-" m) as [<-|Hm].
    + rewrite Ascii.eqb_refl. cbn [negb]. destruct (Ascii.eqb_spec c "-") as [->|Hc].
      * destruct r as [|d r]; [split; auto|]. split; [|intros [?|[Hl|?]]; [done|cbn in Hl; lia|done]].
        intros H. exfalso. by eapply parse_option_not_finished.
      * split; [|intros [[= ?]|[Hl|?]]; [done|cbn in Hl; lia|done]].
        intros H. exfalso. by eapply parse_option_not_finished.
    + replace (Ascii.eqb m "-") with false by (symmetry; by apply Ascii.eqb_neq). cbn [negb]. split; auto.
Qed.

Lemma parse_all_spells fuel flags args flags' :
  parse_all fuel flags args = Ok flags' ->
  exists l, spells (kinds_of flags) args l /\ set_each flags l = Some flags'.
Proof.
  revert flags args. induction fuel as [|fuel IH]; intros flags args; cbn [parse_all];
    destruct (parseOne flags args) as [flags1 args1| |e] eqn:E; try done.
  1,3: apply parseOne_ends in E; intros [= <-]; exists []; split; [by constructor|done].
  intros (l & Hl & Hs)%IH. apply parseOne_spells in E as (name & value & v & v' & Hv & Hv' & -> & Hspell).
  rewrite (kinds_of_set _ _ _ _ _ Hv Hv') in Hl. exists ((name, value) :: l). split; [by apply Hspell|].
  cbn [set_each]. rewrite Hv. cbn [mbind option_bind]. by rewrite Hv'.
Qed.

(** ** What the grammar spells is parsed *)

Lemma parse_option_given flags name value v v' args :
  option_name name -> flags !! name = Some v -> Set_ v value = Some v' ->
  parse_option flags (name +:+ "=" +:+ value) args = Seen (<[name := v']> flags) args.
Proof.
  intros Hn Hv Hs. unfold parse_option. rewrite (option_text_ok name (Some value) Hn).
  rewrite (name_and_value_complete name (Some value) Hn), Hv. unfold assign. cbn [default from_option id].
  rewrite Hs. by destruct (IsBoolFlag v).
Qed.

Lemma parse_option_bare flags name v args :
  option_name name -> flags !! name = Some v ->
  parse_option flags name args =
  if IsBoolFlag v then assign flags name v "true" args else
  match args with
  | value :: args' => assign flags name v value args'
  | [] => Failed (Misuse ("flag needs an argument: -" +:+ name))
  end.
Proof.
  intros Hn Hv. unfold parse_option. rewrite (option_text_ok name None Hn).
  by rewrite (name_and_value_complete name None Hn), Hv.
Qed.

(** One option of the grammar is one step of the parser. *)
Inductive spelled_first (flags : FlagSet) (args args' : list string) (name value : string) : Prop :=
| spelled_first_intro : (forall v v', flags !! name = Some v -> Set_ v value = Some v' ->
    parseOne flags args = Seen (<[name := v']> flags) args') -> spelled_first flags args args' name value.

Lemma given_first flags dash name value rest :
  dashes dash -> option_name name ->
  spelled_first flags ((dash +:+ name +:+ "=" +:+ value) :: rest) rest name value.
Proof.
  intros Hd Hn. constructor. intros v v' Hv Hs. pose proof (option_text_ok name (Some value) Hn) as Ht. cbn zeta in Ht.
  simp_bool. rewrite parseOne_option; [by eapply parse_option_given|done|by apply String.eqb_neq|done].
Qed.

Lemma bare_first flags dash name rest rest' value :
  dashes dash -> option_name name ->
  (kinds_of flags !! name = Some true /\ rest' = rest /\ value = "true"%string) \/
  (kinds_of flags !! name = Some false /\ rest = value :: rest') ->
  spelled_first flags ((dash +:+ name) :: rest) rest' name value.
Proof.
  intros Hd Hn Hk. constructor. intros v v' Hv Hs. rewrite !kinds_lookup, Hv in Hk. cbn in Hk.
  rewrite parseOne_option; [|done|apply Hn|apply Hn]. rewrite (parse_option_bare _ _ v) by done. unfold assign.
  destruct Hk as [([= ->] & -> & ->)|[[= ->] ->]]; by rewrite Hs.
Qed.

Lemma parse_all_step flags args args' name value l flags' fuel :
  spelled_first flags args args' name value ->
  (forall flags1 fuel, kinds_of flags = kinds_of flags1 -> set_each flags1 l = Some flags' ->
     (length args' <= fuel)%nat -> parse_all fuel flags1 args' = Ok flags') ->
  set_each flags ((name, value) :: l) = Some flags' -> (length args <= fuel)%nat ->
  parse_all fuel flags args = Ok flags'.
Proof.
  intros [Hf] IH. cbn [set_each].
  destruct (flags !! name) as [v|] eqn:Ev; [|done]. cbn [mbind option_bind].
  destruct (Set_ v value) as [v'|] eqn:Es; [|done]. cbn [mbind option_bind]. intros Hs Hfuel.
  specialize (Hf v v' eq_refl Es). destruct (parseOne_Seen _ _ _ _ Hf) as [Hl _].
  destruct fuel as [|fuel]; [lia|]. cbn [parse_all]. rewrite Hf.
  apply IH; [symmetry; by eapply kinds_of_set|done|lia].
Qed.

Lemma parse_all_complete K args l :
  spells K args l -> forall flags flags' fuel,
  K = kinds_of flags -> set_each flags l = Some flags' -> (length args <= fuel)%nat ->
  parse_all fuel flags args = Ok flags'.
Proof.
  induction 1 as [rest He|dash name value rest l Hd Hn Hk Hl IH|dash name rest l Hd Hn Hk Hl IH
                 |dash name value rest l Hd Hn Hk Hl IH]; intros flags flags' fuel HK; subst K.
  - intros [= <-] _. apply (parseOne_ends flags) in He. destruct fuel; cbn [parse_all]; by rewrite He.
  - intros Hs Hf. eapply parse_all_step; [by apply given_first| |done|done]. intros; by eapply IH.
  - intros Hs Hf. eapply parse_all_step; [apply bare_first; [done|done|by left]| |done|done]. intros; by eapply IH.
  - intros Hs Hf. eapply parse_all_step; [apply bare_first; [done|done|by right]| |done|done]. intros; by eapply IH.
Qed.

(** [Parse] is exactly: read the options the grammar spells, set them in order. *)
Lemma Parse_grammar flags args flags' :
  Parse flags args = Ok flags' <-> exists l, spells (kinds_of flags) args l /\ set_each flags l = Some flags'.
Proof.
  split; [apply parse_all_spells|]. intros (l & Hl & Hs). by eapply parse_all_complete.
Qed.

(** ** The value of one option *)

(** The texts given to an option, in order. *)
Definition given (name : string) (l : list (string * string)) : list string :=
  (List.filter (fun p => (fst p =? name)%string) l).*2.

Fixpoint set_all (v : FlagValue) (texts : list string) : option FlagValue :=
  match texts with
  | [] => Some v
  | s :: texts' => v' ← Set_ v s; set_all v' texts'
  end.

Lemma set_each_lookup flags l flags' name v :
  set_each flags l = Some flags' -> flags !! name = Some v -> flags' !! name = set_all v (given name l).
Proof.
  unfold given. revert flags v. induction l as [|[n s] l IH]; intros flags v; cbn [set_each List.filter fst].
  { by intros [= <-]. }
  destruct (flags !! n) as [w|] eqn:Ew; [|done]. cbn [mbind option_bind].
  destruct (Set_ w s) as [w'|] eqn:Es; [|done]. cbn [mbind option_bind]. intros H Hv.
  destruct (String.eqb_spec n name) as [->|Hne].
  - rewrite fmap_cons. cbn [snd set_all]. rewrite Hv in Ew. injection Ew as ->. rewrite Es. cbn [mbind option_bind].
    eapply IH; [done|]. apply lookup_insert_eq.
  - eapply IH; [done|]. by rewrite lookup_insert_ne.
Qed.

(** A text option has the last text given, a list all of them after its own. *)
Lemma set_all_string s texts : set_all (StringValue s) texts = Some (StringValue (List.last texts s)).
Proof.
  revert s. induction texts as [|t texts IH]; intros s; [done|]. cbn [set_all Set_ mbind option_bind].
  by rewrite IH, last_cons_default.
Qed.

Lemma set_all_list l texts w : set_all (ListValue l) texts = Some w -> w = ListValue (l ++ texts).
Proof.
  revert l. induction texts as [|t texts IH]; intros l; cbn [set_all Set_].
  { intros [= <-]. by rewrite app_nil_r. }
  unfold StringList_Set. destruct (t =? "")%string; [done|]. cbn [mbind option_bind]. intros ->%IH.
  by rewrite <- app_assoc.
Qed.
