(* ===== verification/Netip.v ===== *)
(** * net/netip

    IP addresses and prefixes, their classification, order and text forms, as
    the standard library's [net/netip] gives them to the program.  An [Addr] is
    the zero value, a 32-bit IPv4 address, or a 128-bit IPv6 address with its
    zone (the empty string when there is none). *)

From S2P Require Export GoText.
From Stdlib Require Import String.
#[local] Open Scope Z_scope.
#[local] Abbreviation length := List.length.

Inductive Addr : Type :=
| AddrZero
| Addr4 (a : Z)
| Addr6 (a : Z) (zone : string).

#[export] Instance Addr_eq_dec : EqDecision Addr.
Proof. solve_decision. Defined.

(** The values a Go [netip.Addr] can hold. *)
Definition addr_wf (x : Addr) : bool :=
  match x with
  | AddrZero => false
  | Addr4 a => (0 <=? a) && (a <? 2 ^ 32)
  | Addr6 a _ => (0 <=? a) && (a <? 2 ^ 128)
  end.

(** ** Classification *)

Definition IsValid (x : Addr) : bool := match x with AddrZero => false | _ => true end.
Definition Is4 (x : Addr) : bool := match x with Addr4 _ => true | _ => false end.
Definition Is6 (x : Addr) : bool := match x with Addr6 _ _ => true | _ => false end.
Definition Is4In6 (x : Addr) : bool :=
  match x with Addr6 a _ => Z.shiftr a 32 =? 0xffff | _ => false end.
Definition Zone (x : Addr) : string := match x with Addr6 _ z => z | _ => "" end.
Definition hasZone (x : Addr) : bool := negb (Zone x =? "")%string.
Definition BitLen (x : Addr) : Z :=
  match x with AddrZero => 0 | Addr4 _ => 32 | Addr6 _ _ => 128 end.
Definition addr_bits (x : Addr) : Z :=
  match x with AddrZero => 0 | Addr4 a | Addr6 a _ => a end.

Definition Unmap (x : Addr) : Addr :=
  match x with
  | Addr6 a _ => if Is4In6 x then Addr4 (Z.land a 0xffffffff) else x
  | _ => x
  end.

Definition WithZone (x : Addr) (zone : string) : Addr :=
  match x with Addr6 a _ => Addr6 a zone | _ => x end.

(** The [n]-th octet of an IPv4 address, the [i]-th 16-bit group of an IPv6
    address, both counted from the left. *)
Definition v4 (a : Z) (n : Z) : Z := Z.land (Z.shiftr a (8 * (3 - n))) 0xff.
Definition v6u16 (a : Z) (i : Z) : Z := Z.land (Z.shiftr a (16 * (7 - i))) 0xffff.

Definition IsLoopback (x : Addr) : bool :=
  match Unmap x with
  | Addr4 a => v4 a 0 =? 127
  | Addr6 a _ => a =? 1
  | AddrZero => false
  end.

Definition IsMulticast (x : Addr) : bool :=
  match Unmap x with
  | Addr4 a => Z.land (v4 a 0) 0xf0 =? 0xe0
  | Addr6 a _ => Z.shiftr (v6u16 a 0) 8 =? 0xff
  | AddrZero => false
  end.

Definition IsLinkLocalUnicast (x : Addr) : bool :=
  match Unmap x with
  | Addr4 a => (v4 a 0 =? 169) && (v4 a 1 =? 254)
  | Addr6 a _ => Z.land (v6u16 a 0) 0xffc0 =? 0xfe80
  | AddrZero => false
  end.

Definition IsPrivate (x : Addr) : bool :=
  match Unmap x with
  | Addr4 a =>
      (v4 a 0 =? 10) || ((v4 a 0 =? 172) && (Z.land (v4 a 1) 0xf0 =? 16))
      || ((v4 a 0 =? 192) && (v4 a 1 =? 168))
  | Addr6 a _ => Z.land (Z.shiftr (v6u16 a 0) 8) 0xfe =? 0xfc
  | AddrZero => false
  end.

Definition IsGlobalUnicast (x : Addr) : bool :=
  match Unmap x with
  | AddrZero => false
  | y =>
      negb (bool_decide (y = Addr4 0)) && negb (bool_decide (y = Addr4 0xffffffff))
      && negb (bool_decide (y = Addr6 0 "")) && negb (IsLoopback y)
      && negb (IsMulticast y) && negb (IsLinkLocalUnicast y)
  end.

(** ** Order: family, then value, then zone *)

Definition Compare (x y : Addr) : comparison :=
  match BitLen x ?= BitLen y with
  | Eq =>
      match addr_bits x ?= addr_bits y with
      | Eq => String.compare (Zone x) (Zone y)
      | c => c
      end
  | c => c
  end.

(** ** Text: IPv4 *)

(** The loop of [parseIPv4Fields]: [fresh] holds at the start and just after a
    dot; [fields] are the octets read. *)
Fixpoint parse4_loop (s : string) (fresh : bool) (val digLen : Z) (fields : list Z)
    : option (list Z) :=
  match s with
  | EmptyString => if (length fields <? 3)%nat then None else Some (fields ++ [val])
  | String c s' =>
      if is_digit c then
        if (digLen =? 1) && (val =? 0) then None else
        let val' := val * 10 + digit_value c in
        if 255 <? val' then None else parse4_loop s' false val' (digLen + 1) fields
      else if Ascii.eqb c "." then
        if fresh || (s' =? "")%string then None else
        if (length fields =? 3)%nat then None else
        parse4_loop s' true 0 0 (fields ++ [val])
      else None
  end.

Definition parseIPv4Fields (s : string) : option (list Z) := parse4_loop s true 0 0 [].

Definition from_base (b : Z) (l : list Z) : Z := foldl (fun acc d => acc * b + d) 0 l.

Definition parseIPv4 (s : string) : option Addr :=
  match parseIPv4Fields s with
  | Some fields => Some (Addr4 (from_base 256 fields))
  | None => None
  end.

Definition string4 (a : Z) : string :=
  Join (FormatUint <$> [v4 a 0; v4 a 1; v4 a 2; v4 a 3]) ".".

(** ** Text: IPv6 *)

Definition is_hex (c : ascii) : bool :=
  is_digit c || ((97 <=? code c) && (code c <=? 102)) || ((65 <=? code c) && (code c <=? 70)).

Definition hex_value (c : ascii) : Z :=
  if is_digit c then code c - 48 else if 97 <=? code c then code c - 87 else code c - 55.

Fixpoint hex_acc (acc : Z) (s : string) : Z :=
  match s with
  | EmptyString => acc
  | String c s' => hex_acc (acc * 16 + hex_value c) s'
  end.

Definition hi16 (fields : list Z) : list Z :=
  match fields with
  | [a; b; c; d] => [a * 256 + b; c * 256 + d]
  | _ => []
  end.

(** The loop of [parseIPv6]; [fuel] is the number of groups there is room for
    ([i < 16] counted in groups).  The result holds the groups read, the
    position of the ellipsis, and the string that is left. *)
Fixpoint parse6_loop (fuel : nat) (s : string) (groups : list Z) (ellipsis : option nat)
    : option (list Z * option nat * string) :=
  match fuel with
  | O => Some (groups, ellipsis, s)
  | S fuel' =>
      let '(h, rest) := span is_hex s in
      if (4 <? String.length h)%nat then None else
      if (h =? "")%string then None else
      match rest with
      | EmptyString => Some (groups ++ [hex_acc 0 h], ellipsis, ""%string)
      | String c rest' =>
          if Ascii.eqb c "." then
            if bool_decide (ellipsis = None) && negb (length groups =? 6)%nat then None else
            if (6 <? length groups)%nat then None else
            match parseIPv4Fields s with
            | Some fields => Some (groups ++ hi16 fields, ellipsis, ""%string)
            | None => None
            end
          else
          let groups' := groups ++ [hex_acc 0 h] in
          if negb (Ascii.eqb c ":") then None else
          match rest' with
          | EmptyString => None
          | String c2 rest2 =>
              if Ascii.eqb c2 ":" then
                match ellipsis with
                | Some _ => None
                | None =>
                    if (rest2 =? "")%string then Some (groups', Some (length groups'), ""%string)
                    else parse6_loop fuel' rest2 groups' (Some (length groups'))
                end
              else parse6_loop fuel' rest' groups' ellipsis
          end
      end
  end.

(** Fill the ellipsis with zero groups; it must stand for at least one. *)
Definition expand6 (groups : list Z) (ellipsis : option nat) : option (list Z) :=
  if (length groups <? 8)%nat then
    match ellipsis with
    | None => None
    | Some e => Some (take e groups ++ replicate (8 - length groups) 0 ++ drop e groups)
    end
  else match ellipsis with Some _ => None | None => Some groups end.

Definition not_char (d c : ascii) : bool := negb (Ascii.eqb c d).

Definition parse6_body (s : string) : option Z :=
  let start :=
    match strip_prefix "::" s with
    | Some s' => if (s' =? "")%string then None else Some (s', Some 0%nat)
    | None => Some (s, None)
    end in
  match start with
  | None => Some 0
  | Some (s', ellipsis) =>
      match parse6_loop 8 s' [] ellipsis with
      | Some (groups, e, EmptyString) => from_base 65536 <$> expand6 groups e
      | _ => None
      end
  end.

Definition parseIPv6 (s : string) : option Addr :=
  match span (not_char "%") s with
  | (s', EmptyString) => (fun a => Addr6 a "") <$> parse6_body s'
  | (s', String _ zone) =>
      if (zone =? "")%string then None else (fun a => Addr6 a zone) <$> parse6_body s'
  end.

(** [netip.ParseAddr]: the first of [. : %] chooses the form. *)
Fixpoint addr_form (s : string) : option ascii :=
  match s with
  | EmptyString => None
  | String c s' =>
      if Ascii.eqb c "." || Ascii.eqb c ":" || Ascii.eqb c "%" then Some c else addr_form s'
  end.

Definition ParseAddr (s : string) : option Addr :=
  match addr_form s with
  | Some c =>
      if Ascii.eqb c "." then parseIPv4 s
      else if Ascii.eqb c ":" then parseIPv6 s else None
  | None => None
  end.

(** [appendHex]: a 16-bit group without leading zeros. *)
Definition nibble (x n : Z) : Z := Z.land (Z.shiftr x (4 * n)) 0xf.

Definition appendHex (x : Z) : string :=
  let d n := hex_char (nibble x n) in
  (if 0x1000 <=? x then String (d 3) "" else "") +:+
  (if 0x100 <=? x then String (d 2) "" else "") +:+
  (if 0x10 <=? x then String (d 1) "" else "") +:+ String (d 0) "".

Fixpoint zero_run (l : list Z) : nat :=
  match l with 0 :: l' => S (zero_run l') | _ => O end.

(** The first longest run of at least two zero groups: its start and length. *)
Definition longest_run (groups : list Z) : option (nat * nat) :=
  foldl (fun best i =>
    let l := zero_run (drop i groups) in
    if (2 <=? l)%nat && (default 0%nat (snd <$> best) <? l)%nat then Some (i, l) else best)
    None (seq 0 8).

Definition groups6 (a : Z) : list Z := v6u16 a <$> [0; 1; 2; 3; 4; 5; 6; 7].

Definition join6 (l : list Z) : string := Join (appendHex <$> l) ":".

Definition string6 (a : Z) : string :=
  let g := groups6 a in
  match longest_run g with
  | None => join6 g
  | Some (i, l) => join6 (take i g) +:+ "::" +:+ join6 (drop (i + l) g)
  end.

Definition zone_suffix (zone : string) : string :=
  if (zone =? "")%string then "" else "%" +:+ zone.

(** [Addr.String]. *)
Definition AddrString (x : Addr) : string :=
  match x with
  | AddrZero => "invalid IP"
  | Addr4 a => string4 a
  | Addr6 a zone =>
      (if Is4In6 x then "::ffff:" +:+ string4 (Z.land a 0xffffffff) else string6 a)
      +:+ zone_suffix zone
  end.

(** ** Prefixes *)

Record Prefix := { pfx_addr : Addr; pfx_bits : Z }.

#[export] Instance Prefix_eq_dec : EqDecision Prefix.
Proof. solve_decision. Defined.

(** Split at the last slash. *)
Fixpoint last_slash (s : string) : option (string * string) :=
  match s with
  | EmptyString => None
  | String c s' =>
      match last_slash s' with
      | Some (a, b) => Some (String c a, b)
      | None => if Ascii.eqb c "/" then Some (""%string, s') else None
      end
  end.

Definition bad_bits (s : string) : bool :=
  match s with
  | String c (String _ _) => negb ((49 <=? code c) && (code c <=? 57))
  | _ => false
  end.

(** [netip.ParsePrefix]. *)
Definition ParsePrefix (s : string) : option Prefix :=
  match last_slash s with
  | None => None
  | Some (a, b) =>
      match ParseAddr a with
      | None => None
      | Some ip =>
          if Is6 ip && hasZone ip then None else
          if bad_bits b then None else
          match ParseInt b with
          | None => None
          | Some bits =>
              if (bits <? 0) || ((if Is6 ip then 128 else 32) <? bits) then None
              else Some {| pfx_addr := ip; pfx_bits := bits |}
          end
      end
  end.

(** [Prefix.Contains]: an address with a zone is in no prefix. *)
Definition Contains (p : Prefix) (ip : Addr) : bool :=
  let n := BitLen (pfx_addr p) in
  negb (hasZone ip) && negb (n =? 0) && (n =? BitLen ip)
  && (Z.shiftr (Z.lxor (addr_bits ip) (addr_bits (pfx_addr p))) (n - pfx_bits p) =? 0).

(** ** Examples *)

Example parse_examples :
  (fun s => AddrString <$> ParseAddr s) <$>
    ["203.0.113.42"; "2001:DB8:0:0:0:0:0:42"; "::"; "::1"; "1::"; "fe80::1%eth0";
     "::ffff:1.2.3.4"; "1:2:3:4:5:6:7:8"; "1:0:0:2:0:0:0:3"; "1:2:3:4:5:6:1.2.3.4"]%string =
  Some <$>
    ["203.0.113.42"; "2001:db8::42"; "::"; "::1"; "1::"; "fe80::1%eth0";
     "::ffff:1.2.3.4"; "1:2:3:4:5:6:7:8"; "1:0:0:2::3"; "1:2:3:4:5:6:102:304"]%string.
Proof. vm_compute. reflexivity. Qed.

Example parse_rejects :
  ParseAddr <$>
    [""; "1.2.3"; "01.2.3.4"; "1.2.3.256"; "1.2.3.4."; "1..2.3"; "1:2:3:4:5:6:7";
     "1:2:3:4:5:6:7:8:9"; "1::2::3"; "12345::"; ":1"; "1:"; "::%"; "1.2.3.4%eth0";
     "1:2:3:4:5:6:7::8"; "g::"; "1::2:3:4:5:6:7:8"]%string =
  replicate 17 None.
Proof. vm_compute. reflexivity. Qed.

(** ** Lemmas: order *)

Lemma string_compare_refl s : String.compare s s = Eq.
Proof.
  induction s as [|c s IH]; [done|]. cbn. unfold Ascii.compare.
  by rewrite N.compare_refl.
Qed.

Lemma Compare_eq x y : Compare x y = Eq <-> x = y.
Proof.
  unfold Compare. split.
  - destruct x as [|a|a z], y as [|b|b z']; cbn; try done;
      (destruct (Z.compare_spec a b) as [->| |]; [|done..]); [done|].
    intros H. by apply String.compare_eq_iff in H as ->.
  - intros ->. rewrite !Z.compare_refl. apply string_compare_refl.
Qed.

Lemma Compare_antisym x y : Compare y x = CompOpp (Compare x y).
Proof.
  unfold Compare. rewrite (Z.compare_antisym (BitLen x)), (Z.compare_antisym (addr_bits x)).
  destruct (BitLen x ?= BitLen y); cbn; [|done..].
  destruct (addr_bits x ?= addr_bits y); cbn; [|done..].
  apply String.compare_antisym.
Qed.

Definition addr_le (x y : Addr) : Prop := Compare x y <> Gt.

#[export] Instance addr_le_dec : RelDecision addr_le.
Proof. intros x y. unfold addr_le. apply _. Defined.

Lemma string_compare_le s t : String.compare s t <> Gt <-> String.le s t.
Proof.
  unfold String.le, String.leb. destruct (String.compare s t); naive_solver.
Qed.

#[export] Instance addr_le_po : PartialOrder addr_le.
Proof.
  split; [split|].
  - intros x. unfold addr_le. rewrite (proj2 (Compare_eq x x)); done.
  - intros x y z. unfold addr_le, Compare.
    destruct (Z.compare_spec (BitLen x) (BitLen y)), (Z.compare_spec (BitLen y) (BitLen z)),
      (Z.compare_spec (BitLen x) (BitLen z)); try done; try lia.
    destruct (Z.compare_spec (addr_bits x) (addr_bits y)),
      (Z.compare_spec (addr_bits y) (addr_bits z)),
      (Z.compare_spec (addr_bits x) (addr_bits z)); try done; try lia.
    rewrite !string_compare_le. intros. by etrans.
  - intros x y. unfold addr_le. rewrite (Compare_antisym x y). intros H1 H2.
    apply Compare_eq. by destruct (Compare x y).
Qed.

#[export] Instance addr_le_total : Total addr_le.
Proof.
  intros x y. unfold addr_le. rewrite (Compare_antisym x y).
  destruct (Compare x y); cbn; auto.
Qed.

(** ** Lemmas: unmapping *)

Lemma Unmap_not_mapped x : Is4In6 (Unmap x) = false.
Proof. destruct x as [|a|a z]; cbn; [done..|]. by case_match. Qed.

Lemma Unmap_idemp x : Unmap (Unmap x) = Unmap x.
Proof. destruct x as [|a|a z]; cbn; [done..|]. case_match eqn:E; cbn; by rewrite ?E. Qed.

Lemma Unmap_id x : Is4In6 x = false -> Unmap x = x.
Proof. destruct x as [|a|a z]; cbn; [done..|]. by intros ->. Qed.

Lemma Unmap_wf x : addr_wf x = true -> addr_wf (Unmap x) = true.
Proof.
  destruct x as [|a|a z]; cbn; [done..|]. intros H.
  case_match; [|done]. cbn.
  assert (0 <= Z.land a 0xffffffff < 2 ^ 32).
  { replace 0xffffffff with (Z.ones 32) by done. rewrite Z.land_ones by done.
    apply Z.mod_pos_bound. lia. }
  lia.
Qed.

(** ** Lemmas: the text of an IPv4 address reads back *)

Lemma parse4_digits ds rest fresh val n fields v :
  0 < val -> parse_digits val ds = Some v -> v < 256 ->
  parse4_loop (ds +:+ rest) fresh val n fields =
  match ds with
  | EmptyString => parse4_loop rest fresh val n fields
  | _ => parse4_loop rest false v (n + Z.of_nat (String.length ds)) fields
  end.
Proof.
  revert fresh val n. induction ds as [|c ds IH]; intros fresh val n Hval Hp Hv; [done|].
  cbn [String.append parse4_loop parse_digits] in *.
  destruct (is_digit c) eqn:Ec; [|done].
  pose proof (parse_digits_bound _ _ _ Hp) as B.
  assert (0 <= digit_value c) by (unfold is_digit, digit_value in *; simp_bool; lia).
  assert (val * 10 + digit_value c <= v).
  { assert (1 <= 10 ^ Z.of_nat (String.length ds)).
    { pose proof (Z.pow_pos_nonneg 10 (Z.of_nat (String.length ds))). lia. } nia. }
  destruct (Z.eqb_spec val 0); [lia|]. rewrite andb_false_r.
  destruct (Z.ltb_spec 255 (val * 10 + digit_value c)); [lia|].
  change (String.append ds rest) with (ds +:+ rest). rewrite IH by (done || lia).
  destruct ds as [|c' ds].
  - cbn in Hp. injection Hp as <-. done.
  - f_equal. cbn [String.length]. lia.
Qed.

(** An octet's text is read whole from a fresh field. *)
Lemma parse4_octet v rest fields :
  0 <= v < 256 ->
  exists n, parse4_loop (FormatUint v +:+ rest) true 0 0 fields =
            parse4_loop rest false v n fields.
Proof.
  intros Hv. destruct (Z.eq_dec v 0) as [->|]; [by eexists|].
  destruct (FormatUint_head v ltac:(lia)) as (c & ds & E & Hc & Hc0).
  pose proof (FormatUint_parse v ltac:(lia)) as Hp. rewrite E in *.
  cbn [String.append parse4_loop parse_digits] in *. rewrite Hc in *.
  pose proof (parse_digits_bound _ _ _ Hp) as B.
  assert (0 < digit_value c) by (unfold is_digit, digit_value in *; simp_bool; lia).
  assert (digit_value c <= v).
  { assert (1 <= 10 ^ Z.of_nat (String.length ds)).
    { pose proof (Z.pow_pos_nonneg 10 (Z.of_nat (String.length ds))). lia. } nia. }
  change (0 =? 1) with false. cbn [andb].
  rewrite Z.mul_0_l, Z.add_0_l in *.
  destruct (Z.ltb_spec 255 (digit_value c)); [lia|].
  change (String.append ds rest) with (ds +:+ rest).
  rewrite (parse4_digits _ _ _ _ _ _ v) by (done || lia).
  destruct ds; [|by eexists]. injection Hp as ->. by eexists.
Qed.

Lemma parse4_octet_dot v rest fields :
  0 <= v < 256 -> rest <> ""%string -> (length fields < 3)%nat ->
  parse4_loop (FormatUint v +:+ "." +:+ rest) true 0 0 fields =
  parse4_loop rest true 0 0 (fields ++ [v]).
Proof.
  intros Hv Hr Hl. destruct (parse4_octet v ("." +:+ rest) fields Hv) as [n ->].
  cbn [String.append parse4_loop orb].
  change (is_digit ".") with false. change (Ascii.eqb "." ".") with true. cbn iota.
  destruct (String.eqb_spec rest ""); [done|].
  destruct (Nat.eqb_spec (length fields) 3); [lia|done].
Qed.

Lemma parse4_octet_end v fields :
  0 <= v < 256 -> length fields = 3%nat ->
  parse4_loop (FormatUint v) true 0 0 fields = Some (fields ++ [v]).
Proof.
  intros Hv Hl. rewrite <- (app_nil_r_s (FormatUint v)).
  destruct (parse4_octet v "" fields Hv) as [n ->]. cbn. by rewrite Hl.
Qed.

Lemma v4_range a n : 0 <= v4 a n < 256.
Proof.
  unfold v4. change 255 with (Z.ones 8). rewrite Z.land_ones by done.
  apply Z.mod_pos_bound. lia.
Qed.

Lemma string4_fields a : parseIPv4Fields (string4 a) = Some [v4 a 0; v4 a 1; v4 a 2; v4 a 3].
Proof.
  unfold parseIPv4Fields, string4. cbn [fmap list_fmap Join].
  pose proof (fun n => FormatUint_nonempty (v4 a n)) as Hne.
  assert (forall s t, s <> ""%string -> (s +:+ t) <> ""%string) as Happ by (by intros [] ?).
  rewrite !parse4_octet_dot by (apply v4_range || auto || (cbn; lia)).
  by rewrite parse4_octet_end by (apply v4_range || done).
Qed.

(** Splitting a number in its base-2^k digits and putting them together. *)
Lemma shiftr_land_mod a k m : 0 <= k -> 0 <= m -> Z.land (Z.shiftr a k) (Z.ones m) = (a / 2 ^ k) mod 2 ^ m.
Proof. intros. by rewrite Z.land_ones, Z.shiftr_div_pow2 by done. Qed.

Lemma from_base_snoc b l d : from_base b (l ++ [d]) = from_base b l * b + d.
Proof. unfold from_base. by rewrite foldl_app. Qed.

Lemma div_mod_step a b c m : 0 < b -> 0 < c -> m = b * c -> a / m * c + a / b mod c = a / b.
Proof.
  intros Hb Hc ->. rewrite <- Z.div_div by lia.
  pose proof (Z.div_mod (a / b) c). lia.
Qed.

Lemma v4_from_base a : 0 <= a < 2 ^ 32 -> from_base 256 [v4 a 0; v4 a 1; v4 a 2; v4 a 3] = a.
Proof.
  intros H. unfold from_base. cbn [foldl]. unfold v4.
  change 255 with (Z.ones 8). rewrite !shiftr_land_mod by lia.
  change (8 * (3 - 0)) with 24. change (8 * (3 - 1)) with 16.
  change (8 * (3 - 2)) with 8. change (8 * (3 - 3)) with 0.
  rewrite (Z.mod_small (a / 2 ^ 24)).
  2:{ split; [apply Z.div_pos; lia|apply Z.div_lt_upper_bound; lia]. }
  rewrite Z.mul_0_l, Z.add_0_l.
  rewrite (div_mod_step a (2 ^ 16) 256), (div_mod_step a (2 ^ 8) 256),
    (div_mod_step a (2 ^ 0) 256) by done.
  apply Z.div_1_r.
Qed.
