(* ===== verification/NetipText.v ===== *)
(** * net/netip: an address's text reads back

    [ParseAddr (AddrString x) = Some x] for every valid address: the store and
    the agent keep addresses as text and rely on reading back what they wrote. *)

From S2P Require Export Netip.
From Stdlib Require Import String.
#[local] Open Scope Z_scope.
#[local] Abbreviation length := List.length.

(** ** Hexadecimal groups *)

Lemma hex_char_spec d :
  0 <= d < 16 -> is_hex (hex_char d) = true /\ hex_value (hex_char d) = d.
Proof.
  intros H.
  assert (Forall (fun d => is_hex (hex_char d) = true /\ hex_value (hex_char d) = d)
    (seqZ 0 16)) as HF by (repeat (apply Forall_cons; split; [by split|]); by apply Forall_nil).
  rewrite Forall_forall in HF. apply HF. apply elem_of_seqZ. lia.
Qed.

Lemma nibble_range x n : 0 <= nibble x n < 16.
Proof. unfold nibble. change 15 with (Z.ones 4). rewrite Z.land_ones by done. by apply Z.mod_pos_bound. Qed.

Lemma appendHex_spec x :
  0 <= x < 2 ^ 16 ->
  string_forallb is_hex (appendHex x) = true /\ hex_acc 0 (appendHex x) = x /\
  (1 <= String.length (appendHex x) <= 4)%nat.
Proof.
  intros Hx. unfold appendHex.
  assert (forall n, is_hex (hex_char (nibble x n)) = true) as Hh
    by (intros; apply hex_char_spec, nibble_range).
  assert (forall n, hex_value (hex_char (nibble x n)) = nibble x n) as Hv
    by (intros; apply hex_char_spec, nibble_range).
  assert (forall n, 0 <= n -> nibble x n = (x / 2 ^ (4 * n)) mod 16) as Hd.
  { intros n Hn. unfold nibble. change 15 with (Z.ones 4).
    rewrite Z.land_ones, Z.shiftr_div_pow2 by lia. done. }
  pose proof (Z.div_mod x 16 ltac:(lia)).
  pose proof (Z.div_mod (x / 16) 16 ltac:(lia)).
  pose proof (Z.div_mod (x / 256) 16 ltac:(lia)).
  pose proof (Z.mod_pos_bound x 16 ltac:(lia)).
  pose proof (Z.mod_pos_bound (x / 16) 16 ltac:(lia)).
  pose proof (Z.mod_pos_bound (x / 256) 16 ltac:(lia)).
  assert (x / 256 = x / 16 / 16) by (rewrite Z.div_div by lia; done).
  assert (x / 4096 = x / 256 / 16) by (rewrite Z.div_div by lia; done).
  assert (nibble x 0 = x mod 16) as Hd0 by (rewrite Hd, Z.div_1_r by lia; done).
  assert (nibble x 1 = (x / 16) mod 16) as Hd1 by (rewrite Hd by lia; done).
  assert (nibble x 2 = (x / 256) mod 16) as Hd2 by (rewrite Hd by lia; done).
  assert (nibble x 3 = x / 4096) as Hd3.
  { rewrite Hd by lia. change (2 ^ (4 * 3)) with 4096. apply Z.mod_small. lia. }
  destruct (Z.leb_spec 0x1000 x), (Z.leb_spec 0x100 x), (Z.leb_spec 0x10 x); try lia;
    cbn [String.append string_forallb hex_acc String.length]; rewrite ?Hh, ?Hv;
    (split; [done|split; [|lia]]); lia.
Qed.

Lemma v6u16_range a i : 0 <= v6u16 a i < 2 ^ 16.
Proof.
  unfold v6u16. change 0xffff with (Z.ones 16). rewrite Z.land_ones by done.
  apply Z.mod_pos_bound. lia.
Qed.

(** ** The groups of an address *)

Definition group (x : Z) : Prop := 0 <= x < 2 ^ 16.

Lemma groups6_range a : Forall group (groups6 a).
Proof. unfold groups6. repeat constructor; apply v6u16_range. Qed.

Lemma groups6_from_base a : 0 <= a < 2 ^ 128 -> from_base 65536 (groups6 a) = a.
Proof.
  intros H. unfold groups6, from_base. cbn [foldl fmap list_fmap]. unfold v6u16.
  change 0xffff with (Z.ones 16). rewrite !shiftr_land_mod by lia.
  change (16 * (7 - 0)) with 112. change (16 * (7 - 1)) with 96.
  change (16 * (7 - 2)) with 80. change (16 * (7 - 3)) with 64.
  change (16 * (7 - 4)) with 48. change (16 * (7 - 5)) with 32.
  change (16 * (7 - 6)) with 16. change (16 * (7 - 7)) with 0.
  rewrite (Z.mod_small (a / 2 ^ 112)).
  2:{ split; [apply Z.div_pos; lia|apply Z.div_lt_upper_bound; lia]. }
  rewrite Z.mul_0_l, Z.add_0_l.
  rewrite (div_mod_step a (2 ^ 96)), (div_mod_step a (2 ^ 80)), (div_mod_step a (2 ^ 64)),
    (div_mod_step a (2 ^ 48)), (div_mod_step a (2 ^ 32)), (div_mod_step a (2 ^ 16)),
    (div_mod_step a (2 ^ 0)) by done.
  apply Z.div_1_r.
Qed.

(** ** The parser on printed groups *)

Lemma join6_cons x y l : join6 (x :: y :: l) = appendHex x +:+ ":" +:+ join6 (y :: l).
Proof. done. Qed.

Lemma join6_hex_head x l :
  group x -> exists c s, join6 (x :: l) = String c s /\ is_hex c = true.
Proof.
  intros Hx. destruct (appendHex_spec x Hx) as (Hh & _ & Hl).
  destruct (appendHex x) as [|c s] eqn:E; [cbn in Hl; lia|].
  cbn in Hh. apply andb_true_iff in Hh as [Hc _].
  destruct l as [|y l]; [exists c, s; by rewrite <- E|].
  rewrite join6_cons, E. by eexists _, _.
Qed.

Lemma is_hex_colon : is_hex ":" = false.
Proof. done. Qed.
Lemma is_hex_not_colon c : is_hex c = true -> Ascii.eqb c ":" = false.
Proof. intros H. destruct (Ascii.eqb_spec c ":") as [->|]; [done|done]. Qed.

(** One step over a group followed by [rest]. *)
Lemma parse6_step fuel x rest gs e :
  group x -> match rest with EmptyString => True | String c _ => is_hex c = false end ->
  parse6_loop (S fuel) (appendHex x +:+ rest) gs e =
  match rest with
  | EmptyString => Some (gs ++ [x], e, ""%string)
  | String c rest' =>
      if Ascii.eqb c "." then
        if bool_decide (e = None) && negb (length gs =? 6)%nat then None else
        if (6 <? length gs)%nat then None else
        match parseIPv4Fields (appendHex x +:+ rest) with
        | Some fields => Some (gs ++ hi16 fields, e, ""%string)
        | None => None
        end
      else if negb (Ascii.eqb c ":") then None else
      match rest' with
      | EmptyString => None
      | String c2 rest2 =>
          if Ascii.eqb c2 ":" then
            match e with
            | Some _ => None
            | None =>
                if (rest2 =? "")%string
                then Some (gs ++ [x], Some (length (gs ++ [x])), ""%string)
                else parse6_loop fuel rest2 (gs ++ [x]) (Some (length (gs ++ [x])))
            end
          else parse6_loop fuel rest' (gs ++ [x]) e
      end
  end.
Proof.
  intros Hx Hr. cbn [parse6_loop].
  destruct (appendHex_spec x Hx) as (Hh & Hacc & Hl).
  rewrite (span_app is_hex) by done. rewrite Hacc.
  destruct (Nat.ltb_spec 4 (String.length (appendHex x))); [lia|].
  destruct (String.eqb_spec (appendHex x) "") as [E|]; [rewrite E in Hl; cbn in Hl; lia|].
  done.
Qed.

(** Groups up to the end of the text. *)
Lemma parse6_tail l fuel gs e :
  Forall group l -> l <> [] -> (length l <= fuel)%nat ->
  parse6_loop fuel (join6 l) gs e = Some (gs ++ l, e, ""%string).
Proof.
  revert fuel gs. induction l as [|x l IH]; intros fuel gs Hl Hne Hf; [done|].
  destruct fuel as [|fuel]; [cbn in Hf; lia|]. inversion_clear Hl as [|?? Hx Hl'].
  destruct l as [|y l].
  - change (join6 [x]) with (appendHex x). rewrite <- (app_nil_r_s (appendHex x)).
    by rewrite parse6_step.
  - rewrite join6_cons, parse6_step by done. cbn [String.append].
    change (Ascii.eqb ":" ".") with false. change (Ascii.eqb ":" ":") with true. cbn [negb].
    destruct (join6_hex_head y l) as (c & s & E & Hc); [by inversion Hl'|].
    rewrite E, is_hex_not_colon by done. rewrite <- E.
    rewrite IH by (done || (cbn in *; lia)). by rewrite <- app_assoc.
Qed.

(** Groups up to a double colon. *)
Lemma parse6_ellipsis l fuel gs rest :
  Forall group l -> l <> [] -> (length l <= fuel)%nat ->
  parse6_loop fuel (join6 l +:+ "::" +:+ rest) gs None =
  if (rest =? "")%string then Some (gs ++ l, Some (length (gs ++ l)), ""%string)
  else parse6_loop (fuel - length l) rest (gs ++ l) (Some (length (gs ++ l))).
Proof.
  revert fuel gs. induction l as [|x l IH]; intros fuel gs Hl Hne Hf; [done|].
  destruct fuel as [|fuel]; [cbn in Hf; lia|]. inversion_clear Hl as [|?? Hx Hl'].
  destruct l as [|y l].
  - change (join6 [x]) with (appendHex x). rewrite parse6_step by done.
    cbn -[parse6_loop String.eqb]. by rewrite Nat.sub_0_r.
  - rewrite join6_cons, !app_assoc_s, parse6_step by done. cbn [String.append].
    change (Ascii.eqb ":" ".") with false. change (Ascii.eqb ":" ":") with true. cbn [negb].
    destruct (join6_hex_head y l) as (c & s & E & Hc); [by inversion Hl'|].
    pose proof (IH fuel (gs ++ [x]) Hl' ltac:(done) ltac:(cbn in *; lia)) as IH'.
    rewrite E in IH' |- *. cbn [String.append] in IH' |- *.
    rewrite is_hex_not_colon by done. rewrite IH'. rewrite <- !app_assoc. done.
Qed.

(** ** The longest run of zeros *)

Lemma zero_run_spec l : take (zero_run l) l = replicate (zero_run l) 0.
Proof. induction l as [|x l IH]; [done|]. destruct x; [|done..]. cbn. by f_equal. Qed.

Lemma zero_run_length l : (zero_run l <= length l)%nat.
Proof. induction l as [|x l IH]; [done|]. destruct x; cbn; lia. Qed.

Lemma longest_run_spec g i n :
  longest_run g = Some (i, n) ->
  (2 <= n)%nat /\ n = zero_run (drop i g).
Proof.
  unfold longest_run. intros H.
  assert (forall js best, (forall i n, best = Some (i, n) -> (2 <= n)%nat /\ n = zero_run (drop i g)) ->
    forall i n, foldl (fun best i =>
    let l := zero_run (drop i g) in
    if (2 <=? l)%nat && (default 0%nat (snd <$> best) <? l)%nat then Some (i, l) else best)
    best js = Some (i, n) -> (2 <= n)%nat /\ n = zero_run (drop i g)) as Hf.
  { induction js as [|j js IH]; intros best Hb i' n'; cbn [foldl]; [apply Hb|].
    apply IH. intros i2 n2. cbv zeta.
    destruct (Nat.leb_spec 2 (zero_run (drop j g))); cbn [andb]; [|apply Hb].
    case_match; [|apply Hb]. by intros [= <- <-]. }
  eapply Hf; [|exact H]. done.
Qed.

Lemma longest_run_split g i n :
  longest_run g = Some (i, n) ->
  g = take i g ++ replicate n 0 ++ drop (i + n) g /\ (2 <= n)%nat /\ (i + n <= length g)%nat.
Proof.
  intros (Hn & ->)%longest_run_spec.
  pose proof (zero_run_length (drop i g)) as Hl. rewrite length_drop in Hl.
  split; [|split; lia].
  rewrite <- zero_run_spec. rewrite <- drop_drop. by rewrite take_drop, take_drop.
Qed.

(** ** Reading back *)

Lemma strip_prefix_none_hex c s : is_hex c = true -> strip_prefix "::" (String c s) = None.
Proof. intros H. cbn [strip_prefix]. rewrite Ascii.eqb_sym, is_hex_not_colon; done. Qed.

(** A left part, an ellipsis and a right part read as the two parts with zeros
    between them. *)
Lemma parse6_body_ellipsis l r :
  Forall group l -> Forall group r -> (length l + length r <= 6)%nat ->
  parse6_body (join6 l +:+ "::" +:+ join6 r) =
  Some (from_base 65536 (l ++ replicate (8 - (length l + length r)) 0 ++ r)).
Proof.
  intros Hl Hr Hlen.
  assert (match parse6_loop (8 - length l) (join6 r) l (Some (length l)) with
          | Some (groups, e, EmptyString) => from_base 65536 <$> expand6 groups e
          | _ => None end =
    Some (from_base 65536 (l ++ replicate (8 - (length l + length r)) 0 ++ r)) \/ r = []) as HR.
  { destruct (decide (r = [])) as [|Hne]; [by right|]. left.
    rewrite parse6_tail by (done || lia). unfold expand6. rewrite length_app.
    destruct (Nat.ltb_spec (length l + length r) 8); [|lia]. cbn.
    by rewrite take_app_length, drop_app_length. }
  assert ((join6 r =? "")%string = bool_decide (r = [])) as He'.
  { destruct r as [|x r]; [done|].
    destruct (join6_hex_head x r) as (c & s & -> & _); [by inversion Hr|].
    by rewrite bool_decide_eq_false_2. }
  unfold parse6_body.
  destruct l as [|x l].
  - change (join6 [] +:+ "::" +:+ join6 r) with ("::" +:+ join6 r).
    rewrite strip_prefix_app, He'. destruct (decide (r = [])) as [->|Hne]; [done|].
    rewrite bool_decide_eq_false_2 by done. destruct HR as [HR|]; done.
  - destruct (join6_hex_head x l) as (c & s & E & Hc); [by inversion Hl|].
    replace (strip_prefix "::" (join6 (x :: l) +:+ "::" +:+ join6 r)) with (@None string)
      by (rewrite E; symmetry; apply strip_prefix_none_hex; done).
    rewrite parse6_ellipsis by (done || (cbn in *; lia)). rewrite He'.
    cbn [app]. case_bool_decide as Hr0.
    + subst r. unfold expand6.
      destruct (Nat.ltb_spec (length (x :: l)) 8); [|cbn in *; lia].
      rewrite firstn_all, drop_all. cbn [length]. by rewrite Nat.add_0_r.
    + by destruct HR.
Qed.

Lemma parse6_body_full l :
  Forall group l -> length l = 8%nat -> parse6_body (join6 l) = Some (from_base 65536 l).
Proof.
  intros Hl Hlen. destruct l as [|x l]; [done|].
  destruct (join6_hex_head x l) as (c & s & E & Hc); [by inversion Hl|].
  unfold parse6_body.
  replace (strip_prefix "::" (join6 (x :: l))) with (@None string)
    by (rewrite E; symmetry; apply strip_prefix_none_hex; done).
  rewrite parse6_tail by (done || lia). unfold expand6. cbn [app]. by rewrite Hlen.
Qed.

Lemma parse6_body_string6 a : 0 <= a < 2 ^ 128 -> parse6_body (string6 a) = Some a.
Proof.
  intros Ha. unfold string6. pose proof (groups6_range a) as Hg.
  assert (length (groups6 a) = 8%nat) as Hlen by done.
  trans (Some (from_base 65536 (groups6 a))); [|by rewrite groups6_from_base].
  destruct (longest_run (groups6 a)) as [[i n]|] eqn:E; [|by apply parse6_body_full].
  apply longest_run_split in E as (Hs & Hn & Hi).
  rewrite parse6_body_ellipsis.
  - rewrite length_take, length_drop, Hlen. do 2 f_equal.
    rewrite Hs at 3. do 3 f_equal. lia.
  - by apply Forall_take.
  - by apply Forall_drop.
  - rewrite length_take, length_drop. lia.
Qed.

(** ** Zones and the choice of the form *)

(** The bytes of an address's text without its zone. *)
Definition addr_char (c : ascii) : bool := is_hex c || Ascii.eqb c ":" || Ascii.eqb c ".".

Lemma string_forallb_mono (p q : ascii -> bool) s :
  (forall c, p c = true -> q c = true) -> string_forallb p s = true -> string_forallb q s = true.
Proof.
  intros Hpq. induction s as [|c s IH]; [done|]. cbn.
  intros H. apply andb_true_iff in H as [H1 H2]. by rewrite (Hpq _ H1), IH.
Qed.

Lemma digit_addr_char c : is_digit c = true -> addr_char c = true.
Proof. unfold addr_char, is_hex. by intros ->. Qed.
Lemma hex_addr_char c : is_hex c = true -> addr_char c = true.
Proof. unfold addr_char. by intros ->. Qed.

Lemma addr_char_not_percent c : addr_char c = true -> not_char "%" c = true.
Proof. unfold not_char. destruct (Ascii.eqb_spec c "%") as [->|]; done. Qed.

Lemma string4_chars a : string_forallb addr_char (string4 a) = true.
Proof.
  unfold string4. cbn [fmap list_fmap Join].
  rewrite !string_forallb_app. repeat (apply andb_true_iff; split); try done;
    (eapply string_forallb_mono; [apply digit_addr_char|]); apply FormatUint_digits, v4_range.
Qed.

Lemma join6_chars l : Forall group l -> string_forallb addr_char (join6 l) = true.
Proof.
  induction 1 as [|x l Hx Hl IH]; [done|].
  assert (string_forallb addr_char (appendHex x) = true).
  { eapply string_forallb_mono; [apply hex_addr_char|]. by apply appendHex_spec. }
  destruct l as [|y l]; [done|]. rewrite join6_cons, !string_forallb_app, IH.
  by apply andb_true_iff.
Qed.

Lemma string6_chars a : string_forallb addr_char (string6 a) = true.
Proof.
  pose proof (groups6_range a) as Hg. unfold string6.
  destruct (longest_run _) as [[i n]|]; [|by apply join6_chars].
  rewrite !string_forallb_app, !join6_chars by (by apply Forall_take || by apply Forall_drop).
  done.
Qed.

Lemma span_zone s zone :
  string_forallb addr_char s = true ->
  span (not_char "%") (s +:+ zone_suffix zone) = (s, zone_suffix zone).
Proof.
  intros Hs. apply span_app.
  - eapply string_forallb_mono; [apply addr_char_not_percent|done].
  - unfold zone_suffix. by destruct (String.eqb_spec zone "").
Qed.

Lemma parseIPv6_zone s zone a :
  string_forallb addr_char s = true -> parse6_body s = Some a ->
  parseIPv6 (s +:+ zone_suffix zone) = Some (Addr6 a zone).
Proof.
  intros Hs Hp. unfold parseIPv6. rewrite span_zone by done. unfold zone_suffix.
  destruct (String.eqb_spec zone "") as [->|Hz]; cbn -[String.eqb]; [by rewrite Hp|].
  destruct (String.eqb_spec zone ""); [done|]. by rewrite Hp.
Qed.

Lemma addr_form_app s c rest :
  string_forallb is_hex s = true ->
  (Ascii.eqb c "." || Ascii.eqb c ":" || Ascii.eqb c "%") = true ->
  addr_form (s +:+ String c rest) = Some c.
Proof.
  intros Hs Hc. induction s as [|d s IH]; cbn [String.append addr_form]; [by rewrite Hc|].
  cbn in Hs. apply andb_true_iff in Hs as [Hd Hs].
  destruct (Ascii.eqb_spec d ".") as [->|]; [done|].
  destruct (Ascii.eqb_spec d ":") as [->|]; [done|].
  destruct (Ascii.eqb_spec d "%") as [->|]; [done|]. cbn [orb].
  by apply IH.
Qed.

Lemma addr_form_join6 x y l rest :
  group x -> addr_form (join6 (x :: y :: l) +:+ rest) = Some ":"%char.
Proof.
  intros Hx. rewrite join6_cons, !app_assoc_s. cbn [String.append].
  apply addr_form_app; [|done]. by apply appendHex_spec.
Qed.

Lemma addr_form_string6 a rest : addr_form (string6 a +:+ rest) = Some ":"%char.
Proof.
  pose proof (groups6_range a) as Hg. unfold string6.
  destruct (longest_run (groups6 a)) as [[i n]|] eqn:E.
  - destruct i as [|[|i]]; [done| |].
    + unfold groups6 at 1. cbn [take fmap list_fmap]. rewrite !app_assoc_s.
      apply addr_form_app; [|done]. apply appendHex_spec, v6u16_range.
    + unfold groups6 at 1. cbn [take fmap list_fmap]. rewrite !app_assoc_s.
      apply addr_form_join6, v6u16_range.
  - apply addr_form_join6, v6u16_range.
Qed.

Lemma addr_form_string4 a : addr_form (string4 a) = Some "."%char.
Proof.
  unfold string4. cbn [fmap list_fmap Join String.append].
  apply addr_form_app; [|done].
  eapply string_forallb_mono; [|apply FormatUint_digits, v4_range].
  intros c Hc. unfold is_hex. by rewrite Hc.
Qed.

(** ** IPv4-mapped IPv6 addresses *)

Lemma octet_length v : 0 <= v < 256 -> (String.length (FormatUint v) <= 3)%nat.
Proof.
  intros Hv. destruct (Z.eq_dec v 0) as [->|]; [vm_compute; lia|].
  destruct (FormatUint_head v ltac:(lia)) as (c & s & E & Hc & Hc0).
  pose proof (FormatUint_parse v ltac:(lia)) as Hp. rewrite E in *.
  cbn in Hp. rewrite Hc in Hp. apply parse_digits_bound in Hp.
  unfold is_digit, digit_value in *. simp_bool.
  destruct (Nat.le_gt_cases (String.length s) 2); [cbn; lia|].
  assert (10 ^ 3 <= 10 ^ Z.of_nat (String.length s)) by (apply Z.pow_le_mono_r; lia).
  nia.
Qed.

Lemma parse6_mapped a :
  0 <= a < 2 ^ 32 -> parse6_body ("::ffff:" +:+ string4 a) = Some (0xffff * 2 ^ 32 + a).
Proof.
  intros Ha. unfold parse6_body.
  change ("::ffff:" +:+ string4 a) with ("::" +:+ ("ffff:" +:+ string4 a)).
  rewrite strip_prefix_app. change (("ffff:" +:+ string4 a =? "")%string) with false. cbn iota.
  change ("ffff:" +:+ string4 a) with (appendHex 0xffff +:+ ":" +:+ string4 a).
  rewrite parse6_step by done. cbn [String.append].
  change (Ascii.eqb ":" ".") with false. change (Ascii.eqb ":" ":") with true. cbn [negb].
  pose proof (string4_fields a) as Hf.
  unfold string4 in *. cbn [fmap list_fmap Join] in *.
  pose proof (FormatUint_digits (v4 a 0) (proj1 (v4_range a 0))) as Hd.
  destruct (FormatUint (v4 a 0)) as [|c s] eqn:E; [by destruct (FormatUint_nonempty (v4 a 0))|].
  cbn [string_forallb] in Hd. apply andb_true_iff in Hd as [Hc Hd].
  assert (is_hex c = true) as Hh by (unfold is_hex; by rewrite Hc).
  cbn [String.append] in *. rewrite is_hex_not_colon by done.
  cbn [parse6_loop].
  set (rest := s +:+ _) in *.
  assert (span is_hex (String c rest) = (String c s, "." +:+ FormatUint (v4 a 1) +:+ "." +:+
    FormatUint (v4 a 2) +:+ "." +:+ FormatUint (v4 a 3))) as ->.
  { unfold rest. rewrite <- app_cons_s. apply span_app; [|done]. cbn. rewrite Hh. cbn.
    eapply string_forallb_mono; [|done]. intros d Hd'. unfold is_hex. by rewrite Hd'. }
  assert (String.length (String c s) <= 3)%nat as Hlen.
  { rewrite <- E. apply octet_length, v4_range. }
  destruct (Nat.ltb_spec 4 (String.length (String c s))); [lia|].
  change (String c s =? "")%string with false. cbn [String.append].
  change (Ascii.eqb "." ".") with true. cbn iota. cbn [length app].
  rewrite Hf. cbn [bool_decide Nat.eqb].
  change (bool_decide (Some 0%nat = None)) with false. cbn [andb].
  cbn [hi16 app]. unfold expand6. cbn [length Nat.ltb Nat.leb take drop app replicate Nat.sub].
  cbn [fmap option_fmap option_map]. f_equal.
  pose proof (v4_from_base a Ha) as Hb. unfold from_base in *. cbn [foldl] in *.
  change (hex_acc 0 (appendHex 65535)) with 65535. lia.
Qed.

Lemma mapped_value a :
  Z.shiftr a 32 = 0xffff -> a = 0xffff * 2 ^ 32 + Z.land a 0xffffffff.
Proof.
  intros H. rewrite Z.shiftr_div_pow2 in H by done.
  change 0xffffffff with (Z.ones 32). rewrite Z.land_ones by done.
  pose proof (Z.div_mod a (2 ^ 32)). lia.
Qed.

(** Every valid address reads back from its text. *)
Lemma ParseAddr_String x : addr_wf x = true -> ParseAddr (AddrString x) = Some x.
Proof.
  unfold ParseAddr. destruct x as [|a|a zone]; cbn [addr_wf AddrString]; [done|..];
    intros Hwf; simp_bool.
  - rewrite addr_form_string4. unfold parseIPv4.
    change (Ascii.eqb "." ".") with true. cbn iota.
    rewrite string4_fields, v4_from_base; [done|lia].
  - destruct (Is4In6 (Addr6 a zone)) eqn:E; cbn in E; simp_bool.
    + trans (Some (Addr6 (0xffff * 2 ^ 32 + Z.land a 0xffffffff) zone));
        [|by rewrite <- mapped_value].
      assert (0 <= Z.land a 0xffffffff < 2 ^ 32).
      { change 0xffffffff with (Z.ones 32). rewrite Z.land_ones by done.
        apply Z.mod_pos_bound. lia. }
      replace (addr_form (("::ffff:" +:+ string4 (Z.land a 4294967295)) +:+ zone_suffix zone))
        with (Some ":"%char) by done.
      change (Ascii.eqb ":" ".") with false. change (Ascii.eqb ":" ":") with true. cbn iota.
      apply parseIPv6_zone; [|by apply parse6_mapped].
      rewrite string_forallb_app. by rewrite string4_chars.
    + rewrite addr_form_string6.
      change (Ascii.eqb ":" ".") with false. change (Ascii.eqb ":" ":") with true. cbn iota.
      apply parseIPv6_zone; [apply string6_chars|by apply parse6_body_string6].
Qed.

(** Distinct valid addresses have distinct texts. *)
Lemma AddrString_inj x y :
  addr_wf x = true -> addr_wf y = true -> AddrString x = AddrString y -> x = y.
Proof.
  intros Hx Hy E. apply (f_equal ParseAddr) in E.
  rewrite !ParseAddr_String in E by done. by injection E.
Qed.
