(* ===== verification/NetipRange.v ===== *)
(** * Parsed addresses are addresses

    Every value [netip.ParseAddr] and [netip.ParsePrefix] give is in the range
    of its family, and what they read of an ASCII text is ASCII. *)

From S2P Require Export NetipText.
From Stdlib Require Import String.
#[local] Open Scope Z_scope.
#[local] Abbreviation length := List.length.

Definition below (b d : Z) : Prop := 0 <= d < b.

Lemma from_base_range b l : 0 < b -> Forall (below b) l -> below (b ^ Z.of_nat (length l)) (from_base b l).
Proof.
  unfold below. intros Hb. induction l as [|d l IH] using rev_ind; [done|].
  rewrite Forall_app, Forall_singleton. intros [Hl Hd]. specialize (IH Hl).
  rewrite from_base_snoc, length_app, Nat.add_1_r, Nat2Z.inj_succ, Z.pow_succ_r by lia. nia.
Qed.

Lemma digit_value_range c : is_digit c = true -> 0 <= digit_value c < 10.
Proof. unfold is_digit, digit_value. lia. Qed.

Lemma parse4_range s fresh val digLen fields r :
  below 256 val -> Forall (below 256) fields -> (length fields <= 3)%nat ->
  parse4_loop s fresh val digLen fields = Some r -> Forall (below 256) r /\ length r = 4%nat.
Proof.
  unfold below. revert fresh val digLen fields. induction s as [|c s IH]; intros fresh val digLen fields Hv Hf Hl; cbn [parse4_loop].
  - destruct (Nat.ltb_spec (length fields) 3); [done|]. intros [= <-].
    rewrite length_app, Forall_app, Forall_singleton. cbn. split; [done|lia].
  - destruct (is_digit c) eqn:Ed.
    + destruct (_ && _); [done|]. destruct (Z.ltb_spec 255 (val * 10 + digit_value c)); [done|].
      pose proof (digit_value_range c Ed). apply IH; [lia|done|done].
    + destruct (Ascii.eqb c "."); [|done]. destruct (_ || _); [done|].
      destruct (Nat.eqb_spec (length fields) 3); [done|]. apply IH; [done| |].
      * by rewrite Forall_app, Forall_singleton.
      * rewrite length_app. cbn. lia.
Qed.

Lemma parseIPv4Fields_range s r : parseIPv4Fields s = Some r -> Forall (below 256) r /\ length r = 4%nat.
Proof. apply parse4_range; [done|constructor|cbn; lia]. Qed.

Lemma hex_acc_range s acc :
  0 <= acc -> string_forallb is_hex s = true ->
  0 <= hex_acc acc s < (acc + 1) * 16 ^ Z.of_nat (String.length s).
Proof.
  revert acc. induction s as [|c s IH]; intros acc Ha; [cbn; lia|].
  cbn [string_forallb hex_acc String.length]. intros [Hc Hs]%andb_true_iff.
  assert (0 <= hex_value c < 16) as Hh.
  { unfold is_hex, hex_value, is_digit in *. repeat case_match; lia. }
  specialize (IH (acc * 16 + hex_value c) ltac:(lia) Hs). rewrite Nat2Z.inj_succ, Z.pow_succ_r by lia. nia.
Qed.

Lemma hi16_range fields : Forall (below 256) fields -> Forall group (hi16 fields).
Proof.
  unfold below, group. destruct fields as [|a [|b [|c [|d [|]]]]]; try constructor.
  all: rewrite !Forall_cons in *; try lia. constructor; [lia|constructor].
Qed.

Lemma parse6_loop_range fuel s gs e gs' e' rest :
  Forall group gs -> (length gs + fuel <= 8)%nat ->
  parse6_loop fuel s gs e = Some (gs', e', rest) -> Forall group gs' /\ (length gs' <= 8)%nat.
Proof.
  revert s gs e. induction fuel as [|fuel IH]; intros s gs e Hg Hl; cbn [parse6_loop].
  { intros [= <- <- <-]. split; [done|lia]. }
  destruct (span is_hex s) as [h r] eqn:Es. destruct (Nat.ltb_spec 4 (String.length h)) as [|H4]; [done|].
  destruct (h =? "")%string; [done|].
  assert (group (hex_acc 0 h)) as Hh.
  { apply span_spec in Es as [_ Hx]. pose proof (hex_acc_range h 0 ltac:(done) Hx).
    assert (16 ^ Z.of_nat (String.length h) <= 16 ^ 4) by (apply Z.pow_le_mono_r; lia). unfold group. lia. }
  assert (Forall group (gs ++ [hex_acc 0 h])) as Hg' by (by rewrite Forall_app, Forall_singleton).
  assert (length (gs ++ [hex_acc 0 h]) = S (length gs)) as Hl' by (rewrite length_app; cbn; lia).
  destruct r as [|c r]; [intros [= <- <- <-]; split; [done|lia]|].
  destruct (Ascii.eqb c ".").
  - destruct (_ && _); [done|]. destruct (Nat.ltb_spec 6 (length gs)); [done|].
    destruct (parseIPv4Fields s) as [fields|] eqn:E4; [|done]. intros [= <- <- <-].
    apply parseIPv4Fields_range in E4 as [Hf Hfl]. split; [by apply Forall_app; split; [|apply hi16_range]|].
    rewrite length_app. destruct fields as [|? [|? [|? [|? [|]]]]]; cbn; lia.
  - destruct (negb _); [done|]. destruct r as [|c2 r]; [done|]. destruct (Ascii.eqb c2 ":").
    + destruct e; [done|]. destruct (r =? "")%string; [intros [= <- <- <-]; split; [done|lia]|].
      apply IH; [done|lia].
    + apply IH; [done|lia].
Qed.

Lemma expand6_range gs e l :
  Forall group gs -> (length gs <= 8)%nat -> expand6 gs e = Some l -> Forall group l /\ length l = 8%nat.
Proof.
  intros Hg Hl. unfold expand6. destruct (Nat.ltb_spec (length gs) 8).
  - destruct e as [e|]; [|done]. intros [= <-]. split.
    + rewrite !Forall_app. split_and!; [by apply Forall_take| |by apply Forall_drop].
      apply Forall_replicate. by unfold group.
    + rewrite !length_app, length_take, length_replicate, length_drop. lia.
  - destruct e; [done|]. intros [= <-]. split; [done|lia].
Qed.

Lemma parse6_body_range s a : parse6_body s = Some a -> 0 <= a < 2 ^ 128.
Proof.
  unfold parse6_body. destruct (match strip_prefix "::" s with Some _ => _ | None => _ end) as [[s' e]|].
  2: { by intros [= <-]. }
  destruct (parse6_loop 8 s' [] e) as [[[gs e'] rest]|] eqn:El; [|done].
  destruct rest; [|done]. destruct (expand6 gs e') as [l|] eqn:Ee; [|done]. intros [= <-].
  apply parse6_loop_range in El as [Hg Hl]; [|constructor|cbn; lia].
  apply (expand6_range gs e') in Ee as [Hr Hn]; [|done|done].
  pose proof (from_base_range 65536 l ltac:(done) Hr) as H. rewrite Hn in H. exact H.
Qed.

(** What an address was read from, and what it is. *)
Lemma parseIPv6_spec s x :
  parseIPv6 s = Some x ->
  addr_wf x = true /\ exists a, 0 <= a < 2 ^ 128 /\ x = Addr6 a (Zone x) /\
    (Zone x = ""%string \/ exists body, s = body +:+ "%" +:+ Zone x).
Proof.
  unfold parseIPv6. destruct (span (not_char "%") s) as [body [|c zone]] eqn:Es.
  - destruct (parse6_body body) as [a|] eqn:Ea; [|done]. intros [= <-]. apply parse6_body_range in Ea.
    split; [cbn; lia|]. exists a. split_and!; [lia|lia|done|by left].
  - destruct (zone =? "")%string; [done|]. destruct (parse6_body body) as [a|] eqn:Ea; [|done].
    intros [= <-]. apply parse6_body_range in Ea. split; [cbn; lia|]. exists a. split_and!; [lia|lia|done|right].
    exists body. apply span_first in Es as Hc. apply span_spec in Es as [-> _]. f_equal. cbn [Zone].
    unfold not_char in Hc. apply negb_false_iff, Ascii.eqb_eq in Hc as <-. done.
Qed.

Lemma parseIPv4_spec s x : parseIPv4 s = Some x -> addr_wf x = true /\ Zone x = ""%string.
Proof.
  unfold parseIPv4. destruct (parseIPv4Fields s) as [fields|] eqn:E; [|done]. intros [= <-].
  apply parseIPv4Fields_range in E as [Hf Hl].
  pose proof (from_base_range 256 fields ltac:(done) Hf) as H. rewrite Hl in H. unfold below in H.
  change (256 ^ Z.of_nat 4) with (2 ^ 32) in H. split; [|done]. cbn [addr_wf]. lia.
Qed.

(** A parsed address is in the range of its family, and its zone is the end of
    the text. *)
Lemma ParseAddr_spec s x :
  ParseAddr s = Some x ->
  addr_wf x = true /\ (Zone x = ""%string \/ exists body, s = body +:+ Zone x).
Proof.
  unfold ParseAddr. destruct (addr_form s) as [c|]; [|done]. destruct (Ascii.eqb c ".").
  - intros [Hx Hz]%parseIPv4_spec. split; [done|by left].
  - destruct (Ascii.eqb c ":"); [|done]. intros (Hx & _ & _ & _ & Hz)%parseIPv6_spec. split; [done|].
    destruct Hz as [?|[body ->]]; [by left|right]. exists (body +:+ "%"). by rewrite !app_assoc_s.
Qed.

Lemma last_slash_spec s a b : last_slash s = Some (a, b) -> s = a +:+ "/" +:+ b.
Proof.
  revert a b. induction s as [|c s IH]; intros a b; cbn [last_slash]; [done|].
  destruct (last_slash s) as [[x y]|].
  - intros [= <- <-]. cbn. by rewrite (IH x y eq_refl).
  - destruct (Ascii.eqb_spec c "/") as [->|]; [|done]. by intros [= <- <-].
Qed.

(** A prefix's address is one of [ParseAddr] without a zone. *)
Lemma ParsePrefix_spec s p :
  ParsePrefix s = Some p ->
  addr_wf (pfx_addr p) = true /\ Zone (pfx_addr p) = ""%string /\
  0 <= pfx_bits p <= BitLen (pfx_addr p).
Proof.
  unfold ParsePrefix. destruct (last_slash s) as [[a b]|]; [|done].
  destruct (ParseAddr a) as [ip|] eqn:Ep; [|done]. apply ParseAddr_spec in Ep as [Hx _].
  destruct (Is6 ip && hasZone ip) eqn:Ez; [done|]. destruct (bad_bits b); [done|].
  destruct (ParseInt b) as [bits|]; [|done]. destruct (_ || _) eqn:Eb; [done|]. intros [= <-].
  cbn [pfx_addr pfx_bits]. split_and!; [done| |..]; destruct ip as [|v|v z]; cbn in *; try done; try lia.
  unfold hasZone in Ez. cbn in Ez. apply negb_false_iff, String.eqb_eq in Ez. done.
Qed.
