(* ===== verification/Json.v ===== *)
(** * encoding/json

    JSON documents as the program writes and reads them: the value type, the
    text [json.Marshal] prints, the parser behind [json.Unmarshal] and
    [json.Decoder], and the struct decoding rules (exact, then case-folded
    field names; null leaves a field alone; a mismatch is remembered and the
    other fields are still set).  The parser has no nesting limit. *)

From S2P Require Export GoText.
From Stdlib Require Import String.
#[local] Open Scope Z_scope.
#[local] Abbreviation length := List.length.

#[local] Set Warnings "-register-all".

(** A number keeps its literal, as the decoder does until it knows the type. *)
Inductive json : Type :=
| JNull
| JBool (b : bool)
| JNum (lit : string)
| JStr (s : string)
| JArr (l : list json)
| JObj (l : list (string * json)).

(** ** UTF-8 *)

Definition in_range (lo hi : Z) (c : ascii) : bool := (lo <=? code c) && (code c <=? hi).
Definition cont (c : ascii) : bool := in_range 0x80 0xBF c.

(** A valid multi-byte sequence of two, three, four bytes. *)
Definition utf8_2 (a b : ascii) : bool := in_range 0xC2 0xDF a && cont b.
Definition utf8_3 (a b c : ascii) : bool :=
  cont c &&
  ((in_range 0xE0 0xE0 a && in_range 0xA0 0xBF b)
   || ((in_range 0xE1 0xEC a || in_range 0xEE 0xEF a) && cont b)
   || (in_range 0xED 0xED a && in_range 0x80 0x9F b)).
Definition utf8_4 (a b c d : ascii) : bool :=
  cont c && cont d &&
  ((in_range 0xF0 0xF0 a && in_range 0x90 0xBF b)
   || (in_range 0xF1 0xF3 a && cont b)
   || (in_range 0xF4 0xF4 a && in_range 0x80 0x8F b)).

Definition chr (z : Z) : ascii := ascii_of_N (Z.to_N z).

Definition encode_rune (r : Z) : string :=
  if r <? 0x80 then String (chr r) ""
  else if r <? 0x800 then
    String (chr (0xC0 + Z.shiftr r 6)) (String (chr (0x80 + Z.land r 0x3F)) "")
  else if r <? 0x10000 then
    String (chr (0xE0 + Z.shiftr r 12))
      (String (chr (0x80 + Z.land (Z.shiftr r 6) 0x3F)) (String (chr (0x80 + Z.land r 0x3F)) ""))
  else
    String (chr (0xF0 + Z.shiftr r 18))
      (String (chr (0x80 + Z.land (Z.shiftr r 12) 0x3F))
        (String (chr (0x80 + Z.land (Z.shiftr r 6) 0x3F))
          (String (chr (0x80 + Z.land r 0x3F)) ""))).

Definition rune_error : string := encode_rune 0xFFFD.

(** ** Printing *)

Definition backslash : ascii := byte 92.
Definition esc (c : ascii) : string := String backslash (String c "").
Definition esc_u (hex : string) : string := esc "u" +:+ hex.

(** One ASCII byte of a string, with [json.Marshal]'s HTML escaping. *)
Definition quote_byte (c : ascii) : string :=
  if Ascii.eqb c dquote || Ascii.eqb c backslash then esc c
  else if code c =? 8 then esc "b"
  else if code c =? 12 then esc "f"
  else if code c =? 10 then esc "n"
  else if code c =? 13 then esc "r"
  else if code c =? 9 then esc "t"
  else if (code c <? 32) || Ascii.eqb c "<" || Ascii.eqb c ">" || Ascii.eqb c "&"
  then esc_u ("00" +:+ hex_encode [code c])
  else String c "".

Fixpoint quote_body (s : string) : string :=
  match s with
  | EmptyString => ""
  | String a s1 =>
      if code a <? 128 then quote_byte a +:+ quote_body s1 else
      match s1 with
      | String b s2 =>
          if utf8_2 a b then String a (String b (quote_body s2)) else
          match s2 with
          | String c s3 =>
              if utf8_3 a b c then
                (if (code a =? 0xE2) && (code b =? 0x80) && (Z.land (code c) 0xFE =? 0xA8)
                 then esc_u ("202" +:+ String (hex_char (code c - 0xA0)) "")
                 else String a (String b (String c ""))) +:+ quote_body s3
              else
              match s3 with
              | String d s4 =>
                  if utf8_4 a b c d
                  then String a (String b (String c (String d (quote_body s4))))
                  else esc_u "fffd" +:+ quote_body s1
              | EmptyString => esc_u "fffd" +:+ quote_body s1
              end
          | EmptyString => esc_u "fffd" +:+ quote_body s1
          end
      | EmptyString => esc_u "fffd"
      end
  end.

Definition quote (s : string) : string := dq +:+ quote_body s +:+ dq.

Fixpoint print (j : json) : string :=
  match j with
  | JNull => "null"
  | JBool b => if b then "true" else "false"
  | JNum lit => lit
  | JStr s => quote s
  | JArr l => "[" +:+ Join (print <$> l) "," +:+ "]"
  | JObj l =>
      "{" +:+ Join ((fun kv => quote (fst kv) +:+ ":" +:+ print (snd kv)) <$> l) "," +:+ "}"
  end.

(** ** Parsing *)

Definition is_ws (c : ascii) : bool :=
  (code c =? 32) || (code c =? 9) || (code c =? 10) || (code c =? 13).
Definition skip_ws (s : string) : string := snd (span is_ws s).

Definition hex_digit (c : ascii) : option Z :=
  if is_digit c then Some (code c - 48)
  else if (97 <=? code c) && (code c <=? 102) then Some (code c - 87)
  else if (65 <=? code c) && (code c <=? 70) then Some (code c - 55) else None.

Definition hex4 (a b c d : ascii) : option Z :=
  match hex_digit a, hex_digit b, hex_digit c, hex_digit d with
  | Some a, Some b, Some c, Some d => Some (((a * 16 + b) * 16 + c) * 16 + d)
  | _, _, _, _ => None
  end.

Definition is_surrogate (r : Z) : bool := (0xD800 <=? r) && (r <? 0xE000).
Definition surrogate_pair (r1 r2 : Z) : option Z :=
  if (0xD800 <=? r1) && (r1 <? 0xDC00) && (0xDC00 <=? r2) && (r2 <? 0xE000)
  then Some ((r1 - 0xD800) * 1024 + (r2 - 0xDC00) + 0x10000) else None.

Definition unescape (e : ascii) : option ascii :=
  if Ascii.eqb e dquote || Ascii.eqb e backslash || Ascii.eqb e "/" then Some e
  else if Ascii.eqb e "b" then Some (byte 8)
  else if Ascii.eqb e "f" then Some (byte 12)
  else if Ascii.eqb e "n" then Some (byte 10)
  else if Ascii.eqb e "r" then Some (byte 13)
  else if Ascii.eqb e "t" then Some (byte 9)
  else None.

Definition push (p : string) (r : option (string * string)) : option (string * string) :=
  match r with Some (s, rest) => Some (p +:+ s, rest) | None => None end.

(** The contents of a string whose opening quote has been read, and the text
    after its closing quote. *)
Fixpoint unquote (s : string) : option (string * string) :=
  match s with
  | EmptyString => None
  | String a s1 =>
      if Ascii.eqb a dquote then Some (""%string, s1)
      else if Ascii.eqb a backslash then
        match s1 with
        | EmptyString => None
        | String e s2 =>
            if Ascii.eqb e "u" then
              match s2 with
              | String h1 (String h2 (String h3 (String h4 s3))) =>
                  match hex4 h1 h2 h3 h4 with
                  | None => None
                  | Some r =>
                      if is_surrogate r then
                        match s3 with
                        | String b (String u (String g1 (String g2 (String g3 (String g4 s4))))) =>
                            match (if Ascii.eqb b backslash && Ascii.eqb u "u"
                                   then hex4 g1 g2 g3 g4 else None) with
                            | Some r2 =>
                                match surrogate_pair r r2 with
                                | Some dec => push (encode_rune dec) (unquote s4)
                                | None => push rune_error (unquote s3)
                                end
                            | None => push rune_error (unquote s3)
                            end
                        | _ => push rune_error (unquote s3)
                        end
                      else push (encode_rune r) (unquote s3)
                  end
              | _ => None
              end
            else
              match unescape e with
              | Some c => push (String c "") (unquote s2)
              | None => None
              end
        end
      else if code a <? 32 then None
      else if code a <? 128 then push (String a "") (unquote s1)
      else
        match s1 with
        | String b s2 =>
            if utf8_2 a b then push (String a (String b "")) (unquote s2) else
            match s2 with
            | String c s3 =>
                if utf8_3 a b c then push (String a (String b (String c ""))) (unquote s3) else
                match s3 with
                | String d s4 =>
                    if utf8_4 a b c d
                    then push (String a (String b (String c (String d "")))) (unquote s4)
                    else push rune_error (unquote s1)
                | EmptyString => push rune_error (unquote s1)
                end
            | EmptyString => push rune_error (unquote s1)
            end
        | EmptyString => None
        end
  end.

(** A number literal: an optional minus, an integer without leading zeros, an
    optional fraction, an optional exponent. *)
Definition scan_int (s : string) : option (string * string) :=
  match s with
  | String c s' =>
      if Ascii.eqb c "0" then Some ("0"%string, s')
      else if is_digit c then Some (span is_digit s) else None
  | EmptyString => None
  end.

Definition scan_fraction (s : string) : option (string * string) :=
  match s with
  | String c s' =>
      if Ascii.eqb c "." then
        match span is_digit s' with
        | (EmptyString, _) => None
        | (d, rest) => Some (String c d, rest)
        end
      else Some (""%string, s)
  | EmptyString => Some (""%string, s)
  end.

Definition scan_sign (s : string) : string * string :=
  match s with
  | String c s' =>
      if Ascii.eqb c "+" || Ascii.eqb c "-" then (String c "", s') else (""%string, s)
  | EmptyString => (""%string, s)
  end.

Definition scan_exponent (s : string) : option (string * string) :=
  match s with
  | String c s' =>
      if Ascii.eqb c "e" || Ascii.eqb c "E" then
        let '(sign, s2) := scan_sign s' in
        match span is_digit s2 with
        | (EmptyString, _) => None
        | (d, rest) => Some (String c (sign +:+ d), rest)
        end
      else Some (""%string, s)
  | EmptyString => Some (""%string, s)
  end.

Definition scan_number (s : string) : option (string * string) :=
  let '(sign, s1) :=
    match s with
    | String c s' => if Ascii.eqb c "-" then (String c "", s') else (""%string, s)
    | EmptyString => (""%string, s)
    end in
  match scan_int s1 with
  | None => None
  | Some (i, s2) =>
      match scan_fraction s2 with
      | None => None
      | Some (f, s3) =>
          match scan_exponent s3 with
          | None => None
          | Some (e, s4) => Some (sign +:+ i +:+ f +:+ e, s4)
          end
      end
  end.

Definition literal (word : string) (j : json) (s : string) : option (json * string) :=
  match strip_prefix word s with Some rest => Some (j, rest) | None => None end.

(** One value at the front of a text, and what follows it. *)
Fixpoint parse_value (fuel : nat) (s : string) : option (json * string) :=
  match fuel with
  | O => None
  | S n =>
      match skip_ws s with
      | EmptyString => None
      | String c s1 =>
          if Ascii.eqb c dquote then
            match unquote s1 with Some (t, rest) => Some (JStr t, rest) | None => None end
          else if Ascii.eqb c "[" then
            match skip_ws s1 with
            | String d rest =>
                if Ascii.eqb d "]" then Some (JArr [], rest) else
                match parse_elems n s1 with Some (l, r) => Some (JArr l, r) | None => None end
            | EmptyString => None
            end
          else if Ascii.eqb c "{" then
            match skip_ws s1 with
            | String d rest =>
                if Ascii.eqb d "}" then Some (JObj [], rest) else
                match parse_members n s1 with Some (l, r) => Some (JObj l, r) | None => None end
            | EmptyString => None
            end
          else if Ascii.eqb c "t" then literal "true" (JBool true) (String c s1)
          else if Ascii.eqb c "f" then literal "false" (JBool false) (String c s1)
          else if Ascii.eqb c "n" then literal "null" JNull (String c s1)
          else
            match scan_number (String c s1) with
            | Some (lit, rest) => Some (JNum lit, rest)
            | None => None
            end
      end
  end
with parse_elems (fuel : nat) (s : string) : option (list json * string) :=
  match fuel with
  | O => None
  | S n =>
      match parse_value n s with
      | None => None
      | Some (v, s1) =>
          match skip_ws s1 with
          | String c s2 =>
              if Ascii.eqb c "," then
                match parse_elems n s2 with Some (l, r) => Some (v :: l, r) | None => None end
              else if Ascii.eqb c "]" then Some ([v], s2) else None
          | EmptyString => None
          end
      end
  end
with parse_members (fuel : nat) (s : string) : option (list (string * json) * string) :=
  match fuel with
  | O => None
  | S n =>
      match skip_ws s with
      | String q s0 =>
          if negb (Ascii.eqb q dquote) then None else
          match unquote s0 with
          | None => None
          | Some (k, s1) =>
              match skip_ws s1 with
              | String c s2 =>
                  if negb (Ascii.eqb c ":") then None else
                  match parse_value n s2 with
                  | None => None
                  | Some (v, s3) =>
                      match skip_ws s3 with
                      | String d s4 =>
                          if Ascii.eqb d "," then
                            match parse_members n s4 with
                            | Some (l, r) => Some ((k, v) :: l, r)
                            | None => None
                            end
                          else if Ascii.eqb d "}" then Some ([(k, v)], s4) else None
                      | EmptyString => None
                      end
                  end
              | EmptyString => None
              end
          end
      | EmptyString => None
      end
  end.

(** Enough fuel for any text: each byte is the start of at most three calls. *)
Definition text_fuel (s : string) : nat := 3 * String.length s + 3.

(** [decoder.Decode]: the next document of a stream and the rest of it. *)
Definition DecodeNext (s : string) : option (json * string) := parse_value (text_fuel s) s.

(** The syntax side of [json.Unmarshal]: exactly one document. *)
Definition parse (s : string) : option json :=
  match DecodeNext s with
  | Some (j, rest) => if (skip_ws rest =? "")%string then Some j else None
  | None => None
  end.

(** ** Decoding into Go values *)

Definition decode_string (j : json) (old : string) : option string :=
  match j with JStr s => Some s | JNull => Some old | _ => None end.
Definition decode_bool (j : json) (old : bool) : option bool :=
  match j with JBool b => Some b | JNull => Some old | _ => None end.
Definition decode_int64 (j : json) (old : Z) : option Z :=
  match j with JNum lit => ParseInt lit | JNull => Some old | _ => None end.

(** A slice: an element is decoded into the one the slice held at its place,
    or into the element type's zero value; null empties the slice. *)
Fixpoint decode_elems {A} (zero : A) (f : json -> A -> option A) (l : list json) (old : list A)
    : option (list A) :=
  match l with
  | [] => Some []
  | e :: l' =>
      match f e (default zero (head old)), decode_elems zero f l' (tail old) with
      | Some x, Some xs => Some (x :: xs)
      | _, _ => None
      end
  end.

Definition decode_list {A} (zero : A) (f : json -> A -> option A) (j : json) (old : list A)
    : option (list A) :=
  match j with
  | JArr l => decode_elems zero f l old
  | JNull => Some []
  | _ => None
  end.

Section struct.
Context {T : Type}.

(** A struct type: its field names and, for each, how a JSON value sets it. *)
Definition fields := list (string * (json -> T -> option T)).

(** Names are matched up to case, as Unicode folds it: besides the two cases of
    an ASCII letter, the long s (U+017F) and the Kelvin sign (U+212A) fold to
    ASCII letters; no other rune does, and field names are ASCII. *)
Fixpoint fold_name (s : string) : string :=
  match s with
  | String c ((String d r) as s') =>
      if (code c =? 0xc5) && (code d =? 0xbf) then String "s" (fold_name r) else
      match r with
      | String e r' =>
          if (code c =? 0xe2) && (code d =? 0x84) && (code e =? 0xaa) then String "k" (fold_name r')
          else String (lower c) (fold_name s')
      | EmptyString => String (lower c) (fold_name s')
      end
  | String c EmptyString => String (lower c) EmptyString
  | EmptyString => EmptyString
  end.

Example folded : fold_name "Po_STs" = "po_sts"%string /\
  fold_name (bytes [226; 132; 170; 101; 121; 197; 191]%nat) = "keys"%string.
Proof. split; reflexivity. Qed.

Definition find_field (fs : fields) (key : string) : option (json -> T -> option T) :=
  match List.find (fun f => (fst f =? key)%string) fs with
  | Some f => Some (snd f)
  | None => snd <$> List.find (fun f => (fold_name (fst f) =? fold_name key)%string) fs
  end.

(** One member: the value after it, and whether everything so far matched.
    [strict] is [DisallowUnknownFields]. *)
Definition set_member (strict : bool) (fs : fields) (acc : T * bool) (kv : string * json)
    : T * bool :=
  match find_field fs (fst kv) with
  | None => if strict then (fst acc, false) else acc
  | Some set =>
      match set (snd kv) (fst acc) with
      | Some t => (t, snd acc)
      | None => (fst acc, false)
      end
  end.

Definition decode_struct (strict : bool) (fs : fields) (j : json) (zero : T) : T * bool :=
  match j with
  | JObj l => foldl (set_member strict fs) (zero, true) l
  | JNull => (zero, true)
  | _ => (zero, false)
  end.

(** [json.Unmarshal(text, &value)] with a zero [value]: what is stored in it,
    and whether the error is nil. *)
Definition Unmarshal (fs : fields) (zero : T) (text : string) : T * bool :=
  match parse text with
  | Some j => decode_struct false fs j zero
  | None => (zero, false)
  end.

(** Decoding a document member by member. *)
Lemma decode_member strict fs t t' k j l set r :
  find_field fs k = Some set -> set j t = Some t' ->
  foldl (set_member strict fs) (t', true) l = r ->
  foldl (set_member strict fs) (t, true) ((k, j) :: l) = r.
Proof. intros Hf Hs Hr. cbn [foldl]. unfold set_member at 2. cbn [fst snd]. by rewrite Hf, Hs. Qed.

(** A struct as the value of a field or an element of a slice. *)
Definition decode_nested (strict : bool) (fs : fields) (j : json) (old : T) : option T :=
  match decode_struct strict fs j old with
  | (t, true) => Some t
  | (_, false) => None
  end.
End struct.
Arguments fields : clear implicits.
