(* ===== verification/JsonText.v ===== *)
(** * encoding/json: printed documents parse back

    [parse (print j) = Some j] for every document whose strings are ASCII and
    whose numbers are printed integers: all documents this program writes. *)

From S2P Require Export Json.
From Stdlib Require Import String.
#[local] Open Scope Z_scope.
#[local] Abbreviation length := List.length.

Definition is_ascii (c : ascii) : bool := code c <? 128.
Definition ascii_text (s : string) : bool := string_forallb is_ascii s.

(** ** Strings *)

Lemma unquote_byte c t :
  is_ascii c = true -> unquote (quote_byte c +:+ t) = push (String c "") (unquote t).
Proof.
  destruct c as [[] [] [] [] [] [] [] []]; intros H; first [discriminate H | reflexivity].
Qed.

Lemma push_Some p s rest : push p (Some (s, rest)) = Some (p +:+ s, rest).
Proof. done. Qed.

Lemma quote_body_cons c s :
  is_ascii c = true -> quote_body (String c s) = quote_byte c +:+ quote_body s.
Proof. unfold is_ascii. cbn [quote_body]. by intros ->. Qed.

Lemma unquote_quote s rest :
  ascii_text s = true -> unquote (quote_body s +:+ dq +:+ rest) = Some (s, rest).
Proof.
  induction s as [|c s IH]; [done|]. cbn [ascii_text string_forallb].
  intros H. apply andb_true_iff in H as [Hc Hs].
  rewrite quote_body_cons, app_assoc_s, unquote_byte by done.
  rewrite IH by done. done.
Qed.

(** ** Numbers *)

(** What may follow a value inside a document, or nothing. *)
Definition ends (s : string) : bool :=
  match s with
  | EmptyString => true
  | String c _ => Ascii.eqb c "," || Ascii.eqb c "]" || Ascii.eqb c "}" || Ascii.eqb c (byte 10)
  end.

Lemma ends_cases s :
  ends s = true -> s = ""%string \/ exists c s', s = String c s' /\ (c = "," \/ c = "]" \/ c = "}" \/ c = byte 10)%char.
Proof.
  destruct s as [|c s]; [by left|]. cbn. intros H. right. exists c, s. split; [done|].
  destruct (Ascii.eqb_spec c ","), (Ascii.eqb_spec c "]"), (Ascii.eqb_spec c "}"), (Ascii.eqb_spec c (byte 10)); naive_solver.
Qed.

Lemma scan_tail rest :
  ends rest = true ->
  scan_fraction rest = Some (""%string, rest) /\ scan_exponent rest = Some (""%string, rest) /\
  span is_digit rest = (""%string, rest).
Proof. intros H. apply ends_cases in H as [->|(c & s & -> & [->|[->|[->| ->]]])]; done. Qed.

Lemma scan_int_uint z rest :
  0 <= z -> ends rest = true -> scan_int (FormatUint z +:+ rest) = Some (FormatUint z, rest).
Proof.
  intros Hz Hr. destruct (Z.eq_dec z 0) as [->|]; [done|].
  destruct (FormatUint_head z ltac:(lia)) as (c & s & E & Hc & Hc0).
  pose proof (FormatUint_digits z Hz) as Hd. rewrite E in *. cbn [String.append scan_int].
  destruct (Ascii.eqb_spec c "0") as [->|]; [done|]. rewrite Hc.
  f_equal. rewrite <- app_cons_s.
  clear E. revert Hd. generalize (String c s) as t. intros t Ht.
  induction t as [|d t IH]; cbn.
  - by apply scan_tail.
  - cbn in Ht. apply andb_true_iff in Ht as [-> Ht].
    change (String.append t rest) with (t +:+ rest). by rewrite IH.
Qed.

Lemma scan_number_int z rest :
  ends rest = true -> scan_number (FormatInt z +:+ rest) = Some (FormatInt z, rest).
Proof.
  intros Hr. unfold scan_number, FormatInt. destruct (Z.ltb_spec z 0).
  - cbn [String.append]. change (Ascii.eqb "-" "-") with true. cbn iota.
    change (String.append (FormatUint (- z)) rest) with (FormatUint (- z) +:+ rest).
    rewrite scan_int_uint by (done || lia).
    destruct (scan_tail rest Hr) as (-> & -> & _). by rewrite !app_nil_r_s.
  - pose proof (scan_int_uint z rest ltac:(lia) Hr) as Hi.
    pose proof (FormatUint_digits z ltac:(lia)) as Hd.
    destruct (FormatUint z) as [|c s] eqn:E; [by destruct (FormatUint_nonempty z)|].
    cbn [String.append] in *. cbn [string_forallb] in Hd.
    apply andb_true_iff in Hd as [Hc _].
    destruct (Ascii.eqb_spec c "-") as [->|]; [done|].
    change (String.append s rest) with (s +:+ rest) in *. rewrite Hi.
    destruct (scan_tail rest Hr) as (-> & -> & _). by rewrite !app_nil_r_s.
Qed.

(** ** Documents *)

Section ind.
Context (P : json -> Prop).
Context (Hnull : P JNull) (Hbool : forall b, P (JBool b)) (Hnum : forall s, P (JNum s))
  (Hstr : forall s, P (JStr s)) (Harr : forall l, Forall P l -> P (JArr l))
  (Hobj : forall l, Forall (fun kv => P (snd kv)) l -> P (JObj l)).

Fixpoint json_nested_ind (j : json) : P j :=
  match j with
  | JNull => Hnull
  | JBool b => Hbool b
  | JNum s => Hnum s
  | JStr s => Hstr s
  | JArr l =>
      Harr l ((fix go l : Forall P l :=
        match l with
        | [] => Forall_nil_2 _
        | v :: l' => Forall_cons_2 _ _ _ (json_nested_ind v) (go l')
        end) l)
  | JObj l =>
      Hobj l ((fix go l : Forall (fun kv => P (snd kv)) l :=
        match l with
        | [] => Forall_nil_2 _
        | kv :: l' => Forall_cons_2 _ _ _ (json_nested_ind (snd kv)) (go l')
        end) l)
  end.
End ind.

Fixpoint json_ok (j : json) : Prop :=
  match j with
  | JNull | JBool _ => True
  | JNum lit => exists z, lit = FormatInt z
  | JStr s => ascii_text s = true
  | JArr l => foldr (fun v P => json_ok v /\ P) True l
  | JObj l => foldr (fun kv P => (ascii_text (fst kv) = true /\ json_ok (snd kv)) /\ P) True l
  end.

(** The fuel a document needs: a call per value and one per list position. *)
Fixpoint need (j : json) : nat :=
  match j with
  | JArr l => S (foldr (fun v n => S (need v + n)) 0%nat l)
  | JObj l => S (foldr (fun kv n => S (need (snd kv) + n)) 0%nat l)
  | _ => 1%nat
  end.

Definition needs (l : list json) : nat := foldr (fun v n => S (need v + n)) 0%nat l.
Definition needs_members (l : list (string * json)) : nat :=
  foldr (fun kv n => S (need (snd kv) + n)) 0%nat l.

Definition print_elems (l : list json) : string := Join (print <$> l) ",".
Definition print_member (kv : string * json) : string :=
  quote (fst kv) +:+ ":" +:+ print (snd kv).
Definition print_members (l : list (string * json)) : string := Join (print_member <$> l) ",".

Lemma print_arr l : print (JArr l) = "[" +:+ print_elems l +:+ "]".
Proof. done. Qed.
Lemma print_obj l : print (JObj l) = "{" +:+ print_members l +:+ "}".
Proof. done. Qed.

Lemma print_elems_one v : print_elems [v] = print v.
Proof. done. Qed.
Lemma print_elems_cons v w l : print_elems (v :: w :: l) = print v +:+ "," +:+ print_elems (w :: l).
Proof. done. Qed.
Lemma print_members_one kv : print_members [kv] = print_member kv.
Proof. done. Qed.
Lemma print_members_cons kv w l :
  print_members (kv :: w :: l) = print_member kv +:+ "," +:+ print_members (w :: l).
Proof. done. Qed.

(** The first byte of a printed value. *)
Definition value_start (c : ascii) : bool :=
  Ascii.eqb c dquote || Ascii.eqb c "[" || Ascii.eqb c "{" || Ascii.eqb c "t"
  || Ascii.eqb c "f" || Ascii.eqb c "n" || Ascii.eqb c "-" || is_digit c.

Lemma value_start_facts c :
  value_start c = true -> is_ws c = false /\ Ascii.eqb c "]" = false /\ Ascii.eqb c "}" = false.
Proof. destruct c as [[] [] [] [] [] [] [] []]; intros H; first [discriminate H | by split_and!]. Qed.

Lemma print_start j : json_ok j -> exists c s, print j = String c s /\ value_start c = true.
Proof.
  destruct j as [|b|lit|s|l|l]; cbn [json_ok]; intros H; [by eexists _, _| | | | |];
    try (by eexists _, _).
  - by destruct b; eexists _, _.
  - destruct H as [z ->]. cbn [print]. unfold FormatInt.
    destruct (Z.ltb_spec z 0); [by eexists _, _|].
    pose proof (FormatUint_digits z ltac:(lia)) as Hd.
    destruct (FormatUint z) as [|c s] eqn:E; [by destruct (FormatUint_nonempty z)|].
    eexists _, _. split; [done|]. cbn [string_forallb] in Hd.
    apply andb_true_iff in Hd as [Hc _]. unfold value_start. by rewrite Hc, !orb_true_r.
Qed.

Lemma skip_ws_start c s : value_start c = true -> skip_ws (String c s) = String c s.
Proof. intros H. unfold skip_ws. cbn. by rewrite (proj1 (value_start_facts c H)). Qed.

Lemma skip_ws_comma r : skip_ws (String "," r) = String "," r.
Proof. done. Qed.

(** ** The parser on printed documents *)

Definition reads_back (j : json) : Prop :=
  json_ok j -> forall fuel rest, (need j <= fuel)%nat -> ends rest = true ->
  parse_value fuel (print j +:+ rest) = Some (j, rest).

Lemma parse_elems_print l rest fuel :
  Forall reads_back l -> Forall json_ok l -> l <> [] -> (needs l <= fuel)%nat ->
  parse_elems fuel (print_elems l +:+ "]" +:+ rest) = Some (l, rest).
Proof.
  intros HP. revert fuel. induction HP as [|v l Hv HP IH]; intros fuel Hok Hne Hf; [done|].
  inversion_clear Hok as [|?? Hvok Hlok]. unfold needs in Hf. cbn [foldr] in Hf.
  fold (needs l) in Hf. destruct fuel as [|fuel]; [lia|].
  cbn [parse_elems]. destruct l as [|w l].
  - rewrite print_elems_one, Hv by (done || lia). done.
  - rewrite print_elems_cons, !app_assoc_s. rewrite Hv by (done || lia).
    cbn [String.append]. rewrite skip_ws_comma.
    change (Ascii.eqb "," ",") with true. cbn iota.
    by rewrite IH by (done || lia).
Qed.

Lemma parse_members_print l rest fuel :
  Forall (fun kv => reads_back (snd kv)) l ->
  Forall (fun kv => ascii_text (fst kv) = true /\ json_ok (snd kv)) l ->
  l <> [] -> (needs_members l <= fuel)%nat ->
  parse_members fuel (print_members l +:+ "}" +:+ rest) = Some (l, rest).
Proof.
  intros HP. revert fuel.
  induction HP as [|[k v] l Hv HP IH]; intros fuel Hok Hne Hf; [done|].
  inversion_clear Hok as [|?? Hkv Hlok]. cbn [fst snd] in *. destruct Hkv as [Hk Hvok].
  unfold needs_members in Hf. cbn [foldr snd] in Hf.
  fold (needs_members l) in Hf. destruct fuel as [|fuel]; [lia|].
  assert (forall t, ends t = true -> parse_members (S fuel) (print_member (k, v) +:+ t) =
    match skip_ws t with
    | String d s4 =>
        if Ascii.eqb d "," then
          match parse_members fuel s4 with
          | Some (l, r) => Some ((k, v) :: l, r)
          | None => None
          end
        else if Ascii.eqb d "}" then Some ([(k, v)], s4) else None
    | EmptyString => None
    end) as Hstep.
  { intros t Ht. unfold print_member, quote. cbn [fst snd parse_members].
    rewrite !app_assoc_s. unfold dq at 1. cbn [String.append].
    unfold skip_ws at 1. cbn [span]. change (is_ws dquote) with false. cbn [snd].
    change (Ascii.eqb dquote dquote) with true. cbn [negb].
    change (String.append "" ?x) with x. rewrite unquote_quote by done.
    cbn [String.append]. unfold skip_ws at 1. cbn [span]. change (is_ws ":") with false.
    cbn [snd]. change (Ascii.eqb ":" ":") with true. cbn [negb].
    change (String.append (print v) t) with (print v +:+ t).
    by rewrite Hv by (done || lia). }
  destruct l as [|w l].
  - by rewrite print_members_one, Hstep.
  - rewrite print_members_cons, !app_assoc_s, Hstep by done.
    cbn [String.append]. rewrite skip_ws_comma.
    change (Ascii.eqb "," ",") with true. cbn iota.
    by rewrite IH by (done || lia).
Qed.

Lemma json_ok_arr l : json_ok (JArr l) -> Forall json_ok l.
Proof. cbn [json_ok]. induction l as [|v l IH]; cbn; [constructor|]. intros [??]. by constructor; auto. Qed.
Lemma json_ok_arr_2 l : Forall json_ok l -> json_ok (JArr l).
Proof. cbn [json_ok]. induction 1; cbn [foldr]; by split_and?. Qed.
Lemma json_ok_obj l :
  json_ok (JObj l) -> Forall (fun kv => ascii_text (fst kv) = true /\ json_ok (snd kv)) l.
Proof. cbn [json_ok]. induction l as [|v l IH]; cbn; [constructor|]. intros [??]. by constructor; auto. Qed.

Lemma print_elems_start v l rest :
  json_ok v -> exists c s, print_elems (v :: l) +:+ rest = String c s /\ value_start c = true.
Proof.
  intros H. destruct (print_start v H) as (c & s & E & Hc). exists c.
  destruct l as [|w l]; unfold print_elems; cbn [fmap list_fmap Join]; rewrite E;
    by eexists.
Qed.

Lemma print_members_start kv l rest :
  exists s, print_members (kv :: l) +:+ rest = String dquote s.
Proof. destruct l as [|w l]; by eexists. Qed.

Lemma number_chars c :
  (Ascii.eqb c "-" || is_digit c) = true ->
  Ascii.eqb c dquote = false /\ Ascii.eqb c "[" = false /\ Ascii.eqb c "{" = false /\
  Ascii.eqb c "t" = false /\ Ascii.eqb c "f" = false /\ Ascii.eqb c "n" = false /\
  value_start c = true.
Proof. destruct c as [[] [] [] [] [] [] [] []]; intros H; first [discriminate H | by split_and!]. Qed.

Lemma FormatInt_start z : exists c s, FormatInt z = String c s /\ (Ascii.eqb c "-" || is_digit c) = true.
Proof.
  unfold FormatInt. destruct (Z.ltb_spec z 0); [by eexists _, _|].
  pose proof (FormatUint_digits z ltac:(lia)) as Hd.
  destruct (FormatUint z) as [|c s] eqn:E; [by destruct (FormatUint_nonempty z)|].
  eexists _, _. split; [done|]. cbn [string_forallb] in Hd.
  apply andb_true_iff in Hd as [-> _]. by rewrite orb_true_r.
Qed.

Lemma parse_value_print j : reads_back j.
Proof.
  induction j as [|b|lit|s|l IH|l IH] using json_nested_ind; intros Hok fuel rest Hf Hr;
    (destruct fuel as [|fuel]; [cbn in Hf; lia|]).
  - cbn. by destruct rest.
  - destruct b; cbn; by destruct rest.
  - destruct Hok as [z ->]. cbn [print].
    destruct (FormatInt_start z) as (c & s & E & Hc).
    pose proof (scan_number_int z rest Hr) as Hn. rewrite E in *.
    destruct (number_chars c Hc) as (E1 & E2 & E3 & E4 & E5 & E6 & E7).
    cbn [String.append parse_value] in *. rewrite skip_ws_start by done.
    rewrite E1, E2, E3, E4, E5, E6. by rewrite Hn.
  - cbn [print parse_value]. unfold quote. rewrite !app_assoc_s.
    unfold dq at 1. cbn [String.append]. rewrite skip_ws_start by done.
    change (Ascii.eqb dquote dquote) with true. cbn iota.
    change (String.append "" ?x) with x. by rewrite unquote_quote.
  - rewrite print_arr, !app_assoc_s. cbn [String.append parse_value].
    rewrite skip_ws_start by done. change (Ascii.eqb "[" dquote) with false.
    change (Ascii.eqb "[" "[") with true. cbn iota.
    apply json_ok_arr in Hok as Hl. destruct l as [|v l]; [done|].
    change (String.append (print_elems (v :: l)) ?x) with (print_elems (v :: l) +:+ x).
    change (String "]" rest) with ("]" +:+ rest).
    destruct (print_elems_start v l ("]" +:+ rest)) as (c & s & E & Hc);
      [by inversion Hl|].
    rewrite E, skip_ws_start by done. rewrite (proj1 (proj2 (value_start_facts c Hc))).
    rewrite <- E. rewrite parse_elems_print; [done|done|done|done|].
    cbn [need] in Hf. unfold needs. cbn [foldr] in *. lia.
  - rewrite print_obj, !app_assoc_s. cbn [String.append parse_value].
    rewrite skip_ws_start by done. change (Ascii.eqb "{" dquote) with false.
    change (Ascii.eqb "{" "[") with false. change (Ascii.eqb "{" "{") with true. cbn iota.
    apply json_ok_obj in Hok as Hl. destruct l as [|kv l]; [done|].
    change (String.append (print_members (kv :: l)) ?x) with (print_members (kv :: l) +:+ x).
    change (String "}" rest) with ("}" +:+ rest).
    destruct (print_members_start kv l ("}" +:+ rest)) as (s & E).
    rewrite E, skip_ws_start by done. change (Ascii.eqb dquote "}") with false. cbn iota.
    rewrite <- E. rewrite parse_members_print; [done|done|done|done|].
    cbn [need] in Hf. unfold needs_members. cbn [foldr] in *. lia.
Qed.

(** The parser's fuel is enough for a printed document. *)
Lemma need_length j : json_ok j -> (need j <= 2 * String.length (print j))%nat.
Proof.
  induction j as [|b|lit|s|l IH|l IH] using json_nested_ind; intros Hok.
  - cbn. lia.
  - destruct b; cbn; lia.
  - destruct Hok as [z ->]. destruct (FormatInt_start z) as (c & s & E & _).
    cbn [print need]. rewrite E. cbn. lia.
  - cbn [print need]. unfold quote, dq. rewrite !length_app_s. cbn. lia.
  - rewrite print_arr, !length_app_s. apply json_ok_arr in Hok.
    cbn [need]. fold (needs l).
    assert (needs l <= 2 * String.length (print_elems l) + 1)%nat; [|cbn; lia].
    induction IH as [|v l Hv IH IHl]; [cbn; lia|].
    inversion_clear Hok as [|?? Hvok Hlok].
    specialize (Hv Hvok). specialize (IHl Hlok).
    change (needs (v :: l)) with (S (need v + needs l)). destruct l as [|w l].
    + rewrite print_elems_one. cbn [needs foldr]. lia.
    + rewrite print_elems_cons, !length_app_s. cbn [String.length]. lia.
  - rewrite print_obj, !length_app_s. apply json_ok_obj in Hok.
    cbn [need]. fold (needs_members l).
    assert (needs_members l <= 2 * String.length (print_members l) + 1)%nat; [|cbn; lia].
    induction IH as [|[k v] l Hv IH IHl]; [cbn; lia|].
    inversion_clear Hok as [|?? Hvok Hlok].
    specialize (Hv (proj2 Hvok)). specialize (IHl Hlok). cbn [snd] in *.
    change (needs_members ((k, v) :: l)) with (S (need v + needs_members l)).
    assert (String.length (print v) <= String.length (print_member (k, v)))%nat
      by (unfold print_member; rewrite !length_app_s; cbn [snd]; lia).
    destruct l as [|w l].
    + rewrite print_members_one. cbn [needs_members foldr]. lia.
    + rewrite print_members_cons, !length_app_s. cbn [String.length]. lia.
Qed.

(** A printed document parses to itself. *)
Lemma parse_print j : json_ok j -> parse (print j) = Some j.
Proof.
  intros Hok. unfold parse, DecodeNext. rewrite <- (app_nil_r_s (print j)).
  rewrite parse_value_print; [done|done| |done].
  unfold text_fuel. pose proof (need_length j Hok). rewrite app_nil_r_s. lia.
Qed.

Lemma print_inj j k : json_ok j -> json_ok k -> print j = print k -> j = k.
Proof.
  intros Hj Hk E. apply (f_equal parse) in E. rewrite !parse_print in E by done.
  by injection E.
Qed.

(** Only the empty array prints as two brackets. *)
Lemma print_empty_array l : Forall json_ok l -> (print (JArr l) = "[]"%string <-> l = []).
Proof.
  intros Hl. split; [|by intros ->]. intros E.
  apply json_ok_arr_2 in Hl.
  assert (JArr l = JArr []) as [= ->] by (by apply print_inj). done.
Qed.
