(* ===== verification/JsonFuel.v ===== *)
(** * encoding/json: the parser's fuel

    What a value, an element list or a member list takes of a text bounds the
    fuel that it needs, so [text_fuel] is enough: a text that parses with any
    fuel parses with that one, to the same document. *)

From S2P Require Export Json.
From Stdlib Require Import String.
#[local] Open Scope Z_scope.
#[local] Abbreviation length := List.length.
#[local] Abbreviation slen := String.length.

(** ** Every token takes something *)

Lemma push_inv p r t rest : push p r = Some (t, rest) -> exists t', r = Some (t', rest).
Proof. destruct r as [[s rest']|]; [|done]. intros [= _ <-]. by exists s. Qed.

Lemma unquote_shorter s t rest : unquote s = Some (t, rest) -> (slen rest < slen s)%nat.
Proof.
  remember (slen s) as n eqn:Hn. revert s t Hn.
  induction (lt_wf n) as [n _ IH]. intros s t ->. destruct s as [|a s]; [done|].
  assert (forall p r, push p (unquote r) = Some (t, rest) -> (slen r <= slen s)%nat ->
    (slen rest < slen (String a s))%nat) as Hpush.
  { intros p r Hp Hr. apply push_inv in Hp as (t' & Hp).
    assert (slen rest < slen r)%nat; [|cbn; lia]. eapply (IH (slen r)); [cbn; lia|done|exact Hp]. }
  cbn [unquote]. repeat (case_match; try done); intros Hp;
    first [injection Hp as _ <-; cbn; lia | eapply Hpush; [exact Hp|]; cbn; lia].
Qed.

Lemma span_shorter p s a b : span p s = (a, b) -> (slen a + slen b = slen s)%nat.
Proof.
  revert a b. induction s as [|c s IH]; intros a b; cbn; [by intros [= <- <-]|].
  destruct (p c); [|by intros [= <- <-]].
  destruct (span p s) as [x y]. intros [= <- <-]. cbn. by rewrite <- (IH x y).
Qed.

Lemma skip_ws_shorter s : (slen (skip_ws s) <= slen s)%nat.
Proof.
  unfold skip_ws. destruct (span is_ws s) as [a b] eqn:E. apply span_shorter in E. cbn. lia.
Qed.

Lemma scan_int_shorter s i rest : scan_int s = Some (i, rest) -> (slen rest < slen s)%nat.
Proof.
  unfold scan_int. destruct s as [|c s]; [done|]. destruct (Ascii.eqb c "0"); [intros [= _ <-]; cbn; lia|].
  destruct (is_digit c) eqn:Hc; [|done]. cbn [span]. rewrite Hc.
  destruct (span is_digit s) as [x y] eqn:E. intros [= _ <-]. apply span_shorter in E. cbn. lia.
Qed.

Lemma scan_fraction_shorter s f rest : scan_fraction s = Some (f, rest) -> (slen rest <= slen s)%nat.
Proof.
  unfold scan_fraction. destruct s as [|c s]; [by intros [= _ <-]|].
  destruct (Ascii.eqb c "."); [|by intros [= _ <-]].
  destruct (span is_digit s) as [[|x y] b] eqn:E; [done|]. intros [= _ <-].
  apply span_shorter in E. cbn in *. lia.
Qed.

Lemma scan_exponent_shorter s e rest : scan_exponent s = Some (e, rest) -> (slen rest <= slen s)%nat.
Proof.
  unfold scan_exponent. destruct s as [|c s]; [by intros [= _ <-]|].
  destruct (Ascii.eqb c "e" || Ascii.eqb c "E"); [|by intros [= _ <-]].
  unfold scan_sign. destruct s as [|d s]; [done|].
  destruct (Ascii.eqb d "+" || Ascii.eqb d "-");
    destruct (span is_digit _) as [[|x y] b] eqn:E; try done; intros [= _ <-];
    apply span_shorter in E; cbn in *; lia.
Qed.

Lemma scan_number_shorter s l rest : scan_number s = Some (l, rest) -> (slen rest < slen s)%nat.
Proof.
  unfold scan_number.
  destruct (match s with String c s' => _ | EmptyString => _ end) as [sign s1] eqn:E1.
  assert (slen s1 <= slen s)%nat.
  { destruct s as [|c s]; [by injection E1 as _ <-|]. destruct (Ascii.eqb c "-"); injection E1 as _ <-; cbn; lia. }
  destruct (scan_int s1) as [[i s2]|] eqn:E2; [|done]. apply scan_int_shorter in E2.
  destruct (scan_fraction s2) as [[f s3]|] eqn:E3; [|done]. apply scan_fraction_shorter in E3.
  destruct (scan_exponent s3) as [[e s4]|] eqn:E4; [|done]. apply scan_exponent_shorter in E4.
  intros [= _ <-]. lia.
Qed.

Lemma literal_shorter w j s v rest : w <> ""%string -> literal w j s = Some (v, rest) -> (slen rest < slen s)%nat.
Proof.
  intros Hw. unfold literal. destruct (strip_prefix w s) as [r|] eqn:E; [|done].
  apply strip_prefix_Some in E as ->. intros [= _ <-]. rewrite length_app_s.
  destruct w; [done|]. cbn. lia.
Qed.

(** ** The fuel that is enough *)

Definition fuelled {A} (p : nat -> string -> option (A * string)) (n : nat) : Prop :=
  forall s x rest, p n s = Some (x, rest) ->
    (slen rest < slen s)%nat /\
    forall m, (2 * (slen s - slen rest) <= S m)%nat -> p m s = Some (x, rest).

Ltac ws_bounds :=
  repeat match goal with
  | E : skip_ws ?s = ?t |- _ =>
      pose proof (skip_ws_shorter s); rewrite E in *; clear E; cbn [String.length] in *
  end.

Lemma fuelled_members n : fuelled parse_value n -> fuelled parse_members n -> fuelled parse_members (S n).
Proof.
  intros Hv Hm s x rest. cbn [parse_members].
  destruct (skip_ws s) as [|q s0] eqn:Es; [done|].
  destruct (Ascii.eqb q dquote) eqn:Eq; [|done]. cbn [negb].
  destruct (unquote s0) as [[k s1]|] eqn:Eu; [|done].
  destruct (skip_ws s1) as [|c s2] eqn:Es1; [done|].
  destruct (Ascii.eqb c ":") eqn:Ec; [|done]. cbn [negb].
  destruct (parse_value n s2) as [[v s3]|] eqn:Ev; [|done]. apply Hv in Ev as [Hl Hv'].
  destruct (skip_ws s3) as [|d s4] eqn:Es3; [done|]. pose proof (unquote_shorter _ _ _ Eu) as Hu.
  assert (slen s0 < slen s /\ S (slen s2) <= slen s1 /\ S (slen s4) <= slen s3)%nat as (?&?&?).
  { pose proof (skip_ws_shorter s) as L0. pose proof (skip_ws_shorter s1) as L1.
    pose proof (skip_ws_shorter s3) as L3. rewrite Es in L0. rewrite Es1 in L1. rewrite Es3 in L3.
    cbn [String.length] in *. lia. }
  destruct (Ascii.eqb d ",") eqn:Ed.
  - destruct (parse_members n s4) as [[l r]|] eqn:Em; [|done]. apply Hm in Em as [Hlm Hm'].
    intros [= <- <-]. split; [lia|]. intros [|m] Hle; [lia|]. cbn [parse_members].
    rewrite Es, Eq. cbn [negb]. rewrite Eu, Es1, Ec. cbn [negb].
    rewrite Hv' by lia. rewrite Es3, Ed. by rewrite Hm' by lia.
  - destruct (Ascii.eqb d "}") eqn:Ed2; [|done]. intros [= <- <-]. split; [lia|].
    intros [|m] Hle; [lia|]. cbn [parse_members].
    rewrite Es, Eq. cbn [negb]. rewrite Eu, Es1, Ec. cbn [negb].
    rewrite Hv' by lia. by rewrite Es3, Ed, Ed2.
Qed.

Lemma fuelled_elems n : fuelled parse_value n -> fuelled parse_elems n -> fuelled parse_elems (S n).
Proof.
  intros Hv He s x rest. cbn [parse_elems].
  destruct (parse_value n s) as [[v s1]|] eqn:Ev; [|done]. apply Hv in Ev as [Hl Hv'].
  destruct (skip_ws s1) as [|c s2] eqn:Es1; [done|].
  assert (S (slen s2) <= slen s1)%nat.
  { pose proof (skip_ws_shorter s1) as L1. rewrite Es1 in L1. cbn [String.length] in *. lia. }
  destruct (Ascii.eqb c ",") eqn:Ec.
  - destruct (parse_elems n s2) as [[l r]|] eqn:Ee; [|done]. apply He in Ee as [Hle He'].
    intros [= <- <-]. split; [lia|]. intros [|m] Hm; [lia|]. cbn [parse_elems].
    rewrite Hv' by lia. rewrite Es1, Ec. by rewrite He' by lia.
  - destruct (Ascii.eqb c "]") eqn:Ec2; [|done]. intros [= <- <-]. split; [lia|].
    intros [|m] Hm; [lia|]. cbn [parse_elems]. rewrite Hv' by lia. by rewrite Es1, Ec, Ec2.
Qed.

Lemma fuelled_value n : fuelled parse_elems n -> fuelled parse_members n -> fuelled parse_value (S n).
Proof.
  intros He Hm s x rest. cbn [parse_value].
  destruct (skip_ws s) as [|c s1] eqn:Es; [done|].
  assert (S (slen s1) <= slen s)%nat.
  { pose proof (skip_ws_shorter s) as L. by rewrite Es in L. }
  assert (forall w j r v, w <> ""%string -> literal w j (String c s1) = Some (v, r) -> (slen r < slen s)%nat)
    as Hlit by (intros w j r v Hw Hlit; apply literal_shorter in Hlit; [cbn in Hlit; lia|done]).
  assert (forall d t, skip_ws s1 = String d t -> (S (slen t) <= slen s1)%nat) as Hws.
  { intros d t E. pose proof (skip_ws_shorter s1) as L. by rewrite E in L. }
  destruct (Ascii.eqb c dquote) eqn:E1.
  { destruct (unquote s1) as [[t r]|] eqn:Eu; [|done]. intros [= <- <-].
    pose proof (unquote_shorter _ _ _ Eu). split; [lia|]. intros [|m] Hle; [lia|].
    cbn [parse_value]. by rewrite Es, E1, Eu. }
  destruct (Ascii.eqb c "[") eqn:E2.
  { destruct (skip_ws s1) as [|d t] eqn:Ed; [done|]. specialize (Hws _ _ eq_refl).
    destruct (Ascii.eqb d "]") eqn:E3.
    - intros [= <- <-]. split; [lia|]. intros [|m] Hle; [lia|]. cbn [parse_value]. by rewrite Es, E1, E2, Ed, E3.
    - destruct (parse_elems n s1) as [[l r]|] eqn:Ee; [|done]. apply He in Ee as [Hl He'].
      intros [= <- <-]. split; [lia|]. intros [|m] Hle; [lia|]. cbn [parse_value].
      rewrite Es, E1, E2, Ed, E3. by rewrite He' by lia. }
  destruct (Ascii.eqb c "{") eqn:E4.
  { destruct (skip_ws s1) as [|d t] eqn:Ed; [done|]. specialize (Hws _ _ eq_refl).
    destruct (Ascii.eqb d "}") eqn:E3.
    - intros [= <- <-]. split; [lia|]. intros [|m] Hle; [lia|]. cbn [parse_value]. by rewrite Es, E1, E2, E4, Ed, E3.
    - destruct (parse_members n s1) as [[l r]|] eqn:Ee; [|done]. apply Hm in Ee as [Hl Hm'].
      intros [= <- <-]. split; [lia|]. intros [|m] Hle; [lia|]. cbn [parse_value].
      rewrite Es, E1, E2, E4, Ed, E3. by rewrite Hm' by lia. }
  intros Hrest. split.
  - revert Hrest. repeat (case_match; [by apply Hlit|]).
    destruct (scan_number _) as [[lit r]|] eqn:En; [|done]. apply scan_number_shorter in En.
    intros [= _ <-]. cbn in En. lia.
  - intros [|m] Hle.
    + assert (slen rest < slen s)%nat; [|lia].
      revert Hrest. repeat (case_match; [by apply Hlit|]).
      destruct (scan_number _) as [[lit r]|] eqn:En; [|done]. apply scan_number_shorter in En.
      intros [= _ <-]. cbn in En. lia.
    + cbn [parse_value]. rewrite Es, E1, E2, E4. exact Hrest.
Qed.

Lemma parser_fuel n : fuelled parse_value n /\ fuelled parse_elems n /\ fuelled parse_members n.
Proof.
  induction n as [|n (Hv & He & Hm)]; [by split_and!|].
  split_and!; [by apply fuelled_value|by apply fuelled_elems|by apply fuelled_members].
Qed.

(** [text_fuel] is enough, and what a value takes does not depend on the fuel. *)
Lemma parse_value_fuel n s j rest : parse_value n s = Some (j, rest) -> DecodeNext s = Some (j, rest).
Proof.
  intros E. destruct (parser_fuel n) as (Hv & _). apply Hv in E as [_ E]. apply E. unfold text_fuel. lia.
Qed.

Lemma DecodeNext_fuel n s j rest :
  DecodeNext s = Some (j, rest) -> (2 * slen s <= n)%nat -> parse_value n s = Some (j, rest).
Proof.
  intros E Hn. destruct (parser_fuel (text_fuel s)) as (Hv & _). apply Hv in E as [_ E]. apply E. lia.
Qed.

Lemma DecodeNext_shorter s j rest : DecodeNext s = Some (j, rest) -> (slen rest < slen s)%nat.
Proof. intros E. destruct (parser_fuel (text_fuel s)) as (Hv & _). by apply Hv in E as [? _]. Qed.

Lemma parse_members_fuel n m s l rest :
  parse_members n s = Some (l, rest) -> (2 * slen s <= m)%nat -> parse_members m s = Some (l, rest).
Proof.
  intros E Hm. destruct (parser_fuel n) as (_ & _ & Hp). apply Hp in E as [_ E]. apply E. lia.
Qed.
