(* ===== verification/JsonPrefix.v ===== *)
(** * encoding/json: texts that end too early

    What the parser takes of a text it takes of every longer text as well,
    numbers at the very end apart; so a printed object that is cut short does
    not parse. *)

From S2P Require Export JsonText JsonFuel.
From Stdlib Require Import String.
#[local] Open Scope Z_scope.
#[local] Abbreviation length := List.length.
#[local] Abbreviation slen := String.length.

(** ** Strings *)

Lemma push_app p s rest q t r :
  push p (unquote s) = Some (t, rest) ->
  (forall t', unquote s = Some (t', rest) -> unquote (s +:+ q) = Some (t', r)) ->
  push p (unquote (s +:+ q)) = Some (t, r).
Proof.
  intros H IH. destruct (unquote s) as [[t' rest']|]; [|done]. injection H as <- <-.
  by rewrite (IH t' eq_refl).
Qed.

(** The escape of a surrogate that is not followed by six more bytes. *)
Lemma unquote_short_escape b u s t :
  unquote (String b (String u s)) = Some t -> (slen s < 4)%nat ->
  Ascii.eqb b backslash && Ascii.eqb u "u" = false.
Proof.
  intros H Hs. destruct (Ascii.eqb_spec b backslash) as [->|]; [|done].
  destruct (Ascii.eqb_spec u "u") as [->|]; [|done]. exfalso.
  destruct s as [|a1 [|a2 [|a3 [|a4 s]]]]; cbn in H, Hs; try done; lia.
Qed.

Lemma not_cont_dquote : cont dquote = false.
Proof. done. Qed.

(** A lead byte whose sequence the text cuts short: the closing quote is near. *)
Lemma unquote_one b t : unquote (String b "") = Some t -> b = dquote.
Proof.
  cbn. destruct (Ascii.eqb_spec b dquote); [done|]. destruct (Ascii.eqb b backslash); [done|].
  by repeat case_match.
Qed.

Lemma unquote_two b c t : unquote (String b (String c "")) = Some t -> b = dquote \/ c = dquote.
Proof.
  intros H. destruct (decide (c = dquote)) as [|Hc]; [by right|]. left.
  cbn [unquote] in H. destruct (Ascii.eqb_spec b dquote); [done|]. exfalso.
  assert (forall p, push p (unquote (String c "")) = Some t -> False) as Hone.
  { intros p Hp. destruct (unquote (String c "")) as [x|] eqn:E; [|done]. by apply unquote_one in E. }
  change (Ascii.eqb b backslash) with (Ascii.eqb b backslash) in H.
  destruct (Ascii.eqb b backslash).
  { destruct (Ascii.eqb c "u"); [done|]. destruct (unescape c); done. }
  destruct (code b <? 32); [done|].
  destruct (code b <? 128); [by apply (Hone (String b ""))|].
  destruct (utf8_2 b c); [done|]. by apply (Hone rune_error).
Qed.

Lemma utf8_3_quote a c : utf8_3 a dquote c = false.
Proof.
  unfold utf8_3. change (cont dquote) with false. change (in_range 0xA0 0xBF dquote) with false.
  change (in_range 0x80 0x9F dquote) with false. by rewrite !andb_false_r.
Qed.

Lemma utf8_4_quote a b c d : b = dquote \/ c = dquote -> utf8_4 a b c d = false.
Proof.
  unfold utf8_4. intros [->| ->]; [|done]. change (in_range 0x90 0xBF dquote) with false.
  change (cont dquote) with false. change (in_range 0x80 0x8F dquote) with false.
  by rewrite !andb_false_r.
Qed.

(** The low surrogate that may follow a high one. *)
Definition after_surrogate (r : Z) (s : string) : option (string * string) :=
  match s with
  | String b (String u (String g1 (String g2 (String g3 (String g4 s4))))) =>
      match (if Ascii.eqb b backslash && Ascii.eqb u "u" then hex4 g1 g2 g3 g4 else None) with
      | Some r2 =>
          match surrogate_pair r r2 with
          | Some dec => push (encode_rune dec) (unquote s4)
          | None => push rune_error (unquote s)
          end
      | None => push rune_error (unquote s)
      end
  | _ => push rune_error (unquote s)
  end.

Lemma unquote_unicode h1 h2 h3 h4 s :
  unquote (String backslash (String "u" (String h1 (String h2 (String h3 (String h4 s)))))) =
  match hex4 h1 h2 h3 h4 with
  | None => None
  | Some r => if is_surrogate r then after_surrogate r s else push (encode_rune r) (unquote s)
  end.
Proof. done. Qed.

Section stable.
Context (n : nat) (q : string).
Context (IH : forall s t rest, (slen s < n)%nat -> unquote s = Some (t, rest) ->
  unquote (s +:+ q) = Some (t, rest +:+ q)).

Lemma push_stable p s t rest :
  (slen s < n)%nat -> push p (unquote s) = Some (t, rest) ->
  push p (unquote (s +:+ q)) = Some (t, rest +:+ q).
Proof. intros Hs Hp. eapply push_app; [exact Hp|]. intros t' E. by apply IH. Qed.

Lemma after_surrogate_stable r s t rest :
  (slen s < n)%nat -> after_surrogate r s = Some (t, rest) ->
  after_surrogate r (s +:+ q) = Some (t, rest +:+ q).
Proof.
  intros Hs H.
  assert (forall b u s', s = String b (String u s') -> (slen s' < 4)%nat ->
    push rune_error (unquote s) = Some (t, rest) -> Ascii.eqb b backslash && Ascii.eqb u "u" = false) as Hshort.
  { intros b u s' -> Hl Hp. destruct (unquote (String b (String u s'))) as [x|] eqn:E; [|done].
    by eapply unquote_short_escape. }
  assert (push rune_error (unquote s) = Some (t, rest) ->
    push rune_error (unquote (s +:+ q)) = Some (t, rest +:+ q)) as Hpush by (by apply push_stable).
  destruct s as [|b [|u [|g1 [|g2 [|g3 [|g4 s4]]]]]].
  all: try (cbn [after_surrogate] in H; pose proof (Hpush H) as H');
    try (pose proof (Hshort _ _ _ eq_refl ltac:(cbn; lia) H) as Hbu).
  - cbn in H. done.
  - unfold after_surrogate. destruct q as [|u [|g1 [|g2 [|g3 [|g4 q']]]]]; try exact H'.
    cbn [String.append]. replace (Ascii.eqb b backslash && Ascii.eqb u "u") with false; [exact H'|].
    destruct (unquote (String b "")) as [x|] eqn:E; [|done]. by apply unquote_one in E as ->.
  - unfold after_surrogate. destruct q as [|g1 [|g2 [|g3 [|g4 q']]]]; try exact H'.
    cbn [String.append]. rewrite Hbu. exact H'.
  - unfold after_surrogate. destruct q as [|g2 [|g3 [|g4 q']]]; try exact H'.
    cbn [String.append]. rewrite Hbu. exact H'.
  - unfold after_surrogate. destruct q as [|g3 [|g4 q']]; try exact H'.
    cbn [String.append]. rewrite Hbu. exact H'.
  - unfold after_surrogate. destruct q as [|g4 q']; try exact H'.
    cbn [String.append]. rewrite Hbu. exact H'.
  - unfold after_surrogate in *. cbn [String.append].
    destruct (if _ && _ then _ else _) as [r2|]; [|exact (Hpush H)].
    destruct (surrogate_pair r r2); [|exact (Hpush H)].
    apply push_stable; [cbn in Hs; lia|exact H].
Qed.
End stable.

Lemma unquote_stable s q t rest :
  unquote s = Some (t, rest) -> unquote (s +:+ q) = Some (t, rest +:+ q).
Proof.
  remember (slen s) as n eqn:Hn. revert s t rest Hn.
  induction (lt_wf n) as [n _ IH0]. intros s t rest ->.
  assert (forall s' t' rest', (slen s' < slen s)%nat -> unquote s' = Some (t', rest') ->
    unquote (s' +:+ q) = Some (t', rest' +:+ q)) as IH by (intros s' t' rest' Hl E; by eapply (IH0 (slen s'))).
  clear IH0. destruct s as [|a s1]; [done|].
  cbn [unquote String.append]. change (String.append s1 q) with (s1 +:+ q).
  destruct (Ascii.eqb a dquote); [by intros [= <- <-]|].
  destruct (Ascii.eqb_spec a backslash) as [->|].
  - destruct s1 as [|e s2]; [done|]. cbn [String.append].
    destruct (Ascii.eqb e "u").
    + destruct s2 as [|h1 [|h2 [|h3 [|h4 s3]]]]; try done. cbn [String.append].
      destruct (hex4 h1 h2 h3 h4) as [r|]; [|done]. destruct (is_surrogate r).
      * intros H. apply (after_surrogate_stable _ q IH r s3); [cbn; lia|exact H].
      * intros H. apply (push_stable _ q IH); [cbn; lia|exact H].
    + destruct (unescape e); [|done]. intros H. apply (push_stable _ q IH); [cbn; lia|exact H].
  - destruct (code a <? 32); [done|]. destruct (code a <? 128).
    { intros H. apply (push_stable _ q IH); [cbn; lia|exact H]. }
    destruct s1 as [|b s2]; [done|]. cbn [String.append]. change (String.append s2 q) with (s2 +:+ q).
    destruct (utf8_2 a b); [intros H; apply (push_stable _ q IH); [cbn; lia|exact H]|].
    assert (forall t rest, push rune_error (unquote (String b s2)) = Some (t, rest) ->
      push rune_error (unquote (String b s2 +:+ q)) = Some (t, rest +:+ q)) as Herr.
    { intros t' rest' H. apply (push_stable _ q IH); [cbn; lia|exact H]. }
    destruct s2 as [|c s3].
    + intros H. pose proof (Herr _ _ H) as H'. cbn [String.append] in *.
      destruct (unquote (String b "")) as [x|] eqn:E; [|done]. apply unquote_one in E. subst b.
      change ("" +:+ q) with q. destruct q as [|c [|d q']]; [exact H'|..]; rewrite utf8_3_quote; [exact H'|].
      rewrite utf8_4_quote by (by left). exact H'.
    + cbn [String.append]. change (String.append s3 q) with (s3 +:+ q).
      destruct (utf8_3 a b c); [intros H; apply (push_stable _ q IH); [cbn; lia|exact H]|].
      destruct s3 as [|d s4].
      * intros H. pose proof (Herr _ _ H) as H'. cbn [String.append] in *. change ("" +:+ q) with q.
        destruct (unquote (String b (String c ""))) as [x|] eqn:E; [|done]. apply unquote_two in E.
        destruct q as [|d q']; [exact H'|]. rewrite utf8_4_quote by done. exact H'.
      * cbn [String.append]. destruct (utf8_4 a b c d); [|exact (Herr t rest)].
        intros H; apply (push_stable _ q IH); [cbn; lia|exact H].
Qed.

(** ** White space, literals, numbers *)

Lemma span_stable p s q a c b : span p s = (a, String c b) -> span p (s +:+ q) = (a, String c b +:+ q).
Proof.
  revert a. induction s as [|d s IH]; intros a; cbn; [done|]. change (String.append s q) with (s +:+ q).
  destruct (p d); [|by intros [= <- <- <-]].
  destruct (span p s) as [x y]. intros [= <- ->]. by rewrite (IH x eq_refl).
Qed.

Lemma skip_ws_stable s q c r : skip_ws s = String c r -> skip_ws (s +:+ q) = String c (r +:+ q).
Proof.
  unfold skip_ws. destruct (span is_ws s) as [a b] eqn:E. cbn [snd]. intros ->.
  by rewrite (span_stable _ _ _ _ _ _ E).
Qed.

Lemma strip_prefix_stable w s q r : strip_prefix w s = Some r -> strip_prefix w (s +:+ q) = Some (r +:+ q).
Proof. intros E. apply strip_prefix_Some in E as ->. rewrite app_assoc_s. apply strip_prefix_app. Qed.

Lemma literal_stable w j s q v r : literal w j s = Some (v, r) -> literal w j (s +:+ q) = Some (v, r +:+ q).
Proof.
  unfold literal. destruct (strip_prefix w s) as [x|] eqn:E; [|done]. intros [= <- <-].
  by rewrite (strip_prefix_stable _ _ _ _ E).
Qed.

Lemma literal_value w j s v r : literal w j s = Some (v, r) -> v = j.
Proof. unfold literal. case_match; [|done]. by intros [= <- _]. Qed.

Lemma scan_int_stable s q i c r : scan_int s = Some (i, String c r) -> scan_int (s +:+ q) = Some (i, String c r +:+ q).
Proof.
  unfold scan_int. destruct s as [|d s]; [done|]. cbn [String.append]. change (String.append s q) with (s +:+ q).
  destruct (Ascii.eqb d "0"); [by intros [= <- ->]|]. destruct (is_digit d) eqn:Hd; [|done]. intros H.
  assert (span is_digit (String d s) = (i, String c r)) as E by congruence.
  rewrite <- app_cons_s. by rewrite (span_stable _ _ _ _ _ _ E).
Qed.

Lemma scan_fraction_stable s q f c r :
  scan_fraction s = Some (f, String c r) -> scan_fraction (s +:+ q) = Some (f, String c r +:+ q).
Proof.
  unfold scan_fraction. destruct s as [|d s]; [done|]. cbn [String.append]. change (String.append s q) with (s +:+ q).
  destruct (Ascii.eqb d "."); [|by intros [= <- <- <-]].
  destruct (span is_digit s) as [x y] eqn:E. destruct x as [|x1 x]; [done|]. intros [= <- ->].
  by rewrite (span_stable _ _ _ _ _ _ E).
Qed.

Lemma scan_exponent_stable s q e c r :
  scan_exponent s = Some (e, String c r) -> scan_exponent (s +:+ q) = Some (e, String c r +:+ q).
Proof.
  unfold scan_exponent. destruct s as [|d s]; [done|]. cbn [String.append]. change (String.append s q) with (s +:+ q).
  destruct (Ascii.eqb d "e" || Ascii.eqb d "E"); [|by intros [= <- <- <-]].
  unfold scan_sign. destruct s as [|x s]; [done|]. cbn [String.append]. change (String.append s q) with (s +:+ q).
  destruct (Ascii.eqb x "+" || Ascii.eqb x "-").
  - destruct (span is_digit s) as [u v] eqn:E. destruct u as [|u1 u]; [done|]. intros [= <- ->].
    by rewrite (span_stable _ _ _ _ _ _ E).
  - destruct (span is_digit (String x s)) as [u v] eqn:E. destruct u as [|u1 u]; [done|]. intros [= <- ->].
    rewrite <- app_cons_s. by rewrite (span_stable _ _ _ _ _ _ E).
Qed.

Lemma scan_number_stable s q l c r :
  scan_number s = Some (l, String c r) -> scan_number (s +:+ q) = Some (l, String c r +:+ q).
Proof.
  unfold scan_number. destruct s as [|d s]; [done|]. cbn [String.append]. change (String.append s q) with (s +:+ q).
  assert (forall s1 sign, match scan_int s1 with
    | None => None
    | Some (i, s2) =>
        match scan_fraction s2 with
        | None => None
        | Some (f, s3) =>
            match scan_exponent s3 with
            | None => None
            | Some (e, s4) => Some (sign +:+ i +:+ f +:+ e, s4)
            end
        end
    end = Some (l, String c r) ->
    match scan_int (s1 +:+ q) with
    | None => None
    | Some (i, s2) =>
        match scan_fraction s2 with
        | None => None
        | Some (f, s3) =>
            match scan_exponent s3 with
            | None => None
            | Some (e, s4) => Some (sign +:+ i +:+ f +:+ e, s4)
            end
        end
    end = Some (l, String c r +:+ q)) as Hbody.
  { intros s1 sign. destruct (scan_int s1) as [[i s2]|] eqn:E1; [|done].
    destruct (scan_fraction s2) as [[f s3]|] eqn:E2; [|done].
    destruct (scan_exponent s3) as [[e s4]|] eqn:E3; [|done]. intros [= <- ->].
    pose proof (scan_exponent_shorter _ _ _ E3). pose proof (scan_fraction_shorter _ _ _ E2).
    destruct s3 as [|c3 s3]; [cbn in *; lia|]. destruct s2 as [|c2 s2]; [cbn in *; lia|].
    rewrite (scan_int_stable _ q _ _ _ E1), (scan_fraction_stable _ q _ _ _ E2).
    by rewrite (scan_exponent_stable _ q _ _ _ E3). }
  destruct (Ascii.eqb d "-"); [apply Hbody|]. apply (Hbody (String d s)).
Qed.

(** ** Values *)

Definition is_number (j : json) : bool := match j with JNum _ => true | _ => false end.

Definition stable_value (n : nat) : Prop := forall s j rest q,
  parse_value n s = Some (j, rest) -> is_number j = false \/ rest <> ""%string ->
  parse_value n (s +:+ q) = Some (j, rest +:+ q).
Definition stable_list {A} (p : nat -> string -> option (A * string)) (n : nat) : Prop :=
  forall s x rest q, p n s = Some (x, rest) -> p n (s +:+ q) = Some (x, rest +:+ q).

Lemma skip_ws_nonempty s c r : skip_ws s = String c r -> s <> ""%string.
Proof. by intros E ->. Qed.

Lemma stable_elems n : stable_value n -> stable_list parse_elems n -> stable_list parse_elems (S n).
Proof.
  intros Hv He s x rest q. cbn [parse_elems].
  destruct (parse_value n s) as [[v s1]|] eqn:Ev; [|done].
  destruct (skip_ws s1) as [|c s2] eqn:Es1; [done|].
  rewrite (Hv _ _ _ q Ev) by (right; by eapply skip_ws_nonempty). rewrite (skip_ws_stable _ q _ _ Es1).
  destruct (Ascii.eqb c ",").
  - destruct (parse_elems n s2) as [[l r]|] eqn:Ee; [|done]. intros [= <- <-]. by rewrite (He _ _ _ q Ee).
  - destruct (Ascii.eqb c "]"); [|done]. by intros [= <- <-].
Qed.

Lemma stable_members n : stable_value n -> stable_list parse_members n -> stable_list parse_members (S n).
Proof.
  intros Hv Hm s x rest q. cbn [parse_members].
  destruct (skip_ws s) as [|d s0] eqn:Es; [done|]. rewrite (skip_ws_stable _ q _ _ Es).
  destruct (Ascii.eqb d dquote); [|done]. cbn [negb].
  destruct (unquote s0) as [[k s1]|] eqn:Eu; [|done]. rewrite (unquote_stable _ q _ _ Eu).
  destruct (skip_ws s1) as [|c s2] eqn:Es1; [done|]. rewrite (skip_ws_stable _ q _ _ Es1).
  destruct (Ascii.eqb c ":"); [|done]. cbn [negb].
  destruct (parse_value n s2) as [[v s3]|] eqn:Ev; [|done].
  destruct (skip_ws s3) as [|e s4] eqn:Es3; [done|].
  rewrite (Hv _ _ _ q Ev) by (right; by eapply skip_ws_nonempty). rewrite (skip_ws_stable _ q _ _ Es3).
  destruct (Ascii.eqb e ",").
  - destruct (parse_members n s4) as [[l r]|] eqn:Em; [|done]. intros [= <- <-]. by rewrite (Hm _ _ _ q Em).
  - destruct (Ascii.eqb e "}"); [|done]. by intros [= <- <-].
Qed.

Lemma stable_value_step n :
  stable_list parse_elems n -> stable_list parse_members n -> stable_value (S n).
Proof.
  intros He Hm s j rest q. cbn [parse_value].
  destruct (skip_ws s) as [|c s1] eqn:Es; [done|]. rewrite (skip_ws_stable _ q _ _ Es).
  destruct (Ascii.eqb c dquote).
  { destruct (unquote s1) as [[t r]|] eqn:Eu; [|done]. intros [= <- <-] _. by rewrite (unquote_stable _ q _ _ Eu). }
  destruct (Ascii.eqb c "[").
  { destruct (skip_ws s1) as [|d t] eqn:Ed; [done|]. rewrite (skip_ws_stable _ q _ _ Ed).
    destruct (Ascii.eqb d "]"); [by intros [= <- <-] _|].
    destruct (parse_elems n s1) as [[l r]|] eqn:Ee; [|done]. intros [= <- <-] _. by rewrite (He _ _ _ q Ee). }
  destruct (Ascii.eqb c "{").
  { destruct (skip_ws s1) as [|d t] eqn:Ed; [done|]. rewrite (skip_ws_stable _ q _ _ Ed).
    destruct (Ascii.eqb d "}"); [by intros [= <- <-] _|].
    destruct (parse_members n s1) as [[l r]|] eqn:Ee; [|done]. intros [= <- <-] _. by rewrite (Hm _ _ _ q Ee). }
  rewrite <- app_cons_s.
  destruct (Ascii.eqb c "t"); [intros E _; by apply literal_stable|].
  destruct (Ascii.eqb c "f"); [intros E _; by apply literal_stable|].
  destruct (Ascii.eqb c "n"); [intros E _; by apply literal_stable|].
  destruct (scan_number (String c s1)) as [[l r]|] eqn:En; [|done]. intros [= <- <-] [?|Hr]; [done|].
  destruct r as [|d r]; [done|]. by rewrite (scan_number_stable _ q _ _ _ En).
Qed.

Lemma parser_stable n : stable_value n /\ stable_list parse_elems n /\ stable_list parse_members n.
Proof.
  induction n as [|n (Hv & He & Hm)]; [by split_and!|].
  split_and!; [by apply stable_value_step|by apply stable_elems|by apply stable_members].
Qed.

(** A printed object that is cut short does not parse. *)
Lemma DecodeNext_cut l p q :
  json_ok (JObj l) -> print (JObj l) = p +:+ q -> q <> ""%string -> DecodeNext p = None.
Proof.
  intros Hok E Hq. destruct (DecodeNext p) as [[j rest]|] eqn:Ed; [|done]. exfalso.
  assert (is_number j = false) as Hj.
  { destruct p as [|c p]; [done|]. rewrite print_obj in E. cbn in E. injection E as <- _.
    unfold DecodeNext, text_fuel in Ed. rewrite Nat.add_succ_r in Ed. cbn [parse_value] in Ed.
    change (skip_ws (String "{" p)) with (String "{" p) in Ed. cbn iota in Ed.
    change (Ascii.eqb "{" dquote) with false in Ed. change (Ascii.eqb "{" "[") with false in Ed.
    change (Ascii.eqb "{" "{") with true in Ed. cbn iota in Ed.
    by repeat (case_match; try done); simplify_eq. }
  destruct (parser_stable (text_fuel p)) as (Hv & _). pose proof (Hv _ _ _ q Ed (or_introl Hj)) as Hs.
  apply parse_value_fuel in Hs.
  pose proof (parse_value_print (JObj l) Hok (text_fuel (p +:+ q)) "") as Hf. rewrite app_nil_r_s in Hf.
  rewrite E in Hf. unfold DecodeNext in Hs. rewrite Hf in Hs.
  - injection Hs as _ Hr. symmetry in Hr. by apply app_eq_nil_s in Hr as [_ ?].
  - rewrite <- E. unfold text_fuel. pose proof (need_length _ Hok). lia.
  - done.
Qed.

Lemma parse_cut l p q : json_ok (JObj l) -> print (JObj l) = p +:+ q -> q <> ""%string -> parse p = None.
Proof. intros Hok E Hq. unfold parse. by rewrite (DecodeNext_cut l p q). Qed.
