(* ===== verification/Model.v ===== *)
(** * Package model: intents and canonical address sets

    [src/dns/internal/model/model.go].  An intent is the durable desired state
    of one device; its addresses are kept in canonical form (unmapped, without
    duplicates, sorted). *)

From S2P Require Export NetipText JsonText Sha256.
From Stdlib Require Import String.
#[local] Open Scope Z_scope.
#[local] Abbreviation length := List.length.

(** ** Definitions *)

(** [PublicationStatus] and its JSON text. *)
Inductive PublicationStatus : Type :=
| StatusAccepted
| StatusOriginApplied
| StatusPubliclyObserved.

#[export] Instance PublicationStatus_eq_dec : EqDecision PublicationStatus.
Proof. solve_decision. Defined.

Definition status_text (s : PublicationStatus) : string :=
  match s with
  | StatusAccepted => "accepted"
  | StatusOriginApplied => "origin-applied"
  | StatusPubliclyObserved => "publicly-observed"
  end.

Record Intent : Type := {
  DeviceID : string;
  Hostname : string;
  Addresses : list Addr;
  Generation : Z;
  LeaseExpiresAt : time;
  UpdatedAt : time;
  OriginAppliedGeneration : Z;
  PublicObservedGeneration : Z;
  LastPublicationError : string;
}.

#[export] Instance Intent_eq_dec : EqDecision Intent.
Proof. solve_decision. Defined.

Definition Status (i : Intent) : PublicationStatus :=
  if Generation i <=? PublicObservedGeneration i then StatusPubliclyObserved
  else if Generation i <=? OriginAppliedGeneration i then StatusOriginApplied
  else StatusAccepted.

(** Addresses as map keys. *)
#[export] Instance Addr_countable : Countable Addr.
Proof.
  refine (inj_countable'
    (fun x => match x with
              | AddrZero => None
              | Addr4 a => Some (inl a)
              | Addr6 a z => Some (inr (a, z))
              end)
    (fun y : option (Z + Z * string) =>
       match y with
       | None => AddrZero
       | Some (inl a) => Addr4 a
       | Some (inr (a, z)) => Addr6 a z
       end) _).
  by intros [].
Defined.

(** The loop of [CanonicalAddresses]: unmap, skip what was seen, append. *)
Fixpoint unmap_unique (seen : gset Addr) (input : list Addr) : list Addr :=
  match input with
  | [] => []
  | addr :: input' =>
      let addr := Unmap addr in
      if decide (addr ∈ seen) then unmap_unique seen input'
      else addr :: unmap_unique ({[addr]} ∪ seen) input'
  end.

Definition CanonicalAddresses (input : list Addr) : list Addr :=
  merge_sort addr_le (unmap_unique ∅ input).

Fixpoint same_elements (a b : list Addr) : bool :=
  match a, b with
  | x :: a', y :: b' => bool_decide (x = y) && same_elements a' b'
  | _, _ => true
  end.

Definition AddressesEqual (a b : list Addr) : bool :=
  let a := CanonicalAddresses a in
  let b := CanonicalAddresses b in
  if negb (length a =? length b)%nat then false else same_elements a b.

(** The JSON document of a canonical address list, and its text. *)
Definition address_document (l : list Addr) : json := JArr (JStr ∘ AddrString <$> l).

Definition AddressesHash (addresses : list Addr) : string :=
  hex_encode (Sum256 (print (address_document (CanonicalAddresses addresses)))).

(** ** Canonical addresses *)

Lemma unmap_unique_elem seen l x :
  x ∈ unmap_unique seen l <-> x ∈ (Unmap <$> l) /\ x ∉ seen.
Proof.
  revert seen. induction l as [|y l IH]; intros seen; csimpl; [set_solver|].
  case_decide as Hd; [rewrite IH|rewrite elem_of_cons, IH]; set_unfold; [naive_solver|].
  destruct (decide (x = Unmap y)); naive_solver.
Qed.

Lemma unmap_unique_NoDup seen l : NoDup (unmap_unique seen l).
Proof.
  revert seen. induction l as [|y l IH]; intros seen; csimpl; [constructor|].
  case_decide; [done|]. constructor; [|done].
  rewrite unmap_unique_elem. set_solver.
Qed.

Lemma Canonical_elem l x : x ∈ CanonicalAddresses l <-> x ∈ Unmap <$> l.
Proof.
  unfold CanonicalAddresses. rewrite merge_sort_Permutation, unmap_unique_elem. set_solver.
Qed.

Lemma Canonical_NoDup l : NoDup (CanonicalAddresses l).
Proof.
  unfold CanonicalAddresses. rewrite merge_sort_Permutation. apply unmap_unique_NoDup.
Qed.

Lemma Canonical_sorted l : StronglySorted addr_le (CanonicalAddresses l).
Proof. apply (StronglySorted_merge_sort _). Qed.

(** A canonical list: sorted, duplicate-free, nothing left to unmap. *)
Definition canonical (l : list Addr) : Prop :=
  StronglySorted addr_le l /\ NoDup l /\ Forall (fun x => Is4In6 x = false) l.

Lemma Canonical_canonical l : canonical (CanonicalAddresses l).
Proof.
  split_and!; [apply Canonical_sorted|apply Canonical_NoDup|].
  apply Forall_forall. intros x. rewrite Canonical_elem, list_elem_of_fmap.
  intros (y & -> & _). apply Unmap_not_mapped.
Qed.

Lemma canonical_unique l k :
  canonical l -> canonical k -> (forall x, x ∈ l <-> x ∈ k) -> l = k.
Proof.
  intros (Sl & Nl & _) (Sk & Nk & _) H.
  apply (StronglySorted_unique addr_le); [done..|].
  by apply NoDup_Permutation.
Qed.

Lemma Canonical_id l : canonical l -> CanonicalAddresses l = l.
Proof.
  intros Hl. apply canonical_unique; [apply Canonical_canonical|done|].
  intros x. rewrite Canonical_elem, list_elem_of_fmap.
  destruct Hl as (_ & _ & Hm). rewrite Forall_forall in Hm. split.
  - intros (y & -> & Hy). by rewrite Unmap_id by auto.
  - intros Hx. exists x. by rewrite Unmap_id by auto.
Qed.

Lemma Canonical_idemp l : CanonicalAddresses (CanonicalAddresses l) = CanonicalAddresses l.
Proof. apply Canonical_id, Canonical_canonical. Qed.

Lemma canonical_nil : canonical [].
Proof. split_and!; constructor. Qed.

Lemma Canonical_nil_iff l : CanonicalAddresses l = [] <-> l = [].
Proof.
  split; [|by intros ->]. intros H. destruct l as [|x l]; [done|].
  assert (Unmap x ∈ CanonicalAddresses (x :: l)) as Hx by (rewrite Canonical_elem; set_solver).
  rewrite H in Hx. set_solver.
Qed.

Lemma Canonical_eq_iff l k :
  CanonicalAddresses l = CanonicalAddresses k <-> (forall x, x ∈ Unmap <$> l <-> x ∈ Unmap <$> k).
Proof.
  split.
  - intros H x. by rewrite <- !Canonical_elem, H.
  - intros H. apply canonical_unique; try apply Canonical_canonical.
    intros x. by rewrite !Canonical_elem.
Qed.

Lemma same_elements_eq l k : length l = length k -> same_elements l k = bool_decide (l = k).
Proof.
  revert k. induction l as [|x l IH]; intros [|y k]; cbn; intros E; try done.
  rewrite IH by lia. apply eq_bool_prop_intro.
  rewrite andb_True, !bool_decide_spec. naive_solver.
Qed.

Lemma AddressesEqual_canonical l k :
  AddressesEqual l k = bool_decide (CanonicalAddresses l = CanonicalAddresses k).
Proof.
  unfold AddressesEqual. destruct (Nat.eqb_spec (length (CanonicalAddresses l))
    (length (CanonicalAddresses k))) as [E|E]; cbn; [by apply same_elements_eq|].
  symmetry. apply bool_decide_eq_false. intros Hf. by rewrite Hf in E.
Qed.

(** ** Addresses as text *)

(** The addresses the program can carry through text and JSON: valid values
    whose zone, if any, is ASCII. *)
Definition addr_ok (x : Addr) : bool := addr_wf x && ascii_text (Zone x).
Definition addrs_ok (l : list Addr) : bool := forallb addr_ok l.

Lemma addrs_ok_Forall l : addrs_ok l = true <-> Forall (fun x => addr_ok x = true) l.
Proof. unfold addrs_ok. rewrite forallb_forall, Forall_forall. by setoid_rewrite list_elem_of_In. Qed.

Lemma is_ascii_addr_char c : addr_char c = true -> is_ascii c = true.
Proof. destruct c as [[] [] [] [] [] [] [] []]; intros H; first [discriminate H | reflexivity]. Qed.

Lemma AddrString_ascii x : addr_ok x = true -> ascii_text (AddrString x) = true.
Proof.
  unfold addr_ok, ascii_text. intros H. simp_bool.
  assert (forall s, string_forallb addr_char s = true -> string_forallb is_ascii s = true) as Hm
    by (intros s; apply string_forallb_mono, is_ascii_addr_char).
  destruct x as [|a|a z]; [done|apply Hm, string4_chars|].
  cbn [AddrString Zone] in *. rewrite string_forallb_app. apply andb_true_iff. split.
  - case_match; [|apply Hm, string6_chars]. rewrite string_forallb_app.
    by rewrite (Hm (string4 _)) by apply string4_chars.
  - unfold zone_suffix. case_match; [done|]. by cbn.
Qed.

Lemma Unmap_ok x : addr_ok x = true -> addr_ok (Unmap x) = true.
Proof.
  unfold addr_ok. intros H. simp_bool. rewrite Unmap_wf by done.
  destruct x as [|a|a z]; [done..|]. cbn. by case_match.
Qed.

Lemma Canonical_ok l : addrs_ok l = true -> addrs_ok (CanonicalAddresses l) = true.
Proof.
  rewrite !addrs_ok_Forall, !Forall_forall. intros H x.
  rewrite Canonical_elem, list_elem_of_fmap. intros (y & -> & Hy). by apply Unmap_ok, H.
Qed.

Lemma address_document_ok l : addrs_ok l = true -> Forall json_ok (JStr ∘ AddrString <$> l).
Proof.
  rewrite addrs_ok_Forall. intros H. apply Forall_fmap.
  eapply Forall_impl; [exact H|]. intros x Hx. cbn. by apply AddrString_ascii.
Qed.

Lemma address_document_inj l k :
  addrs_ok l = true -> addrs_ok k = true ->
  print (address_document l) = print (address_document k) -> l = k.
Proof.
  intros Hl Hk E. apply print_inj in E; try by apply json_ok_arr_2, address_document_ok.
  unfold address_document in E. injection E as E.
  apply addrs_ok_Forall in Hl, Hk. revert k Hk E.
  induction Hl as [|x l Hx Hl IH]; intros [|y k] Hk E; try done.
  inversion_clear Hk as [|?? Hy Hk']. csimpl in E. injection E as E1 E2.
  unfold addr_ok in *. simp_bool.
  f_equal; [by apply AddrString_inj|by apply IH].
Qed.

(** ** Properties *)

(** C38: The canonical form of an address list is sorted without duplicates and has
    exactly the unmapped addresses, so it depends only on the set given. *)
Theorem CanonicalAddresses_correct l :
  StronglySorted addr_le (CanonicalAddresses l) /\ NoDup (CanonicalAddresses l) /\
  (forall x, x ∈ CanonicalAddresses l <-> exists y, y ∈ l /\ x = Unmap y) /\
  (forall k, (forall x, x ∈ Unmap <$> l <-> x ∈ Unmap <$> k) <->
             CanonicalAddresses l = CanonicalAddresses k) /\
  CanonicalAddresses (CanonicalAddresses l) = CanonicalAddresses l.
Proof.
  split_and!; [apply Canonical_sorted|apply Canonical_NoDup| | |apply Canonical_idemp].
  - intros x. rewrite Canonical_elem, list_elem_of_fmap. naive_solver.
  - intros k. by rewrite Canonical_eq_iff.
Qed.

(** [AddressesEqual] decides equality of the unmapped address sets, and is an
    equivalence the hash respects. *)
Theorem AddressesEqual_set l k :
  (AddressesEqual l k = true <-> (forall x, x ∈ Unmap <$> l <-> x ∈ Unmap <$> k)) /\
  (AddressesEqual l k = true -> AddressesHash l = AddressesHash k).
Proof.
  rewrite AddressesEqual_canonical, bool_decide_eq_true, <- Canonical_eq_iff.
  split; [done|]. unfold AddressesHash. by intros ->.
Qed.

Definition hash_payload (l : list Addr) : string :=
  print (address_document (CanonicalAddresses l)).

(** The hash binds a request: unless SHA-256 collides on the two documents,
    equal hashes mean equal address sets. *)
Theorem AddressesHash_binds l k
    (Hl : addrs_ok l = true) (Hk : addrs_ok k = true)
    (Hnocollision : hex_encode (Sum256 (hash_payload l)) = hex_encode (Sum256 (hash_payload k)) ->
                    hash_payload l = hash_payload k) :
  AddressesHash l = AddressesHash k -> AddressesEqual l k = true.
Proof.
  intros E. rewrite AddressesEqual_canonical, bool_decide_eq_true.
  apply address_document_inj; [by apply Canonical_ok..|]. by apply Hnocollision.
Qed.

Lemma AddressesHash_binds_witness :
  AddressesHash [Addr4 0x01020304; Addr6 0xffff01020304 ""] = AddressesHash [Addr4 0x01020304] /\
  AddressesEqual [Addr4 0x01020304; Addr6 0xffff01020304 ""] [Addr4 0x01020304] = true.
Proof.
  split; [vm_compute; reflexivity|].
  apply AddressesHash_binds; [reflexivity|reflexivity|vm_compute; auto|vm_compute; reflexivity].
Defined.
