(* ===== verification/Address.v ===== *)
(** * Package address: the public-routability policy

    [src/dns/internal/address/validation.go]. *)

From S2P Require Export NetipText.
From Stdlib Require Import String.
#[local] Open Scope Z_scope.

(** ** Definitions *)

(** [mustPrefixes] panics on a value that is no prefix: [None]. *)
Fixpoint mustPrefixes (values : list string) : option (list Prefix) :=
  match values with
  | [] => Some []
  | value :: values' =>
      match ParsePrefix value with
      | None => None
      | Some prefix => cons prefix <$> mustPrefixes values'
      end
  end.

Definition nonPublicPrefixTexts : list string :=
  ["0.0.0.0/8"; "100.64.0.0/10"; "192.0.0.0/24"; "192.0.2.0/24";
   "198.18.0.0/15"; "198.51.100.0/24"; "203.0.113.0/24"; "240.0.0.0/4";
   "100::/64"; "2001:2::/48"; "2001:10::/28"; "2001:20::/28";
   "2001:db8::/32"; "fec0::/10"]%string.

Definition nonPublicPrefixes : list Prefix :=
  Eval vm_compute in default [] (mustPrefixes nonPublicPrefixTexts).

Definition IsPubliclyRoutable (addr : Addr) : bool :=
  if negb (IsValid addr) || Is4In6 addr || negb (IsGlobalUnicast addr)
     || IsPrivate addr || IsLinkLocalUnicast addr
  then false
  else negb (existsb (fun prefix => Contains prefix addr) nonPublicPrefixes).

(** ** The policy as intervals *)

(** First and last address of each special-purpose range, per family. *)
Definition special4 : list (Z * Z) :=
  [(0x00000000, 0x00ffffff);   (* 0.0.0.0/8 *)
   (0x0a000000, 0x0affffff);   (* 10.0.0.0/8 *)
   (0x64400000, 0x647fffff);   (* 100.64.0.0/10 *)
   (0x7f000000, 0x7fffffff);   (* 127.0.0.0/8 *)
   (0xa9fe0000, 0xa9feffff);   (* 169.254.0.0/16 *)
   (0xac100000, 0xac1fffff);   (* 172.16.0.0/12 *)
   (0xc0000000, 0xc00000ff);   (* 192.0.0.0/24 *)
   (0xc0000200, 0xc00002ff);   (* 192.0.2.0/24 *)
   (0xc0a80000, 0xc0a8ffff);   (* 192.168.0.0/16 *)
   (0xc6120000, 0xc613ffff);   (* 198.18.0.0/15 *)
   (0xc6336400, 0xc63364ff);   (* 198.51.100.0/24 *)
   (0xcb007100, 0xcb0071ff);   (* 203.0.113.0/24 *)
   (0xe0000000, 0xffffffff)].  (* 224.0.0.0/3 *)

Definition block (prefix bits : Z) : Z * Z :=
  (prefix * 2 ^ (128 - bits), prefix * 2 ^ (128 - bits) + 2 ^ (128 - bits) - 1).

(** Classes [netip] itself tells apart, and the listed prefixes. *)
Definition builtin6 : list (Z * Z) :=
  [(0, 1);                     (* unspecified, loopback *)
   block 0xffff 96;            (* IPv4-mapped *)
   block 0xff 8;               (* multicast *)
   block 0x3fa 10;             (* fe80::/10 *)
   block 0x7e 7].              (* fc00::/7 *)

Definition listed6 : list (Z * Z) :=
  [block 0x0100000000000000 64; block 0x200100020000 48; block 0x2001001 28;
   block 0x2001002 28; block 0x20010db8 32; block 0x3fb 10].

Definition in_interval (a : Z) (i : Z * Z) : bool := (fst i <=? a) && (a <=? snd i).
Definition in_any (a : Z) (l : list (Z * Z)) : bool := existsb (in_interval a) l.

(** ** Lemmas *)

(** The table's texts all parse: program start-up does not panic. *)
Lemma mustPrefixes_ok : mustPrefixes nonPublicPrefixTexts = Some nonPublicPrefixes.
Proof. vm_compute. reflexivity. Qed.

(** The top bits of two numbers agree exactly on an aligned block. *)
Lemma shiftr_lxor_block x p k :
  0 <= x -> 0 <= p -> 0 <= k ->
  (Z.shiftr (Z.lxor x (p * 2 ^ k)) k =? 0) = (p * 2 ^ k <=? x) && (x <=? p * 2 ^ k + 2 ^ k - 1).
Proof.
  intros Hx Hp Hk. rewrite Z.shiftr_lxor, !Z.shiftr_div_pow2, Z.div_mul by lia.
  assert (0 < 2 ^ k) by (apply Z.pow_pos_nonneg; lia).
  pose proof (Z.div_mod x (2 ^ k)). pose proof (Z.mod_pos_bound x (2 ^ k)).
  destruct (Z.eqb_spec (Z.lxor (x / 2 ^ k) p) 0) as [E|E].
  - apply Z.lxor_eq in E. symmetry. apply andb_true_iff. rewrite !Z.leb_le. nia.
  - assert (x / 2 ^ k <> p) by (intros E'; by rewrite E', Z.lxor_nilpotent in E).
    symmetry. apply andb_false_iff. rewrite !Z.leb_gt. nia.
Qed.

Lemma Contains_block4 a p k :
  0 <= a -> 0 <= p -> 0 <= k ->
  Contains {| pfx_addr := Addr4 (p * 2 ^ k); pfx_bits := 32 - k |} (Addr4 a)
  = in_interval a (p * 2 ^ k, p * 2 ^ k + 2 ^ k - 1).
Proof.
  intros. unfold Contains, in_interval. cbn [hasZone Zone pfx_addr pfx_bits BitLen addr_bits fst snd].
  replace (32 - (32 - k)) with k by lia. by rewrite shiftr_lxor_block.
Qed.

Lemma Contains_block6 a p k :
  0 <= a -> 0 <= p -> 0 <= k ->
  Contains {| pfx_addr := Addr6 (p * 2 ^ k) ""; pfx_bits := 128 - k |} (Addr6 a "")
  = in_interval a (p * 2 ^ k, p * 2 ^ k + 2 ^ k - 1).
Proof.
  intros. unfold Contains, in_interval. cbn [hasZone Zone pfx_addr pfx_bits BitLen addr_bits fst snd].
  replace (128 - (128 - k)) with k by lia. by rewrite shiftr_lxor_block.
Qed.

(** Octets of an IPv4 address. *)
Lemma v4_div a n : 0 <= n <= 3 -> v4 a n = (a / 2 ^ (8 * (3 - n))) mod 256.
Proof. intros. unfold v4. change 255 with (Z.ones 8). by rewrite shiftr_land_mod by lia. Qed.

(** Masking away the low bits of a number of known width. *)
Lemma land_high x n k :
  0 <= k -> 0 <= n -> 0 <= x < 2 ^ n ->
  Z.land x (Z.ldiff (Z.ones n) (Z.ones k)) = x / 2 ^ k * 2 ^ k.
Proof.
  intros Hk Hn Hx. rewrite Z.ldiff_land, Z.land_assoc, <- Z.ldiff_land.
  rewrite Z.land_ones, Z.mod_small by done.
  by rewrite Z.ldiff_ones_r, Z.shiftl_mul_pow2, Z.shiftr_div_pow2 by done.
Qed.

Lemma land_f0 x : 0 <= x < 256 -> Z.land x 0xf0 = x / 16 * 16.
Proof. exact (land_high x 8 4 ltac:(done) ltac:(done)). Qed.

Lemma land_ffc0 x : 0 <= x < 65536 -> Z.land x 0xffc0 = x / 64 * 64.
Proof. exact (land_high x 16 6 ltac:(done) ltac:(done)). Qed.

Lemma land_fe x : 0 <= x < 256 -> Z.land x 0xfe = x / 2 * 2.
Proof. exact (land_high x 8 1 ltac:(done) ltac:(done)). Qed.

(** Decide an equation between boolean combinations of integer comparisons. *)
Ltac decide_bools :=
  repeat match goal with
  | |- context [?x =? ?y] => destruct (Z.eqb_spec x y)
  | |- context [?x <=? ?y] => destruct (Z.leb_spec x y)
  end; cbn [andb orb]; try reflexivity; exfalso;
  Z.to_euclidean_division_equations; lia.

Ltac octets :=
  unfold in_interval; cbn [fst snd]; rewrite ?land_f0 by apply v4_range;
  rewrite ?v4_div by lia;
  change (2 ^ (8 * (3 - 0))) with 16777216; change (2 ^ (8 * (3 - 1))) with 65536;
  decide_bools.

Lemma if_false (c x : bool) : (if c then false else x) = negb c && x.
Proof. by destruct c. Qed.

Lemma orb_congr x y x' y' : x = x' -> y = y' -> x || y = x' || y'.
Proof. by intros -> ->. Qed.

Section ipv4.
Context (a : Z) (Ha : 0 <= a < 2 ^ 32).

Lemma loopback4 : (v4 a 0 =? 127) = in_interval a (0x7f000000, 0x7fffffff).
Proof using Ha. octets. Qed.
Lemma multicast4 : (Z.land (v4 a 0) 0xf0 =? 0xe0) = in_interval a (0xe0000000, 0xefffffff).
Proof using Ha. octets. Qed.
Lemma linklocal4 : (v4 a 0 =? 169) && (v4 a 1 =? 254) = in_interval a (0xa9fe0000, 0xa9feffff).
Proof using Ha. octets. Qed.
Lemma private10 : (v4 a 0 =? 10) = in_interval a (0x0a000000, 0x0affffff).
Proof using Ha. octets. Qed.
Lemma private172 :
  (v4 a 0 =? 172) && (Z.land (v4 a 1) 0xf0 =? 16) = in_interval a (0xac100000, 0xac1fffff).
Proof using Ha. octets. Qed.
Lemma private192 : (v4 a 0 =? 192) && (v4 a 1 =? 168) = in_interval a (0xc0a80000, 0xc0a8ffff).
Proof using Ha. octets. Qed.

Lemma listed4 :
  existsb (fun p => Contains p (Addr4 a)) nonPublicPrefixes =
  in_any a [(0x00000000, 0x00ffffff); (0x64400000, 0x647fffff); (0xc0000000, 0xc00000ff);
            (0xc0000200, 0xc00002ff); (0xc6120000, 0xc613ffff); (0xc6336400, 0xc63364ff);
            (0xcb007100, 0xcb0071ff); (0xf0000000, 0xffffffff)].
Proof using Ha.
  unfold nonPublicPrefixes, in_any. cbn [existsb].
  pose proof (fun p k Hp Hk => Contains_block4 a p k (proj1 Ha) Hp Hk) as B.
  apply orb_congr; [exact (B 0x00 24 ltac:(lia) ltac:(lia))|].
  apply orb_congr; [exact (B 0x191 22 ltac:(lia) ltac:(lia))|].
  apply orb_congr; [exact (B 0xc00000 8 ltac:(lia) ltac:(lia))|].
  apply orb_congr; [exact (B 0xc00002 8 ltac:(lia) ltac:(lia))|].
  apply orb_congr; [exact (B 0x6309 17 ltac:(lia) ltac:(lia))|].
  apply orb_congr; [exact (B 0xc63364 8 ltac:(lia) ltac:(lia))|].
  apply orb_congr; [exact (B 0xcb0071 8 ltac:(lia) ltac:(lia))|].
  apply orb_congr; [exact (B 0xf 28 ltac:(lia) ltac:(lia))|done].
Qed.
End ipv4.

Lemma bool_decide_Addr4 a b : bool_decide (Addr4 a = Addr4 b) = (a =? b).
Proof.
  case_bool_decide as E; [injection E as ->; by rewrite Z.eqb_refl|].
  destruct (Z.eqb_spec a b); [by subst|done].
Qed.

Lemma routable4 a :
  0 <= a < 2 ^ 32 -> IsPubliclyRoutable (Addr4 a) = negb (in_any a special4).
Proof.
  intros Ha. unfold IsPubliclyRoutable, IsGlobalUnicast, IsPrivate, IsLinkLocalUnicast,
    IsLoopback, IsMulticast. cbn [Unmap IsValid Is4In6 negb orb].
  rewrite listed4, loopback4, multicast4, linklocal4, private10, private172, private192 by done.
  rewrite !bool_decide_Addr4.
  change (bool_decide (Addr4 a = Addr6 0 "")) with false.
  unfold special4, in_any, in_interval. cbn [existsb fst snd negb].
  rewrite if_false. lia.
Qed.

(** The classes [netip] checks whatever the zone is, and the unspecified
    address, which it compares with its zone. *)
Definition zoned6 : list (Z * Z) :=
  [(1, 1); block 0xffff 96; block 0xff 8; block 0x3fa 10; block 0x7e 7].

Lemma bool_decide_Addr6 a z b z' :
  bool_decide (Addr6 a z = Addr6 b z') = (a =? b) && (z =? z')%string.
Proof.
  case_bool_decide as E.
  - injection E as -> ->. by rewrite Z.eqb_refl, String.eqb_refl.
  - destruct (Z.eqb_spec a b), (String.eqb_spec z z'); try done. by subst.
Qed.

Section ipv6.
Context (a : Z) (Ha : 0 <= a < 2 ^ 128).

Lemma group0 : v6u16 a 0 = a / 2 ^ 112.
Proof using Ha.
  unfold v6u16. change 0xffff with (Z.ones 16). rewrite shiftr_land_mod by lia.
  change (16 * (7 - 0)) with 112. apply Z.mod_small.
  split; [apply Z.div_pos; lia|apply Z.div_lt_upper_bound; lia].
Qed.

Lemma group0_range : 0 <= a / 2 ^ 112 < 65536.
Proof using Ha. split; [apply Z.div_pos; lia|apply Z.div_lt_upper_bound; lia]. Qed.

Lemma mapped6 : (Z.shiftr a 32 =? 0xffff) = in_interval a (block 0xffff 96).
Proof using Ha. unfold in_interval. cbn. rewrite Z.shiftr_div_pow2 by done. decide_bools. Qed.

Lemma multicast6 : (Z.shiftr (v6u16 a 0) 8 =? 0xff) = in_interval a (block 0xff 8).
Proof using Ha.
  rewrite group0. unfold in_interval. cbn. rewrite Z.shiftr_div_pow2 by done. decide_bools.
Qed.

Lemma linklocal6 : (Z.land (v6u16 a 0) 0xffc0 =? 0xfe80) = in_interval a (block 0x3fa 10).
Proof using Ha.
  rewrite group0, land_ffc0 by apply group0_range. unfold in_interval. cbn. decide_bools.
Qed.

Lemma private6 :
  (Z.land (Z.shiftr (v6u16 a 0) 8) 0xfe =? 0xfc) = in_interval a (block 0x7e 7).
Proof using Ha.
  rewrite group0, Z.shiftr_div_pow2 by done.
  pose proof group0_range. rewrite land_fe.
  - unfold in_interval. cbn. decide_bools.
  - change (2 ^ 8) with 256. split; [apply Z.div_pos; lia|apply Z.div_lt_upper_bound; lia].
Qed.

Lemma listed6_table :
  existsb (fun p => Contains p (Addr6 a "")) nonPublicPrefixes = in_any a listed6.
Proof using Ha.
  unfold nonPublicPrefixes, in_any, listed6.
  cbn [existsb]. do 8 (rewrite (orb_false_l : forall b, false || b = b)).
  pose proof (fun p k Hp Hk => Contains_block6 a p k (proj1 Ha) Hp Hk) as B.
  apply orb_congr; [exact (B 0x0100000000000000 64 ltac:(lia) ltac:(lia))|].
  apply orb_congr; [exact (B 0x200100020000 80 ltac:(lia) ltac:(lia))|].
  apply orb_congr; [exact (B 0x2001001 100 ltac:(lia) ltac:(lia))|].
  apply orb_congr; [exact (B 0x2001002 100 ltac:(lia) ltac:(lia))|].
  apply orb_congr; [exact (B 0x20010db8 96 ltac:(lia) ltac:(lia))|].
  apply orb_congr; [exact (B 0x3fb 118 ltac:(lia) ltac:(lia))|done].
Qed.

Lemma listed6_zoned zone :
  zone <> ""%string -> existsb (fun p => Contains p (Addr6 a zone)) nonPublicPrefixes = false.
Proof using.
  intros Hz. apply not_true_iff_false. rewrite existsb_exists. intros (p & _ & Hp).
  unfold Contains, hasZone in Hp. cbn [Zone] in Hp.
  destruct (String.eqb_spec zone ""); [done|]. done.
Qed.

Lemma routable6 zone :
  IsPubliclyRoutable (Addr6 a zone) =
  if (zone =? "")%string then negb (in_any a (builtin6 ++ listed6)) else negb (in_any a zoned6).
Proof using Ha.
  unfold IsPubliclyRoutable, IsGlobalUnicast, IsPrivate, IsLinkLocalUnicast,
    IsLoopback, IsMulticast. cbn [IsValid negb orb].
  destruct (Is4In6 (Addr6 a zone)) eqn:Em.
  { cbn in Em. rewrite mapped6 in Em. unfold in_any, builtin6, zoned6. cbn [app existsb].
    rewrite Em. cbn [orb]. rewrite !orb_true_r. by destruct (zone =? "")%string. }
  rewrite (Unmap_id (Addr6 a zone)) by done. cbn in Em. rewrite mapped6 in Em.
  rewrite (Unmap_id (Addr6 a zone)) by (cbn; by rewrite mapped6).
  rewrite multicast6, linklocal6, private6, bool_decide_Addr6, if_false.
  change (bool_decide (Addr6 a zone = Addr4 0)) with false.
  change (bool_decide (Addr6 a zone = Addr4 0xffffffff)) with false.
  unfold in_any, builtin6, zoned6. rewrite existsb_app. cbn [existsb]. rewrite Em.
  destruct (String.eqb_spec zone "") as [->|Hz].
  - rewrite listed6_table. fold (in_any a listed6). cbn [String.eqb].
    rewrite andb_true_r. generalize (in_any a listed6) as l; intros l.
    unfold in_interval. cbn [fst snd]. destruct l; lia.
  - rewrite listed6_zoned, andb_false_r by done. unfold in_interval. cbn [fst snd]. lia.
Qed.
End ipv6.

(** ** Properties *)

(** A zone takes an address out of every listed prefix, so an IPv6
    special-purpose address the policy refuses is accepted with a zone. *)
Lemma zone_defeats_listed_prefixes a zone
    (Ha : in_any a listed6 = true) (Hz : zone <> ""%string) :
  IsPubliclyRoutable (Addr6 a "") = false /\ IsPubliclyRoutable (Addr6 a zone) = true.
Proof.
  assert (0 <= a < 2 ^ 128 /\ in_any a zoned6 = false) as [Hr Hn].
  { let t := eval vm_compute in listed6 in
      replace listed6 with t in Ha by (vm_compute; reflexivity).
    let t := eval vm_compute in zoned6 in
      replace zoned6 with t by (vm_compute; reflexivity).
    unfold in_any, in_interval in *. cbn [existsb fst snd] in *. lia. }
  rewrite !routable6 by done. cbn [String.eqb].
  destruct (String.eqb_spec zone ""); [done|]. rewrite Hn. split; [|done].
  unfold in_any in *. by rewrite existsb_app, Ha, orb_true_r.
Qed.

(** C40: [IsPubliclyRoutable] accepts exactly: the IPv4 addresses outside the
    special-purpose IPv4 intervals; the IPv6 addresses without a zone outside the
    special-purpose IPv6 intervals; and the IPv6 addresses with a zone outside
    the classes [netip] tests itself (loopback, mapped, multicast, link-local and
    unique-local).  The prefixes listed in the source do not exclude an address
    with a zone, against the function's comment: one such address is refused
    without its zone and accepted with any zone. *)
Theorem IsPubliclyRoutable_intervals :
  IsPubliclyRoutable AddrZero = false /\
  (forall a, 0 <= a < 2 ^ 32 ->
     (IsPubliclyRoutable (Addr4 a) = true <-> in_any a special4 = false)) /\
  (forall a, 0 <= a < 2 ^ 128 ->
     (IsPubliclyRoutable (Addr6 a "") = true <-> in_any a (builtin6 ++ listed6) = false)) /\
  (forall a zone, 0 <= a < 2 ^ 128 -> zone <> ""%string ->
     (IsPubliclyRoutable (Addr6 a zone) = true <-> in_any a zoned6 = false)) /\
  (forall a zone, in_any a listed6 = true -> zone <> ""%string ->
     IsPubliclyRoutable (Addr6 a "") = false /\ IsPubliclyRoutable (Addr6 a zone) = true).
Proof.
  split_and!; [done|..].
  - intros a Ha. rewrite routable4 by done. apply negb_true_iff.
  - intros a Ha. rewrite routable6 by done. cbn [String.eqb]. apply negb_true_iff.
  - intros a zone Ha Hz. rewrite routable6 by done. destruct (String.eqb_spec zone ""); [done|].
    apply negb_true_iff.
  - intros a zone. apply zone_defeats_listed_prefixes.
Qed.

Lemma IsPubliclyRoutable_intervals_witness :
  IsPubliclyRoutable (Addr4 0xcb00712a) = false /\
  IsPubliclyRoutable (Addr4 0x08080808) = true /\
  IsPubliclyRoutable (Addr6 0x26064700000000000000000000001111 "") = true /\
  ParseAddr "2001:db8::1%eth0" = Some (Addr6 (0x20010db8 * 2 ^ 96 + 1) "eth0") /\
  IsPubliclyRoutable (Addr6 (0x20010db8 * 2 ^ 96 + 1) "eth0") = true.
Proof.
  destruct IsPubliclyRoutable_intervals as (_ & H4 & H6 & Hz & _). split_and!.
  - vm_compute. reflexivity.
  - apply H4; [split; [discriminate|reflexivity]|vm_compute; reflexivity].
  - apply H6; [split; [discriminate|reflexivity]|vm_compute; reflexivity].
  - vm_compute. reflexivity.
  - apply Hz; [split; [discriminate|reflexivity]|discriminate|vm_compute; reflexivity].
Defined.
