(* ===== verification/Api.v ===== *)
(** * Package api: wire types and generation ETags

    [src/dns/internal/api/precondition.go] and [types.go]. *)

From S2P Require Export Model.
From Stdlib Require Import String.
#[local] Open Scope Z_scope.
#[local] Abbreviation length := List.length.

(** ** Wire types *)

Record Address : Type := { Family : string; AddressText : string }.

Definition zero_Address : Address := {| Family := ""; AddressText := "" |}.

Definition Address_fields : fields Address :=
  [("family"%string, fun j a =>
      (fun s => {| Family := s; AddressText := AddressText a |}) <$> decode_string j (Family a));
   ("address"%string, fun j a =>
      (fun s => {| Family := Family a; AddressText := s |}) <$> decode_string j (AddressText a))].

(** [EndpointRequest]: its one field, decoded with unknown fields refused. *)
Definition EndpointRequest := list Address.

Definition EndpointRequest_fields : fields EndpointRequest :=
  [("addresses"%string, decode_list zero_Address (decode_nested true Address_fields))].

Definition address_json (a : Address) : json :=
  JObj [("family"%string, JStr (Family a)); ("address"%string, JStr (AddressText a))].

Definition EndpointRequest_json (r : EndpointRequest) : json :=
  JObj [("addresses"%string, JArr (address_json <$> r))].

Record DeviceState : Type := {
  ds_DeviceID : string;
  ds_Hostname : string;
  ds_Addresses : list Address;
  ds_Generation : Z;
  ds_Status : PublicationStatus;
  ds_LeaseExpiresAt : time;
  ds_RenewAfterSeconds : Z;
}.

(** [api.Error]. *)
Record Error : Type := { Code : string; Message : string }.

Definition AddressesFromNetIP (addresses : list Addr) : list Address :=
  (fun addr =>
     {| Family := if Is4 addr then "ipv4" else "ipv6"; AddressText := AddrString addr |})
  <$> CanonicalAddresses addresses.

(** ** Generation ETags *)

Definition generationETagPrefix : string := dq +:+ "g-".

Definition GenerationETag (generation : Z) : string :=
  dq +:+ "g-" +:+ FormatInt generation +:+ dq.

Definition etag_form_error : string :=
  "ETag must have the form " +:+ dq +:+ "g-<positive generation>" +:+ dq.
Definition etag_canonical_error : string :=
  "ETag generation must be a positive canonical integer".
Definition etag_range_error : string := "ETag generation is out of range".

Definition ParseGenerationETag (value : string) : result string Z :=
  if negb (HasPrefix value generationETagPrefix) || negb (HasSuffix value dq)
  then Err etag_form_error else
  let digits := TrimSuffix (TrimPrefix value generationETagPrefix) dq in
  match digits with
  | EmptyString => Err etag_canonical_error
  | String c _ =>
      if Ascii.eqb c "0" then Err etag_canonical_error else
      if negb (string_forallb is_digit digits) then Err etag_canonical_error else
      match ParseInt digits with
      | Some generation => if generation <=? 0 then Err etag_range_error else Ok generation
      | None => Err etag_range_error
      end
  end.

(** ** Lemmas *)

Lemma digit_not_sign c s :
  is_digit c = true -> ParseInt (String c s) =
  match ParseUint 64 (String c s) with
  | Some v => if v <? 2 ^ 63 then Some v else None
  | None => None
  end.
Proof.
  intros Hc. unfold ParseInt.
  destruct (Ascii.eqb_spec c "+") as [->|]; [done|].
  by destruct (Ascii.eqb_spec c "-") as [->|].
Qed.

Lemma FormatInt_pos z : 0 < z -> FormatInt z = FormatUint z.
Proof. intros. unfold FormatInt. by destruct (Z.ltb_spec z 0); [lia|]. Qed.

Lemma GenerationETag_split g :
  GenerationETag g = generationETagPrefix +:+ (FormatInt g +:+ dq).
Proof. unfold GenerationETag, generationETagPrefix. by rewrite !app_assoc_s. Qed.

Lemma ParseGenerationETag_Format g :
  0 < g < 2 ^ 63 -> ParseGenerationETag (GenerationETag g) = Ok g.
Proof.
  intros Hg. unfold ParseGenerationETag.
  assert (HasSuffix (GenerationETag g) dq = true) as ->.
  { unfold HasSuffix, GenerationETag. rewrite <- !app_assoc_s. by rewrite strip_suffix_app. }
  rewrite GenerationETag_split. unfold HasPrefix, TrimPrefix. rewrite !strip_prefix_app.
  cbn [negb orb from_option id]. unfold TrimSuffix.
  rewrite strip_suffix_app. cbn [from_option id].
  rewrite FormatInt_pos by lia.
  destruct (FormatUint_head g ltac:(lia)) as (c & s & E & Hc & Hc0).
  pose proof (FormatUint_digits g ltac:(lia)) as Hd.
  assert (ParseInt (FormatUint g) = Some g) as Hp.
  { rewrite <- FormatInt_pos by lia. apply ParseInt_Format. unfold int64_range. lia. }
  rewrite E in *. destruct (Ascii.eqb_spec c "0") as [->|]; [done|].
  rewrite Hd, Hp. cbn [negb]. by destruct (Z.leb_spec g 0); [lia|].
Qed.

Lemma ParseGenerationETag_Ok v g :
  ParseGenerationETag v = Ok g -> v = GenerationETag g /\ 0 < g < 2 ^ 63.
Proof.
  unfold ParseGenerationETag, HasPrefix, HasSuffix, TrimPrefix.
  destruct (strip_prefix generationETagPrefix v) as [r|] eqn:Ep; [|done].
  apply strip_prefix_Some in Ep as ->.
  destruct (strip_suffix dq (generationETagPrefix +:+ r)) as [u|] eqn:Es; [|done].
  cbn [negb orb from_option id]. unfold TrimSuffix.
  destruct (strip_suffix dq r) as [d|] eqn:Er; cbn [from_option id].
  - apply strip_suffix_Some in Er as ->. destruct d as [|c s] eqn:E; [done|]. rewrite <- E.
    destruct (Ascii.eqb_spec c "0"); [done|].
    destruct (string_forallb is_digit d) eqn:Hd; [|done]. cbn [negb].
    assert (is_digit c = true) as Hc.
    { rewrite E in Hd. cbn in Hd. by apply andb_true_iff in Hd as [? _]. }
    rewrite E, digit_not_sign by done.
    destruct (ParseUint 64 (String c s)) as [w|] eqn:Hw; [|done].
    apply ParseUint_digits in Hw as [Hw _].
    destruct (Z.ltb_spec w (2 ^ 63)); [|done].
    destruct (Z.leb_spec w 0); [done|]. intros [= <-]. split; [|lia].
    rewrite GenerationETag_split, FormatInt_pos by lia.
    rewrite (FormatUint_canonical c s w); [done| |done].
    intros Hz. apply n. by apply code_inj.
  - destruct r as [|c s]; [done|]. destruct (Ascii.eqb_spec c "0"); [done|].
    destruct (string_forallb is_digit (String c s)) eqn:Hd; [|done]. exfalso.
    (* the closing quote is the last byte of the digits too *)
    apply strip_suffix_Some in Es.
    assert (exists q, String c s = q +:+ dq) as [q Hq].
    { clear -Es. change (generationETagPrefix +:+ String c s)
        with (String dquote (String "g" (String "-" (String c s)))) in Es.
      destruct u as [|x1 [|x2 [|x3 u]]]; try discriminate; injection Es as _ _ _ Es.
      by exists u. }
    rewrite Hq, string_forallb_app in Hd. apply andb_true_iff in Hd as [_ Hd]. done.
Qed.

(** ** Properties *)

(** C39: ETags and positive int64 generations correspond one to one: a parsed ETag
    is the printing of its generation, and every generation's ETag parses. *)
Theorem GenerationETag_roundtrip v g :
  ParseGenerationETag v = Ok g <-> v = GenerationETag g /\ 0 < g < 2 ^ 63.
Proof.
  split; [apply ParseGenerationETag_Ok|]. intros [-> Hg]. by apply ParseGenerationETag_Format.
Qed.
