(* ===== verification/ApiText.v ===== *)
(** * Package api: wire types as JSON texts

    How [encoding/json] writes and reads [api.DeviceState] and [api.Error]
    ([src/dns/internal/api/types.go]): the tags, the timestamp as RFC 3339 text
    ([time.Time]'s own methods), the status as a string.  A timestamp is read
    from the unescaped text of its string. *)

From S2P Require Export Api GoTime.
From Stdlib Require Import String.
#[local] Open Scope Z_scope.
#[local] Abbreviation length := List.length.

(** ** Documents *)

Definition newline : string := String (byte 10) "".

(** The zero [time.Time]. *)
Definition zero_time : time := -62135596800 * 10 ^ 9.

Definition time_json (t : time) : json := JStr (FormatRFC3339Nano t).
Definition decode_time (j : json) (old : time) : option time :=
  match j with JNull => Some old | JStr s => ParseRFC3339 s | _ => None end.

Definition int_json (z : Z) : json := JNum (FormatInt z).

Definition DeviceState_json (s : DeviceState) : json :=
  JObj [("device_id"%string, JStr (ds_DeviceID s)); ("hostname"%string, JStr (ds_Hostname s));
        ("addresses"%string, JArr (address_json <$> ds_Addresses s));
        ("generation"%string, int_json (ds_Generation s));
        ("status"%string, JStr (status_text (ds_Status s)));
        ("lease_expires_at"%string, time_json (ds_LeaseExpiresAt s));
        ("renew_after_seconds"%string, int_json (ds_RenewAfterSeconds s))].

(** [DeviceState] as a reader has it: a status is any string. *)
Record DeviceStateDoc : Type := {
  doc_DeviceID : string;
  doc_Hostname : string;
  doc_Addresses : list Address;
  doc_Generation : Z;
  doc_Status : string;
  doc_LeaseExpiresAt : time;
  doc_RenewAfterSeconds : Z;
}.

Definition zero_DeviceState : DeviceStateDoc := Build_DeviceStateDoc "" "" [] 0 "" zero_time 0.

Definition DeviceState_fields : fields DeviceStateDoc :=
  [("device_id"%string, fun j p => let 'Build_DeviceStateDoc a b c d e f g := p in
      (fun v => Build_DeviceStateDoc v b c d e f g) <$> decode_string j a);
   ("hostname"%string, fun j p => let 'Build_DeviceStateDoc a b c d e f g := p in
      (fun v => Build_DeviceStateDoc a v c d e f g) <$> decode_string j b);
   ("addresses"%string, fun j p => let 'Build_DeviceStateDoc a b c d e f g := p in
      (fun v => Build_DeviceStateDoc a b v d e f g)
        <$> decode_list zero_Address (decode_nested false Address_fields) j c);
   ("generation"%string, fun j p => let 'Build_DeviceStateDoc a b c d e f g := p in
      (fun v => Build_DeviceStateDoc a b c v e f g) <$> decode_int64 j d);
   ("status"%string, fun j p => let 'Build_DeviceStateDoc a b c d e f g := p in
      (fun v => Build_DeviceStateDoc a b c d v f g) <$> decode_string j e);
   ("lease_expires_at"%string, fun j p => let 'Build_DeviceStateDoc a b c d e f g := p in
      (fun v => Build_DeviceStateDoc a b c d e v g) <$> decode_time j f);
   ("renew_after_seconds"%string, fun j p => let 'Build_DeviceStateDoc a b c d e f g := p in
      (fun v => Build_DeviceStateDoc a b c d e f v) <$> decode_int64 j g)].

Definition Error_fields : fields Error :=
  [("code"%string, fun j p => let 'Build_Error a b := p in
      (fun v => Build_Error v b) <$> decode_string j a);
   ("message"%string, fun j p => let 'Build_Error a b := p in
      (fun v => Build_Error a v) <$> decode_string j b)].

Definition Error_json (e : Error) : json :=
  JObj [("code"%string, JStr (Code e)); ("message"%string, JStr (Message e))].

(** ** A printed state reads back *)

Definition doc_of (s : DeviceState) : DeviceStateDoc :=
  {| doc_DeviceID := ds_DeviceID s; doc_Hostname := ds_Hostname s; doc_Addresses := ds_Addresses s;
     doc_Generation := ds_Generation s; doc_Status := status_text (ds_Status s);
     doc_LeaseExpiresAt := ds_LeaseExpiresAt s; doc_RenewAfterSeconds := ds_RenewAfterSeconds s |}.

Definition address_ok (a : Address) : Prop :=
  ascii_text (Family a) = true /\ ascii_text (AddressText a) = true.

Record state_ok (s : DeviceState) : Prop := {
  st_device : ascii_text (ds_DeviceID s) = true;
  st_hostname : ascii_text (ds_Hostname s) = true;
  st_addresses : Forall address_ok (ds_Addresses s);
  st_generation : int64_range (ds_Generation s);
  st_lease : printable_time (ds_LeaseExpiresAt s) = true;
  st_renew : int64_range (ds_RenewAfterSeconds s);
}.

(** A document followed by the newline of [json.Encoder]. *)
Lemma parse_print_line j : json_ok j -> parse (print j +:+ newline) = Some j.
Proof.
  intros Hok. unfold parse, DecodeNext.
  rewrite parse_value_print; [done|done| |done].
  unfold text_fuel. pose proof (need_length j Hok). rewrite length_app_s. lia.
Qed.

Lemma digit_char_ascii d : 0 <= d < 10 -> is_ascii (digit_char d) = true.
Proof. intros H. unfold is_ascii. rewrite digit_char_code by done. lia. Qed.

Lemma pad2_ascii n : 0 <= n < 100 -> ascii_text (pad2 n) = true.
Proof.
  intros H. unfold ascii_text, pad2. cbn [string_forallb].
  rewrite !digit_char_ascii; [done|..]; Z.to_euclidean_division_equations; lia.
Qed.

Lemma digits_text_ascii l : Forall is_decimal l -> ascii_text (digits_text l) = true.
Proof.
  induction 1 as [|d l Hd _ IH]; [done|]. unfold digits_text, ascii_text in *. cbn.
  by rewrite digit_char_ascii.
Qed.

Lemma ascii_app a b : ascii_text (a +:+ b) = ascii_text a && ascii_text b.
Proof. apply string_forallb_app. Qed.

Lemma fraction_ascii n : 0 <= n < 10 ^ 9 -> ascii_text (format_fraction n) = true.
Proof.
  intros H. unfold format_fraction. pose proof (trim_zeros_decimal _ (digits_of_decimal 9 n H)) as Hd.
  destruct (trim_zeros _) as [|d l]; [done|]. rewrite ascii_app. by rewrite digits_text_ascii.
Qed.

Lemma timestamp_ascii t : printable_time t = true -> ascii_text (FormatRFC3339Nano t) = true.
Proof.
  unfold printable_time, year_of, FormatRFC3339Nano. cbv zeta.
  pose proof (civil_from_days_spec (t / nanos_per_day)) as Hc.
  destruct (civil_from_days (t / nanos_per_day)) as [[y m] d]. destruct Hc as (Hm & Hd & _).
  intros H. simp_bool. pose proof (days_in_bound m y).
  assert (0 <= t mod nanos_per_day / 10 ^ 9 < 86400) as Hs.
  { unfold nanos_per_day. Z.to_euclidean_division_equations; lia. }
  destruct (year_digits y ltac:(lia)) as (? & ? & _). unfold pad4. rewrite !ascii_app.
  rewrite fraction_ascii by (apply Z.mod_pos_bound; lia).
  rewrite !pad2_ascii; try done; try lia; Z.to_euclidean_division_equations; lia.
Qed.

Lemma address_json_ok a : address_ok a -> json_ok (address_json a).
Proof. intros [? ?]. cbn -[ascii_text]. by repeat split. Qed.

Lemma decode_addresses strict l :
  decode_list zero_Address (decode_nested strict Address_fields) (JArr (address_json <$> l)) [] = Some l.
Proof.
  cbn [decode_list]. induction l as [|[f t] l IH]; [done|]. cbn [fmap list_fmap decode_elems].
  cbn [head default tail]. by rewrite IH.
Qed.

Lemma int_json_ok z : json_ok (int_json z).
Proof. by exists z. Qed.

Lemma decode_int_json z old : int64_range z -> decode_int64 (int_json z) old = Some z.
Proof. apply ParseInt_Format. Qed.

Lemma decode_time_json t old : printable_time t = true -> decode_time (time_json t) old = Some t.
Proof. apply ParseRFC3339_Format. Qed.

Lemma DeviceState_json_ok s : state_ok s -> json_ok (DeviceState_json s).
Proof.
  intros [Hd Hh Ha _ Ht _].
  assert (json_ok (JArr (address_json <$> ds_Addresses s))) as Hj.
  { apply json_ok_arr_2, Forall_fmap. eapply Forall_impl; [exact Ha|]. apply address_json_ok. }
  pose proof (timestamp_ascii _ Ht) as Htx.
  unfold DeviceState_json, time_json. cbn -[ascii_text int_json FormatRFC3339Nano status_text].
  repeat split; try done; try apply int_json_ok; try exact Hj; by destruct (ds_Status s).
Qed.

(** What [json.Encoder] writes of a state, [json.Unmarshal] reads. *)
Lemma Unmarshal_DeviceState s tail :
  state_ok s -> tail = ""%string \/ tail = newline ->
  Unmarshal DeviceState_fields zero_DeviceState (print (DeviceState_json s) +:+ tail) = (doc_of s, true).
Proof.
  intros Hs Ht. pose proof (DeviceState_json_ok s Hs) as Hj. unfold Unmarshal.
  replace (parse (print (DeviceState_json s) +:+ tail)) with (Some (DeviceState_json s)).
  2:{ destruct Ht as [->| ->]; [by rewrite app_nil_r_s, parse_print|by rewrite parse_print_line]. }
  destruct Hs as [_ _ _ Hg Hl Hr]. destruct s as [d h a g st l r].
  cbn [ds_Generation ds_LeaseExpiresAt ds_RenewAfterSeconds] in *.
  pose proof (decode_addresses false a) as Da.
  unfold DeviceState_json, decode_struct, zero_DeviceState, doc_of.
  cbn [ds_DeviceID ds_Hostname ds_Addresses ds_Generation ds_Status ds_LeaseExpiresAt ds_RenewAfterSeconds].
  repeat (eapply decode_member; [reflexivity|
    cbn [snd]; cbv beta iota;
    (reflexivity || (rewrite ?Da, ?decode_int_json, ?decode_time_json by done; reflexivity))|]).
  reflexivity.
Qed.
