(* ===== verification/Identity.v ===== *)
(** * Package identity: who is asking

    [src/dns/internal/identity/identity.go] and [workload.go].  Certificates and
    URLs are records of what the code reads of them: a URL's [EscapedPath] is
    the result of the method, a certificate is its URIs and validity.  A SPIFFE
    ID (go-spiffe) is its trust domain and path; chain verification is a
    parameter. *)

From S2P Require Export GoText.
From Stdlib Require Import String.
#[local] Open Scope Z_scope.
#[local] Abbreviation length := List.length.

(** ** Data *)

(** The error values of the package; [ErrOther] is any other error. *)
Inductive IdentityError : Type :=
| ErrNoIdentity
| ErrAmbiguousIdentity
| ErrUnauthenticated
| ErrDenied
| ErrUnavailable
| ErrOther (message : string).

#[export] Instance IdentityError_eq_dec : EqDecision IdentityError.
Proof. solve_decision. Defined.

Record Device : Type := { ID : string; DeviceHostname : string }.

#[export] Instance Device_eq_dec : EqDecision Device.
Proof. solve_decision. Defined.

(** [url.URL]. *)
Record URL : Type := {
  Scheme : string;
  Host : string;
  HasUser : bool;
  Opaque : string;
  EscapedPath : string;
  RawQuery : string;
  ForceQuery : bool;
  Fragment : string;
}.

(** [x509.Certificate]; a nil URI is [None]. *)
Record Certificate : Type := {
  URIs : list (option URL);
  NotBefore : time;
  NotAfter : time;
}.

(** [tls.ConnectionState]. *)
Record ConnectionState : Type := {
  PeerCertificates : list Certificate;
  VerifiedChains : list (list Certificate);
}.

(** [Policy] and [RequestPolicy]. *)
Definition Policy : Type := option Certificate -> result IdentityError Device.
Definition RequestPolicy : Type := option ConnectionState -> result IdentityError Device.

(** ** Patterns *)

(** [^[0-9]{3,}$] *)
Definition deviceIDPattern (s : string) : bool :=
  (3 <=? String.length s)%nat && string_forallb is_digit s.

(** [^/device/([0-9]{3,})$]: the captured group. *)
Definition devicePathPattern (s : string) : option string :=
  match strip_prefix "/device/" s with
  | Some id => if deviceIDPattern id then Some id else None
  | None => None
  end.

(** [^[a-z0-9][a-z0-9_-]{0,63}$] *)
Definition segment_char (c : ascii) : bool := is_lower c || is_digit c || Ascii.eqb c "_" || Ascii.eqb c "-".
Definition workloadSegment (s : string) : bool :=
  match s with
  | EmptyString => false
  | String c r => (is_lower c || is_digit c) && string_forallb segment_char r
                  && (String.length r <=? 63)%nat
  end.

(** [^[a-z0-9]([a-z0-9-]{0,61}[a-z0-9])?$] *)
Definition label_char (c : ascii) : bool := is_lower c || is_digit c || Ascii.eqb c "-".
Definition edge_char (o : option ascii) : bool :=
  match o with Some c => is_lower c || is_digit c | None => false end.
Definition domainLabel (s : string) : bool :=
  edge_char (String.get 0 s) && edge_char (last_char s) && string_forallb label_char s
  && (String.length s <=? 63)%nat.

(** ** The certificate policy *)

Record SPIFFEPolicy : Type := { PolicyTrustDomain : string; PolicyZone : string }.

Definition normal_domain (s : string) : string := TrimSuffix (ToLower s) ".".

(** One URI of the certificate: the device it names, if it qualifies. *)
Definition candidate_device (trustDomain : string) (candidate : option URL) : option string :=
  match candidate with
  | None => None
  | Some u =>
      if negb (Scheme u =? "spiffe")%string || negb (Host u =? trustDomain)%string || HasUser u
         || negb (Opaque u =? "")%string || negb (RawQuery u =? "")%string || ForceQuery u
         || negb (Fragment u =? "")%string
      then None else
      match devicePathPattern (EscapedPath u) with
      | Some id => if deviceIDPattern id then Some id else None
      | None => None
      end
  end.

(** The loop over the URIs, from the ID matched so far. *)
Fixpoint resolve_uris (trustDomain matchedID : string) (uris : list (option URL))
    : result IdentityError string :=
  match uris with
  | [] => if (matchedID =? "")%string then Err ErrNoIdentity else Ok matchedID
  | candidate :: rest =>
      match candidate_device trustDomain candidate with
      | None => resolve_uris trustDomain matchedID rest
      | Some id =>
          if negb (matchedID =? "")%string then Err ErrAmbiguousIdentity
          else resolve_uris trustDomain id rest
      end
  end.

Definition device_hostname (id zone : string) : string := "pi-" +:+ id +:+ "." +:+ zone.

Definition Resolve (p : SPIFFEPolicy) : Policy := fun cert =>
  match cert with
  | None => Err ErrNoIdentity
  | Some c =>
      matchedID ← resolve_uris (normal_domain (PolicyTrustDomain p)) "" (URIs c);
      mret {| ID := matchedID;
              DeviceHostname := device_hostname matchedID (normal_domain (PolicyZone p)) |}
  end.

(** ** The workload policy *)

(** [spiffeid.ID], as its accessors show it. *)
Record SpiffeID : Type := { id_TrustDomain : string; id_Path : string }.

Definition id_String (id : SpiffeID) : string :=
  "spiffe://" +:+ id_TrustDomain id +:+ id_Path id.

Definition ValidTrustDomain (domain : string) : bool :=
  if (String.length domain =? 0)%nat || (253 <? String.length domain)%nat then false
  else forallb domainLabel (Split domain ".").

Definition WorkloadComponents (id : SpiffeID) : result IdentityError (string * string) :=
  if negb (ValidTrustDomain (id_TrustDomain id)) then Err ErrDenied else
  match Split (id_Path id) "/" with
  | [p0; p1; p2; p3; p4; p5; p6] =>
      if negb (p0 =? "")%string || negb (p1 =? "device")%string || negb (p3 =? "instance")%string
         || negb (p5 =? "workload")%string
      then Err ErrDenied else
      if forallb workloadSegment [p2; p4; p6] then Ok (p2, p4) else Err ErrDenied
  | _ => Err ErrDenied
  end.

Section workload_policy.
(** The Workload API's bundle source, and chain verification against it. *)
Context {Bundles : Type} (Verify : list Certificate -> Bundles -> time -> option SpiffeID).

Record WorkloadPolicy : Type := {
  wp_Bundles : option Bundles;
  wp_TrustDomain : string;
  wp_Authorizer : option (SpiffeID -> result IdentityError Device);
}.

(** [ResolveRequest] at the instant [at_]. *)
Definition ResolveRequest (p : WorkloadPolicy) (at_ : time) : RequestPolicy := fun state =>
  match state, wp_Bundles p, wp_Authorizer p with
  | Some st, Some bundles, Some authorize =>
      match PeerCertificates st with
      | [] => Err ErrUnauthenticated
      | leaf :: _ =>
          if Before at_ (NotBefore leaf) || negb (Before at_ (NotAfter leaf))
          then Err ErrUnauthenticated else
          match Verify (PeerCertificates st) bundles at_ with
          | None => Err ErrUnauthenticated
          | Some id =>
              if negb (id_TrustDomain id =? wp_TrustDomain p)%string
              then Err ErrUnauthenticated else
              match WorkloadComponents id with
              | Err _ => Err ErrDenied
              | Ok _ => authorize id
              end
          end
      end
  | _, _, _ => Err ErrUnauthenticated
  end.
End workload_policy.

(** ** Lemmas *)

Lemma candidate_pattern td u id : candidate_device td u = Some id -> deviceIDPattern id = true.
Proof.
  unfold candidate_device. destruct u as [u|]; [|done]. case_match; [done|].
  case_match; [|done]. case_match; [|done]. intros [= <-]. done.
Qed.

Lemma pattern_nonempty id : deviceIDPattern id = true -> (id =? "")%string = false.
Proof. by destruct id. Qed.

(** The URIs that name a device, in order. *)
Definition candidates (td : string) (uris : list (option URL)) : list string :=
  omap (candidate_device td) uris.

Lemma resolve_uris_matched td m uris :
  (m =? "")%string = false ->
  resolve_uris td m uris =
  match candidates td uris with [] => Ok m | _ => Err ErrAmbiguousIdentity end.
Proof.
  intros Hm. induction uris as [|u uris IH]; cbn; [by rewrite Hm|].
  destruct (candidate_device td u) as [id|]; cbn; [by rewrite Hm|exact IH].
Qed.

Lemma resolve_uris_spec td uris :
  resolve_uris td "" uris =
  match candidates td uris with
  | [] => Err ErrNoIdentity
  | [id] => Ok id
  | _ => Err ErrAmbiguousIdentity
  end.
Proof.
  induction uris as [|u uris IH]; [done|]. cbn.
  destruct (candidate_device td u) as [id|] eqn:E; cbn; [|exact IH].
  rewrite resolve_uris_matched by (eapply pattern_nonempty, candidate_pattern, E).
  done.
Qed.

Lemma candidates_pattern td uris id : id ∈ candidates td uris -> deviceIDPattern id = true.
Proof. unfold candidates. rewrite list_elem_of_omap. intros (u & _ & E). by eapply candidate_pattern. Qed.

(** Text before the first separator is determined. *)
Lemma cut_inj sep a a' b b' :
  free_of sep a = true -> free_of sep a' = true ->
  a +:+ String sep b = a' +:+ String sep b' -> a = a' /\ b = b'.
Proof.
  intros Ha Ha' E. pose proof (Split_app_sep a sep b Ha) as H1.
  rewrite E, (Split_app_sep a' sep b' Ha') in H1. injection H1 as -> _.
  split; [done|]. apply append_inj_l in E. by injection E.
Qed.

Lemma digits_free_dot id : deviceIDPattern id = true -> free_of "." id = true.
Proof.
  unfold deviceIDPattern, free_of. intros H. simp_bool.
  induction id as [|c id IH]; [done|]. cbn in *. clear H.
  assert (string_forallb is_digit (String c id) = true) as H1 by done. cbn in H1. simp_bool.
  apply andb_true_iff. split; [|clear IH].
  - destruct (Ascii.eqb_spec c "."); [by subst|done].
  - induction id as [|d id IH]; [done|]. cbn in *. simp_bool.
    destruct (Ascii.eqb_spec d "."); [by subst|]. apply IH; done.
Qed.

Lemma device_hostname_inj id id' zone :
  deviceIDPattern id = true -> deviceIDPattern id' = true ->
  device_hostname id zone = device_hostname id' zone -> id = id'.
Proof.
  intros H H' E. unfold device_hostname in E. apply append_inj_l in E.
  by apply (cut_inj "." id id' zone zone) in E as [-> _]; [|apply digits_free_dot..].
Qed.

(** The path of a workload identity. *)
Definition workload_path (device instance workload : string) : string :=
  Join [""; "device"; device; "instance"; instance; "workload"; workload] "/".

Lemma segment_free s : workloadSegment s = true -> free_of "/" s = true.
Proof.
  destruct s as [|c s]; [done|]. cbn. intros H. simp_bool. unfold free_of. cbn.
  apply andb_true_iff. split.
  - by destruct (Ascii.eqb_spec c "/"); [subst|].
  - match goal with H : string_forallb segment_char s = true |- _ => revert H end. clear.
    induction s as [|d s IH]; [done|]. cbn. intros H. simp_bool.
    rewrite IH by done. by destruct (Ascii.eqb_spec d "/"); [subst|].
Qed.

(** ** Properties *)

(** C32: The certificate policy names a device exactly when one URI of the
    certificate does: none is refused as no identity, two as ambiguous,
    whatever else the certificate carries; the hostname is pi-<id> in the
    policy's zone and the id is three or more digits. *)
Theorem Resolve_exactly_one p uris notBefore notAfter :
  Resolve p (Some {| URIs := uris; NotBefore := notBefore; NotAfter := notAfter |}) =
  match omap (candidate_device (normal_domain (PolicyTrustDomain p))) uris with
  | [] => Err ErrNoIdentity
  | [id] => Ok {| ID := id; DeviceHostname := "pi-" +:+ id +:+ "." +:+ normal_domain (PolicyZone p) |}
  | _ => Err ErrAmbiguousIdentity
  end.
Proof.
  unfold Resolve. cbn [URIs]. rewrite resolve_uris_spec. unfold candidates.
  by destruct (omap _ uris) as [|id [|id' l]].
Qed.

(** C33: Under one policy, hostnames and device ids determine each other, so two
    certificates reach the same DNS name only for the same device. *)
Theorem Resolve_hostname_injective p c c' d d' :
  Resolve p (Some c) = Ok d -> Resolve p (Some c') = Ok d' ->
  (ID d = ID d' <-> DeviceHostname d = DeviceHostname d').
Proof.
  assert (forall c d, Resolve p (Some c) = Ok d -> deviceIDPattern (ID d) = true /\
    DeviceHostname d = device_hostname (ID d) (normal_domain (PolicyZone p))) as H.
  { clear. intros c d. unfold Resolve. rewrite resolve_uris_spec.
    pose proof (candidates_pattern (normal_domain (PolicyTrustDomain p)) (URIs c)) as H.
    destruct (candidates _ _) as [|id [|? ?]]; [done| |done]. intros [= <-].
    split; [apply H; set_solver|done]. }
  intros Hd Hd'. apply H in Hd as [Hd ->], Hd' as [Hd' ->]. split; [by intros ->|].
  by apply device_hostname_inj.
Qed.

(** C34: The workload grammar is unambiguous: an identity decomposes into a device
    and an instance exactly when its trust domain is a canonical DNS name and
    its path is the printing of those two with some workload name. *)
Theorem WorkloadComponents_grammar id device instance :
  WorkloadComponents id = Ok (device, instance) <->
  ValidTrustDomain (id_TrustDomain id) = true /\
  workloadSegment device = true /\ workloadSegment instance = true /\
  exists workload, workloadSegment workload = true /\
    id_Path id = workload_path device instance workload.
Proof.
  unfold WorkloadComponents, workload_path. split.
  - destruct (ValidTrustDomain _); [cbn [negb]|done].
    destruct (Split (id_Path id) "/") as [|p0 [|p1 [|p2 [|p3 [|p4 [|p5 [|p6 [|]]]]]]]] eqn:E; try done.
    destruct (_ || _) eqn:Eb; [done|]. destruct (forallb _ _) eqn:Ef; [|done].
    intros [= <- <-]. cbn in Ef. simp_bool.
    repeat match goal with H : (_ =? _)%string = true |- _ => apply String.eqb_eq in H end. subst.
    split_and!; try done. exists p6. split; [done|].
    by rewrite <- (Join_Split (id_Path id) "/"), E.
  - intros (-> & Hd & Hi & w & Hw & ->). cbn [negb].
    rewrite (Split_Join _ "/"); [|done|].
    + cbn [forallb]. by rewrite Hd, Hi, Hw.
    + repeat constructor; by apply segment_free.
Qed.

(** C35: A workload credential authorizes only while its certificate is valid, for
    a chain that verifies at that instant to an identity of the configured
    trust domain with a well-formed path, and with the authorizer's consent. *)
Theorem ResolveRequest_authorized {Bundles} Verify p at_ st d :
  @ResolveRequest Bundles Verify p at_ (Some st) = Ok d ->
  exists leaf rest bundles id device_instance authorize,
    PeerCertificates st = leaf :: rest /\ NotBefore leaf <= at_ < NotAfter leaf /\
    wp_Bundles p = Some bundles /\ Verify (leaf :: rest) bundles at_ = Some id /\
    id_TrustDomain id = wp_TrustDomain p /\ WorkloadComponents id = Ok device_instance /\
    wp_Authorizer p = Some authorize /\ authorize id = Ok d.
Proof.
  unfold ResolveRequest, Before. intros H.
  destruct (wp_Bundles p) as [bundles|]; [|done]. destruct (wp_Authorizer p) as [authorize|]; [|done].
  destruct (PeerCertificates st) as [|leaf rest]; [done|].
  destruct (_ || _) eqn:Et; [done|]. destruct (Verify _ _ _) as [id|] eqn:Ev; [|done].
  destruct (_ =? _)%string eqn:Ed; [cbn [negb] in H|done].
  destruct (WorkloadComponents id) as [di|] eqn:Ew; [|done]. simp_bool. apply String.eqb_eq in Ed.
  by exists leaf, rest, bundles, id, di, authorize.
Qed.

(** ** The properties at concrete inputs *)

Definition example_url (path : string) : URL :=
  {| Scheme := "spiffe"; Host := "kaiba.network"; HasUser := false; Opaque := "";
     EscapedPath := path; RawQuery := ""; ForceQuery := false; Fragment := "" |}.
Definition example_certificate : Certificate :=
  {| URIs := [None; Some (example_url "/service/x"); Some (example_url "/device/001")];
     NotBefore := 0; NotAfter := 100 |}.
Definition example_policy : SPIFFEPolicy :=
  {| PolicyTrustDomain := "Kaiba.Network."; PolicyZone := "example.org" |}.

Lemma Resolve_hostname_injective_witness :
  Resolve example_policy (Some example_certificate)
    = Ok {| ID := "001"; DeviceHostname := "pi-001.example.org" |} /\
  ("001" = "001" <-> "pi-001.example.org" = "pi-001.example.org")%string.
Proof.
  split; [reflexivity|].
  exact (Resolve_hostname_injective example_policy example_certificate example_certificate
    {| ID := "001"; DeviceHostname := "pi-001.example.org" |}
    {| ID := "001"; DeviceHostname := "pi-001.example.org" |} eq_refl eq_refl).
Defined.

Definition example_workload : SpiffeID :=
  {| id_TrustDomain := "kaiba.network"; id_Path := "/device/d1/instance/i1/workload/dns-updater" |}.

(** A verifier that knows one chain, and an authorizer that knows one identity. *)
Definition example_verify (chain : list Certificate) (_ : unit) (_ : time) : option SpiffeID :=
  match chain with [_] => Some example_workload | _ => None end.
Definition example_authorize (id : SpiffeID) : result IdentityError Device :=
  if (id_Path id =? id_Path example_workload)%string
  then Ok {| ID := "001"; DeviceHostname := "pi-001.example.org" |} else Err ErrDenied.

Lemma ResolveRequest_authorized_witness :
  exists leaf, NotBefore leaf <= 5 < NotAfter leaf.
Proof.
  destruct (ResolveRequest_authorized example_verify
    {| wp_Bundles := Some tt; wp_TrustDomain := "kaiba.network";
       wp_Authorizer := Some example_authorize |} 5
    {| PeerCertificates := [example_certificate]; VerifiedChains := [] |}
    {| ID := "001"; DeviceHostname := "pi-001.example.org" |} eq_refl)
    as (leaf & rest & bundles & id & di & authorize & _ & H & _).
  by exists leaf.
Defined.
