(* ===== verification/Transport.v ===== *)
(** * Transport settings

    [src/dns/internal/identity/transport.go], [controller.TLSConfig] and
    [agent.NewHTTPClient]: what the program checks before it hands its settings
    to crypto/tls, net/http and go-spiffe, and the settings.  Certificates, keys
    and the Workload API are behind parameters. *)

From S2P Require Export Identity.
From Stdlib Require Import String.
#[local] Open Scope Z_scope.
#[local] Abbreviation length := List.length.

(** ** Settings *)

Definition VersionTLS13 : Z := 0x0304.

(** Who the other side must be: a chain to the named roots, or a workload whose
    SPIFFE id is exactly one, or in one trust domain. *)
Inductive PeerCheck : Type :=
| VerifiedAgainst (roots : string)
| AuthorizeID (id : string)
| AuthorizeMemberOf (trustDomain : string).

(** [tls.Config]; [presents] is the certificate shown, if it is a file's. *)
Record TLSSettings : Type := {
  MinVersion : Z;
  presents : option string;
  peer : PeerCheck;
  ClientCertificateRequired : bool;
  SessionTicketsDisabled : bool;
}.

(** [http.Client]. *)
Record HTTPClient : Type := {
  hc_TLS : TLSSettings;
  hc_DisableKeepAlives : bool;
  hc_FollowsRedirects : bool;
  hc_Timeout : duration;
}.

(** [url.URL] as a Workload API socket is checked. *)
Record SocketURL : Type := {
  su_Scheme : string;
  su_Host : string;
  su_Path : string;
  su_RawPath : string;
  su_HasUser : bool;
  su_RawQuery : string;
  su_ForceQuery : bool;
  su_Fragment : string;
}.

Section transport.
Context (url_parse : string -> option SocketURL).
(** [workloadapi.NewX509Source], [spiffeid.FromString] and [id.String]. *)
Context (NewX509Source : string -> duration -> result string unit).
Context {SpiffeId : Type} (spiffeid_FromString : string -> option SpiffeId) (spiffeid_String : SpiffeId -> string).
(** [os.ReadFile], [tls.LoadX509KeyPair], [AppendCertsFromPEM]. *)
Context (ReadFile : string -> result string string).
Context (LoadX509KeyPair : string -> string -> result string unit).
Context (AppendCertsFromPEM : string -> bool).

Definition explicit_socket (u : SocketURL) : bool :=
  (su_Scheme u =? "unix")%string && (su_Host u =? "")%string && HasPrefix (su_Path u) "/"
  && negb (su_HasUser u) && (su_RawQuery u =? "")%string && negb (su_ForceQuery u)
  && (su_Fragment u =? "")%string && (su_RawPath u =? "")%string.

Definition NewWorkloadSource (socket : string) (timeout : duration) : result string unit :=
  let refused := Err "Workload API socket must be an explicit unix:///absolute/path with a positive timeout"%string in
  match url_parse socket with
  | None => refused
  | Some u => if negb (explicit_socket u) || (timeout <=? 0) then refused else NewX509Source socket timeout
  end.

Definition WorkloadHTTPClient (expectedID : string) (timeout : duration) : result string HTTPClient :=
  let refused := Err "an exact server SPIFFE ID and positive timeout are required"%string in
  match spiffeid_FromString expectedID with
  | None => refused
  | Some id =>
      if negb (spiffeid_String id =? expectedID)%string || (expectedID =? "")%string || (timeout <=? 0)
      then refused else
      Ok {| hc_TLS := {| MinVersion := VersionTLS13; presents := None; peer := AuthorizeID expectedID;
              ClientCertificateRequired := false; SessionTicketsDisabled := false |};
            hc_DisableKeepAlives := true; hc_FollowsRedirects := false; hc_Timeout := timeout |}
  end.

Definition WorkloadServerTLS (domain : string) : result string TLSSettings :=
  if negb (ValidTrustDomain domain) then Err "a canonical workload trust domain is required"%string else
  Ok {| MinVersion := VersionTLS13; presents := None; peer := AuthorizeMemberOf domain;
        ClientCertificateRequired := true; SessionTicketsDisabled := true |}.

(** [controller.TLSConfig], with the certificate and the pool by their files. *)
Definition TLSConfig (certificate clientCAs : string) : TLSSettings :=
  {| MinVersion := VersionTLS13; presents := Some certificate; peer := VerifiedAgainst clientCAs;
     ClientCertificateRequired := true; SessionTicketsDisabled := false |}.

(** [agent.NewHTTPClient]. *)
Definition NewHTTPClient (certFile keyFile caFile : string) (timeout : duration) : result string HTTPClient :=
  match LoadX509KeyPair certFile keyFile with
  | Err e => Err ("load device certificate: " +:+ e)
  | Ok _ =>
      match ReadFile caFile with
      | Err e => Err ("read controller CA: " +:+ e)
      | Ok caPEM =>
          if negb (AppendCertsFromPEM caPEM) then Err "controller CA file contains no certificates"%string else
          Ok {| hc_TLS := {| MinVersion := VersionTLS13; presents := Some certFile; peer := VerifiedAgainst caFile;
                  ClientCertificateRequired := false; SessionTicketsDisabled := false |};
                hc_DisableKeepAlives := false; hc_FollowsRedirects := true; hc_Timeout := timeout |}
      end
  end.

(** ** Lemmas *)

Lemma NewHTTPClient_tls certFile keyFile caFile timeout client :
  NewHTTPClient certFile keyFile caFile timeout = Ok client ->
  MinVersion (hc_TLS client) = VersionTLS13 /\ peer (hc_TLS client) = VerifiedAgainst caFile /\
  presents (hc_TLS client) = Some certFile.
Proof.
  unfold NewHTTPClient. destruct (LoadX509KeyPair _ _); [|done]. destruct (ReadFile _); [|done].
  destruct (negb _); [done|]. by intros [= <-].
Qed.

Lemma WorkloadHTTPClient_exact expectedID timeout client :
  WorkloadHTTPClient expectedID timeout = Ok client ->
  peer (hc_TLS client) = AuthorizeID expectedID /\ expectedID <> ""%string /\ 0 < timeout /\
  MinVersion (hc_TLS client) = VersionTLS13 /\ hc_FollowsRedirects client = false.
Proof.
  unfold WorkloadHTTPClient. destruct (spiffeid_FromString expectedID) as [id|]; [|done].
  destruct (_ || _) eqn:E; [done|]. intros [= <-]. simp_bool. split_and!; done || lia || by apply String.eqb_neq.
Qed.
End transport.
