(* ===== verification/Authorization.v ===== *)
(** * Package identity: the fleet's authorization decisions

    [src/dns/internal/identity/authorization.go].  The decision document is read
    token by token, as the closed object that the contract names; a decision is
    used only for the request that it answers, in the five seconds it is valid.
    The random source, the HTTP client and the clock are operations on the state
    of the world outside. *)

From S2P Require Export Identity JsonText JsonFuel GoTime.
From Stdlib Require Import String.
#[local] Open Scope Z_scope.
#[local] Abbreviation length := List.length.

(** ** The document *)

Definition DecisionVersion : string := "0.5.0-draft.1".
Definition decisionPath : string := "/api/v1/workloads/authorize-dns".

(** [decisionTimestamp], the pattern
    [\d{4}-\d{2}-\d{2}T\d{2}:[0-5]\d:[0-5]\d(?:\.\d{1,6})?Z] of a whole text. *)
Definition is_sexagesimal (c : ascii) : bool := (48 <=? code c) && (code c <=? 53).

Fixpoint match_all (pattern : list (ascii -> bool)) (s : string) : option string :=
  match pattern, s with
  | [], _ => Some s
  | p :: pattern', String c s' => if p c then match_all pattern' s' else None
  | _, EmptyString => None
  end.

Definition timestamp_pattern : list (ascii -> bool) :=
  let d := is_digit in let x := is_sexagesimal in let dash := Ascii.eqb "-" in
  [d; d; d; d; dash; d; d; dash; d; d; Ascii.eqb "T"; d; d; Ascii.eqb ":"; x; d; Ascii.eqb ":"; x; d].

Definition decisionTimestamp (s : string) : bool :=
  match match_all timestamp_pattern s with
  | Some (String "." rest) =>
      let '(digits, z) := span is_digit rest in
      (1 <=? String.length digits)%nat && (String.length digits <=? 6)%nat && (z =? "Z")%string
  | Some rest => (rest =? "Z")%string
  | None => false
  end.

Record authorizationDecision : Type := {
  Contract : string;
  ContractVersion : string;
  RequestID : string;
  SPIFFEID : string;
  LogicalDeviceID : string;
  InstanceID : string;
  DNSDeviceID : string;
  DecisionHostname : string;
  Permission : string;
  CheckedAt : string;
  ExpiresAt : string;
}.

Definition zero_decision : authorizationDecision :=
  Build_authorizationDecision "" "" "" "" "" "" "" "" "" "" "".

Definition decision_names : list string :=
  ["contract"; "contract_version"; "request_id"; "spiffe_id"; "logical_device_id"; "instance_id";
   "dns_device_id"; "hostname"; "permission"; "checked_at"; "expires_at"]%string.

(** The struct tags. *)
Definition decision_fields : fields authorizationDecision :=
  [("contract"%string, fun j p => let 'Build_authorizationDecision a b c d e f g h i k l := p in
      (fun v => Build_authorizationDecision v b c d e f g h i k l) <$> decode_string j a);
   ("contract_version"%string, fun j p => let 'Build_authorizationDecision a b c d e f g h i k l := p in
      (fun v => Build_authorizationDecision a v c d e f g h i k l) <$> decode_string j b);
   ("request_id"%string, fun j p => let 'Build_authorizationDecision a b c d e f g h i k l := p in
      (fun v => Build_authorizationDecision a b v d e f g h i k l) <$> decode_string j c);
   ("spiffe_id"%string, fun j p => let 'Build_authorizationDecision a b c d e f g h i k l := p in
      (fun v => Build_authorizationDecision a b c v e f g h i k l) <$> decode_string j d);
   ("logical_device_id"%string, fun j p => let 'Build_authorizationDecision a b c d e f g h i k l := p in
      (fun v => Build_authorizationDecision a b c d v f g h i k l) <$> decode_string j e);
   ("instance_id"%string, fun j p => let 'Build_authorizationDecision a b c d e f g h i k l := p in
      (fun v => Build_authorizationDecision a b c d e v g h i k l) <$> decode_string j f);
   ("dns_device_id"%string, fun j p => let 'Build_authorizationDecision a b c d e f g h i k l := p in
      (fun v => Build_authorizationDecision a b c d e f v h i k l) <$> decode_string j g);
   ("hostname"%string, fun j p => let 'Build_authorizationDecision a b c d e f g h i k l := p in
      (fun v => Build_authorizationDecision a b c d e f g v i k l) <$> decode_string j h);
   ("permission"%string, fun j p => let 'Build_authorizationDecision a b c d e f g h i k l := p in
      (fun v => Build_authorizationDecision a b c d e f g h v k l) <$> decode_string j i);
   ("checked_at"%string, fun j p => let 'Build_authorizationDecision a b c d e f g h i k l := p in
      (fun v => Build_authorizationDecision a b c d e f g h i v l) <$> decode_string j k);
   ("expires_at"%string, fun j p => let 'Build_authorizationDecision a b c d e f g h i k l := p in
      (fun v => Build_authorizationDecision a b c d e f g h i k v) <$> decode_string j l)].

(** ** Reading its tokens *)

(** [decoder.More]: neither the end of the text nor a closing delimiter next. *)
Definition More (s : string) : bool :=
  match skip_ws s with
  | EmptyString => false
  | String c _ => negb (Ascii.eqb c "]" || Ascii.eqb c "}")
  end.

(** [decoder.Token] for a delimiter. *)
Definition delim_token (delim : ascii) (s : string) : option string :=
  match skip_ws s with
  | String c rest => if Ascii.eqb c delim then Some rest else None
  | EmptyString => None
  end.

(** [decoder.Token] inside an object, where a key comes: the first one, or one
    after a comma. *)
Definition key_token (first : bool) (s : string) : option (string * string) :=
  s ← (if first then Some s else delim_token "," s);
  s ← delim_token dquote s;
  unquote s.

(** [decoder.Decode(&value)] of a member's value, into a string. *)
Definition value_token (s : string) : option (string * string) :=
  s ← delim_token ":" s;
  '(j, s) ← DecodeNext s;
  v ← decode_string j "";
  Some (v, s).

(** The loop: the fields still missing, and the text after the last value.  A
    round takes a field that was missing, so eleven of them are enough. *)
Fixpoint decode_members (fuel : nat) (first : bool) (missing : list string) (s : string)
    : option (list string * string) :=
  if negb (More s) then Some (missing, s) else
  match fuel with
  | O => None
  | S n =>
      '(key, s) ← key_token first s;
      if negb (bool_decide (key ∈ missing)) then None else
      '(_, s) ← value_token s;
      decode_members n false (List.filter (fun name => negb (name =? key)%string) missing) s
  end.

Definition decodeDecision (data : string) : option authorizationDecision :=
  s ← delim_token "{" data;
  '(missing, s) ← decode_members (length decision_names) true decision_names s;
  s ← delim_token "}" s;
  match missing with
  | _ :: _ => None
  | [] =>
      if negb (skip_ws s =? "")%string then None else
      match Unmarshal decision_fields zero_decision data with
      | (decision, true) => Some decision
      | (_, false) => None
      end
  end.

(** ** Asking *)

(** [t.Sub(u)] saturates. *)
Definition Sub (t u : time) : duration := Z.max (- 2 ^ 63) (Z.min (2 ^ 63 - 1) (t - u)).

(** What the authorizer reads of an HTTP response; [None] when reading its body
    fails. *)
Record HttpReply : Type := { reply_StatusCode : Z; reply_Body : option string }.

Record FleetAuthorizer : Type := { fa_endpoint : string; fa_zone : string }.

Section fleet.
Context {World : Type}.
Context (RandRead : World -> option (list Z) * World).
Context (Post : string -> string -> World -> result string HttpReply * World).
Context (Now : World -> time).

(** The URL of the service, as [url.Parse] splits it, and its text with another
    path. *)
Context {Url : Type} (url_parse : string -> option Url) (url_Scheme url_Host url_Path url_RawQuery url_Fragment : Url -> string)
  (url_HasUser url_ForceQuery : Url -> bool) (url_with_path : Url -> string -> string).

Definition NewFleetAuthorizer (client : result string unit) (endpoint zone : string)
    : result string FleetAuthorizer :=
  match client with
  | Err e => Err e
  | Ok _ =>
      let refused := Err "fleet authorization URL must be an HTTPS origin without path, query, or userinfo"%string in
      match url_parse endpoint with
      | None => refused
      | Some u =>
          if negb (url_Scheme u =? "https")%string || (url_Host u =? "")%string || url_HasUser u
             || negb (url_RawQuery u =? "")%string || url_ForceQuery u || negb (url_Fragment u =? "")%string
             || (negb (url_Path u =? "")%string && negb (url_Path u =? "/")%string)
          then refused else
          let zone := TrimSuffix (ToLower zone) "." in
          if negb (ValidTrustDomain zone) then Err "invalid DNS zone"%string else
          Ok {| fa_endpoint := url_with_path u decisionPath; fa_zone := zone |}
      end
  end.

Definition decision_request (id : SpiffeID) (requestID : string) : string :=
  print (JObj [("spiffe_id"%string, JStr (id_String id)); ("request_id"%string, JStr requestID)]).

(** The condition under which a decision is refused. *)
Definition decision_refused (f : FleetAuthorizer) (id : SpiffeID) (logical instance requestID : string)
    (now : time) (decision : authorizationDecision) : bool :=
  negb (Contract decision =? "DNSWorkloadAuthorization")%string
  || negb (ContractVersion decision =? DecisionVersion)%string
  || negb (RequestID decision =? requestID)%string
  || negb (SPIFFEID decision =? id_String id)%string
  || negb (LogicalDeviceID decision =? logical)%string
  || negb (InstanceID decision =? instance)%string
  || negb (Permission decision =? "dns:update")%string
  || negb (deviceIDPattern (DNSDeviceID decision))
  || negb (DecisionHostname decision =? "pi-" +:+ DNSDeviceID decision +:+ "." +:+ fa_zone f)%string
  || (253 <? String.length (DecisionHostname decision))%nat
  || (63 <? String.length ("pi-" +:+ DNSDeviceID decision))%nat
  || match ParseRFC3339 (CheckedAt decision), ParseRFC3339 (ExpiresAt decision) with
     | Some checked, Some expires =>
         negb (decisionTimestamp (CheckedAt decision)) || negb (decisionTimestamp (ExpiresAt decision))
         || After checked now || negb (Before now expires)
         || negb (Sub expires checked =? 5 * second)
     | _, _ => true
     end.

Definition AuthorizeDNS (f : FleetAuthorizer) (id : SpiffeID) (w : World)
    : result IdentityError Device * World :=
  match WorkloadComponents id with
  | Err _ => (Err ErrDenied, w)
  | Ok (logical, instance) =>
  if negb (HasSuffix (id_Path id) "/workload/dns-updater") then (Err ErrDenied, w) else
  match RandRead w with
  | (None, w) => (Err ErrUnavailable, w)
  | (Some nonce, w) =>
  let requestID := hex_encode nonce in
  match Post (fa_endpoint f) (decision_request id requestID) w with
  | (Err _, w) => (Err ErrUnavailable, w)
  | (Ok response, w) =>
  if reply_StatusCode response =? 403 then (Err ErrDenied, w) else
  if negb (reply_StatusCode response =? 200) then (Err ErrUnavailable, w) else
  match String.substring 0 (Z.to_nat 16385) <$> reply_Body response with
  | None => (Err ErrUnavailable, w)
  | Some body =>
  if (Z.to_nat 16384 <? String.length body)%nat then (Err ErrUnavailable, w) else
  match decodeDecision body with
  | None => (Err ErrUnavailable, w)
  | Some decision =>
      if decision_refused f id logical instance requestID (Now w) decision then (Err ErrUnavailable, w)
      else (Ok {| ID := DNSDeviceID decision; DeviceHostname := DecisionHostname decision |}, w)
  end end end end end.
End fleet.
