(* ===== verification/AuthorizationTheorems.v ===== *)
(** * What an authorization decision is

    The token reader accepts exactly the closed object, and the authorizer names
    a device exactly when it is answered a current decision on its request. *)

From S2P Require Export Authorization.
From Stdlib Require Import String.
#[local] Open Scope Z_scope.
#[local] Abbreviation length := List.length.
#[local] Abbreviation slen := String.length.

(** ** Tokens and the parser *)

(** The members of an object from a key on, up to its closing brace. *)
Definition members (s : string) (l : list (string * json)) (rest : string) : Prop :=
  exists n, parse_members n s = Some (l, rest).

(** After a member's value: the closing brace, or a comma and more members. *)
Definition members_tail (s : string) (l : list (string * json)) (rest : string) : Prop :=
  (l = [] /\ delim_token "}" s = Some rest) \/
  (exists s', delim_token "," s = Some s' /\ members s' l rest).

Lemma delim_token_inv d s rest : delim_token d s = Some rest <-> skip_ws s = String d rest.
Proof.
  unfold delim_token. destruct (skip_ws s) as [|c r]; [by split|].
  destruct (Ascii.eqb_spec c d) as [->|Hne]; split; intros [=]; by subst.
Qed.

Lemma delim_token_shorter d s rest : delim_token d s = Some rest -> (slen rest < slen s)%nat.
Proof.
  intros E%delim_token_inv. pose proof (skip_ws_shorter s) as H. rewrite E in H. cbn in H. lia.
Qed.

Lemma members_nil s rest : ~ members s [] rest.
Proof.
  intros [[|n] E]; [done|]. cbn [parse_members] in E. repeat (case_match; try done).
Qed.

Lemma members_cons s k j l rest :
  members s ((k, j) :: l) rest <->
  exists s0 s1 s2 s3, delim_token dquote s = Some s0 /\ unquote s0 = Some (k, s1) /\
    delim_token ":" s1 = Some s2 /\ DecodeNext s2 = Some (j, s3) /\ members_tail s3 l rest.
Proof.
  split.
  - intros [[|n] E]; [done|]. cbn [parse_members] in E.
    destruct (skip_ws s) as [|q s0] eqn:Es; [done|]. destruct (Ascii.eqb_spec q dquote) as [->|]; [|done].
    cbn [negb] in E. destruct (unquote s0) as [[k' s1]|] eqn:Eu; [|done].
    destruct (skip_ws s1) as [|c s2] eqn:Ec; [done|]. destruct (Ascii.eqb_spec c ":") as [->|]; [|done].
    cbn [negb] in E. destruct (parse_value n s2) as [[v s3]|] eqn:Ev; [|done]. apply parse_value_fuel in Ev.
    destruct (skip_ws s3) as [|d s4] eqn:Ed; [done|].
    assert (k' = k /\ v = j /\ members_tail s3 l rest) as (-> & -> & Ht).
    { destruct (Ascii.eqb_spec d ",") as [->|].
      - destruct (parse_members n s4) as [[l' r]|] eqn:Em; [|done]. injection E as -> -> -> ->.
        split; [done|]. split; [done|]. right. exists s4. split; [by apply delim_token_inv|]. by exists n.
      - destruct (Ascii.eqb_spec d "}") as [->|]; [|done]. injection E as -> -> <- ->.
        split; [done|]. split; [done|]. left. split; [done|]. by apply delim_token_inv. }
    exists s0, s1, s2, s3. by rewrite !delim_token_inv.
  - intros (s0 & s1 & s2 & s3 & E0 & Eu & Ec & Ev & Ht).
    pose proof (delim_token_shorter _ _ _ E0). pose proof (unquote_shorter _ _ _ Eu).
    pose proof (delim_token_shorter _ _ _ Ec). pose proof (DecodeNext_shorter _ _ _ Ev).
    apply delim_token_inv in E0, Ec. exists (S (2 * slen s)). cbn [parse_members].
    rewrite E0, Ascii.eqb_refl. cbn [negb]. rewrite Eu, Ec, Ascii.eqb_refl. cbn [negb].
    rewrite (DecodeNext_fuel (2 * slen s) _ _ _ Ev) by lia.
    destruct Ht as [[-> Ed]|(s4 & Ed & [m Em])].
    + apply delim_token_inv in Ed. by rewrite Ed.
    + pose proof (delim_token_shorter _ _ _ Ed). apply delim_token_inv in Ed. rewrite Ed.
      change (Ascii.eqb "," ",") with true. cbn iota.
      by rewrite (parse_members_fuel m (2 * slen s) _ _ _ Em) by lia.
Qed.

(** The text of an object: its opening brace, its members, and white space. *)
Lemma parse_object data l :
  parse data = Some (JObj l) <->
  exists s rest, delim_token "{" data = Some s /\ skip_ws rest = ""%string /\
    ((l = [] /\ delim_token "}" s = Some rest) \/ members s l rest).
Proof.
  unfold parse. split.
  - intros E. destruct (DecodeNext data) as [[j rest]|] eqn:Ed; [|done].
    destruct (String.eqb_spec (skip_ws rest) "") as [Hr|]; [|done]. injection E as ->.
    unfold DecodeNext, text_fuel in Ed. rewrite Nat.add_succ_r in Ed. cbn [parse_value] in Ed.
    destruct (skip_ws data) as [|c s] eqn:Es; [done|].
    destruct (Ascii.eqb c dquote); [destruct (unquote s) as [[? ?]|]; done|].
    destruct (Ascii.eqb c "["); [repeat (case_match; try done)|].
    destruct (Ascii.eqb_spec c "{") as [->|].
    + exists s, rest. split; [by apply delim_token_inv|]. split; [done|].
      destruct (skip_ws s) as [|d t] eqn:Et; [done|]. destruct (Ascii.eqb_spec d "}") as [->|].
      * injection Ed as <- ->. left. split; [done|]. by apply delim_token_inv.
      * destruct (parse_members _ s) as [[l' r]|] eqn:Em; [|done]. injection Ed as -> ->. right. by eexists.
    + unfold literal in Ed. repeat (case_match; try done).
  - intros (s & rest & Es & Hr & Hl). pose proof (delim_token_shorter _ _ _ Es).
    apply delim_token_inv in Es.
    assert (exists n, parse_value n data = Some (JObj l, rest)) as [n E].
    { destruct Hl as [[-> Ed]|Hm].
      - apply delim_token_inv in Ed. exists 1%nat. cbn [parse_value]. rewrite Es.
        change (Ascii.eqb "{" dquote) with false. change (Ascii.eqb "{" "[") with false.
        change (Ascii.eqb "{" "{") with true. cbn iota. by rewrite Ed.
      - assert (exists t, skip_ws s = String dquote t) as [t Et].
        { destruct l as [|[k j] l]; [by apply members_nil in Hm|].
          apply members_cons in Hm as (s0 & ? & ? & ? & E0 & _). apply delim_token_inv in E0. by exists s0. }
        destruct Hm as [n Em]. exists (S n). cbn [parse_value]. rewrite Es.
        change (Ascii.eqb "{" dquote) with false. change (Ascii.eqb "{" "[") with false.
        change (Ascii.eqb "{" "{") with true. cbn iota. rewrite Et.
        change (Ascii.eqb dquote "}") with false. cbn iota. by rewrite Em. }
    apply parse_value_fuel in E. by rewrite E, Hr.
Qed.

(** ** The token reader *)

Definition is_text (j : json) : bool := match j with JStr _ | JNull => true | _ => false end.

Lemma value_token_inv s s' :
  (exists v, value_token s = Some (v, s')) <->
  exists t j, delim_token ":" s = Some t /\ DecodeNext t = Some (j, s') /\ is_text j = true.
Proof.
  unfold value_token. split.
  - intros [v E]. destruct (delim_token ":" s) as [t|]; [|done]. cbn [mbind option_bind] in E.
    destruct (DecodeNext t) as [[j r]|] eqn:Ej; [|done]. cbn [mbind option_bind] in E. exists t, j.
    destruct j; cbn in E; by simplify_eq.
  - intros (t & j & -> & Ej & Hj). cbn [mbind option_bind]. rewrite Ej. cbn [mbind option_bind].
    destruct j; try done; cbn; eauto.
Qed.

Lemma More_key first s k s' : key_token first s = Some (k, s') -> More s = true.
Proof.
  unfold key_token, More. destruct first; cbn [mbind option_bind].
  - destruct (delim_token dquote s) as [t|] eqn:E; [|done]. apply delim_token_inv in E. by rewrite E.
  - destruct (delim_token "," s) as [t|] eqn:E; [|done]. apply delim_token_inv in E. by rewrite E.
Qed.

Lemma filter_out key (l : list string) x :
  x ∈ List.filter (fun name => negb (name =? key)%string) l <-> x ∈ l /\ x <> key.
Proof.
  rewrite !list_elem_of_In, filter_In, negb_true_iff. by rewrite String.eqb_neq.
Qed.

Lemma NoDup_filter_out key (l : list string) :
  NoDup l -> NoDup (List.filter (fun name => negb (name =? key)%string) l).
Proof. rewrite !NoDup_ListNoDup. apply List.NoDup_filter. Qed.

Lemma missing_split key missing :
  NoDup missing -> key ∈ missing ->
  missing ≡ₚ key :: List.filter (fun name => negb (name =? key)%string) missing.
Proof.
  intros Hnd Hin. apply NoDup_Permutation; [done| |].
  - constructor; [|by apply NoDup_filter_out]. rewrite filter_out. naive_solver.
  - intros x. rewrite elem_of_cons, filter_out. destruct (decide (x = key)); naive_solver.
Qed.

(** Members whose keys are fields still missing and whose values are texts. *)
Definition accepted (l : list (string * json)) (missing missing' : list string) : Prop :=
  missing ≡ₚ l.*1 ++ missing' /\ forallb is_text l.*2 = true.

Lemma decode_members_sound n first missing s missing' s' rest :
  NoDup missing -> decode_members n first missing s = Some (missing', s') ->
  delim_token "}" s' = Some rest ->
  exists l, accepted l missing missing' /\
    if first then (l = [] /\ delim_token "}" s = Some rest) \/ members s l rest
    else members_tail s l rest.
Proof.
  revert first missing s. induction n as [|n IH]; intros first missing s Hnd E Er.
  - cbn [decode_members] in E. destruct (negb (More s)); [|done]. injection E as <- <-.
    exists []. split; [done|]. destruct first; by left.
  - cbn [decode_members] in E. destruct (negb (More s)).
    { injection E as <- <-. exists []. split; [done|]. destruct first; by left. }
    destruct (key_token first s) as [[k s1]|] eqn:Ek; [|done]. cbn [mbind option_bind] in E.
    case_bool_decide as Hk; [|done]. cbn [negb] in E.
    destruct (value_token s1) as [[v s2]|] eqn:Ev; [|done]. cbn [mbind option_bind] in E.
    apply IH in E as (l & (Hp & Ht) & Hl); [|by apply NoDup_filter_out|done].
    destruct (proj1 (value_token_inv s1 s2) (ex_intro _ v Ev)) as (t & j & Ec & Ej & Hj).
    exists ((k, j) :: l). split.
    { split; [|cbn; by rewrite Hj, Ht]. rewrite (missing_split k missing) by done. cbn. by rewrite Hp. }
    unfold key_token in Ek. destruct first; cbn [mbind option_bind] in Ek.
    + destruct (delim_token dquote s) as [s0|] eqn:E0; [|done]. right. apply members_cons.
      by exists s0, s1, t, s2.
    + destruct (delim_token "," s) as [sc|] eqn:Es; [|done]. cbn [mbind option_bind] in Ek.
      destruct (delim_token dquote sc) as [s0|] eqn:E0; [|done]. right. exists sc. split; [done|].
      apply members_cons. by exists s0, s1, t, s2.
Qed.

Lemma decode_members_complete l n (first : bool) missing missing'' s rest :
  NoDup missing -> accepted l missing missing'' -> (length l <= n)%nat ->
  (if first then (l = [] /\ delim_token "}" s = Some rest) \/ members s l rest
   else members_tail s l rest) ->
  exists missing' s', decode_members n first missing s = Some (missing', s') /\
    delim_token "}" s' = Some rest /\ missing' ≡ₚ missing''.
Proof.
  revert n first missing s. induction l as [|[k j] l IH]; intros n first missing s Hnd (Hp & Ht) Hn Hl.
  - assert (delim_token "}" s = Some rest) as Er.
    { destruct first; [destruct Hl as [[_ ?]|?%members_nil]; done|].
      destruct Hl as [[_ ?]|(? & _ & ?%members_nil)]; done. }
    exists missing, s. split; [|done].
    assert (More s = false) as Hm by (apply delim_token_inv in Er; unfold More; by rewrite Er).
    destruct n; cbn [decode_members]; by rewrite Hm.
  - destruct n as [|n]; [cbn in Hn; lia|]. cbn in Ht. apply andb_true_iff in Ht as [Hj Ht].
    assert (exists sk : string, (if first then Some s else delim_token "," s) = Some sk /\ members sk ((k, j) :: l) rest)
      as (sk & Ek & Hm).
    { destruct first; [destruct Hl as [[? _]|?]; [done|]; by exists s|].
      destruct Hl as [[? _]|(sk & ? & ?)]; [done|]. by exists sk. }
    apply members_cons in Hm as (s0 & s1 & s2 & s3 & E0 & Eu & Ec & Ej & Htail).
    destruct (proj2 (value_token_inv s1 s3)) as [v Ev]; [by exists s2, j|].
    assert (key_token first s = Some (k, s1)) as Hkey.
    { unfold key_token. rewrite Ek. cbn [mbind option_bind]. rewrite E0. exact Eu. }
    assert (k ∈ missing) as Hk by (rewrite Hp; cbn; set_solver).
    destruct (IH n false (List.filter (fun name => negb (name =? k)%string) missing) s3)
      as (missing' & s' & E & Er & Hp'); [by apply NoDup_filter_out| |cbn in Hn; lia|done|].
    { split; [|done]. rewrite (missing_split k missing) in Hp by done. by apply Permutation_cons_inv in Hp. }
    exists missing', s'. split; [|done]. cbn [decode_members]. rewrite (More_key _ _ _ _ Hkey). cbn [negb].
    rewrite Hkey. cbn [mbind option_bind]. rewrite bool_decide_eq_true_2 by done. cbn [negb].
    rewrite Ev. exact E.
Qed.

(** ** The closed object *)

(** The text of a member; of null, and of a member that is absent, the empty one. *)
Definition member (l : list (string * json)) (old : string) (name : string) : string :=
  match List.find (fun kv => (fst kv =? name)%string) l with
  | Some (_, JStr v) => v
  | _ => old
  end.

Definition decision_of (f : string -> string) : authorizationDecision :=
  {| Contract := f "contract"; ContractVersion := f "contract_version"; RequestID := f "request_id";
     SPIFFEID := f "spiffe_id"; LogicalDeviceID := f "logical_device_id"; InstanceID := f "instance_id";
     DNSDeviceID := f "dns_device_id"; DecisionHostname := f "hostname"; Permission := f "permission";
     CheckedAt := f "checked_at"; ExpiresAt := f "expires_at" |}%string.

Definition set_text (f : string -> string) (k : string) (j : json) (name : string) : string :=
  if (name =? k)%string then match j with JStr v => v | _ => f name end else f name.

Lemma decision_of_ext f g : (forall name, name ∈ decision_names -> f name = g name) -> decision_of f = decision_of g.
Proof. intros H. unfold decision_of. by f_equal; apply H; vm_compute; repeat (first [left|right]). Qed.

Lemma set_member_decision f k j :
  k ∈ decision_names -> is_text j = true ->
  set_member false decision_fields (decision_of f, true) (k, j) = (decision_of (set_text f k j), true).
Proof.
  intros Hk Hj. unfold decision_names in Hk.
  repeat (apply elem_of_cons in Hk as [->|Hk]; [by destruct j|]). by apply elem_of_nil in Hk.
Qed.

Lemma decode_struct_decision f l :
  (forall k, k ∈ l.*1 -> k ∈ decision_names) -> forallb is_text l.*2 = true -> NoDup l.*1 ->
  exists g, foldl (set_member false decision_fields) (decision_of f, true) l = (decision_of g, true) /\
    forall name, g name = member l (f name) name.
Proof.
  revert f. induction l as [|[k j] l IH]; intros f Hk Hj Hnd; [by exists f|].
  cbn in Hj. apply andb_true_iff in Hj as [Hj Hl]. apply NoDup_cons in Hnd as [Hn Hnd].
  cbn [foldl]. rewrite set_member_decision; [|apply Hk; cbn; set_solver|done].
  destruct (IH (set_text f k j)) as (g & E & Hg); [|done|done|].
  { intros k' Hk'. apply Hk. cbn. set_solver. }
  exists g. split; [exact E|]. intros name. rewrite Hg. unfold member. cbn [List.find fst].
  unfold set_text. destruct (String.eqb_spec k name) as [->|Hne].
  - rewrite String.eqb_refl. destruct (List.find _ l) as [[k' j']|] eqn:Ef; [|done]. exfalso. apply Hn.
    apply find_some in Ef as [Hin He]. apply String.eqb_eq in He. cbn in He. subst k'.
    apply list_elem_of_In in Hin. by apply (list_elem_of_fmap_2 fst) in Hin.
  - rewrite (proj2 (String.eqb_neq name k)) by done. done.
Qed.

Lemma decision_names_NoDup : NoDup decision_names.
Proof. apply (bool_decide_unpack _). by vm_compute. Qed.

(** The closed object of the contract: every member once, none else, all texts. *)
Definition closed_decision (l : list (string * json)) : Prop :=
  l.*1 ≡ₚ decision_names /\ forallb is_text l.*2 = true.

Lemma Unmarshal_decision data l :
  parse data = Some (JObj l) -> closed_decision l ->
  Unmarshal decision_fields zero_decision data = (decision_of (member l ""), true).
Proof.
  intros Ep [Hk Hj]. unfold Unmarshal. rewrite Ep. unfold decode_struct.
  change zero_decision with (decision_of (fun _ => ""%string)).
  destruct (decode_struct_decision (fun _ => ""%string) l) as (g & E & Hg).
  - intros k. by rewrite Hk.
  - done.
  - rewrite Hk. apply decision_names_NoDup.
  - rewrite E. f_equal. apply decision_of_ext. intros name _. apply Hg.
Qed.

Lemma decodeDecision_spec data d :
  decodeDecision data = Some d <->
  exists l, parse data = Some (JObj l) /\ closed_decision l /\ d = decision_of (member l "").
Proof.
  unfold decodeDecision. split.
  - destruct (delim_token "{" data) as [s|] eqn:Es; [|done]. cbn [mbind option_bind].
    destruct (decode_members _ true decision_names s) as [[missing s1]|] eqn:Em; [|done].
    cbn [mbind option_bind]. destruct (delim_token "}" s1) as [rest|] eqn:Er; [|done]. cbn [mbind option_bind].
    destruct missing; [|done]. destruct (String.eqb_spec (skip_ws rest) "") as [Hr|]; [|done]. cbn [negb].
    destruct (decode_members_sound _ _ _ _ _ _ _ decision_names_NoDup Em Er) as (l & (Hp & Hj) & Hl).
    rewrite app_nil_r in Hp. assert (closed_decision l) as Hc by done.
    assert (parse data = Some (JObj l)) as Hparse by (apply parse_object; by exists s, rest).
    rewrite (Unmarshal_decision _ _ Hparse Hc). intros [= <-]. by exists l.
  - intros (l & Hparse & Hc & ->). pose proof Hparse as (s & rest & Es & Hr & Hl)%parse_object.
    rewrite Es. cbn [mbind option_bind]. destruct Hc as [Hp Hj].
    destruct (decode_members_complete l (length decision_names) true decision_names [] s rest)
      as (missing' & s' & E & Er & Hm); [apply decision_names_NoDup| | |done|].
    { split; [|done]. by rewrite app_nil_r, Hp. }
    { rewrite <- (length_fmap fst l), Hp. done. }
    rewrite E. cbn [mbind option_bind]. rewrite Er. cbn [mbind option_bind].
    apply Permutation_nil_r in Hm as ->. rewrite Hr, String.eqb_refl. cbn [negb].
    by rewrite (Unmarshal_decision _ _ Hparse (conj Hp Hj)).
Qed.

(** C37: A decision is accepted as the closed wire object and nothing else: one JSON
    object with exactly the eleven fields of the contract, in any order, each
    once and under its exact name, each a string (or null, which reads as the
    empty string), and no other text; the result has each field's own value. *)
Theorem decodeDecision_closed data d :
  decodeDecision data = Some d <->
  exists l, parse data = Some (JObj l) /\ l.*1 ≡ₚ decision_names /\ forallb is_text l.*2 = true /\
    d = decision_of (member l "").
Proof.
  rewrite decodeDecision_spec. split; intros (l & H).
  - destruct H as (? & [? ?] & ?). by exists l.
  - destruct H as (? & ? & ? & ?). by exists l.
Qed.

(** ** Asking *)

Lemma substring_full n s : (slen s <= n)%nat -> String.substring 0 n s = s.
Proof.
  revert n. induction s as [|c s IH]; intros [|n] H; cbn in *; [done|done|lia|]. by rewrite IH by lia.
Qed.

Lemma substring_length n s : slen (String.substring 0 n s) = Nat.min n (slen s).
Proof. revert n. induction s as [|c s IH]; intros [|n]; cbn; [done|done|done|]. by rewrite IH. Qed.

Lemma Sub_small t u d : - 2 ^ 63 < d < 2 ^ 63 - 1 -> Sub t u = d <-> t = u + d.
Proof. unfold Sub. lia. Qed.

(** A decision on the request [requestID] for the workload, in force at [now]. *)
Record in_force (f : FleetAuthorizer) (id : SpiffeID) (logical instance requestID : string) (now : time)
    (d : authorizationDecision) : Prop := {
  if_contract : Contract d = "DNSWorkloadAuthorization"%string /\ ContractVersion d = DecisionVersion;
  if_request : RequestID d = requestID;
  if_workload : SPIFFEID d = id_String id /\ LogicalDeviceID d = logical /\ InstanceID d = instance;
  if_permission : Permission d = "dns:update"%string;
  if_device : deviceIDPattern (DNSDeviceID d) = true /\
    DecisionHostname d = device_hostname (DNSDeviceID d) (fa_zone f) /\
    (slen (DecisionHostname d) <= 253)%nat /\ (slen ("pi-" +:+ DNSDeviceID d) <= 63)%nat;
  if_window : exists checked, ParseRFC3339 (CheckedAt d) = Some checked /\
    ParseRFC3339 (ExpiresAt d) = Some (checked + 5 * second) /\ checked <= now < checked + 5 * second;
  if_format : decisionTimestamp (CheckedAt d) = true /\ decisionTimestamp (ExpiresAt d) = true;
}.

Lemma decision_refused_spec f id logical instance requestID now d :
  decision_refused f id logical instance requestID now d = false <->
  in_force f id logical instance requestID now d.
Proof.
  unfold decision_refused. rewrite !orb_false_iff, !negb_false_iff, !String.eqb_eq, !Nat.ltb_ge.
  destruct (ParseRFC3339 (CheckedAt d)) as [checked|] eqn:Ec.
  2:{ split; [naive_solver|]. intros [_ _ _ _ _ (? & ? & _) _]. congruence. }
  destruct (ParseRFC3339 (ExpiresAt d)) as [expires|] eqn:Ee.
  2:{ split; [naive_solver|]. intros [_ _ _ _ _ (? & _ & ? & _) _]. congruence. }
  unfold After, Before. rewrite !orb_false_iff, !negb_false_iff, Z.ltb_lt, Z.ltb_ge, Z.eqb_eq.
  rewrite (Sub_small expires checked (5 * second)) by (unfold second; lia). split.
  - intros H. decompose [and] H. split; try done. exists checked. subst expires. split; [done|]. split; [done|]. lia.
  - intros [[? ?] ? [? [? ?]] ? (? & ? & ? & ?) (c & Hc & He & Hw) [? ?]].
    rewrite Ec in Hc. rewrite Ee in He. injection Hc as ->. injection He as ->. split_and!; try done; lia.
Qed.

Section fleet.
Context {World : Type}.
Context (RandRead : World -> option (list Z) * World).
Context (Post : string -> string -> World -> result string HttpReply * World).
Context (Now : World -> time).
#[local] Abbreviation authorize := (AuthorizeDNS RandRead Post Now).

(** C36: The fleet's word, and only its current word on this request, names a
    device: the workload is a DNS updater, the nonce was drawn and sent with
    the workload's ID, and the reply is a closed decision of status 200 on that
    nonce and ID, for a device of the zone, at an instant inside its five
    seconds.  Exactly then the answer is that device. *)
Theorem AuthorizeDNS_exact f id w d w' :
  authorize f id w = (Ok d, w') <->
  exists logical instance nonce w1 body l,
    WorkloadComponents id = Ok (logical, instance) /\
    HasSuffix (id_Path id) "/workload/dns-updater" = true /\
    RandRead w = (Some nonce, w1) /\
    Post (fa_endpoint f) (decision_request id (hex_encode nonce)) w1
      = (Ok {| reply_StatusCode := 200; reply_Body := Some body |}, w') /\
    (slen body <= Z.to_nat 16384)%nat /\ parse body = Some (JObj l) /\ closed_decision l /\
    let decision := decision_of (member l "") in
    in_force f id logical instance (hex_encode nonce) (Now w') decision /\
    d = {| ID := DNSDeviceID decision; DeviceHostname := DecisionHostname decision |}.
Proof.
  unfold AuthorizeDNS. split.
  - destruct (WorkloadComponents id) as [[logical instance]|]; [|done].
    destruct (HasSuffix _ _) eqn:Hs; [|done]. cbn [negb].
    destruct (RandRead w) as [[nonce|] w1]; [|done]. cbv zeta.
    destruct (Post _ _ w1) as [[[status reply]|] w2] eqn:Epost; [|done]. cbn [reply_StatusCode reply_Body].
    destruct (status =? 403); [done|]. destruct (Z.eqb_spec status 200) as [->|]; [|done]. cbn [negb].
    destruct reply as [body|]; [|done]. cbn [fmap option_fmap option_map].
    destruct (Nat.ltb_spec (Z.to_nat 16384) (slen (String.substring 0 (Z.to_nat 16385) body))) as [|Hlen]; [done|].
    rewrite substring_length in Hlen. assert (slen body <= Z.to_nat 16384)%nat as Hbody by lia.
    rewrite substring_full by lia.
    destruct (decodeDecision body) as [decision|] eqn:Ed; [|done].
    apply decodeDecision_spec in Ed as (l & Hp & Hc & ->).
    destruct (decision_refused _ _ _ _ _ _ _) eqn:Er; [done|]. apply decision_refused_spec in Er.
    intros [= <- <-]. exists logical, instance, nonce, w1, body, l. cbv zeta.
    split_and!; try done.
  - intros (logical & instance & nonce & w1 & body & l & -> & -> & -> & Hpost & Hlen & Hp & Hc & Hf & ->).
    cbn [negb]. rewrite Hpost. cbn [reply_StatusCode reply_Body fmap option_fmap option_map Z.eqb Pos.eqb negb].
    rewrite substring_full by lia. rewrite (proj2 (Nat.ltb_ge _ _)) by lia.
    rewrite (proj2 (decodeDecision_spec body _)) by (by exists l).
    by rewrite (proj2 (decision_refused_spec _ _ _ _ _ _ _) Hf).
Qed.
End fleet.

(** ** An example *)

Definition example_workload : SpiffeID :=
  {| id_TrustDomain := "fleet.example"; id_Path := "/device/a1/instance/b2/workload/dns-updater" |}.
Definition example_fleet : FleetAuthorizer :=
  {| fa_endpoint := "https://fleet.example" +:+ decisionPath; fa_zone := "devices.example" |}.
Definition example_body (request expires : string) : string :=
  print (JObj [("contract", JStr "DNSWorkloadAuthorization"); ("contract_version", JStr DecisionVersion);
    ("spiffe_id", JStr (id_String example_workload)); ("request_id", JStr request);
    ("logical_device_id", JStr "a1"); ("instance_id", JStr "b2"); ("dns_device_id", JStr "0042");
    ("permission", JStr "dns:update"); ("hostname", JStr "pi-0042.devices.example");
    ("checked_at", JStr "2026-01-01T00:00:00.5Z"); ("expires_at", JStr expires)])%string.
Definition example_authorize (request expires : string) (now : time) : result IdentityError Device :=
  fst (AuthorizeDNS (fun w : unit => (Some [171; 205], w))
    (fun _ _ w => (Ok {| reply_StatusCode := 200; reply_Body := Some (example_body request expires) |}, w))
    (fun _ => now) example_fleet example_workload tt).

Example authorize_examples :
  let now := 1767225602 * 10 ^ 9 in
  example_authorize "abcd" "2026-01-01T00:00:05.5Z" now
    = Ok {| ID := "0042"; DeviceHostname := "pi-0042.devices.example" |} /\
  example_authorize "abce" "2026-01-01T00:00:05.5Z" now = Err ErrUnavailable /\
  example_authorize "abcd" "2026-01-01T00:00:06.5Z" now = Err ErrUnavailable /\
  example_authorize "abcd" "2026-01-01T00:00:05.5Z" (now + 4 * second) = Err ErrUnavailable.
Proof. vm_compute. repeat split. Qed.
