(* ===== verification/Store.v ===== *)
(** * Package store: desired state in SQLite

    [src/dns/internal/store/store.go] and [sqlite.go].  The database is its two
    tables; each statement is a function on them.  Every database call consumes
    one entry of a fault schedule, so that each error return of the code is
    reachable; a transaction works on a copy of the tables that becomes durable
    at its commit, and is dropped by the deferred rollback otherwise. *)

From S2P Require Export Model.
From Stdlib Require Import String.
#[local] Open Scope Z_scope.
#[local] Abbreviation length := List.length.

(** ** Errors, preconditions, requests *)

Inductive StoreError : Type :=
| ErrNotFound
| ErrIdempotencyConflict
| ErrPreconditionRequired
| ErrPreconditionFailed
| ErrStorage (what : string).

#[export] Instance StoreError_eq_dec : EqDecision StoreError.
Proof. solve_decision. Defined.

Record IntentPrecondition : Type := { ExpectedGeneration : Z; MustBeAbsent : bool }.

#[export] Instance IntentPrecondition_eq_dec : EqDecision IntentPrecondition.
Proof. solve_decision. Defined.

Definition MatchGeneration (generation : Z) : IntentPrecondition :=
  {| ExpectedGeneration := generation; MustBeAbsent := false |}.

Definition RequireAbsent : IntentPrecondition :=
  {| ExpectedGeneration := 0; MustBeAbsent := true |}.

Definition precondition_valid (p : IntentPrecondition) : bool :=
  (MustBeAbsent p && (ExpectedGeneration p =? 0))
  || (negb (MustBeAbsent p) && (0 <? ExpectedGeneration p)).

Definition precondition_key (p : IntentPrecondition) : string :=
  if MustBeAbsent p then "if-none-match:*"
  else "if-match:g-" +:+ FormatInt (ExpectedGeneration p).

Record UpsertRequest : Type := {
  req_DeviceID : string;
  req_Hostname : string;
  req_Addresses : list Addr;
  req_IdempotencyKey : string;
  req_Precondition : IntentPrecondition;
  req_Now : time;
  req_LeaseDuration : duration;
  req_RenewAfterSeconds : Z;
}.

Record UpsertResult : Type := {
  res_Intent : Intent;
  res_RenewAfterSeconds : Z;
  res_Replay : bool;
}.

(** ** The interface

    [store.DesiredState], for a store whose state is an [S]: the controller and
    the publisher are written against it. *)

Class DesiredState (S : Type) := {
  upsert_intent : UpsertRequest -> S -> result StoreError UpsertResult * S;
  get_intent : string -> S -> result StoreError Intent * S;
  expire_leases : time -> S -> result StoreError (list Intent) * S;
  list_origin_pending : Z -> S -> result StoreError (list Intent) * S;
  list_observation_pending : Z -> S -> result StoreError (list Intent) * S;
  mark_origin_applied : string -> Z -> S -> result StoreError unit * S;
  mark_publicly_observed : string -> Z -> S -> result StoreError unit * S;
  mark_publication_error : string -> Z -> string -> S -> result StoreError unit * S;
}.

(** A call of the interface as a value, for statements about all of them. *)
Inductive Call : Type :=
| CallUpsert (request : UpsertRequest)
| CallGet (deviceID : string)
| CallExpire (now : time)
| CallListOrigin (limit : Z)
| CallListObservation (limit : Z)
| CallMarkOrigin (deviceID : string) (g : Z)
| CallMarkObserved (deviceID : string) (g : Z)
| CallMarkError (deviceID : string) (g : Z) (message : string).

Inductive Reply : Type :=
| ReplyUpsert (res : UpsertResult)
| ReplyIntent (i : Intent)
| ReplyIntents (l : list Intent)
| ReplyDone.

Definition reply_of {A S} (f : A -> Reply) (o : result StoreError A * S)
    : result StoreError Reply * S := (f <$> fst o, snd o).

Definition call {S} `{DesiredState S} (c : Call) (s : S) : result StoreError Reply * S :=
  match c with
  | CallUpsert request => reply_of ReplyUpsert (upsert_intent request s)
  | CallGet d => reply_of ReplyIntent (get_intent d s)
  | CallExpire now => reply_of ReplyIntents (expire_leases now s)
  | CallListOrigin limit => reply_of ReplyIntents (list_origin_pending limit s)
  | CallListObservation limit => reply_of ReplyIntents (list_observation_pending limit s)
  | CallMarkOrigin d g => reply_of (fun _ => ReplyDone) (mark_origin_applied d g s)
  | CallMarkObserved d g => reply_of (fun _ => ReplyDone) (mark_publicly_observed d g s)
  | CallMarkError d g m => reply_of (fun _ => ReplyDone) (mark_publication_error d g m s)
  end.

(** ** Tables *)

(** A row of [intents]; [hostname] is unique, [device_id] the primary key. *)
Record IntentRow : Type := {
  device_id : string;
  hostname : string;
  addresses_json : string;
  generation : Z;
  lease_expires_ns : Z;
  updated_at_ns : Z;
  origin_applied_generation : Z;
  public_observed_generation : Z;
  last_publication_error : string;
}.

(** A row of [idempotency_requests], keyed by device and idempotency key. *)
Record IdempotencyRow : Type := {
  payload_hash : string;
  row_precondition_key : string;
  response_json : string;
}.

Record DB : Type := {
  intents : gmap string IntentRow;
  idempotency_requests : gmap (string * string) IdempotencyRow;
}.

Definition empty_db : DB := {| intents := ∅; idempotency_requests := ∅ |}.

Definition with_intents (f : gmap string IntentRow -> gmap string IntentRow) (db : DB) : DB :=
  {| intents := f (intents db); idempotency_requests := idempotency_requests db |}.

(** ** Statements *)

(** INSERT INTO intents: both keys must be new. *)
Definition insert_intent (row : IntentRow) (db : DB) : option DB :=
  if bool_decide (is_Some (intents db !! device_id row)) then None else
  if existsb (fun kv => (hostname (snd kv) =? hostname row)%string) (map_to_list (intents db))
  then None else Some (with_intents (insert (device_id row) row) db).

(** UPDATE intents ... WHERE device_id = ? AND p: no row, no change. *)
Definition update_intent (device : string) (p : IntentRow -> bool) (f : IntentRow -> IntentRow)
    (db : DB) : DB :=
  match intents db !! device with
  | Some row => if p row then with_intents (insert device (f row)) db else db
  | None => db
  end.

(** INSERT INTO idempotency_requests: the key must be new. *)
Definition insert_idempotency (k : string * string) (row : IdempotencyRow) (db : DB) : option DB :=
  if bool_decide (is_Some (idempotency_requests db !! k)) then None
  else Some {| intents := intents db;
               idempotency_requests := <[k := row]> (idempotency_requests db) |}.

(** SELECT ... FROM intents WHERE p ORDER BY device_id (byte order). *)
Definition row_le (r1 r2 : IntentRow) : Prop := String.le (device_id r1) (device_id r2).

#[export] Instance row_le_dec : RelDecision row_le.
Proof. intros r1 r2. unfold row_le. apply _. Defined.

Definition select_rows (p : IntentRow -> bool) (db : DB) : list IntentRow :=
  List.filter p (merge_sort row_le (snd <$> map_to_list (intents db))).

(** SET addresses_json = '[]', generation = ?, updated_at_ns = ?,
    last_publication_error = ''. *)
Definition set_expired (generation updated_at_ns : Z) (row : IntentRow) : IntentRow :=
  {| device_id := device_id row; hostname := hostname row; addresses_json := "[]";
     generation := generation; lease_expires_ns := lease_expires_ns row;
     updated_at_ns := updated_at_ns;
     origin_applied_generation := origin_applied_generation row;
     public_observed_generation := public_observed_generation row;
     last_publication_error := "" |}.

(** SET addresses_json, generation, lease_expires_ns, updated_at_ns,
    last_publication_error. *)
Definition set_written (addresses_json : string) (generation lease updated : Z) (message : string)
    (row : IntentRow) : IntentRow :=
  {| device_id := device_id row; hostname := hostname row; addresses_json := addresses_json;
     generation := generation; lease_expires_ns := lease; updated_at_ns := updated;
     origin_applied_generation := origin_applied_generation row;
     public_observed_generation := public_observed_generation row;
     last_publication_error := message |}.

Definition set_origin_applied (g : Z) (row : IntentRow) : IntentRow :=
  {| device_id := device_id row; hostname := hostname row; addresses_json := addresses_json row;
     generation := generation row; lease_expires_ns := lease_expires_ns row;
     updated_at_ns := updated_at_ns row; origin_applied_generation := g;
     public_observed_generation := public_observed_generation row;
     last_publication_error := "" |}.

Definition set_publicly_observed (g : Z) (row : IntentRow) : IntentRow :=
  {| device_id := device_id row; hostname := hostname row; addresses_json := addresses_json row;
     generation := generation row; lease_expires_ns := lease_expires_ns row;
     updated_at_ns := updated_at_ns row;
     origin_applied_generation := origin_applied_generation row;
     public_observed_generation := g;
     last_publication_error := last_publication_error row |}.

Definition set_publication_error (message : string) (row : IntentRow) : IntentRow :=
  {| device_id := device_id row; hostname := hostname row; addresses_json := addresses_json row;
     generation := generation row; lease_expires_ns := lease_expires_ns row;
     updated_at_ns := updated_at_ns row;
     origin_applied_generation := origin_applied_generation row;
     public_observed_generation := public_observed_generation row;
     last_publication_error := message |}.

(** ** Transactions and faults *)

(** What can happen to one database call: it works; it fails; it takes effect
    and its reply is lost (which matters for a commit and for an autocommitted
    statement); a query's rows end early, after [n] of them. *)
Inductive Fault : Type :=
| NoFault
| Failed
| Lost
| Cut (n : nat).

Record TxState : Type := { durable : DB; work : DB; faults : list Fault }.

Definition M (A : Type) : Type := TxState -> result StoreError A * TxState.

#[export] Instance M_ret : MRet M := fun _ a s => (Ok a, s).
#[export] Instance M_bind : MBind M := fun _ _ f m s =>
  match m s with
  | (Ok a, s') => f a s'
  | (Err e, s') => (Err e, s')
  end.

Definition fail {A} (e : StoreError) : M A := fun s => (Err e, s).

Definition lift {A} (r : result StoreError A) : M A := fun s => (r, s).

Definition next_fault (s : TxState) : Fault * TxState :=
  (default NoFault (head (faults s)),
   {| durable := durable s; work := work s; faults := tail (faults s) |}).

(** [s.db.BeginTx]: a snapshot of the committed tables. *)
Definition begin_tx (what : string) : M unit := fun s =>
  match next_fault s with
  | (NoFault, s') => (Ok tt, {| durable := durable s'; work := durable s'; faults := faults s' |})
  | (_, s') => (Err (ErrStorage what), s')
  end.

(** A single-row query or a scan inside the transaction. *)
Definition tx_query {A} (what : string) (q : DB -> A) : M A := fun s =>
  match next_fault s with
  | (NoFault, s') => (Ok (q (work s')), s')
  | (_, s') => (Err (ErrStorage what), s')
  end.

(** A query whose rows are read in a loop that does not look at [rows.Err]: an
    early end goes unnoticed. *)
Definition tx_rows {A} (what : string) (q : DB -> list A) : M (list A) := fun s =>
  match next_fault s with
  | (NoFault, s') => (Ok (q (work s')), s')
  | (Cut n, s') => (Ok (take n (q (work s'))), s')
  | (_, s') => (Err (ErrStorage what), s')
  end.

(** A statement; [None] is a constraint violation. *)
Definition tx_exec (what : string) (f : DB -> option DB) : M unit := fun s =>
  match next_fault s with
  | (NoFault, s') =>
      match f (work s') with
      | Some db => (Ok tt, {| durable := durable s'; work := db; faults := faults s' |})
      | None => (Err (ErrStorage what), s')
      end
  | (_, s') => (Err (ErrStorage what), s')
  end.

Definition commit (what : string) : M unit := fun s =>
  match next_fault s with
  | (NoFault, s') => (Ok tt, {| durable := work s'; work := work s'; faults := faults s' |})
  | (Lost, s') => (Err (ErrStorage what), {| durable := work s'; work := work s'; faults := faults s' |})
  | (_, s') => (Err (ErrStorage what), s')
  end.

(** A statement or query outside a transaction. *)
Definition auto_exec (what : string) (f : DB -> DB) : M unit := fun s =>
  match next_fault s with
  | (NoFault, s') => (Ok tt, {| durable := f (durable s'); work := work s'; faults := faults s' |})
  | (Lost, s') => (Err (ErrStorage what), {| durable := f (durable s'); work := work s'; faults := faults s' |})
  | (_, s') => (Err (ErrStorage what), s')
  end.

Definition auto_query {A} (what : string) (q : DB -> A) : M A := fun s =>
  match next_fault s with
  | (NoFault, s') => (Ok (q (durable s')), s')
  | (_, s') => (Err (ErrStorage what), s')
  end.

(** ** Rows as intents, responses as documents *)

Definition encodeAddresses (addresses : list Addr) : string :=
  print (address_document (CanonicalAddresses addresses)).

Definition parse_address (value : string) : result string Addr :=
  of_option "decode stored address" (ParseAddr value).

Definition decodeAddresses (payload : string) : result string (list Addr) :=
  match parse payload with
  | None => Err "invalid JSON"%string
  | Some j =>
      match decode_list "" decode_string j [] with
      | None => Err "JSON type mismatch"%string
      | Some values => map_result parse_address values
      end
  end.

Definition scanIntent (row : IntentRow) : result StoreError Intent :=
  match decodeAddresses (addresses_json row) with
  | Err _ => Err (ErrStorage "decode desired-state addresses")
  | Ok addresses =>
      Ok {| DeviceID := device_id row; Hostname := hostname row; Addresses := addresses;
            Generation := generation row; LeaseExpiresAt := UnixTime (lease_expires_ns row);
            UpdatedAt := UnixTime (updated_at_ns row);
            OriginAppliedGeneration := origin_applied_generation row;
            PublicObservedGeneration := public_observed_generation row;
            LastPublicationError := last_publication_error row |}
  end.

(** [scanIntent] of a single-row query: absent, found, or not decodable. *)
Definition scanIntentRow (row : option IntentRow) : result StoreError (option Intent) :=
  match row with
  | None => Ok None
  | Some r => Some <$> scanIntent r
  end.

Record persistedResult : Type := {
  p_DeviceID : string;
  p_Hostname : string;
  p_Addresses : list string;
  p_Generation : Z;
  p_LeaseExpiresNS : Z;
  p_UpdatedAtNS : Z;
  p_RenewAfterSeconds : Z;
  p_OriginAppliedGeneration : Z;
  p_PublicObservedGeneration : Z;
  p_LastPublicationError : string;
}.

Definition zero_persisted : persistedResult := Build_persistedResult "" "" [] 0 0 0 0 0 0 "".

Definition persistIntent (intent : Intent) (renewAfterSeconds : Z) : persistedResult :=
  {| p_DeviceID := DeviceID intent; p_Hostname := Hostname intent;
     p_Addresses := AddrString <$> CanonicalAddresses (Addresses intent);
     p_Generation := Generation intent;
     p_LeaseExpiresNS := UnixNano (LeaseExpiresAt intent);
     p_UpdatedAtNS := UnixNano (UpdatedAt intent);
     p_RenewAfterSeconds := renewAfterSeconds;
     p_OriginAppliedGeneration := OriginAppliedGeneration intent;
     p_PublicObservedGeneration := PublicObservedGeneration intent;
     p_LastPublicationError := LastPublicationError intent |}.

Definition json_int (z : Z) : json := JNum (FormatInt z).

(** The struct tags: field order, names, and the one [omitempty]. *)
Definition persisted_json (p : persistedResult) : json :=
  JObj ([("device_id"%string, JStr (p_DeviceID p));
         ("hostname"%string, JStr (p_Hostname p));
         ("addresses"%string, JArr (JStr <$> p_Addresses p));
         ("generation"%string, json_int (p_Generation p));
         ("lease_expires_ns"%string, json_int (p_LeaseExpiresNS p));
         ("updated_at_ns"%string, json_int (p_UpdatedAtNS p))]
        ++ (if p_RenewAfterSeconds p =? 0 then []
            else [("renew_after_seconds"%string, json_int (p_RenewAfterSeconds p))])
        ++ [("origin_applied_generation"%string, json_int (p_OriginAppliedGeneration p));
            ("public_observed_generation"%string, json_int (p_PublicObservedGeneration p));
            ("last_publication_error"%string, JStr (p_LastPublicationError p))]).

Definition persisted_fields : fields persistedResult :=
  [("device_id"%string, fun j p => let 'Build_persistedResult a b c d e f g h i k := p in
      (fun v => Build_persistedResult v b c d e f g h i k) <$> decode_string j a);
   ("hostname"%string, fun j p => let 'Build_persistedResult a b c d e f g h i k := p in
      (fun v => Build_persistedResult a v c d e f g h i k) <$> decode_string j b);
   ("addresses"%string, fun j p => let 'Build_persistedResult a b c d e f g h i k := p in
      (fun v => Build_persistedResult a b v d e f g h i k)
        <$> decode_list ""%string decode_string j c);
   ("generation"%string, fun j p => let 'Build_persistedResult a b c d e f g h i k := p in
      (fun v => Build_persistedResult a b c v e f g h i k) <$> decode_int64 j d);
   ("lease_expires_ns"%string, fun j p => let 'Build_persistedResult a b c d e f g h i k := p in
      (fun v => Build_persistedResult a b c d v f g h i k) <$> decode_int64 j e);
   ("updated_at_ns"%string, fun j p => let 'Build_persistedResult a b c d e f g h i k := p in
      (fun v => Build_persistedResult a b c d e v g h i k) <$> decode_int64 j f);
   ("renew_after_seconds"%string, fun j p => let 'Build_persistedResult a b c d e f g h i k := p in
      (fun v => Build_persistedResult a b c d e f v h i k) <$> decode_int64 j g);
   ("origin_applied_generation"%string, fun j p => let 'Build_persistedResult a b c d e f g h i k := p in
      (fun v => Build_persistedResult a b c d e f g v i k) <$> decode_int64 j h);
   ("public_observed_generation"%string, fun j p => let 'Build_persistedResult a b c d e f g h i k := p in
      (fun v => Build_persistedResult a b c d e f g h v k) <$> decode_int64 j i);
   ("last_publication_error"%string, fun j p => let 'Build_persistedResult a b c d e f g h i k := p in
      (fun v => Build_persistedResult a b c d e f g h i v) <$> decode_string j k)].

(** [persistedResult.intent]. *)
Definition persisted_intent (p : persistedResult) : result StoreError Intent :=
  match map_result parse_address (p_Addresses p) with
  | Err e => Err (ErrStorage e)
  | Ok addresses =>
      Ok {| DeviceID := p_DeviceID p; Hostname := p_Hostname p; Addresses := addresses;
            Generation := p_Generation p; LeaseExpiresAt := UnixTime (p_LeaseExpiresNS p);
            UpdatedAt := UnixTime (p_UpdatedAtNS p);
            OriginAppliedGeneration := p_OriginAppliedGeneration p;
            PublicObservedGeneration := p_PublicObservedGeneration p;
            LastPublicationError := p_LastPublicationError p |}
  end.

(** ** Operations *)

(** The first half of [UpsertIntent]: a key that was used before. *)
Definition replay (request : UpsertRequest) (hash key : string) (row : IdempotencyRow)
    : M UpsertResult :=
  if negb (payload_hash row =? hash)%string
     || (negb (row_precondition_key row =? "")%string
         && negb (row_precondition_key row =? key)%string)
  then fail ErrIdempotencyConflict else
  match Unmarshal persisted_fields zero_persisted (response_json row) with
  | (_, false) => fail (ErrStorage "decode idempotent response")
  | (persisted, true) =>
      intent ← lift (persisted_intent persisted);
      commit "commit" ;;
      let renewAfterSeconds :=
        if p_RenewAfterSeconds persisted <=? 0 then req_RenewAfterSeconds request
        else p_RenewAfterSeconds persisted in
      mret {| res_Intent := intent; res_RenewAfterSeconds := renewAfterSeconds;
              res_Replay := true |}
  end.

(** [model.Intent] with its addresses emptied by an expired lease. *)
Definition expire_intent (now : time) (intent : Intent) : Intent :=
  {| DeviceID := DeviceID intent; Hostname := Hostname intent; Addresses := [];
     Generation := wrap64 (Generation intent + 1); LeaseExpiresAt := LeaseExpiresAt intent;
     UpdatedAt := now; OriginAppliedGeneration := OriginAppliedGeneration intent;
     PublicObservedGeneration := PublicObservedGeneration intent;
     LastPublicationError := "" |}.

Definition lease_expired (now : time) (intent : Intent) : bool :=
  negb (length (Addresses intent) =? 0)%nat && negb (Before now (LeaseExpiresAt intent)).

(** The precondition against the current generation, [None] when absent. *)
Definition precondition_failed (p : IntentPrecondition) (current : option Intent) : bool :=
  if MustBeAbsent p then bool_decide (is_Some current)
  else match current with
       | None => true
       | Some c => negb (Generation c =? ExpectedGeneration p)
       end.

(** A device's first intent. *)
Definition first_intent (request : UpsertRequest) (addresses : list Addr) : Intent :=
  {| DeviceID := req_DeviceID request; Hostname := req_Hostname request;
     Addresses := addresses; Generation := 1;
     LeaseExpiresAt := Add (req_Now request) (req_LeaseDuration request);
     UpdatedAt := req_Now request; OriginAppliedGeneration := 0;
     PublicObservedGeneration := 0; LastPublicationError := "" |}.

(** The next intent of a known device. *)
Definition next_intent (request : UpsertRequest) (addresses : list Addr) (current : Intent)
    : Intent :=
  let changed := negb (AddressesEqual (Addresses current) addresses)
                 || negb (Before (req_Now request) (LeaseExpiresAt current)) in
  {| DeviceID := DeviceID current; Hostname := Hostname current;
     Addresses := addresses;
     Generation := if changed then wrap64 (Generation current + 1) else Generation current;
     LeaseExpiresAt := Add (req_Now request) (req_LeaseDuration request);
     UpdatedAt := req_Now request;
     OriginAppliedGeneration := OriginAppliedGeneration current;
     PublicObservedGeneration := PublicObservedGeneration current;
     LastPublicationError := if changed then "" else LastPublicationError current |}.

Definition new_row (next : Intent) (addressesJSON : string) : IntentRow :=
  {| device_id := DeviceID next; hostname := Hostname next; addresses_json := addressesJSON;
     generation := Generation next; lease_expires_ns := UnixNano (LeaseExpiresAt next);
     updated_at_ns := UnixNano (UpdatedAt next); origin_applied_generation := 0;
     public_observed_generation := 0; last_publication_error := "" |}.

(** Write [next] in its row: insert it, or update the row of its device. *)
Definition write_intent (found : bool) (next : Intent) (addressesJSON : string) : M unit :=
  if found then
    tx_exec "write desired state" (fun db => Some (update_intent (DeviceID next) (fun _ => true)
      (set_written addressesJSON (Generation next) (UnixNano (LeaseExpiresAt next))
         (UnixNano (UpdatedAt next)) (LastPublicationError next)) db))
  else tx_exec "write desired state" (insert_intent (new_row next addressesJSON)).

Definition UpsertIntent (request : UpsertRequest) : M UpsertResult :=
  let now := req_Now request in
  let addresses := CanonicalAddresses (req_Addresses request) in
  let hash := AddressesHash addresses in
  let preconditionKey := precondition_key (req_Precondition request) in
  let k := (req_DeviceID request, req_IdempotencyKey request) in
  begin_tx "begin desired-state transaction" ;;
  stored ← tx_query "read idempotency key" (fun db => idempotency_requests db !! k);
  match stored with
  | Some row => replay request hash preconditionKey row
  | None =>
      if negb (precondition_valid (req_Precondition request))
      then fail ErrPreconditionRequired else
      row ← tx_query "scan desired state" (fun db => intents db !! req_DeviceID request);
      current ← lift (scanIntentRow row);
      let expiredDuringWrite := match current with Some c => lease_expired now c | None => false end in
      let current := if expiredDuringWrite then expire_intent now <$> current else current in
      (if expiredDuringWrite then
         match current with
         | Some c => tx_exec "realize expired lease" (fun db => Some (update_intent (DeviceID c)
             (fun _ => true) (set_expired (Generation c) (UnixNano (UpdatedAt c))) db))
         | None => mret tt
         end
       else mret tt) ;;
      if precondition_failed (req_Precondition request) current then
        (if expiredDuringWrite then commit "commit lease expiry" else mret tt) ;;
        fail ErrPreconditionFailed
      else
      match current with
      | Some c =>
          if negb (Hostname c =? req_Hostname request)%string
          then fail (ErrStorage "device identity mapped to a different hostname") else mret tt
      | None => mret tt
      end ;;
      let next := match current with
                  | None => first_intent request addresses
                  | Some c => next_intent request addresses c
                  end in
      write_intent (bool_decide (is_Some current)) next (encodeAddresses addresses) ;;
      tx_exec "store idempotent response" (insert_idempotency k
        {| payload_hash := hash; row_precondition_key := preconditionKey;
           response_json :=
             print (persisted_json (persistIntent next (req_RenewAfterSeconds request))) |}) ;;
      commit "commit desired state" ;;
      mret {| res_Intent := next; res_RenewAfterSeconds := req_RenewAfterSeconds request;
              res_Replay := false |}
  end.

Definition GetIntent (deviceID : string) : M Intent :=
  row ← auto_query "scan desired state" (fun db => intents db !! deviceID);
  found ← lift (scanIntentRow row);
  match found with
  | None => fail ErrNotFound
  | Some intent => mret intent
  end.

(** The rows whose lease has ended and that still hold addresses. *)
Definition lease_ended (now_ns : Z) (row : IntentRow) : bool :=
  (lease_expires_ns row <=? now_ns) && negb (addresses_json row =? "[]")%string.

Fixpoint expire_each (expired : list Intent) : M unit :=
  match expired with
  | [] => mret tt
  | intent :: rest =>
      tx_exec "expire" (fun db => Some (update_intent (DeviceID intent) (fun _ => true)
        (set_expired (Generation intent) (UnixNano (UpdatedAt intent))) db)) ;;
      expire_each rest
  end.

Definition ExpireLeases (now : time) : M (list Intent) :=
  begin_tx "begin" ;;
  rows ← tx_rows "select" (select_rows (lease_ended (UnixNano now)));
  scanned ← lift (map_result scanIntent rows);
  let expired := expire_intent now <$> scanned in
  expire_each expired ;;
  commit "commit" ;;
  mret expired.

Definition list_intents (where_ : IntentRow -> bool) (limit : Z) : M (list Intent) :=
  let limit := if limit <=? 0 then 100 else limit in
  rows ← auto_query "select" (fun db => take (Z.to_nat limit) (select_rows where_ db));
  lift (map_result scanIntent rows).

Definition origin_pending (row : IntentRow) : bool :=
  origin_applied_generation row <? generation row.

Definition observation_pending (row : IntentRow) : bool :=
  (generation row <=? origin_applied_generation row)
  && (public_observed_generation row <? generation row).

Definition ListOriginPending (limit : Z) : M (list Intent) := list_intents origin_pending limit.
Definition ListObservationPending (limit : Z) : M (list Intent) :=
  list_intents observation_pending limit.

Definition MarkOriginApplied (deviceID : string) (g : Z) : M unit :=
  auto_exec "update publication status"
    (update_intent deviceID (fun row => generation row =? g) (set_origin_applied g)).

Definition MarkPubliclyObserved (deviceID : string) (g : Z) : M unit :=
  auto_exec "update publication status"
    (update_intent deviceID
       (fun row => (generation row =? g) && (g <=? origin_applied_generation row))
       (set_publicly_observed g)).

Definition MarkPublicationError (deviceID : string) (g : Z) (message : string) : M unit :=
  auto_exec "update publication status"
    (update_intent deviceID (fun row => generation row =? g) (set_publication_error message)).

#[export] Instance SQLite : DesiredState TxState := {
  upsert_intent := UpsertIntent;
  get_intent := GetIntent;
  expire_leases := ExpireLeases;
  list_origin_pending := ListOriginPending;
  list_observation_pending := ListObservationPending;
  mark_origin_applied := MarkOriginApplied;
  mark_publicly_observed := MarkPubliclyObserved;
  mark_publication_error := MarkPublicationError;
}.
