(* ===== verification/StoreSpec.v ===== *)
(** * The store's contract

    What [store.DesiredState] promises, stated on a register of intents and a
    log of answered requests instead of tables, JSON and SQL; and the encoding
    of such a register as the database's tables. *)

From S2P Require Export Store.
From Stdlib Require Import String.
#[local] Open Scope Z_scope.
#[local] Abbreviation length := List.length.

(** ** The abstract state *)

(** The answer kept for an idempotency key. *)
Record Answer : Type := {
  ans_hash : string;
  ans_precondition : string;
  ans_intent : Intent;
  ans_renew : Z;
}.

Record Register : Type := {
  reg : gmap string Intent;
  answers : gmap (string * string) Answer;
}.

Definition empty_register : Register := {| reg := ∅; answers := ∅ |}.

Definition set_reg (f : gmap string Intent -> gmap string Intent) (a : Register) : Register :=
  {| reg := f (reg a); answers := answers a |}.

(** ** The abstract operations *)

(** A lease that has ended is realised before anything else is looked at. *)
Definition realize (now : time) (i : Intent) : Intent :=
  if lease_expired now i then expire_intent now i else i.

Definition hostname_taken (h : string) (m : gmap string Intent) : bool :=
  existsb (fun kv => (Hostname (snd kv) =? h)%string) (map_to_list m).

Definition accept (request : UpsertRequest) (next : Intent) (a : Register)
    : result StoreError UpsertResult * Register :=
  (Ok {| res_Intent := next; res_RenewAfterSeconds := req_RenewAfterSeconds request;
         res_Replay := false |},
   {| reg := <[req_DeviceID request := next]> (reg a);
      answers := <[(req_DeviceID request, req_IdempotencyKey request) :=
        {| ans_hash := AddressesHash (CanonicalAddresses (req_Addresses request));
           ans_precondition := precondition_key (req_Precondition request);
           ans_intent := next; ans_renew := req_RenewAfterSeconds request |}]> (answers a) |}).

Definition spec_upsert (request : UpsertRequest) (a : Register)
    : result StoreError UpsertResult * Register :=
  let now := req_Now request in
  let d := req_DeviceID request in
  let addresses := CanonicalAddresses (req_Addresses request) in
  match answers a !! (d, req_IdempotencyKey request) with
  | Some e =>
      if (ans_hash e =? AddressesHash addresses)%string
         && ((ans_precondition e =? "")%string
             || (ans_precondition e =? precondition_key (req_Precondition request))%string)
      then (Ok {| res_Intent := ans_intent e;
                  res_RenewAfterSeconds := if ans_renew e <=? 0 then req_RenewAfterSeconds request
                                           else ans_renew e;
                  res_Replay := true |}, a)
      else (Err ErrIdempotencyConflict, a)
  | None =>
      if negb (precondition_valid (req_Precondition request))
      then (Err ErrPreconditionRequired, a) else
      let current := realize now <$> reg a !! d in
      if precondition_failed (req_Precondition request) current
      then (Err ErrPreconditionFailed, set_reg (fun m => partial_alter (fun _ => current) d m) a)
      else
      match current with
      | None =>
          if hostname_taken (req_Hostname request) (reg a)
          then (Err (ErrStorage "write desired state"), a)
          else accept request (first_intent request addresses) a
      | Some c =>
          if (Hostname c =? req_Hostname request)%string
          then accept request (next_intent request addresses c) a
          else (Err (ErrStorage "device identity mapped to a different hostname"), a)
      end
  end.

(** The intents in device order. *)
Definition intent_le (i j : Intent) : Prop := String.le (DeviceID i) (DeviceID j).

#[export] Instance intent_le_dec : RelDecision intent_le.
Proof. intros i j. unfold intent_le. apply _. Defined.

Definition in_order (a : Register) : list Intent :=
  merge_sort intent_le (snd <$> map_to_list (reg a)).

(** Every lease that has ended is realised. *)
Definition spec_expired (now : time) (a : Register) : list Intent :=
  expire_intent now <$> List.filter (lease_expired now) (in_order a).

Definition spec_expire (now : time) (a : Register) : Register :=
  set_reg (fun m => realize now <$> m) a.

Definition mark (d : string) (p : Intent -> bool) (f : Intent -> Intent) (a : Register) : Register :=
  set_reg (alter (fun i => if p i then f i else i) d) a.

Definition intent_origin_applied (g : Z) (i : Intent) : Intent :=
  {| DeviceID := DeviceID i; Hostname := Hostname i; Addresses := Addresses i;
     Generation := Generation i; LeaseExpiresAt := LeaseExpiresAt i; UpdatedAt := UpdatedAt i;
     OriginAppliedGeneration := g; PublicObservedGeneration := PublicObservedGeneration i;
     LastPublicationError := "" |}.

Definition intent_publicly_observed (g : Z) (i : Intent) : Intent :=
  {| DeviceID := DeviceID i; Hostname := Hostname i; Addresses := Addresses i;
     Generation := Generation i; LeaseExpiresAt := LeaseExpiresAt i; UpdatedAt := UpdatedAt i;
     OriginAppliedGeneration := OriginAppliedGeneration i; PublicObservedGeneration := g;
     LastPublicationError := LastPublicationError i |}.

Definition intent_publication_error (message : string) (i : Intent) : Intent :=
  {| DeviceID := DeviceID i; Hostname := Hostname i; Addresses := Addresses i;
     Generation := Generation i; LeaseExpiresAt := LeaseExpiresAt i; UpdatedAt := UpdatedAt i;
     OriginAppliedGeneration := OriginAppliedGeneration i;
     PublicObservedGeneration := PublicObservedGeneration i; LastPublicationError := message |}.

Definition spec_origin_applied (d : string) (g : Z) : Register -> Register :=
  mark d (fun i => Generation i =? g) (intent_origin_applied g).
Definition spec_publicly_observed (d : string) (g : Z) : Register -> Register :=
  mark d (fun i => (Generation i =? g) && (g <=? OriginAppliedGeneration i))
    (intent_publicly_observed g).
Definition spec_publication_error (d : string) (g : Z) (message : string) : Register -> Register :=
  mark d (fun i => Generation i =? g) (intent_publication_error message).

(** The pending intents: where the zone, or the public view, is behind. *)
Definition pending_origin (i : Intent) : bool := OriginAppliedGeneration i <? Generation i.
Definition pending_observation (i : Intent) : bool :=
  (Generation i <=? OriginAppliedGeneration i) && (PublicObservedGeneration i <? Generation i).

Definition spec_list (p : Intent -> bool) (limit : Z) (a : Register) : list Intent :=
  take (Z.to_nat (if limit <=? 0 then 100 else limit)) (List.filter p (in_order a)).

Definition spec_get (d : string) (a : Register) : result StoreError Intent :=
  of_option ErrNotFound (reg a !! d).

(** The contract as a store. *)
#[export] Instance register_store : DesiredState Register := {
  upsert_intent := spec_upsert;
  get_intent d a := (spec_get d a, a);
  expire_leases now a := (Ok (spec_expired now a), spec_expire now a);
  list_origin_pending limit a := (Ok (spec_list pending_origin limit a), a);
  list_observation_pending limit a := (Ok (spec_list pending_observation limit a), a);
  mark_origin_applied d g a := (Ok tt, spec_origin_applied d g a);
  mark_publicly_observed d g a := (Ok tt, spec_publicly_observed d g a);
  mark_publication_error d g message a := (Ok tt, spec_publication_error d g message a);
}.

(** ** Encoding a register in tables *)

Definition row_of (i : Intent) : IntentRow :=
  {| device_id := DeviceID i; hostname := Hostname i;
     addresses_json := encodeAddresses (Addresses i); generation := Generation i;
     lease_expires_ns := LeaseExpiresAt i; updated_at_ns := UpdatedAt i;
     origin_applied_generation := OriginAppliedGeneration i;
     public_observed_generation := PublicObservedGeneration i;
     last_publication_error := LastPublicationError i |}.

Definition answer_row (e : Answer) : IdempotencyRow :=
  {| payload_hash := ans_hash e; row_precondition_key := ans_precondition e;
     response_json := print (persisted_json (persistIntent (ans_intent e) (ans_renew e))) |}.

Definition tables (a : Register) : DB :=
  {| intents := row_of <$> reg a; idempotency_requests := answer_row <$> answers a |}.

(** What the encoding can carry: canonical addresses with ASCII zones, int64
    numbers and instants, ASCII text. *)
Record intent_ok (i : Intent) : Prop := {
  ok_canonical : canonical (Addresses i);
  ok_addrs : addrs_ok (Addresses i) = true;
  ok_generation : int64_range (Generation i);
  ok_lease : int64_range (LeaseExpiresAt i);
  ok_updated : int64_range (UpdatedAt i);
  ok_origin : int64_range (OriginAppliedGeneration i);
  ok_observed : int64_range (PublicObservedGeneration i);
  ok_device : ascii_text (DeviceID i) = true;
  ok_hostname : ascii_text (Hostname i) = true;
  ok_error : ascii_text (LastPublicationError i) = true;
}.

Record register_ok (a : Register) : Prop := {
  ok_reg : forall d i, reg a !! d = Some i -> intent_ok i /\ DeviceID i = d;
  ok_answers : forall k e, answers a !! k = Some e ->
    intent_ok (ans_intent e) /\ int64_range (ans_renew e);
}.

(** What a request must be for its effect to be carried: the caller's clock and
    configuration in range, texts ASCII. *)
Record request_ok (r : UpsertRequest) : Prop := {
  okr_addrs : addrs_ok (req_Addresses r) = true;
  okr_now : int64_range (req_Now r);
  okr_lease : int64_range (Add (req_Now r) (req_LeaseDuration r));
  okr_renew : int64_range (req_RenewAfterSeconds r);
  okr_device : ascii_text (req_DeviceID r) = true;
  okr_hostname : ascii_text (req_Hostname r) = true;
}.

Definition call_ok (c : Call) : Prop :=
  match c with
  | CallUpsert request => request_ok request
  | CallExpire now => int64_range now
  | CallMarkError _ _ message => ascii_text message = true
  | _ => True
  end.
