(* ===== verification/StoreCodec.v ===== *)
(** * The store's encodings read back

    Rows decode to the intents they were written from, and stored answers to
    the results they were written from. *)

From S2P Require Export StoreSpec.
From Stdlib Require Import String.
#[local] Open Scope Z_scope.
#[local] Abbreviation length := List.length.

Lemma decode_string_list l : decode_list ""%string decode_string (JArr (JStr <$> l)) [] = Some l.
Proof. cbn [decode_list]. induction l as [|s l IH]; [done|]. csimpl. by rewrite IH. Qed.

Lemma json_strings l : Forall (fun s => ascii_text s = true) l -> json_ok (JArr (JStr <$> l)).
Proof. intros H. apply json_ok_arr_2, Forall_fmap. exact H. Qed.

Lemma addrs_ok_texts l : addrs_ok l = true -> Forall (fun s => ascii_text s = true) (AddrString <$> l).
Proof.
  rewrite addrs_ok_Forall. intros H. apply Forall_fmap. eapply Forall_impl; [exact H|].
  apply AddrString_ascii.
Qed.

Lemma parse_addresses l : addrs_ok l = true -> map_result parse_address (AddrString <$> l) = Ok l.
Proof.
  rewrite addrs_ok_Forall, Forall_forall. intros H. apply map_result_inverse.
  intros x Hx. unfold parse_address. apply H in Hx. unfold addr_ok in Hx. simp_bool.
  by rewrite ParseAddr_String.
Qed.

Lemma address_document_fmap l : address_document l = JArr (JStr <$> (AddrString <$> l)).
Proof. unfold address_document. by rewrite <- list_fmap_compose. Qed.

Lemma decode_encode_addresses l :
  addrs_ok l = true -> decodeAddresses (encodeAddresses l) = Ok (CanonicalAddresses l).
Proof.
  intros H%Canonical_ok. unfold decodeAddresses, encodeAddresses.
  rewrite address_document_fmap, parse_print by (by apply json_strings, addrs_ok_texts).
  by rewrite decode_string_list, parse_addresses.
Qed.

Lemma encode_empty_iff l :
  addrs_ok l = true -> (encodeAddresses l =? "[]")%string = bool_decide (l = []).
Proof.
  intros H%Canonical_ok. unfold encodeAddresses.
  assert (Forall json_ok (JStr ∘ AddrString <$> CanonicalAddresses l)) as Hj
    by (by apply address_document_ok).
  pose proof (print_empty_array _ Hj) as He. unfold address_document.
  case_bool_decide as Hl.
  - subst. done.
  - apply String.eqb_neq. intros E. apply He, fmap_nil_inv in E.
    apply (proj1 (Canonical_nil_iff l)) in E. contradiction.
Qed.

(** Intents through their rows. *)
Lemma scan_row_of i : intent_ok i -> scanIntent (row_of i) = Ok i.
Proof.
  intros [Hc Ha _ _ _ _ _ _ _ _]. unfold scanIntent, row_of. cbn [addresses_json].
  rewrite decode_encode_addresses, Canonical_id by done. by destruct i.
Qed.

Lemma scan_row_of_option o :
  (forall i, o = Some i -> intent_ok i) -> scanIntentRow (row_of <$> o) = Ok o.
Proof.
  intros H. destruct o as [i|]; [|done]. cbn. by rewrite scan_row_of by auto.
Qed.

(** Answers through their documents. *)
Definition persisted_ok (p : persistedResult) : Prop :=
  ascii_text (p_DeviceID p) = true /\ ascii_text (p_Hostname p) = true /\
  Forall (fun s => ascii_text s = true) (p_Addresses p) /\
  int64_range (p_Generation p) /\ int64_range (p_LeaseExpiresNS p) /\
  int64_range (p_UpdatedAtNS p) /\ int64_range (p_RenewAfterSeconds p) /\
  int64_range (p_OriginAppliedGeneration p) /\ int64_range (p_PublicObservedGeneration p) /\
  ascii_text (p_LastPublicationError p) = true.

Lemma json_int_ok z : json_ok (json_int z).
Proof. by exists z. Qed.

Lemma decode_json_int z old : int64_range z -> decode_int64 (json_int z) old = Some z.
Proof. apply ParseInt_Format. Qed.

Lemma persisted_json_ok p : persisted_ok p -> json_ok (persisted_json p).
Proof.
  intros (Hd & Hh & Ha & _ & _ & _ & _ & _ & _ & He).
  apply json_strings in Ha. unfold persisted_json.
  destruct (p_RenewAfterSeconds p =? 0); cbn -[ascii_text json_int];
    repeat split; try done; try apply json_int_ok; exact Ha.
Qed.

Lemma Unmarshal_persisted p :
  persisted_ok p ->
  Unmarshal persisted_fields zero_persisted (print (persisted_json p)) = (p, true).
Proof.
  intros Hp. unfold Unmarshal. rewrite parse_print by (by apply persisted_json_ok).
  destruct Hp as (_ & _ & _ & Hg & Hl & Hu & Hr & Ho & Hb & _).
  destruct p as [d h a g l u r o b e].
  cbn [p_Generation p_LeaseExpiresNS p_UpdatedAtNS
    p_RenewAfterSeconds p_OriginAppliedGeneration p_PublicObservedGeneration] in *.
  pose proof (decode_string_list a) as Da.
  unfold persisted_json, decode_struct, zero_persisted.
  cbn [p_DeviceID p_Hostname p_Addresses p_Generation p_LeaseExpiresNS p_UpdatedAtNS
    p_RenewAfterSeconds p_OriginAppliedGeneration p_PublicObservedGeneration
    p_LastPublicationError].
  destruct (Z.eqb_spec r 0) as [->|]; cbn [app];
    repeat (eapply decode_member; [reflexivity|
      cbn [snd]; cbv beta iota; (reflexivity || (rewrite ?Da, ?decode_json_int by done; reflexivity))|]);
    reflexivity.
Qed.

Lemma persistIntent_ok i renew :
  intent_ok i -> int64_range renew -> persisted_ok (persistIntent i renew).
Proof.
  intros [] Hr. unfold persistIntent, persisted_ok. cbn. split_and!; try done;
    try apply wrap64_range. by apply addrs_ok_texts, Canonical_ok.
Qed.

Lemma persisted_intent_back i renew :
  intent_ok i -> persisted_intent (persistIntent i renew) = Ok i.
Proof.
  intros []. unfold persisted_intent, persistIntent. cbn -[UnixNano].
  rewrite Canonical_id, parse_addresses by done. unfold UnixNano, UnixTime.
  rewrite !wrap64_id by done. by destruct i.
Qed.

(** The text of an expired row is the text of no addresses. *)
Lemma encode_nil : encodeAddresses [] = "[]"%string.
Proof. done. Qed.
