(* ===== verification/StoreRefine.v ===== *)
(** * The store implements its contract

    Without faults, each operation on the tables that encode a register answers
    what the contract answers and leaves the tables of the contract's state. *)

From S2P Require Export StoreCodec.
From Stdlib Require Import String.
#[local] Open Scope Z_scope.
#[local] Abbreviation length := List.length.

(** ** Running a program where no call fails *)

Definition quiet (d w : DB) : TxState := {| durable := d; work := w; faults := [] |}.

Section run.
Context {A B : Type}.

Lemma run_bind (m : M A) (f : A -> M B) s :
  (m ≫= f) s = match m s with (Ok a, s') => f a s' | (Err e, s') => (Err e, s') end.
Proof. done. Qed.
Lemma run_ret (a : A) s : (mret a : M A) s = (Ok a, s).
Proof. done. Qed.
Lemma run_fail (e : StoreError) s : (fail e : M A) s = (Err e, s).
Proof. done. Qed.
Lemma run_lift (r : result StoreError A) s : lift r s = (r, s).
Proof. done. Qed.
Lemma run_begin what d w : begin_tx what (quiet d w) = (Ok tt, quiet d d).
Proof. done. Qed.
Lemma run_query what (q : DB -> A) d w : tx_query what q (quiet d w) = (Ok (q w), quiet d w).
Proof. done. Qed.
Lemma run_rows what (q : DB -> list A) d w : tx_rows what q (quiet d w) = (Ok (q w), quiet d w).
Proof. done. Qed.
Lemma run_exec what f d w w' : f w = Some w' -> tx_exec what f (quiet d w) = (Ok tt, quiet d w').
Proof. intros E. unfold tx_exec. cbn. by rewrite E. Qed.
Lemma run_update what g d w :
  tx_exec what (fun db => Some (g db)) (quiet d w) = (Ok tt, quiet d (g w)).
Proof. done. Qed.
Lemma run_exec_None what f d w :
  f w = None -> tx_exec what f (quiet d w) = (Err (ErrStorage what), quiet d w).
Proof. intros E. unfold tx_exec. cbn. by rewrite E. Qed.
Lemma run_commit what d w : commit what (quiet d w) = (Ok tt, quiet w w).
Proof. done. Qed.
Lemma run_auto_exec what f d w : auto_exec what f (quiet d w) = (Ok tt, quiet (f d) w).
Proof. done. Qed.
Lemma run_auto_query what (q : DB -> A) d w : auto_query what q (quiet d w) = (Ok (q d), quiet d w).
Proof. done. Qed.
End run.

Create Rewrite HintDb tx.
#[export] Hint Rewrite @run_bind @run_ret @run_fail @run_lift @run_begin @run_query @run_rows
  @run_commit @run_auto_exec @run_auto_query : tx.

Ltac tx := repeat progress (autorewrite with tx; cbv beta iota zeta).

Ltac fsimpl := cbn [fmap option_fmap option_map].

(** ** Statements on encoded registers *)

Lemma tables_lookup a d : intents (tables a) !! d = row_of <$> reg a !! d.
Proof. unfold tables. cbn. apply lookup_fmap. Qed.

Lemma tables_answer a k : idempotency_requests (tables a) !! k = answer_row <$> answers a !! k.
Proof. unfold tables. cbn. apply lookup_fmap. Qed.

Lemma tables_insert a d i :
  with_intents (insert d (row_of i)) (tables a) = tables (set_reg (insert d i) a).
Proof. unfold tables, with_intents, set_reg. cbn. by rewrite fmap_insert. Qed.

Lemma update_tables a d p f i i' :
  reg a !! d = Some i -> p (row_of i) = true -> f (row_of i) = row_of i' ->
  update_intent d p f (tables a) = tables (set_reg (insert d i') a).
Proof.
  intros Hd Hp Hf. unfold update_intent. rewrite tables_lookup, Hd. cbn.
  rewrite Hp, Hf. apply tables_insert.
Qed.

Lemma update_tables_skip a d p f :
  (forall i, reg a !! d = Some i -> p (row_of i) = false) ->
  update_intent d p f (tables a) = tables a.
Proof.
  intros H. unfold update_intent. rewrite tables_lookup.
  destruct (reg a !! d) as [i|]; cbn; [|done]. by rewrite H.
Qed.

Lemma hostname_taken_tables a h :
  existsb (fun kv => (hostname (snd kv) =? h)%string) (map_to_list (intents (tables a)))
  = hostname_taken h (reg a).
Proof.
  unfold hostname_taken, tables. cbn [intents].
  rewrite map_to_list_fmap.
  induction (map_to_list (reg a)) as [|[k i] l IH]; [done|]. csimpl. by rewrite IH.
Qed.

Lemma insert_tables a i :
  reg a !! DeviceID i = None ->
  insert_intent (row_of i) (tables a) =
  if hostname_taken (Hostname i) (reg a) then None
  else Some (tables (set_reg (insert (DeviceID i) i) a)).
Proof.
  intros Hd. unfold insert_intent. change (device_id (row_of i)) with (DeviceID i).
  rewrite tables_lookup, Hd. cbn [fmap option_fmap option_map].
  rewrite bool_decide_eq_false_2 by (by intros [? ?]).
  change (hostname (row_of i)) with (Hostname i).
  rewrite hostname_taken_tables. destruct (hostname_taken _ _); [done|].
  by rewrite tables_insert.
Qed.

Lemma insert_answer_tables a k e :
  answers a !! k = None ->
  insert_idempotency k (answer_row e) (tables a) =
  Some (tables {| reg := reg a; answers := <[k := e]> (answers a) |}).
Proof.
  intros Hk. unfold insert_idempotency. rewrite tables_answer, Hk. cbn.
  unfold tables. cbn. by rewrite fmap_insert.
Qed.

(** ** The intents an upsert writes are encodable *)

Lemma expire_ok now i : int64_range now -> intent_ok i -> intent_ok (expire_intent now i).
Proof.
  intros Hn []. split; cbn; try done; [apply canonical_nil|apply wrap64_range].
Qed.

Lemma realize_ok now i : int64_range now -> intent_ok i -> intent_ok (realize now i).
Proof. intros. unfold realize. case_match; [by apply expire_ok|done]. Qed.

Lemma zero_range : int64_range 0.
Proof. unfold int64_range. lia. Qed.

Lemma first_ok request :
  request_ok request -> intent_ok (first_intent request (CanonicalAddresses (req_Addresses request))).
Proof.
  intros []. split; cbn; try done; try apply zero_range;
    try apply Canonical_canonical; by apply Canonical_ok.
Qed.

Lemma next_ok request c :
  request_ok request -> intent_ok c ->
  intent_ok (next_intent request (CanonicalAddresses (req_Addresses request)) c).
Proof.
  intros [] []. split; cbn; try done; try apply Canonical_canonical;
    try (by apply Canonical_ok); case_match; done || apply wrap64_range.
Qed.

Lemma new_row_first request addresses :
  request_ok request ->
  canonical addresses ->
  new_row (first_intent request addresses) (encodeAddresses addresses)
  = row_of (first_intent request addresses).
Proof.
  intros [] _. unfold new_row, row_of, UnixNano. cbn. by rewrite !wrap64_id.
Qed.

(** ** Upsert *)

Lemma replay_refines request a w k e :
  register_ok a -> answers a !! k = Some e ->
  let hash := AddressesHash (CanonicalAddresses (req_Addresses request)) in
  let pre := precondition_key (req_Precondition request) in
  replay request hash pre (answer_row e) (quiet (tables a) w) =
  if (ans_hash e =? hash)%string
     && ((ans_precondition e =? "")%string || (ans_precondition e =? pre)%string)
  then (Ok {| res_Intent := ans_intent e;
              res_RenewAfterSeconds := if ans_renew e <=? 0 then req_RenewAfterSeconds request
                                       else ans_renew e;
              res_Replay := true |}, quiet w w)
  else (Err ErrIdempotencyConflict, quiet (tables a) w).
Proof.
  intros Ha Hk. destruct (ok_answers a Ha k e Hk) as [Hi Hr]. cbv zeta.
  unfold replay. cbn [payload_hash row_precondition_key response_json answer_row].
  rewrite Unmarshal_persisted by (by apply persistIntent_ok).
  rewrite persisted_intent_back by done.
  destruct (ans_hash e =? _)%string, (ans_precondition e =? "")%string,
    (ans_precondition e =? _)%string; cbn [negb orb andb]; tx; done.
Qed.

Lemma write_intent_new request a d addresses :
  register_ok a -> request_ok request -> reg a !! req_DeviceID request = None ->
  canonical addresses ->
  write_intent false (first_intent request addresses) (encodeAddresses addresses) (quiet d (tables a)) =
  if hostname_taken (req_Hostname request) (reg a)
  then (Err (ErrStorage "write desired state"), quiet d (tables a))
  else (Ok tt, quiet d (tables (set_reg
    (insert (req_DeviceID request) (first_intent request addresses)) a))).
Proof.
  intros Ha Hr Hd Hc. unfold write_intent. rewrite new_row_first by done.
  pose proof (insert_tables a (first_intent request addresses) Hd) as Hi.
  cbn [Hostname DeviceID first_intent] in Hi.
  destruct (hostname_taken _ _); [by apply run_exec_None|by apply run_exec].
Qed.

Lemma write_intent_next request a d addresses c :
  register_ok a -> request_ok request -> reg a !! req_DeviceID request = Some c ->
  canonical addresses ->
  write_intent true (next_intent request addresses c) (encodeAddresses addresses) (quiet d (tables a)) =
  (Ok tt, quiet d (tables (set_reg
    (insert (req_DeviceID request) (next_intent request addresses c)) a))).
Proof.
  intros Ha [] Hd Hc. destruct (ok_reg a Ha _ _ Hd) as [Hi Hdev].
  unfold write_intent. apply run_exec. f_equal. cbn [DeviceID next_intent]. rewrite Hdev.
  apply (update_tables a _ _ _ c); [done|done|].
  unfold set_written, row_of, UnixNano. cbn [LeaseExpiresAt UpdatedAt next_intent].
  by rewrite !wrap64_id.
Qed.

Lemma expire_tables request a c :
  register_ok a -> request_ok request -> reg a !! req_DeviceID request = Some c ->
  update_intent (DeviceID (expire_intent (req_Now request) c)) (fun _ => true)
    (set_expired (Generation (expire_intent (req_Now request) c))
       (UnixNano (UpdatedAt (expire_intent (req_Now request) c)))) (tables a) =
  tables (set_reg (insert (req_DeviceID request) (expire_intent (req_Now request) c)) a).
Proof.
  intros Ha [] Hd. destruct (ok_reg a Ha _ _ Hd) as [Hi Hdev].
  cbn [DeviceID expire_intent]. rewrite Hdev.
  apply (update_tables a _ _ _ c); [done|done|].
  unfold set_expired, row_of, UnixNano. cbn [UpdatedAt expire_intent]. by rewrite wrap64_id.
Qed.

Lemma set_reg_register_ok a d i :
  register_ok a -> intent_ok i -> DeviceID i = d -> register_ok (set_reg (insert d i) a).
Proof.
  intros [Hr Hans] Hi Hd. split; [|done]. intros d' i'. cbn.
  rewrite lookup_insert. case_decide; [naive_solver|apply Hr].
Qed.

Lemma set_reg_id a d o : reg a !! d = o -> set_reg (partial_alter (fun _ => o) d) a = a.
Proof. intros <-. unfold set_reg. rewrite partial_alter_self. by destruct a. Qed.

Lemma set_reg_insert a d i : set_reg (partial_alter (fun _ => Some i) d) a = set_reg (insert d i) a.
Proof. done. Qed.

Lemma set_reg_twice a d i j : set_reg (insert d j) (set_reg (insert d i) a) = set_reg (insert d j) a.
Proof. unfold set_reg. cbn. by rewrite insert_insert_eq. Qed.

(** The part of [UpsertIntent] after the lease has been looked at: [a] is the
    register in the working tables. *)
Definition upsert_tail (request : UpsertRequest) (k : string * string) (addresses : list Addr)
    (hash key : string) (expired : bool) (current : option Intent) : M UpsertResult :=
  if precondition_failed (req_Precondition request) current then
    (if expired then commit "commit lease expiry" else mret tt) ;;
    fail ErrPreconditionFailed
  else
  match current with
  | Some c =>
      if negb (Hostname c =? req_Hostname request)%string
      then fail (ErrStorage "device identity mapped to a different hostname") else mret tt
  | None => mret tt
  end ;;
  let next := match current with
              | None => first_intent request addresses
              | Some c => next_intent request addresses c
              end in
  write_intent (bool_decide (is_Some current)) next (encodeAddresses addresses) ;;
  tx_exec "store idempotent response" (insert_idempotency k
    {| payload_hash := hash; row_precondition_key := key;
       response_json :=
         print (persisted_json (persistIntent next (req_RenewAfterSeconds request))) |}) ;;
  commit "commit desired state" ;;
  mret {| res_Intent := next; res_RenewAfterSeconds := req_RenewAfterSeconds request;
          res_Replay := false |}.

Lemma upsert_tail_refines request a d expired :
  register_ok a -> request_ok request ->
  let k := (req_DeviceID request, req_IdempotencyKey request) in
  answers a !! k = None ->
  let addresses := CanonicalAddresses (req_Addresses request) in
  let current := reg a !! req_DeviceID request in
  (expired = false -> d = tables a) ->
  exists w',
  upsert_tail request k addresses (AddressesHash addresses)
    (precondition_key (req_Precondition request)) expired current (quiet d (tables a)) =
  if precondition_failed (req_Precondition request) current
  then (Err ErrPreconditionFailed, quiet (tables a) w') else
  match current with
  | None =>
      if hostname_taken (req_Hostname request) (reg a)
      then (Err (ErrStorage "write desired state"), quiet d w')
      else let '(r, a') := accept request (first_intent request addresses) a in
           (r, quiet (tables a') w')
  | Some c =>
      if (Hostname c =? req_Hostname request)%string
      then let '(r, a') := accept request (next_intent request addresses c) a in
           (r, quiet (tables a') w')
      else (Err (ErrStorage "device identity mapped to a different hostname"), quiet d w')
  end.
Proof.
  intros Ha Hr k Hk addresses current Hd. unfold upsert_tail, accept.
  assert (canonical addresses) as Hc by apply Canonical_canonical.
  destruct (precondition_failed _ _) eqn:Ef.
  { destruct expired; tx; eexists; [done|]. by rewrite Hd. }
  assert (forall next, tx_exec "store idempotent response" (insert_idempotency k
    {| payload_hash := AddressesHash addresses;
       row_precondition_key := precondition_key (req_Precondition request);
       response_json :=
         print (persisted_json (persistIntent next (req_RenewAfterSeconds request))) |})
    (quiet d (tables (set_reg (insert (req_DeviceID request) next) a))) =
    (Ok tt, quiet d (tables {| reg := <[req_DeviceID request := next]> (reg a);
      answers := <[k := {| ans_hash := AddressesHash addresses;
           ans_precondition := precondition_key (req_Precondition request);
           ans_intent := next; ans_renew := req_RenewAfterSeconds request |}]> (answers a) |})))
    as Hins.
  { intros next. apply run_exec.
    exact (insert_answer_tables (set_reg (insert (req_DeviceID request) next) a) k
      {| ans_hash := _; ans_precondition := _; ans_intent := next; ans_renew := _ |} Hk). }
  destruct current as [c|] eqn:Ec; unfold current in Ec.
  - destruct (Hostname c =? req_Hostname request)%string; cbn [negb]; tx; [|by eexists].
    rewrite bool_decide_eq_true_2 by (by eexists).
    rewrite write_intent_next by done. tx. rewrite Hins. tx. by eexists.
  - tx. rewrite bool_decide_eq_false_2 by (by intros [? ?]).
    rewrite write_intent_new by done.
    destruct (hostname_taken _ _); tx; [by eexists|]. rewrite Hins. tx. by eexists.
Qed.

Lemma upsert_head request d w :
  UpsertIntent request (quiet d w) =
  let addresses := CanonicalAddresses (req_Addresses request) in
  let k := (req_DeviceID request, req_IdempotencyKey request) in
  let hash := AddressesHash addresses in
  let key := precondition_key (req_Precondition request) in
  match idempotency_requests d !! k with
  | Some row => replay request hash key row (quiet d d)
  | None =>
      if negb (precondition_valid (req_Precondition request))
      then (Err ErrPreconditionRequired, quiet d d) else
      match scanIntentRow (intents d !! req_DeviceID request) with
      | Err e => (Err e, quiet d d)
      | Ok current =>
          match current with
          | Some c =>
              if lease_expired (req_Now request) c then
                let c := expire_intent (req_Now request) c in
                upsert_tail request k addresses hash key true (Some c)
                  (quiet d (update_intent (DeviceID c)
                     (fun _ => true) (set_expired (Generation c) (UnixNano (UpdatedAt c))) d))
              else upsert_tail request k addresses hash key false (Some c) (quiet d d)
          | None => upsert_tail request k addresses hash key false None (quiet d d)
          end
      end
  end.
Proof.
  unfold UpsertIntent. tx. destruct (idempotency_requests d !! _) as [row|]; [done|].
  destruct (precondition_valid _); cbn [negb]; tx; [|done].
  destruct (scanIntentRow _) as [[c|]|e]; tx; try done.
  destruct (lease_expired _ c); fsimpl; tx; [|done].
  rewrite run_update. by cbv beta iota.
Qed.

Lemma UpsertIntent_refines_tables request a w :
  register_ok a -> request_ok request ->
  exists w', UpsertIntent request (quiet (tables a) w) =
    (fst (spec_upsert request a), quiet (tables (snd (spec_upsert request a))) w').
Proof.
  intros Ha Hr. rewrite upsert_head. unfold spec_upsert. cbv zeta. rewrite tables_answer.
  destruct (answers a !! _) as [e|] eqn:Ek; fsimpl.
  { rewrite (replay_refines request a _ _ e Ha Ek). repeat case_match; by eexists. }
  destruct (precondition_valid _); cbn [negb]; [|by eexists].
  rewrite tables_lookup, scan_row_of_option
    by (intros i Hi; by apply (ok_reg a Ha _ _ Hi)).
  destruct (reg a !! req_DeviceID request) as [c|] eqn:Ec; fsimpl.
  - pose proof (ok_reg a Ha _ _ Ec) as [Hi Hd]. unfold realize.
    destruct (lease_expired (req_Now request) c) eqn:Eexp.
    + set (c' := expire_intent (req_Now request) c) in *.
      set (a' := set_reg (insert (req_DeviceID request) c') a).
      assert (register_ok a') as Ha'
        by (apply set_reg_register_ok; [done|apply expire_ok; [apply Hr|done]|done]).
      unfold c'. rewrite (expire_tables request a c) by done. fold c' a'.
      destruct (upsert_tail_refines request a' (tables a) true Ha' Hr Ek ltac:(done)) as [w' E].
      cbv zeta in E. replace (reg a' !! req_DeviceID request) with (Some c') in E
        by (unfold a'; cbn; by rewrite lookup_insert_eq).
      rewrite E. destruct (precondition_failed _ _); [by eexists|].
      destruct (Hostname c' =? _)%string; [|by eexists]. unfold accept, a'. cbn.
      rewrite insert_insert_eq. by eexists.
    + destruct (upsert_tail_refines request a (tables a) false Ha Hr Ek ltac:(done)) as [w' E].
      cbv zeta in E. rewrite Ec in E. rewrite E.
      rewrite set_reg_id by done. repeat case_match; simplify_eq/=; by eexists.
  - destruct (upsert_tail_refines request a (tables a) false Ha Hr Ek ltac:(done)) as [w' E].
    cbv zeta in E. rewrite Ec in E. rewrite E.
    rewrite set_reg_id by done. repeat case_match; simplify_eq/=; by eexists.
Qed.

(** ** Reading *)

Lemma GetIntent_refines_tables a d w :
  register_ok a -> GetIntent d (quiet (tables a) w) = (spec_get d a, quiet (tables a) w).
Proof.
  intros Ha. unfold GetIntent, spec_get. tx.
  rewrite tables_lookup, scan_row_of_option by (intros i Hi; by apply (ok_reg a Ha _ _ Hi)).
  tx. by destruct (reg a !! d).
Qed.

Lemma in_order_elem a i : i ∈ in_order a <-> exists d, reg a !! d = Some i.
Proof.
  unfold in_order. rewrite merge_sort_Permutation, list_elem_of_fmap. split.
  - intros ([d i'] & -> & Hd). exists d. by apply elem_of_map_to_list.
  - intros [d Hd]. exists (d, i). split; [done|]. by apply elem_of_map_to_list.
Qed.

Lemma in_order_reg a i : register_ok a -> i ∈ in_order a -> reg a !! DeviceID i = Some i.
Proof.
  intros Ha [d Hd]%in_order_elem. destruct (ok_reg a Ha _ _ Hd) as [_ E]. by rewrite E.
Qed.

Lemma in_order_ok a i : register_ok a -> i ∈ in_order a -> intent_ok i.
Proof. intros Ha [d Hd]%in_order_elem. by apply (ok_reg a Ha _ _ Hd). Qed.

Lemma in_order_devices a : register_ok a -> NoDup (DeviceID <$> in_order a).
Proof.
  intros Ha. unfold in_order. rewrite merge_sort_Permutation, <- list_fmap_compose.
  assert (DeviceID ∘ snd <$> map_to_list (reg a) = fst <$> map_to_list (reg a)) as ->.
  { apply list_fmap_ext. intros n [d i] Hn. cbn.
    apply list_elem_of_lookup_2, elem_of_map_to_list in Hn. by apply (ok_reg a Ha _ _ Hn). }
  apply NoDup_fst_map_to_list.
Qed.

Lemma select_tables a (q : IntentRow -> bool) (p : Intent -> bool) :
  (forall i, i ∈ in_order a -> q (row_of i) = p i) ->
  select_rows q (tables a) = row_of <$> List.filter p (in_order a).
Proof.
  intros H. unfold select_rows, tables. cbn [intents].
  rewrite map_to_list_fmap, <- list_fmap_compose.
  replace (snd ∘ prod_map id row_of <$> map_to_list (reg a))
    with (row_of <$> (snd <$> map_to_list (reg a))) by (by rewrite <- list_fmap_compose).
  rewrite (merge_sort_fmap row_of intent_le row_le) by done.
  by apply filter_fmap.
Qed.

Lemma scan_rows a l :
  register_ok a -> (forall i, i ∈ l -> i ∈ in_order a) ->
  map_result scanIntent (row_of <$> l) = Ok l.
Proof.
  intros Ha Hl. apply map_result_inverse. intros i Hi. apply scan_row_of.
  by eapply in_order_ok, Hl.
Qed.

Lemma filter_in {A} (p : A -> bool) l x : x ∈ List.filter p l <-> x ∈ l /\ p x = true.
Proof. by rewrite !list_elem_of_In, filter_In. Qed.

Lemma filter_sublist {A} (p : A -> bool) l : List.filter p l `sublist_of` l.
Proof. induction l as [|x l IH]; cbn; [done|]. destruct (p x); by constructor. Qed.

Lemma take_in {A} n (l : list A) x : x ∈ take n l -> x ∈ l.
Proof. rewrite <- (take_drop n l) at 2. set_solver. Qed.

Lemma list_refines_tables a q p limit w :
  register_ok a -> (forall i, i ∈ in_order a -> q (row_of i) = p i) ->
  list_intents q limit (quiet (tables a) w) = (Ok (spec_list p limit a), quiet (tables a) w).
Proof.
  intros Ha H. unfold list_intents. tx. rewrite (select_tables a q p), <- fmap_take by done.
  rewrite (scan_rows a); [done|done|].
  by intros i [? _]%take_in%filter_in.
Qed.

(** ** Expiry *)

Lemma lease_ended_tables now i :
  int64_range now -> intent_ok i -> lease_ended (UnixNano now) (row_of i) = lease_expired now i.
Proof.
  intros Hn []. unfold lease_ended, lease_expired, UnixNano, row_of, Before.
  cbn [lease_expires_ns addresses_json].
  rewrite wrap64_id, encode_empty_iff, Z.leb_antisym, andb_comm by done. f_equal.
  destruct (Addresses i); [done|]. by rewrite bool_decide_eq_false_2.
Qed.

(** The listed intents changed by [f]; what [expire_each] leaves is them realised. *)
Definition update_listed (f : Intent -> Intent) (l : list Intent) (a : Register) : Register :=
  foldl (fun a i => set_reg (insert (DeviceID i) (f i)) a) a l.

Definition expire_listed (now : time) : list Intent -> Register -> Register :=
  update_listed (expire_intent now).

Lemma expire_each_tables now l a d :
  int64_range now -> NoDup (DeviceID <$> l) ->
  (forall i, i ∈ l -> reg a !! DeviceID i = Some i) ->
  expire_each (expire_intent now <$> l) (quiet d (tables a))
  = (Ok tt, quiet d (tables (expire_listed now l a))).
Proof.
  intros Hn. revert a. induction l as [|i l IH]; intros a Hl Ha; [done|].
  change (expire_intent now <$> i :: l) with (expire_intent now i :: (expire_intent now <$> l)).
  cbn [expire_each]. tx. rewrite run_update. cbv beta iota.
  apply NoDup_cons in Hl as [Hi Hl].
  rewrite (update_tables a (DeviceID i) _ _ i (expire_intent now i)); [|by apply Ha; set_solver|done|].
  - rewrite IH; [done|done|]. intros j Hj. cbn. rewrite lookup_insert_ne; [apply Ha; set_solver|].
    intros E. apply Hi. rewrite E. by apply list_elem_of_fmap_2.
  - unfold set_expired, row_of, UnixNano. cbn [UpdatedAt expire_intent]. by rewrite wrap64_id.
Qed.

Lemma update_listed_lookup f l a d :
  (forall i, DeviceID (f i) = DeviceID i) ->
  (forall d i, reg a !! d = Some i -> DeviceID i = d) ->
  NoDup (DeviceID <$> l) -> (forall i, i ∈ l -> reg a !! DeviceID i = Some i) ->
  reg (update_listed f l a) !! d =
  (fun i => if bool_decide (i ∈ l) then f i else i) <$> reg a !! d.
Proof.
  intros Hf. revert a. induction l as [|i l IH]; intros a Hk Hl Ha.
  { cbn. destruct (reg a !! d); cbn; [|done].
    by rewrite bool_decide_eq_false_2 by set_solver. }
  apply NoDup_cons in Hl as [Hi Hl].
  assert (forall j, j ∈ l -> DeviceID j <> DeviceID i) as Hne.
  { intros j Hj E. apply Hi. rewrite <- E. by apply list_elem_of_fmap_2. }
  cbn [update_listed foldl]. fold (update_listed f l). unfold update_listed in IH. rewrite IH.
  - cbn [reg set_reg]. destruct (decide (DeviceID i = d)) as [<-|Hd].
    + rewrite lookup_insert_eq, (Ha i) by set_solver. cbn.
      rewrite (bool_decide_eq_true_2 (i ∈ i :: l)) by set_solver.
      rewrite bool_decide_eq_false_2; [done|]. intros E. apply (Hne _ E). apply Hf.
    + rewrite lookup_insert_ne by done. destruct (reg a !! d) as [j|] eqn:Ej; [|done]. cbn.
      f_equal. apply Hk in Ej as <-.
      rewrite (bool_decide_ext (j ∈ i :: l) (j ∈ l)); [done|]. set_solver.
  - intros d' j. cbn. rewrite lookup_insert. case_decide; [|apply Hk].
    intros [= <-]. by rewrite Hf.
  - done.
  - intros j Hj. cbn. rewrite lookup_insert_ne; [apply Ha; set_solver|].
    intros E. by apply (Hne j).
Qed.

Lemma expire_listed_lookup now l a d :
  (forall d i, reg a !! d = Some i -> DeviceID i = d) ->
  NoDup (DeviceID <$> l) -> (forall i, i ∈ l -> reg a !! DeviceID i = Some i) ->
  reg (expire_listed now l a) !! d =
  (fun i => if bool_decide (i ∈ l) then expire_intent now i else i) <$> reg a !! d.
Proof. by apply update_listed_lookup. Qed.

Lemma expire_listed_answers now l a : answers (expire_listed now l a) = answers a.
Proof.
  revert a. unfold expire_listed, update_listed.
  induction l as [|i l IH]; intros a; cbn; [done|]. by rewrite IH.
Qed.

Lemma expire_listed_all now a :
  register_ok a ->
  expire_listed now (List.filter (lease_expired now) (in_order a)) a = spec_expire now a.
Proof.
  intros Ha. set (l := List.filter _ _).
  pose proof (expire_listed_answers now l a) as Hans.
  assert (reg (expire_listed now l a) = realize now <$> reg a) as Hreg.
  { apply map_eq. intros d. rewrite lookup_fmap, expire_listed_lookup.
    - destruct (reg a !! d) as [i|] eqn:Ed; [|done]. cbn. f_equal. unfold realize, l.
      assert (i ∈ in_order a) by (apply in_order_elem; by eexists).
      destruct (lease_expired now i) eqn:El;
        [rewrite bool_decide_eq_true_2|rewrite bool_decide_eq_false_2]; try done.
      + by apply filter_in.
      + intros [_ ?]%filter_in. congruence.
    - intros d' i Hi. by apply (ok_reg a Ha).
    - eapply sublist_NoDup; [by apply in_order_devices|]. apply fmap_sublist, filter_sublist.
    - intros i [Hi _]%filter_in. by apply in_order_reg. }
  unfold spec_expire, set_reg. rewrite <- Hreg, <- Hans. by destruct (expire_listed now l a).
Qed.

(** [ExpireLeases] after its query. *)
Definition expire_rows (now : time) (rows : list IntentRow) : M (list Intent) :=
  scanned ← lift (map_result scanIntent rows);
  let expired := expire_intent now <$> scanned in
  expire_each expired ;;
  commit "commit" ;;
  mret expired.

Lemma expire_rows_tables a now l d :
  register_ok a -> int64_range now -> l `sublist_of` in_order a ->
  expire_rows now (row_of <$> l) (quiet d (tables a)) =
  (Ok (expire_intent now <$> l), quiet (tables (expire_listed now l a)) (tables (expire_listed now l a))).
Proof.
  intros Ha Hn Hl. unfold expire_rows. tx.
  assert (forall i, i ∈ l -> i ∈ in_order a) as Hin
    by (intros i Hi; by apply (elem_of_sublist l)).
  rewrite (scan_rows a) by done. tx.
  rewrite expire_each_tables; [by tx|done| |].
  - eapply sublist_NoDup; [by apply in_order_devices|]. by apply fmap_sublist.
  - intros i Hi. by apply in_order_reg, Hin.
Qed.

Lemma select_ended a now :
  register_ok a -> int64_range now ->
  select_rows (lease_ended (UnixNano now)) (tables a)
  = row_of <$> List.filter (lease_expired now) (in_order a).
Proof.
  intros Ha Hn. apply select_tables. intros i Hi.
  apply lease_ended_tables; [done|by apply (in_order_ok a)].
Qed.

Lemma ExpireLeases_rows now d w :
  ExpireLeases now (quiet d w) =
  expire_rows now (select_rows (lease_ended (UnixNano now)) d) (quiet d d).
Proof. unfold ExpireLeases. by tx. Qed.

Lemma ExpireLeases_refines_tables a now w :
  register_ok a -> int64_range now ->
  exists w', ExpireLeases now (quiet (tables a) w) =
    (Ok (spec_expired now a), quiet (tables (spec_expire now a)) w').
Proof.
  intros Ha Hn. pose proof (ExpireLeases_rows now (tables a) w) as E.
  rewrite select_ended, expire_rows_tables, expire_listed_all in E by (done || apply filter_sublist).
  rewrite E. by eexists.
Qed.

(** ** Marks *)

Lemma mark_tables a d (q : IntentRow -> bool) (p : Intent -> bool) f g :
  (forall i, q (row_of i) = p i) -> (forall i, f (row_of i) = row_of (g i)) ->
  update_intent d q f (tables a) = tables (mark d p g a).
Proof.
  intros Hq Hf. unfold mark. destruct (reg a !! d) as [i|] eqn:Ed.
  - destruct (p i) eqn:Ep.
    + rewrite (update_tables a d q f i (g i)); [|done|by rewrite Hq|done]. f_equal.
      unfold set_reg. f_equal. apply map_eq. intros d'. rewrite lookup_insert.
      case_decide as E; [subst; by rewrite lookup_alter_eq, Ed; cbn; rewrite Ep|].
      by rewrite lookup_alter_ne.
    + rewrite update_tables_skip by (intros j E; rewrite Ed in E; simplify_eq; by rewrite Hq).
      f_equal. destruct a as [r an]. unfold set_reg. cbn in *. f_equal. symmetry.
      apply alter_id. intros j E. rewrite Ed in E. simplify_eq. by rewrite Ep.
  - rewrite update_tables_skip by (intros j E; congruence).
    f_equal. destruct a as [r an]. unfold set_reg. cbn in *. f_equal. symmetry.
    apply alter_id. intros j E. congruence.
Qed.

Lemma MarkOriginApplied_refines_tables a d g w :
  MarkOriginApplied d g (quiet (tables a) w) = (Ok tt, quiet (tables (spec_origin_applied d g a)) w).
Proof. unfold MarkOriginApplied. rewrite run_auto_exec. unfold spec_origin_applied. by erewrite mark_tables. Qed.

Lemma MarkPubliclyObserved_refines_tables a d g w :
  MarkPubliclyObserved d g (quiet (tables a) w)
  = (Ok tt, quiet (tables (spec_publicly_observed d g a)) w).
Proof. unfold MarkPubliclyObserved. rewrite run_auto_exec. unfold spec_publicly_observed. by erewrite mark_tables. Qed.

Lemma MarkPublicationError_refines_tables a d g message w :
  MarkPublicationError d g message (quiet (tables a) w)
  = (Ok tt, quiet (tables (spec_publication_error d g message a)) w).
Proof. unfold MarkPublicationError. rewrite run_auto_exec. unfold spec_publication_error. by erewrite mark_tables. Qed.

(** ** Every operation *)

Lemma accept_ok request a next :
  register_ok a -> request_ok request -> intent_ok next -> DeviceID next = req_DeviceID request ->
  register_ok (snd (accept request next a)).
Proof.
  intros [Hreg Hans] Hr Hi Hd. split; cbn.
  - intros d i. rewrite lookup_insert. case_decide; [naive_solver|apply Hreg].
  - intros k e. rewrite lookup_insert. case_decide; [|apply Hans].
    intros ?; simplify_eq/=. split; [done|apply Hr].
Qed.

Lemma mark_ok d p f a :
  register_ok a -> (forall i, intent_ok i -> p i = true -> intent_ok (f i)) ->
  (forall i, DeviceID (f i) = DeviceID i) -> register_ok (mark d p f a).
Proof.
  intros [Hreg Hans] Hf Hd. split; [|done]. intros d' i. cbn. rewrite lookup_alter_Some.
  intros [(<- & j & Hj & ->)|[_ Hi]]; [|by apply Hreg].
  apply Hreg in Hj as [Hj E]. destruct (p j) eqn:Ep; [|done]. rewrite Hd. auto.
Qed.

Lemma spec_upsert_ok request a :
  register_ok a -> request_ok request -> register_ok (snd (spec_upsert request a)).
Proof.
  intros Ha Hr. unfold spec_upsert.
  destruct (answers a !! _); [by case_match|].
  destruct (precondition_valid _); [cbn [negb]|done].
  destruct (reg a !! _) as [c|] eqn:Ec; fsimpl.
  - pose proof (ok_reg a Ha _ _ Ec) as [Hi Hd].
    assert (intent_ok (realize (req_Now request) c)) as Hi' by (apply realize_ok; [apply Hr|done]).
    assert (DeviceID (realize (req_Now request) c) = req_DeviceID request) as Hd'
      by (unfold realize; by case_match).
    case_match; [by apply set_reg_register_ok|]. case_match; [|done].
    apply accept_ok; [done|done|by apply next_ok|done].
  - case_match; [by rewrite set_reg_id|]. case_match; [done|].
    apply accept_ok; [done|done|by apply first_ok|done].
Qed.

Lemma spec_expire_ok now a : register_ok a -> int64_range now -> register_ok (spec_expire now a).
Proof.
  intros [Hreg Hans] Hn. split; [|done]. intros d i. cbn. rewrite lookup_fmap.
  destruct (reg a !! d) as [j|] eqn:Ej; [|done]. intros ?; simplify_eq/=.
  apply Hreg in Ej as [Hj <-]. split; [by apply realize_ok|]. unfold realize. by case_match.
Qed.

Lemma call_keeps_ok c a : register_ok a -> call_ok c -> register_ok (snd (call c a)).
Proof.
  intros Ha Hc. destruct c; cbn in *; try done; [by apply spec_upsert_ok|by apply spec_expire_ok| | |];
    (apply mark_ok; [done| |done]); intros i [] Hp; simp_bool; subst; split; cbn; done.
Qed.

Lemma call_refines c a w :
  register_ok a -> call_ok c ->
  exists w', call c (quiet (tables a) w) = (fst (call c a), quiet (tables (snd (call c a))) w').
Proof.
  intros Ha Hc. unfold call, reply_of.
  destruct c; cbn -[quiet tables UpsertIntent GetIntent ExpireLeases MarkOriginApplied
    MarkPubliclyObserved MarkPublicationError list_intents].
  - destruct (UpsertIntent_refines_tables request a w) as [w' E]; [done|done|].
    rewrite E. by exists w'.
  - rewrite GetIntent_refines_tables by done. by exists w.
  - destruct (ExpireLeases_refines_tables a now w) as [w' E]; [done|done|]. rewrite E. by exists w'.
  - unfold ListOriginPending. rewrite (list_refines_tables a _ pending_origin) by done. by exists w.
  - unfold ListObservationPending. rewrite (list_refines_tables a _ pending_observation) by done.
    by exists w.
  - rewrite MarkOriginApplied_refines_tables. by exists w.
  - rewrite MarkPubliclyObserved_refines_tables. by exists w.
  - rewrite MarkPublicationError_refines_tables. by exists w.
Qed.
