(* ===== verification/StoreFaults.v ===== *)
(** * The store under failing database calls

    Every operation is a sequence of database calls, each of which may fail,
    lose its reply or end its rows early.  Whatever the schedule of faults, an
    operation leaves the tables as they were or as its fault-free run leaves
    them (an expiry cut short: as the expiry of the rows it read), and an
    answer other than a storage error is the fault-free answer. *)

From S2P Require Export StoreRefine.
From Stdlib Require Import String.
#[local] Open Scope Z_scope.
#[local] Abbreviation length := List.length.

(** ** Programs that follow their fault-free run *)

Definition agrees {A} (o : result StoreError A * TxState) (d : DB)
    (q : result StoreError A * TxState) : Prop :=
  (fst o = fst q /\ durable (snd o) = durable (snd q) /\ work (snd o) = work (snd q)) \/
  (exists e, fst o = Err (ErrStorage e)) /\
  (durable (snd o) = d \/ durable (snd o) = durable (snd q)).

Record Faithful {A} (m : M A) : Prop := {
  faithful_agrees : forall s, agrees (m s) (durable s) (m (quiet (durable s) (work s)));
  faithful_calm : forall d w, faults (snd (m (quiet d w))) = [];
}.

(** Programs that commit nothing, and programs that make no call. *)
Definition Keeps {A} (m : M A) : Prop := forall s, durable (snd (m s)) = durable s.
Definition Pure {A} (m : M A) : Prop := exists r, forall s, m s = (r, s).

Create HintDb faithful.

Lemma quiet_of s : faults s = [] -> s = quiet (durable s) (work s).
Proof. destruct s. by cbn; intros ->. Qed.

Section combinators.
Context {A B : Type}.

Lemma Pure_Faithful (m : M A) : Pure m -> Faithful m.
Proof.
  intros [r H]. split; intros; rewrite !H; [|done]. by left.
Qed.

Lemma Pure_Keeps (m : M A) : Pure m -> Keeps m.
Proof. intros [r H] s. by rewrite H. Qed.

Lemma Pure_ret (a : A) : Pure (mret a : M A).
Proof. by exists (Ok a). Qed.
Lemma Pure_fail (e : StoreError) : Pure (fail e : M A).
Proof. by exists (Err e). Qed.
Lemma Pure_lift (r : result StoreError A) : Pure (lift r).
Proof. by exists r. Qed.

(** Calls before the commit. *)
Lemma Faithful_bind (m : M A) (f : A -> M B) :
  Keeps m -> Faithful m -> (forall a, Faithful (f a)) -> Faithful (m ≫= f).
Proof.
  intros Hk [Hm Hc] Hf. split.
  - intros s. unfold mbind, M_bind.
    specialize (Hm s). specialize (Hc (durable s) (work s)). unfold agrees in Hm.
    pose proof (Hk s) as Hs. pose proof (Hk (quiet (durable s) (work s))) as Hq.
    destruct (m s) as [[a|e] s'], (m (quiet _ _)) as [r0 s0]; cbn in *.
    + destruct Hm as [(<- & E1 & E2)|[[e ?] _]]; [|done].
      destruct (Hf a) as [Ha _]. specialize (Ha s').
      rewrite (quiet_of s0), <- E1, <- E2 by done. by rewrite <- Hs.
    + destruct Hm as [(<- & E1 & E2)|[[e' ?] _]]; [by left|].
      right. split; [by exists e'; simplify_eq|]. by left.
  - intros d w. unfold mbind, M_bind. specialize (Hc d w).
    destruct (m (quiet d w)) as [[a|e] s0]; [|done]. cbn in Hc.
    rewrite (quiet_of s0) by done. apply Hf.
Qed.

(** The commit, and what follows it. *)
Lemma Faithful_last (m : M A) (f : A -> M B) :
  Faithful m -> (forall a, Pure (f a)) -> Faithful (m ≫= f).
Proof.
  intros [Hm Hc] Hf. split.
  - intros s. unfold mbind, M_bind. specialize (Hm s). unfold agrees in *.
    assert (forall a s, exists r, f a s = (r, s)) as Hp by (intros a s1; destruct (Hf a); eauto).
    destruct (m s) as [[a|e] s'], (m (quiet _ _)) as [[a0|e0] s0]; cbn in *;
      destruct Hm as [(? & ? & ?)|[[e' ?] ?]]; simplify_eq; [| |by left|].
    + destruct (Hf a0) as [r Hr]. rewrite !Hr. by left.
    + right. destruct (Hp a0 s0) as [r ->]. by split; [exists e'|].
    + right. by split; [exists e'|].
  - intros d w. unfold mbind, M_bind. specialize (Hc d w).
    destruct (m (quiet d w)) as [[a|e] s0]; [|done]. cbn in *.
    destruct (Hf a) as [r Hr]. by rewrite Hr.
Qed.

Lemma Keeps_bind (m : M A) (f : A -> M B) :
  Keeps m -> (forall a, Keeps (f a)) -> Keeps (m ≫= f).
Proof.
  intros Hm Hf s. unfold mbind, M_bind. specialize (Hm s).
  destruct (m s) as [[a|e] s']; cbn in *; [|done]. by rewrite Hf.
Qed.

Lemma Pure_bind (m : M A) (f : A -> M B) : Pure m -> (forall a, Pure (f a)) -> Pure (m ≫= f).
Proof.
  intros [[a|e] Hm] Hf; unfold mbind, M_bind.
  - destruct (Hf a) as [r Hr]. exists r. intros s. by rewrite Hm, Hr.
  - exists (Err e). intros s. by rewrite Hm.
Qed.
End combinators.

#[export] Hint Resolve Pure_ret Pure_fail Pure_lift Pure_bind Pure_Faithful Pure_Keeps : faithful.

(** The calls. *)
Ltac fault_cases :=
  intros; match goal with s : TxState |- _ => destruct s as [? ? [|[] ?]] end; cbn.

Lemma begin_Faithful what : Faithful (begin_tx what).
Proof. split; [|done]. fault_cases; first [by left|right; split; [by eexists|by left]]. Qed.

Lemma tx_query_Faithful {A} what (q : DB -> A) : Faithful (tx_query what q).
Proof. split; [|done]. fault_cases; first [by left|right; split; [by eexists|by left]]. Qed.

Lemma tx_exec_Faithful what f : Faithful (tx_exec what f).
Proof.
  split; [|intros d w; unfold tx_exec; cbn; by destruct (f w)].
  fault_cases; unfold tx_exec; cbn; try destruct (f _);
    first [by left|right; split; [by eexists|by left]].
Qed.

Lemma commit_Faithful what : Faithful (commit what).
Proof.
  split; [|done].
  fault_cases; first [by left|right; split; [by eexists|first [by left|by right]]].
Qed.

Lemma auto_exec_Faithful what f : Faithful (auto_exec what f).
Proof.
  split; [|done].
  fault_cases; first [by left|right; split; [by eexists|first [by left|by right]]].
Qed.

Lemma auto_query_Faithful {A} what (q : DB -> A) : Faithful (auto_query what q).
Proof. split; [|done]. fault_cases; first [by left|right; split; [by eexists|by left]]. Qed.

Lemma begin_Keeps what : Keeps (begin_tx what).
Proof. intros s. by fault_cases. Qed.
Lemma tx_query_Keeps {A} what (q : DB -> A) : Keeps (tx_query what q).
Proof. intros s. by fault_cases. Qed.
Lemma tx_exec_Keeps what f : Keeps (tx_exec what f).
Proof. intros s. fault_cases; unfold tx_exec; cbn; try destruct (f _); done. Qed.
Lemma auto_query_Keeps {A} what (q : DB -> A) : Keeps (auto_query what q).
Proof. intros s. by fault_cases. Qed.

#[export] Hint Resolve begin_Faithful tx_query_Faithful tx_exec_Faithful commit_Faithful
  auto_exec_Faithful auto_query_Faithful begin_Keeps tx_query_Keeps tx_exec_Keeps
  auto_query_Keeps : faithful.

(** ** The operations follow their fault-free run *)

Lemma Keeps_if {A} (b : bool) (m n : M A) : Keeps m -> Keeps n -> Keeps (if b then m else n).
Proof. by destruct b. Qed.
Lemma Faithful_if {A} (b : bool) (m n : M A) :
  Faithful m -> Faithful n -> Faithful (if b then m else n).
Proof. by destruct b. Qed.

#[export] Hint Resolve Keeps_if Faithful_if : faithful.

Lemma replay_Faithful request hash key row : Faithful (replay request hash key row).
Proof.
  unfold replay. apply Faithful_if; [auto with faithful|].
  destruct (Unmarshal _ _ _) as [p []]; [|auto with faithful].
  apply Faithful_bind; auto with faithful. intros i.
  apply Faithful_last; auto with faithful.
Qed.

Lemma write_intent_Keeps found next text : Keeps (write_intent found next text).
Proof. unfold write_intent. auto with faithful. Qed.
Lemma write_intent_Faithful found next text : Faithful (write_intent found next text).
Proof. unfold write_intent. auto with faithful. Qed.

#[export] Hint Resolve replay_Faithful write_intent_Keeps write_intent_Faithful : faithful.

Lemma upsert_tail_Faithful request k addresses hash key expired current :
  Faithful (upsert_tail request k addresses hash key expired current).
Proof.
  unfold upsert_tail. apply Faithful_if.
  { apply Faithful_last; auto with faithful. }
  apply Faithful_bind; [destruct current; auto with faithful..|]. intros [].
  do 2 (apply Faithful_bind; [auto with faithful..|]; intros []).
  apply Faithful_last; auto with faithful.
Qed.
#[export] Hint Resolve upsert_tail_Faithful : faithful.

Lemma UpsertIntent_Faithful request : Faithful (UpsertIntent request).
Proof.
  unfold UpsertIntent. cbv zeta.
  apply Faithful_bind; [auto with faithful..|]. intros [].
  apply Faithful_bind; [auto with faithful..|]. intros [row|]; [auto with faithful|].
  apply Faithful_if; [auto with faithful|].
  apply Faithful_bind; [auto with faithful..|]. intros row.
  apply Faithful_bind; [auto with faithful..|]. intros current.
  apply Faithful_bind; [repeat case_match; auto with faithful..|]. intros [].
  apply upsert_tail_Faithful.
Qed.

Lemma GetIntent_Faithful d : Faithful (GetIntent d).
Proof.
  unfold GetIntent. apply Faithful_bind; [auto with faithful..|]. intros row.
  apply Faithful_bind; [auto with faithful..|]. intros []; auto with faithful.
Qed.

Lemma list_intents_Faithful p limit : Faithful (list_intents p limit).
Proof. unfold list_intents. apply Faithful_bind; auto with faithful. Qed.

Lemma expire_each_Keeps l : Keeps (expire_each l).
Proof.
  induction l; cbn [expire_each]; [auto with faithful|]. apply Keeps_bind; auto with faithful.
Qed.
Lemma expire_each_Faithful l : Faithful (expire_each l).
Proof.
  induction l; cbn [expire_each]; [auto with faithful|]. apply Faithful_bind; auto with faithful.
Qed.
#[export] Hint Resolve UpsertIntent_Faithful GetIntent_Faithful list_intents_Faithful
  expire_each_Keeps expire_each_Faithful : faithful.

Lemma expire_rows_Faithful now rows : Faithful (expire_rows now rows).
Proof.
  unfold expire_rows. apply Faithful_bind; [auto with faithful..|]. intros l.
  apply Faithful_bind; [auto with faithful..|]. intros [].
  apply Faithful_last; auto with faithful.
Qed.

(** ** What a call can leave behind *)

(** The expiry of the first [n] ended leases only. *)
Definition expire_first (now : time) (n : nat) (a : Register) : Register :=
  expire_listed now (take n (List.filter (lease_expired now) (in_order a))) a.

(** The answer and the register after a call of the contract, some of whose
    database calls may have failed. *)
Inductive outcome (c : Call) (a : Register) : result StoreError Reply -> Register -> Prop :=
| outcome_done : outcome c a (fst (call c a)) (snd (call c a))
| outcome_failed e : outcome c a (Err (ErrStorage e)) a
| outcome_lost e : outcome c a (Err (ErrStorage e)) (snd (call c a))
| outcome_cut now n r : c = CallExpire now ->
    (r = Ok (ReplyIntents (take n (spec_expired now a))) \/ exists e, r = Err (ErrStorage e)) ->
    outcome c a r (expire_first now n a).

Lemma agrees_outcome {A} c a (f : A -> Reply) (o q : result StoreError A * TxState) :
  agrees o (tables a) q ->
  (f <$> fst q, durable (snd q)) = (fst (call c a), tables (snd (call c a))) ->
  exists a', outcome c a (f <$> fst o) a' /\ durable (snd o) = tables a'.
Proof.
  intros H [= Er Ed]. unfold agrees in H. destruct H as [(E & Hd & _)|[[e E] H]].
  - exists (snd (call c a)). rewrite E, Er, Hd, Ed. split; [constructor|done].
  - rewrite E. destruct H as [H|H]; rewrite H.
    + exists a. split; [apply outcome_failed|done].
    + exists (snd (call c a)). rewrite Ed. split; [apply outcome_lost|done].
Qed.

Lemma Faithful_outcome {A} c a (f : A -> Reply) (m : M A) s :
  Faithful m -> durable s = tables a ->
  (exists w', (f <$> fst (m (quiet (tables a) (work s))), snd (m (quiet (tables a) (work s))))
    = (fst (call c a), quiet (tables (snd (call c a))) w')) ->
  exists a', outcome c a (fst (reply_of f (m s))) a' /\ durable (snd (reply_of f (m s))) = tables a'.
Proof.
  intros [Hm _] Hs [w' [= Er Ed]]. specialize (Hm s). rewrite Hs in Hm.
  apply (agrees_outcome c a f _ _ Hm). by rewrite Er, Ed.
Qed.

Lemma expire_take now n a :
  register_ok a -> int64_range now ->
  expire_rows now (take n (select_rows (lease_ended (UnixNano now)) (tables a)))
    (quiet (tables a) (tables a)) =
  (Ok (take n (spec_expired now a)),
   quiet (tables (expire_first now n a)) (tables (expire_first now n a))).
Proof.
  intros Ha Hn. rewrite select_ended, <- fmap_take by done.
  rewrite expire_rows_tables; [by rewrite fmap_take|done|done|].
  etrans; [apply sublist_take|apply filter_sublist].
Qed.

(** [ExpireLeases] is like the others, unless its query's rows end early: it then
    works on the first of them only. *)
Lemma ExpireLeases_cases now a w fs :
  register_ok a -> int64_range now ->
  let o := ExpireLeases now {| durable := tables a; work := w; faults := fs |} in
  agrees o (tables a) (ExpireLeases now (quiet (tables a) w)) \/
  exists k, Cut k ∈ fs /\
    ((fst o = Ok (take k (spec_expired now a)) /\ durable (snd o) = tables (expire_first now k a)) \/
     (exists e, fst o = Err (ErrStorage e)) /\
       (durable (snd o) = tables a \/ durable (snd o) = tables (expire_first now k a))).
Proof.
  intros Ha Hn. cbv zeta.
  set (t := fun fs => {| durable := tables a; work := tables a; faults := fs |}).
  set (rows := select_rows (lease_ended (UnixNano now)) (tables a)).
  assert (ExpireLeases now (quiet (tables a) w) = expire_rows now rows (t [])) as Eq by reflexivity.
  assert (forall fs', agrees (expire_rows now rows (t fs')) (tables a) (ExpireLeases now (quiet (tables a) w)))
    as Hall.
  { intros fs'. rewrite Eq. destruct (expire_rows_Faithful now rows) as [Hf _]. exact (Hf (t fs')). }
  assert (forall what s, durable s = tables a -> agrees (Err (ErrStorage what), s) (tables a)
    (ExpireLeases now (quiet (tables a) w))) as Hfail.
  { intros what s Hs. right. split; [by exists what|by left]. }
  destruct fs as [|[] [|[| | |k] fs]]; try (left; apply (Hall [])); try (left; apply (Hall fs));
    try (left; by apply (Hfail "begin")); try (left; by apply (Hfail "select")).
  right. exists k. split; [by right; left|].
  change (ExpireLeases now _) with (expire_rows now (take k rows) (t fs)).
  destruct (expire_rows_Faithful now (take k rows)) as [Hf _].
  specialize (Hf (t fs)). unfold rows in *. cbn [durable work t] in Hf. rewrite expire_take in Hf by done.
  destruct Hf as [(E & Ed & _)|[[e E] Hd]]; [by left|]. right. split; [by exists e|done].
Qed.

Lemma ExpireLeases_outcome now a s :
  register_ok a -> int64_range now -> durable s = tables a ->
  exists a', outcome (CallExpire now) a (fst (reply_of ReplyIntents (ExpireLeases now s))) a' /\
    durable (snd (reply_of ReplyIntents (ExpireLeases now s))) = tables a'.
Proof.
  intros Ha Hn Hs. destruct s as [d w fs]. cbn in Hs. subst d.
  destruct (ExpireLeases_cases now a w fs Ha Hn) as [H|(k & _ & [[E Ed]|[[e E] [Ed|Ed]]])].
  - apply (agrees_outcome (CallExpire now) a ReplyIntents _ _ H).
    destruct (call_refines (CallExpire now) a w Ha Hn) as [w' Er]. cbn [call expire_leases SQLite] in Er.
    unfold reply_of in Er. injection Er as -> ->. done.
  - unfold reply_of. cbn [fst snd]. rewrite E. eexists. split; [|exact Ed].
    eapply outcome_cut; [done|]. by left.
  - unfold reply_of. cbn [fst snd]. rewrite E. exists a. split; [apply outcome_failed|exact Ed].
  - unfold reply_of. cbn [fst snd]. rewrite E. eexists. split; [|exact Ed].
    eapply outcome_cut; [done|]. right. by exists e.
Qed.

Lemma call_outcome c a s :
  register_ok a -> call_ok c -> durable s = tables a ->
  exists a', outcome c a (fst (call c s)) a' /\ durable (snd (call c s)) = tables a'.
Proof.
  intros Ha Hc Hs. pose proof (call_refines c a (work s) Ha Hc) as Hr.
  destruct c; [| |by apply ExpireLeases_outcome|..];
    (eapply Faithful_outcome; [|exact Hs|exact Hr]); auto with faithful;
    cbn -[auto_exec]; unfold ListOriginPending, ListObservationPending, MarkOriginApplied,
    MarkPubliclyObserved, MarkPublicationError; auto with faithful.
Qed.
