(* ===== verification/StoreSafety.v ===== *)
(** * What holds of the store after any calls, under any faults

    The register as a transition system: a step is a call of the contract with
    any outcome the faults allow.  Invariants and histories by rule induction
    on reachability. *)

From S2P Require Export StoreFaults.
From Stdlib Require Import String.
#[local] Open Scope Z_scope.
#[local] Abbreviation length := List.length.

Inductive step : Register -> Register -> Prop :=
| step_call c a r a' : call_ok c -> outcome c a r a' -> step a a'.

(** Registers after [n] steps. *)
Inductive reachable : nat -> Register -> Prop :=
| reach_init : reachable 0 empty_register
| reach_step n a a' : reachable n a -> step a a' -> reachable (S n) a'.

(** ** The history of one intent *)

(** [i'] is what [i] became, with at most [k] new generations: the identity is
    fixed, nothing goes back, and a generation keeps its addresses. *)
Record moved (k : Z) (i i' : Intent) : Prop := {
  moved_device : DeviceID i' = DeviceID i;
  moved_hostname : Hostname i' = Hostname i;
  moved_generation : Generation i <= Generation i' <= Generation i + k;
  moved_addresses : Generation i' = Generation i -> Addresses i' = Addresses i;
  moved_origin : OriginAppliedGeneration i <= Generation i ->
    OriginAppliedGeneration i <= OriginAppliedGeneration i' <= Generation i';
  moved_observed : PublicObservedGeneration i <= OriginAppliedGeneration i <= Generation i ->
    PublicObservedGeneration i <= PublicObservedGeneration i' <= OriginAppliedGeneration i';
}.

Lemma moved_refl k i : 0 <= k -> moved k i i.
Proof. split; auto; lia. Qed.

Lemma moved_weaken k l i j : k <= l -> moved k i j -> moved l i j.
Proof. intros ? []. split; auto; lia. Qed.

Lemma moved_trans k l i j m : moved k i j -> moved l j m -> moved (k + l) i m.
Proof.
  intros [Hd Hh Hg Ha Ho Hb] [Hd' Hh' Hg' Ha' Ho' Hb'].
  split; [congruence|congruence|lia| | |].
  - intros E. rewrite Ha', Ha by lia. done.
  - intros E. specialize (Ho E). specialize (Ho' ltac:(lia)). lia.
  - intros E. specialize (Ho ltac:(lia)). specialize (Hb E). specialize (Hb' ltac:(lia)). lia.
Qed.

(** Room for [k] more generations. *)
Definition room (k : Z) (i : Intent) : Prop := 0 <= Generation i < 2 ^ 63 - k.

Lemma next_generation i : room 1 i -> wrap64 (Generation i + 1) = Generation i + 1.
Proof. unfold room. intros. apply wrap64_id. unfold int64_range. lia. Qed.

Lemma moved_expire now i : room 1 i -> moved 1 i (expire_intent now i).
Proof.
  intros H. pose proof (next_generation i H) as E.
  split; cbn [DeviceID Hostname Generation Addresses OriginAppliedGeneration
    PublicObservedGeneration expire_intent]; rewrite ?E; auto; lia.
Qed.

Lemma moved_realize now i : room 1 i -> moved 1 i (realize now i).
Proof.
  intros H. unfold realize. case_match; [by apply moved_expire|by apply moved_refl].
Qed.

Lemma moved_next request l i :
  room 1 i -> canonical (Addresses i) -> canonical l -> moved 1 i (next_intent request l i).
Proof.
  intros H Hi Hl. pose proof (next_generation i H) as E.
  split; cbn [DeviceID Hostname Generation Addresses OriginAppliedGeneration
    PublicObservedGeneration next_intent]; auto;
    try (intros; try case_match; rewrite ?E; lia).
  destruct (_ || _) eqn:Ec; [rewrite E; lia|]. intros _. simp_bool. rewrite AddressesEqual_canonical in H0.
  simp_bool. by rewrite !Canonical_id in * by done.
Qed.

Lemma moved_marks i g message :
  moved 0 i (if Generation i =? g then intent_origin_applied g i else i) /\
  moved 0 i (if (Generation i =? g) && (g <=? OriginAppliedGeneration i)
             then intent_publicly_observed g i else i) /\
  moved 0 i (if Generation i =? g then intent_publication_error message i else i).
Proof.
  split_and!; case_match eqn:E; simp_bool; try (by apply moved_refl);
    split; cbn; auto; lia.
Qed.

(** ** One step, intent by intent *)

Definition invented (i : Intent) : Prop :=
  Generation i = 1 /\ OriginAppliedGeneration i = 0 /\ PublicObservedGeneration i = 0.

(** From [o] to [o'] at one device: it stays away, appears, or moves. *)
Definition moved_at (k : Z) (o o' : option Intent) : Prop :=
  match o, o' with
  | None, None => True
  | None, Some i => invented i
  | Some i, Some i' => moved k i i'
  | Some _, None => False
  end.

Definition rooms (a : Register) : Prop := forall d i, reg a !! d = Some i -> room 2 i.

Lemma moved_at_refl k o : 0 <= k -> moved_at k o o.
Proof. destruct o; [by apply moved_refl|done]. Qed.

Lemma room_weaken k l i : k <= l -> room l i -> room k i.
Proof. unfold room. lia. Qed.

Lemma mark_moved d (p : Intent -> bool) f a :
  (forall i : Intent, moved 0 i (if p i then f i else i)) ->
  forall d', moved_at 2 (reg a !! d') (reg (mark d p f a) !! d').
Proof.
  intros H d'. cbn. rewrite lookup_alter. case_decide; [subst|by apply moved_at_refl].
  destruct (reg a !! d') as [i|]; [|done]. cbn. by eapply moved_weaken, H.
Qed.

Lemma expire_listed_moved now l a d :
  register_ok a -> rooms a -> l `sublist_of` in_order a ->
  moved_at 2 (reg a !! d) (reg (expire_listed now l a) !! d).
Proof.
  intros Ha Hroom Hl. rewrite expire_listed_lookup.
  - destruct (reg a !! d) as [i|] eqn:E; [|done]. cbn. apply (Hroom d) in E.
    case_match; [|by apply moved_refl].
    apply (moved_weaken 1); [done|]. by apply moved_expire, (room_weaken 1 2).
  - intros d' i Hi. by apply (ok_reg a Ha).
  - eapply sublist_NoDup; [by apply in_order_devices|]. by apply fmap_sublist.
  - intros i Hi. eapply in_order_reg, elem_of_sublist; done.
Qed.

Lemma accept_moved request next a d :
  moved_at 2 (reg a !! req_DeviceID request) (Some next) ->
  moved_at 2 (reg a !! d) (reg (snd (accept request next a)) !! d).
Proof.
  intros H. cbn. rewrite lookup_insert. case_decide; [by subst|by apply moved_at_refl].
Qed.

Lemma upsert_moved request a d :
  register_ok a -> request_ok request -> rooms a ->
  moved_at 2 (reg a !! d) (reg (snd (spec_upsert request a)) !! d).
Proof.
  intros Ha Hr Hroom. unfold spec_upsert.
  destruct (answers a !! _); [case_match; by apply moved_at_refl|].
  destruct (precondition_valid _); cbn [negb]; [|by apply moved_at_refl].
  destruct (reg a !! req_DeviceID request) as [c|] eqn:Ec; fsimpl.
  - pose proof (Hroom _ _ Ec) as Hc. pose proof (ok_reg a Ha _ _ Ec) as [Hi _].
    set (now := req_Now request).
    assert (moved 1 c (realize now c)) as Hm by (by apply moved_realize, (room_weaken 1 2)).
    case_match.
    { cbn. rewrite lookup_partial_alter. case_decide; [subst; rewrite Ec|by apply moved_at_refl].
      by apply (moved_weaken 1). }
    case_match; [|by apply moved_at_refl]. apply accept_moved. rewrite Ec. cbn.
    eapply (moved_trans 1 1); [exact Hm|]. apply moved_next; [|by apply ok_canonical, realize_ok; [apply Hr|]|].
    + pose proof (moved_generation _ _ _ Hm). unfold room in *. lia.
    + apply Canonical_canonical.
  - case_match.
    { cbn. rewrite lookup_partial_alter. case_decide; [by subst; rewrite Ec|by apply moved_at_refl]. }
    case_match; [by apply moved_at_refl|]. apply accept_moved. by rewrite Ec.
Qed.

Lemma call_moved c a d :
  register_ok a -> call_ok c -> rooms a ->
  moved_at 2 (reg a !! d) (reg (snd (call c a)) !! d).
Proof.
  intros Ha Hc Hroom. destruct c; cbn -[spec_upsert]; try by apply moved_at_refl.
  - by apply upsert_moved.
  - change (moved_at 2 (reg a !! d) (reg (spec_expire now a) !! d)).
    rewrite <- expire_listed_all by done. apply expire_listed_moved; [done|done|apply filter_sublist].
  - apply mark_moved. intros i. apply moved_marks. exact "".
  - apply mark_moved. intros i. apply moved_marks. exact "".
  - apply mark_moved. intros i. by apply moved_marks.
Qed.

Lemma outcome_moved c a r a' d :
  register_ok a -> call_ok c -> rooms a -> outcome c a r a' ->
  moved_at 2 (reg a !! d) (reg a' !! d).
Proof.
  intros Ha Hc Hroom []; [by apply call_moved|by apply moved_at_refl|by apply call_moved|].
  apply expire_listed_moved; [done|done|]. etrans; [apply sublist_take|apply filter_sublist].
Qed.

(** ** The cases of an upsert *)

Definition key_of (request : UpsertRequest) : string * string :=
  (req_DeviceID request, req_IdempotencyKey request).
Definition wanted (request : UpsertRequest) : list Addr := CanonicalAddresses (req_Addresses request).

(** The stored answer was given to this body under this precondition. *)
Definition same_request (e : Answer) (request : UpsertRequest) : bool :=
  (ans_hash e =? AddressesHash (wanted request))%string
  && ((ans_precondition e =? "")%string
      || (ans_precondition e =? precondition_key (req_Precondition request))%string).

Definition replayed (e : Answer) (request : UpsertRequest) : UpsertResult :=
  {| res_Intent := ans_intent e;
     res_RenewAfterSeconds := if ans_renew e <=? 0 then req_RenewAfterSeconds request
                              else ans_renew e;
     res_Replay := true |}.

Definition current_intent (request : UpsertRequest) (a : Register) : option Intent :=
  realize (req_Now request) <$> reg a !! req_DeviceID request.

Inductive upsert_case (request : UpsertRequest) (a : Register)
    : result StoreError UpsertResult * Register -> Prop :=
| up_replay e : answers a !! key_of request = Some e -> same_request e request = true ->
    upsert_case request a (Ok (replayed e request), a)
| up_conflict e : answers a !! key_of request = Some e -> same_request e request = false ->
    upsert_case request a (Err ErrIdempotencyConflict, a)
| up_required : answers a !! key_of request = None ->
    precondition_valid (req_Precondition request) = false ->
    upsert_case request a (Err ErrPreconditionRequired, a)
| up_failed : answers a !! key_of request = None ->
    precondition_valid (req_Precondition request) = true ->
    precondition_failed (req_Precondition request) (current_intent request a) = true ->
    upsert_case request a (Err ErrPreconditionFailed,
      set_reg (partial_alter (fun _ => current_intent request a) (req_DeviceID request)) a)
| up_refused what : answers a !! key_of request = None ->
    precondition_valid (req_Precondition request) = true ->
    upsert_case request a (Err (ErrStorage what), a)
| up_first : answers a !! key_of request = None ->
    precondition_valid (req_Precondition request) = true ->
    precondition_failed (req_Precondition request) None = false ->
    reg a !! req_DeviceID request = None ->
    hostname_taken (req_Hostname request) (reg a) = false ->
    upsert_case request a (accept request (first_intent request (wanted request)) a)
| up_next c : answers a !! key_of request = None ->
    precondition_valid (req_Precondition request) = true ->
    precondition_failed (req_Precondition request) (Some (realize (req_Now request) c)) = false ->
    reg a !! req_DeviceID request = Some c ->
    upsert_case request a
      (accept request (next_intent request (wanted request) (realize (req_Now request) c)) a).

Lemma spec_upsert_case request a : upsert_case request a (spec_upsert request a).
Proof.
  unfold spec_upsert. destruct (answers a !! _) as [e|] eqn:Ek.
  { destruct (_ && _) eqn:Es; [by eapply up_replay|by eapply up_conflict]. }
  destruct (precondition_valid _) eqn:Ev; cbn [negb]; [|by eapply up_required].
  destruct (precondition_failed _ _) eqn:Ef; [by apply up_failed|].
  destruct (reg a !! _) as [c|] eqn:Ec; fsimpl.
  - case_match; [by apply up_next|by apply up_refused].
  - case_match; [by apply up_refused|by apply up_first].
Qed.

(** ** The invariant *)

Definition unique_names (a : Register) : Prop := forall d d' i i',
  reg a !! d = Some i -> reg a !! d' = Some i' -> Hostname i = Hostname i' -> d = d'.

Definition later (i i' : Intent) : Prop := exists k, 0 <= k /\ moved k i i'.

(** An answer is what the register held then, bound to its request's body. *)
Record answer_sound (a : Register) (d : string) (e : Answer) : Prop := {
  as_hash : ans_hash e = AddressesHash (Addresses (ans_intent e));
  as_precondition : exists p, ans_precondition e = precondition_key p;
  as_later : exists i, reg a !! d = Some i /\ later (ans_intent e) i;
}.

Record sound (n : nat) (a : Register) : Prop := {
  sd_ok : register_ok a;
  sd_generation : forall d i, reg a !! d = Some i -> 1 <= Generation i <= 2 * Z.of_nat n + 1;
  sd_progress : forall d i, reg a !! d = Some i ->
    0 <= PublicObservedGeneration i <= OriginAppliedGeneration i /\
    OriginAppliedGeneration i <= Generation i;
  sd_names : unique_names a;
  sd_answers : forall d k e, answers a !! (d, k) = Some e -> answer_sound a d e;
}.

Lemma later_refl i : later i i.
Proof. exists 0. split; [done|]. by apply moved_refl. Qed.

Lemma later_trans i j m : later i j -> later j m -> later i m.
Proof.
  intros (k & ? & Hk) (l & ? & Hl). exists (k + l). split; [lia|]. by eapply moved_trans.
Qed.

#[export] Instance later_preorder : PreOrder later.
Proof. split; [exact later_refl|exact later_trans]. Qed.

Lemma hostname_taken_false h m d i :
  hostname_taken h m = false -> m !! d = Some i -> Hostname i <> h.
Proof.
  unfold hostname_taken. intros H Hd <-. apply not_true_iff_false in H. apply H.
  apply existsb_exists. exists (d, i). split; [|apply String.eqb_refl].
  by apply list_elem_of_In, elem_of_map_to_list.
Qed.

(** Moving intents keeps the names; so does inventing one with a free name. *)
Lemma names_kept a a' :
  unique_names a ->
  (forall d i', reg a' !! d = Some i' -> exists i, reg a !! d = Some i /\ Hostname i' = Hostname i) ->
  unique_names a'.
Proof.
  intros Ha H d d' i i' Hi Hi' E.
  destruct (H _ _ Hi) as (j & Hj & E1), (H _ _ Hi') as (j' & Hj' & E2).
  eapply Ha; [done|done|congruence].
Qed.

Lemma names_insert_new a d i :
  unique_names a -> hostname_taken (Hostname i) (reg a) = false ->
  unique_names (set_reg (insert d i) a).
Proof.
  intros Ha H d1 d2 i1 i2. cbn. rewrite !lookup_insert.
  repeat case_decide; intros; simplify_eq/=; [done|..|by eapply Ha];
    exfalso; eapply hostname_taken_false; eauto.
Qed.

(** What a step adds: no device, or one with a free name. *)
Definition adds_no_device (a a' : Register) : Prop :=
  forall d, reg a !! d = None -> reg a' !! d = None.

Lemma upsert_devices request a :
  adds_no_device a (snd (spec_upsert request a)) \/
  hostname_taken (req_Hostname request) (reg a) = false /\
  reg (snd (spec_upsert request a))
  = <[req_DeviceID request := first_intent request (wanted request)]> (reg a).
Proof.
  destruct (spec_upsert_case request a) as [e|e| | |what| |c]; cbn; auto; try (left; by intros d).
  - left. intros d Hd. cbn. rewrite lookup_partial_alter. case_decide; [|done]. subst.
    unfold current_intent. by rewrite Hd.
  - left. intros d Hd. cbn. rewrite lookup_insert. case_decide; [congruence|done].
Qed.

Lemma expire_listed_devices now l a :
  register_ok a -> l `sublist_of` in_order a -> adds_no_device a (expire_listed now l a).
Proof.
  intros Ha Hl d Hd. rewrite expire_listed_lookup; [by rewrite Hd|..].
  - intros d' i Hi. by apply (ok_reg a Ha).
  - eapply sublist_NoDup; [by apply in_order_devices|]. by apply fmap_sublist.
  - intros i Hi. eapply in_order_reg, elem_of_sublist; done.
Qed.

Lemma expire_first_sublist now n a :
  take n (List.filter (lease_expired now) (in_order a)) `sublist_of` in_order a.
Proof. etrans; [apply sublist_take|apply filter_sublist]. Qed.

Lemma outcome_devices c a r a' :
  register_ok a -> outcome c a r a' ->
  adds_no_device a a' \/
  exists request, c = CallUpsert request /\ hostname_taken (req_Hostname request) (reg a) = false /\
    reg a' = <[req_DeviceID request := first_intent request (wanted request)]> (reg a).
Proof.
  intros Ha.
  assert (adds_no_device a (snd (call c a)) \/
    exists request, c = CallUpsert request /\ hostname_taken (req_Hostname request) (reg a) = false /\
    reg (snd (call c a)) = <[req_DeviceID request := first_intent request (wanted request)]> (reg a))
    as Hdone.
  { destruct c; [exact (or_ind (fun H => or_introl H) (fun H => or_intror (ex_intro _ request (conj eq_refl H)))
      (upsert_devices request a))|left; intros d Hd; cbn; rewrite ?lookup_fmap, ?lookup_alter..];
      try (case_decide; subst); by rewrite Hd. }
  intros []; [done|left; by intros d|done|].
  left. apply expire_listed_devices; [done|apply expire_first_sublist].
Qed.

Lemma outcome_names c a r a' :
  register_ok a -> call_ok c -> rooms a -> unique_names a -> outcome c a r a' -> unique_names a'.
Proof.
  intros Ha Hc Hroom Hn Ho. destruct (outcome_devices c a r a' Ha Ho) as [H|(request & _ & Hf & E)].
  - apply (names_kept a); [done|]. intros d i' Hi'.
    pose proof (outcome_moved c a r a' d Ha Hc Hroom Ho) as Hm. rewrite Hi' in Hm.
    destruct (reg a !! d) as [i|] eqn:Hi; [|by rewrite H in Hi']. exists i. split; [done|apply Hm].
  - pose proof (names_insert_new a (req_DeviceID request) (first_intent request (wanted request)) Hn Hf)
      as H. unfold unique_names in *. by rewrite E.
Qed.

(** What a step does to the answers: nothing, or one new answer that holds the
    intent the register now holds. *)
Lemma outcome_answers c a r a' :
  outcome c a r a' ->
  answers a' = answers a \/
  exists request next, c = CallUpsert request /\ answers a !! key_of request = None /\
    Addresses next = wanted request /\ a' = snd (accept request next a).
Proof.
  assert (answers (snd (call c a)) = answers a \/
    exists request next, c = CallUpsert request /\ answers a !! key_of request = None /\
    Addresses next = wanted request /\ snd (call c a) = snd (accept request next a)) as Hdone.
  { destruct c; try by left.
    change (snd (call (CallUpsert request) a)) with (snd (spec_upsert request a)).
    destruct (spec_upsert_case request a); try (by left); right; (eexists request, _; split_and!; [done|done| |reflexivity]; done). }
  intros []; [done|by left|done|]. left. apply expire_listed_answers.
Qed.

Lemma outcome_answers_grow c a r a' k e :
  outcome c a r a' -> answers a !! k = Some e -> answers a' !! k = Some e.
Proof.
  intros [->|(request & next & _ & Hn & _ & ->)]%outcome_answers Hk; [done|].
  cbn. rewrite lookup_insert_ne; [done|]. intros <-. unfold key_of in Hn. congruence.
Qed.

Lemma expire_listed_ok now l a :
  register_ok a -> int64_range now -> l `sublist_of` in_order a ->
  register_ok (expire_listed now l a).
Proof.
  intros Ha Hn Hl. assert (forall i, i ∈ l -> intent_ok i) as Hi
    by (intros i ?; eapply in_order_ok, elem_of_sublist; done).
  clear Hl. revert a Ha. induction l as [|i l IH]; intros a Ha; [done|].
  apply IH; [intros; apply Hi; set_solver|].
  apply set_reg_register_ok; [done| |done]. apply expire_ok; [done|]. apply Hi. set_solver.
Qed.

Lemma outcome_ok c a r a' : register_ok a -> call_ok c -> outcome c a r a' -> register_ok a'.
Proof.
  intros Ha Hc []; [by apply call_keeps_ok|done|by apply call_keeps_ok|].
  subst. apply expire_listed_ok; [done|done|apply expire_first_sublist].
Qed.

Lemma empty_ok : register_ok empty_register.
Proof. by split; intros ? ?. Qed.

Lemma empty_sound : sound 0 empty_register.
Proof. split; [apply empty_ok|by intros ? ?..]. Qed.

Lemma sound_rooms n a : sound n a -> 2 * Z.of_nat n + 1 < 2 ^ 63 - 2 -> rooms a.
Proof. intros Hs Hn d i Hi. apply (sd_generation _ _ Hs) in Hi. unfold room. lia. Qed.

Lemma step_sound n a a' :
  sound n a -> 2 * Z.of_nat n + 1 < 2 ^ 63 - 2 -> step a a' -> sound (S n) a'.
Proof.
  intros Hs Hn Hstep. destruct Hstep as [c a0 r a1 Hc Ho]. pose proof (sound_rooms n a0 Hs Hn) as Hroom.
  pose proof (sd_ok _ _ Hs) as Ha.
  assert (forall d, moved_at 2 (reg a0 !! d) (reg a1 !! d)) as Hm
    by (intros d; by eapply outcome_moved).
  split.
  - by eapply outcome_ok.
  - intros d i' Hi'. specialize (Hm d). rewrite Hi' in Hm.
    destruct (reg a0 !! d) as [i|] eqn:Hi; cbn in Hm; [|destruct Hm; lia].
    apply (sd_generation _ _ Hs) in Hi. pose proof (moved_generation _ _ _ Hm). lia.
  - intros d i' Hi'. specialize (Hm d). rewrite Hi' in Hm.
    destruct (reg a0 !! d) as [i|] eqn:Hi; cbn in Hm; [|destruct Hm as (?&?&?); lia].
    apply (sd_progress _ _ Hs) in Hi.
    pose proof (moved_origin _ _ _ Hm). pose proof (moved_observed _ _ _ Hm). lia.
  - eapply outcome_names; eauto. apply Hs.
  - intros d k e He. apply outcome_answers in Ho.
    assert (forall e, answers a0 !! (d, k) = Some e -> answer_sound a1 d e) as Hold.
    { intros e0 He0. destruct (sd_answers _ _ Hs d k e0 He0) as [H1 H2 (i & Hi & Hl)].
      split; [done|done|]. specialize (Hm d). rewrite Hi in Hm.
      destruct (reg a1 !! d) as [i'|]; [|done]. exists i'. split; [done|].
      etrans; [exact Hl|]. by exists 2. }
    destruct Ho as [E|(request & next & _ & _ & Hw & ->)]; [rewrite E in He; by apply Hold|].
    cbn in He. rewrite lookup_insert in He. case_decide as Ek; [|by apply Hold]. simplify_eq/=.
    split; cbn; [by rewrite Hw|by eexists|]. exists next. rewrite lookup_insert_eq. done.
Qed.

Lemma reachable_sound_below n a :
  reachable n a -> 2 * Z.of_nat n < 2 ^ 63 - 1 -> sound n a.
Proof.
  induction 1 as [|n a a' _ IH Hs]; intros Hn; [apply empty_sound|].
  eapply step_sound; [apply IH; lia|lia|done].
Qed.
