(* ===== verification/StoreTheorems.v ===== *)
(** * What the SQLite store guarantees

    The properties of [store.SQLite] itself: its tables, its answers, its
    histories, with and without faults. *)

From S2P Require Export StoreSafety.
From Stdlib Require Import String.
#[local] Open Scope Z_scope.
#[local] Abbreviation length := List.length.

(** ** Runs of the database *)

(** Calls in sequence, with their answers. *)
Fixpoint calls {S} `{DesiredState S} (cs : list Call) (s : S) : list (result StoreError Reply) * S :=
  match cs with
  | [] => ([], s)
  | c :: cs' => let o := call c s in let os := calls cs' (snd o) in (fst o :: fst os, snd os)
  end.

(** One call on the tables [d], under some schedule of faults. *)
Inductive db_step (d : DB) : DB -> Prop :=
| db_call c w fs : call_ok c ->
    db_step d (durable (snd (call c {| durable := d; work := w; faults := fs |}))).

(** The tables after [n] calls from the tables [d]. *)
Inductive db_run (d : DB) : nat -> DB -> Prop :=
| db_start : db_run d 0 d
| db_next n d1 d2 : db_run d n d1 -> db_step d1 d2 -> db_run d (S n) d2.

(** Calls whose count leaves every generation inside int64. *)
Definition few (n : nat) : Prop := 2 * Z.of_nat n < 2 ^ 63 - 1.

Lemma calls_refine cs a w :
  register_ok a -> Forall call_ok cs ->
  exists a' w', register_ok a' /\ calls cs a = (fst (calls cs a), a') /\
    calls cs (quiet (tables a) w) = (fst (calls cs a), quiet (tables a') w').
Proof.
  intros Ha Hcs. revert a w Ha. induction Hcs as [|c cs Hc _ IH]; intros a w Ha.
  - by exists a, w.
  - cbn [calls fst snd].
    destruct (call_refines c a w Ha Hc) as [w1 E1]. rewrite E1. cbn [fst snd].
    destruct (IH (snd (call c a)) w1) as (a' & w' & Ha' & E & E2); [by apply call_keeps_ok|].
    rewrite E2, E. cbn [fst snd]. by exists a', w'.
Qed.

Lemma db_step_register a d :
  register_ok a -> db_step (tables a) d -> exists a', step a a' /\ d = tables a'.
Proof.
  intros Ha [c w fs Hc].
  destruct (call_outcome c a {| durable := tables a; work := w; faults := fs |} Ha Hc eq_refl)
    as (a' & Ho & E).
  exists a'. split; [|done]. by econstructor.
Qed.

(** Runs from a sound register stay tables of sound registers. *)
Lemma db_run_sound m a n d :
  sound m a -> few (m + n) -> db_run (tables a) n d ->
  exists a', sound (m + n) a' /\ d = tables a' /\
    (forall k e, answers a !! k = Some e -> answers a' !! k = Some e) /\
    (forall dev i, reg a !! dev = Some i -> exists i', reg a' !! dev = Some i' /\ later i i').
Proof.
  intros Hs Hn Hr. induction Hr as [|n d1 d2 _ IH Hstep].
  - exists a. rewrite Nat.add_0_r. split_and!; [done|done|done|]. intros dev i Hi. by exists i.
  - destruct IH as (a1 & Hs1 & -> & Hans & Hreg); [unfold few in *; lia|].
    apply db_step_register in Hstep as (a2 & Hstep & ->); [|apply Hs1].
    exists a2. rewrite Nat.add_succ_r.
    assert (sound (S (m + n)) a2) as Hs2 by (eapply step_sound; [done|unfold few in *; lia|done]).
    split_and!; [done|done| |].
    + intros k e He. destruct Hstep. by eapply outcome_answers_grow, Hans.
    + intros dev i Hi. apply Hreg in Hi as (i1 & Hi1 & Hl).
      destruct Hstep as [c a1 r a2 Hc Ho].
      assert (rooms a1) as Hroom by (eapply sound_rooms; [done|unfold few in *; lia]).
      pose proof (outcome_moved c a1 r a2 dev (sd_ok _ _ Hs1) Hc Hroom Ho) as Hm.
      rewrite Hi1 in Hm. destruct (reg a2 !! dev) as [i2|]; [|done]. exists i2. split; [done|].
      etrans; [exact Hl|]. by exists 2.
Qed.

Lemma db_run_empty n d :
  few n -> db_run empty_db n d -> exists a, sound n a /\ d = tables a.
Proof.
  intros Hn Hr. change empty_db with (tables empty_register) in Hr.
  destruct (db_run_sound 0 _ n d empty_sound Hn Hr) as (a & Hs & -> & _). by exists a.
Qed.

Lemma tables_row a dev row :
  intents (tables a) !! dev = Some row -> exists i, reg a !! dev = Some i /\ row = row_of i.
Proof.
  rewrite tables_lookup. destruct (reg a !! dev) as [i|]; [|done].
  intros [= <-]. by exists i.
Qed.

Lemma empty_tables : tables empty_register = empty_db.
Proof. done. Qed.

(** ** Shared: the fault-free upsert on a sound register *)

Definition retry_of (request request' : UpsertRequest) : Prop :=
  req_DeviceID request' = req_DeviceID request /\
  req_IdempotencyKey request' = req_IdempotencyKey request /\
  CanonicalAddresses (req_Addresses request') = CanonicalAddresses (req_Addresses request) /\
  req_Precondition request' = req_Precondition request.

Definition replay_result (request request' : UpsertRequest) (i : Intent) : UpsertResult :=
  {| res_Intent := i;
     res_RenewAfterSeconds := if req_RenewAfterSeconds request <=? 0
       then req_RenewAfterSeconds request' else req_RenewAfterSeconds request;
     res_Replay := true |}.

(** The answer an accepted request leaves. *)
Definition answer_to (request : UpsertRequest) (i : Intent) : Answer :=
  {| ans_hash := AddressesHash (CanonicalAddresses (req_Addresses request));
     ans_precondition := precondition_key (req_Precondition request);
     ans_intent := i; ans_renew := req_RenewAfterSeconds request |}.

Lemma accepted_answer request a res a' :
  spec_upsert request a = (Ok res, a') -> res_Replay res = false ->
  answers a' !! key_of request = Some (answer_to request (res_Intent res)).
Proof.
  pose proof (spec_upsert_case request a) as H. intros E. rewrite E in H.
  inversion H; intros Hr; simplify_eq/=; by rewrite lookup_insert_eq.
Qed.

Lemma retry_spec request request' a i :
  retry_of request request' -> answers a !! key_of request = Some (answer_to request i) ->
  spec_upsert request' a = (Ok (replay_result request request' i), a).
Proof.
  intros (Hd & Hk & Ha & Hp) He. unfold spec_upsert. rewrite Hd, Hk, Ha, Hp.
  unfold key_of in He. rewrite He. cbn [ans_hash ans_precondition answer_to].
  rewrite !String.eqb_refl, orb_true_r. done.
Qed.

Lemma retry_run request request' a i w :
  register_ok a -> request_ok request' -> retry_of request request' ->
  answers a !! key_of request = Some (answer_to request i) ->
  exists w', UpsertIntent request' (quiet (tables a) w)
    = (Ok (replay_result request request' i), quiet (tables a) w').
Proof.
  intros Ha Hr Hre He. destruct (UpsertIntent_refines_tables request' a w) as [w' E]; [done|done|].
  rewrite (retry_spec request request' a i) in E by done. by exists w'.
Qed.

Lemma upsert_sound n a request :
  sound n a -> few (S n) -> request_ok request -> sound (S n) (snd (spec_upsert request a)).
Proof.
  intros Hs Hn Hr. eapply step_sound; [done|unfold few in *; lia|].
  apply (step_call (CallUpsert request) a (fst (call (CallUpsert request) a))); [done|].
  exact (outcome_done (CallUpsert request) a).
Qed.

(** Answered once, answered the same again. *)
Lemma spec_upsert_again request request' a res a1 a2 :
  retry_of request request' -> req_RenewAfterSeconds request' = req_RenewAfterSeconds request ->
  spec_upsert request a = (Ok res, a1) ->
  (forall k e, answers a1 !! k = Some e -> answers a2 !! k = Some e) ->
  spec_upsert request' a2 =
  (Ok {| res_Intent := res_Intent res; res_RenewAfterSeconds := res_RenewAfterSeconds res;
         res_Replay := true |}, a2).
Proof.
  intros Hre Hrenew E Hgrow. pose proof (spec_upsert_case request a) as H. rewrite E in H.
  assert (forall i, answers a1 !! key_of request = Some (answer_to request i) ->
    spec_upsert request' a2 = (Ok {| res_Intent := i;
       res_RenewAfterSeconds := req_RenewAfterSeconds request; res_Replay := true |}, a2)) as Hnew.
  { intros i Hi. apply Hgrow in Hi. rewrite (retry_spec request request' a2 i) by done.
    unfold replay_result. rewrite Hrenew. by case_match. }
  inversion H as [e Hk Hs| | | | | |]; simplify_eq/=.
  - apply Hgrow in Hk. destruct Hre as (Hd & Hkey & Ha & Hp).
    unfold same_request, wanted in Hs. unfold spec_upsert. rewrite Hd, Hkey, Ha, Hp.
    unfold key_of in Hk. rewrite Hk, Hs. unfold replayed. by rewrite Hrenew.
  - apply Hnew. by rewrite lookup_insert_eq.
  - apply Hnew. by rewrite lookup_insert_eq.
Qed.

(** The upsert under faults, at the register. *)
Lemma upsert_outcome request a s :
  register_ok a -> request_ok request -> durable s = tables a ->
  let o := UpsertIntent request s in
  (fst o = fst (spec_upsert request a) /\ durable (snd o) = tables (snd (spec_upsert request a))) \/
  (exists e, fst o = Err (ErrStorage e)) /\
  (durable (snd o) = tables a \/ durable (snd o) = tables (snd (spec_upsert request a))).
Proof.
  intros Ha Hr Hs. destruct (UpsertIntent_Faithful request) as [Hf _]. specialize (Hf s).
  rewrite Hs in Hf. destruct (UpsertIntent_refines_tables request a (work s)) as [w' E]; [done|done|].
  rewrite E in Hf. destruct Hf as [(H1 & H2 & _)|H]; [by left|by right].
Qed.

(** A partial expiry, row by row: the first ended leases are realised. *)
Lemma expire_first_rows now k a :
  register_ok a ->
  idempotency_requests (tables (expire_first now k a)) = idempotency_requests (tables a) /\
  forall dev, intents (tables (expire_first now k a)) !! dev
    = if bool_decide (dev ∈ DeviceID <$> take k (spec_expired now a))
      then intents (tables (spec_expire now a)) !! dev else intents (tables a) !! dev.
Proof.
  intros Ha. split; [unfold tables, expire_first; cbn; by rewrite expire_listed_answers|].
  intros dev. rewrite !tables_lookup. unfold expire_first, spec_expire. cbn [reg set_reg].
  assert (DeviceID <$> take k (spec_expired now a)
    = DeviceID <$> take k (List.filter (lease_expired now) (in_order a))) as ->.
  { unfold spec_expired. by rewrite <- fmap_take, <- list_fmap_compose. }
  set (l := take k _). assert (forall i, i ∈ l -> reg a !! DeviceID i = Some i) as Hl.
  { intros i Hi. eapply in_order_reg, elem_of_sublist; [done|done|apply expire_first_sublist]. }
  rewrite lookup_fmap, expire_listed_lookup; [|by intros d' i Hi; apply (ok_reg a Ha)| |done].
  2: { eapply sublist_NoDup; [by apply in_order_devices|]. apply fmap_sublist, expire_first_sublist. }
  destruct (reg a !! dev) as [i|] eqn:Ei; [|by case_bool_decide]. cbn.
  assert (i ∈ l <-> dev ∈ DeviceID <$> l) as Hin.
  { split.
    - intros Hi. apply list_elem_of_fmap. exists i. split; [|done]. symmetry. by apply (ok_reg a Ha).
    - intros (j & -> & Hj)%list_elem_of_fmap. rewrite (Hl j Hj) in Ei. by injection Ei as <-. }
  rewrite (bool_decide_ext _ _ Hin). case_bool_decide as Hi; [|done].
  apply Hin, take_in, filter_in in Hi as [_ Hi]. unfold realize. by rewrite Hi.
Qed.

(** ** Refinement and atomicity *)

(** C4: Without faults the SQLite store implements its contract: any sequence of
    calls from the empty database gets the contract's answers, and ends in the
    tables that encode the contract's register. *)
Theorem SQLite_implements_contract cs :
  Forall call_ok cs ->
  fst (calls cs (quiet empty_db empty_db)) = fst (calls cs empty_register) /\
  durable (snd (calls cs (quiet empty_db empty_db))) = tables (snd (calls cs empty_register)).
Proof.
  intros Hcs. destruct (calls_refine cs empty_register empty_db empty_ok Hcs) as (a & w & _ & E & E2).
  rewrite empty_tables in E2. by rewrite E2, E.
Qed.

Lemma expire_atomic now a w fs :
  register_ok a -> int64_range now ->
  let o := ExpireLeases now {| durable := tables a; work := w; faults := fs |} in
  let q := ExpireLeases now (quiet (tables a) w) in
  fst q = Ok (spec_expired now a) -> durable (snd q) = tables (spec_expire now a) ->
  (ReplyIntents <$> fst o = Ok (ReplyIntents (spec_expired now a)) /\
   durable (snd o) = tables (spec_expire now a)) \/
  (exists e, ReplyIntents <$> fst o = Err (ErrStorage e)) /\
    (durable (snd o) = tables a \/ durable (snd o) = tables (spec_expire now a)) \/
  exists now' k expired,
    CallExpire now = CallExpire now' /\ Cut k ∈ fs /\
    (Ok (ReplyIntents (spec_expired now a)) : result StoreError Reply) = Ok (ReplyIntents expired) /\
    (ReplyIntents <$> fst o = Ok (ReplyIntents (take k expired)) \/
     exists e, ReplyIntents <$> fst o = Err (ErrStorage e)) /\
    idempotency_requests (durable (snd o)) = idempotency_requests (tables a) /\
    forall dev, intents (durable (snd o)) !! dev =
      if bool_decide (dev ∈ DeviceID <$> take k expired)
      then intents (tables (spec_expire now a)) !! dev else intents (tables a) !! dev.
Proof.
  intros Ha Hn o q Hq Hd.
  destruct (ExpireLeases_cases now a w fs Ha Hn) as [[(E & Ed & _)|[[e E] Ed]]|(k & Hk & H)]; subst o q.
  - left. by rewrite E, Ed, Hq.
  - right; left. rewrite E, <- Hd. split; [by exists e|done].
  - destruct (expire_first_rows now k a Ha) as [Hans Hrows]. destruct H as [[E Ed]|[[e E] [Ed|Ed]]].
    + right; right. exists now, k, (spec_expired now a). rewrite E, Ed. split_and!; try done. by left.
    + right; left. rewrite E. split; [by exists e|by left].
    + right; right. exists now, k, (spec_expired now a). rewrite E, Ed. split_and!; try done. right. by exists e.
Qed.

(** C5: Atomicity under faults: whatever subset of its database calls fails, an
    operation either answers as its fault-free run and leaves its tables, or
    reports a storage error and leaves the old or the fault-free tables.  There is
    one exception, which the code has: [ExpireLeases] does not notice that its
    query's rows end early.  When they do, after [k] of them, it withdraws exactly
    the first [k] ended leases, and reports these or a storage error. *)
Theorem SQLite_atomic n d c w fs :
  few n -> db_run empty_db n d -> call_ok c ->
  let o := call c {| durable := d; work := w; faults := fs |} in
  let q := call c (quiet d w) in
  (fst o = fst q /\ durable (snd o) = durable (snd q)) \/
  (exists e, fst o = Err (ErrStorage e)) /\
    (durable (snd o) = d \/ durable (snd o) = durable (snd q)) \/
  exists now k expired,
    c = CallExpire now /\ Cut k ∈ fs /\ fst q = Ok (ReplyIntents expired) /\
    (fst o = Ok (ReplyIntents (take k expired)) \/ exists e, fst o = Err (ErrStorage e)) /\
    idempotency_requests (durable (snd o)) = idempotency_requests d /\
    forall dev, intents (durable (snd o)) !! dev =
      if bool_decide (dev ∈ DeviceID <$> take k expired)
      then intents (durable (snd q)) !! dev else intents d !! dev.
Proof.
  intros Hn Hrun Hc. destruct (db_run_empty n d Hn Hrun) as (a & Hs & ->).
  pose proof (sd_ok _ _ Hs) as Ha. cbv zeta.
  destruct (call_refines c a w Ha Hc) as [w' Eq]. rewrite Eq. cbn [fst snd durable quiet].
  destruct (call_outcome c a {| durable := tables a; work := w; faults := fs |} Ha Hc eq_refl)
    as (a' & Ho & E).
  assert ((forall now, c <> CallExpire now) \/ exists now, c = CallExpire now) as [Hno|[now ->]]
    by (destruct c; first [left; congruence|right; eexists; reflexivity]).
  - rewrite E. destruct Ho as [|e|e|now k r Hc' _]; [by left|right; left|right; left|by destruct (Hno now)].
    + split; [by eexists|by left].
    + split; [by eexists|by right].
  - clear a' Ho E. revert Eq. unfold call. cbn [expire_leases SQLite register_store]. unfold reply_of. cbn [fst snd].
    intros [= Er Ed]. apply expire_atomic; [done|done| |by rewrite Ed].
    destruct (ExpireLeases now (quiet (tables a) w)) as [[l|e] s]; cbn in Er; [|done]. by simplify_eq.
Qed.

(** ** Invariants and histories of the tables *)

(** C11: In every database reachable from the empty one, under any faults, each row
    sits at its device, its generation is at least 1 and at most 1 plus two per
    call, its progress is ordered (observed <= applied <= generation), its
    addresses decode to a canonical list, and no two rows share a hostname. *)
Theorem store_invariant n d :
  few n -> db_run empty_db n d ->
  (forall dev row, intents d !! dev = Some row ->
     device_id row = dev /\ 1 <= generation row <= 2 * Z.of_nat n + 1 /\
     0 <= public_observed_generation row <= origin_applied_generation row /\
     origin_applied_generation row <= generation row /\
     exists l, decodeAddresses (addresses_json row) = Ok l /\ canonical l) /\
  (forall dev dev' row row', intents d !! dev = Some row -> intents d !! dev' = Some row' ->
     hostname row = hostname row' -> dev = dev').
Proof.
  intros Hn Hrun. destruct (db_run_empty n d Hn Hrun) as (a & Hs & ->). split.
  - intros dev row (i & Hi & ->)%tables_row.
    destruct (ok_reg a (sd_ok _ _ Hs) dev i Hi) as [Hok Hd].
    pose proof (sd_generation _ _ Hs _ _ Hi). pose proof (sd_progress _ _ Hs _ _ Hi).
    cbn -[encodeAddresses decodeAddresses]. split_and!; try done; try lia. exists (Addresses i).
    rewrite decode_encode_addresses, Canonical_id by apply Hok. split; [done|apply Hok].
  - intros dev dev' row row' (i & Hi & ->)%tables_row (i' & Hi' & ->)%tables_row E.
    by apply (sd_names _ _ Hs dev dev' i i').
Qed.

(** C12: A generation identifies a state: along any run, under any faults, a row
    keeps its hostname, its generation and its progress never go back, and
    while the generation is the same the stored addresses are the same. *)
Theorem generation_identifies_addresses n m d d' dev row :
  few (n + m) -> db_run empty_db n d -> db_run d m d' -> intents d !! dev = Some row ->
  exists row', intents d' !! dev = Some row' /\ hostname row' = hostname row /\
    generation row <= generation row' /\
    origin_applied_generation row <= origin_applied_generation row' /\
    public_observed_generation row <= public_observed_generation row' /\
    (generation row' = generation row -> addresses_json row' = addresses_json row).
Proof.
  intros Hn Hrun Hrun' Hd.
  destruct (db_run_empty n d) as (a & Hs & ->); [unfold few in *; lia|done|].
  destruct (db_run_sound n a m d' Hs Hn Hrun') as (a' & Hs' & -> & _ & Hreg).
  apply tables_row in Hd as (i & Hi & ->).
  destruct (Hreg dev i Hi) as (i' & Hi' & k & _ & Hm).
  exists (row_of i'). rewrite tables_lookup, Hi'. cbn.
  pose proof (sd_progress _ _ Hs _ _ Hi). pose proof (moved_origin _ _ _ Hm).
  pose proof (moved_observed _ _ _ Hm). pose proof (moved_generation _ _ _ Hm).
  split_and!; try done; try lia; [apply Hm|].
  intros E. by rewrite (moved_addresses _ _ _ Hm).
Qed.

(** ** Idempotent retries *)

(** C7: The original answer is replayed for ever: once a request was accepted,
    after any further calls, under any faults, sending it again (same device,
    key, addresses and precondition) returns the stored intent and changes
    nothing. *)
Theorem retry_returns_original n m d d' request request' res s w0 w fs :
  few (n + S m) -> db_run empty_db n d -> request_ok request -> request_ok request' ->
  UpsertIntent request {| durable := d; work := w; faults := fs |} = (Ok res, s) ->
  res_Replay res = false -> db_run (durable s) m d' -> retry_of request request' ->
  exists w', UpsertIntent request' (quiet d' w0)
    = (Ok (replay_result request request' (res_Intent res)), quiet d' w').
Proof.
  intros Hn Hrun Hr Hr' E Hnew Hrun' Hretry.
  destruct (db_run_empty n d) as (a & Hs & ->); [unfold few in *; lia|done|].
  destruct (upsert_outcome request a {| durable := tables a; work := w; faults := fs |}
    (sd_ok _ _ Hs) Hr eq_refl) as [[E1 E2]|[[e E1] _]]; rewrite E in *; cbn in *; [|done].
  pose proof (upsert_sound n a request Hs ltac:(unfold few in *; lia) Hr) as Hs1.
  destruct (spec_upsert request a) as [r a1] eqn:Es. cbn in E1, E2, Hs1. subst r.
  pose proof (accepted_answer request a res a1 Es Hnew) as He. rewrite E2 in Hrun'.
  destruct (db_run_sound (S n) a1 m d') as (a2 & Hs2 & -> & Hans & _);
    [done|unfold few in *; lia|done|].
  apply (retry_run request request' a2); [apply Hs2|done|done|]. by apply Hans.
Qed.

(** The row of a device as an intent. *)
Definition stored (d : DB) (dev : string) : option Intent :=
  match scanIntentRow (intents d !! dev) with Ok o => o | Err _ => None end.

Lemma stored_tables a dev : register_ok a -> stored (tables a) dev = reg a !! dev.
Proof.
  intros Ha. unfold stored. rewrite tables_lookup, scan_row_of_option; [done|].
  intros i Hi. by apply (ok_reg a Ha _ _ Hi).
Qed.

(** A refused write that realised an ended lease is refused again. *)
Lemma refused_again request request' a a1 :
  retry_of request request' -> spec_upsert request a = (Err ErrPreconditionFailed, a1) ->
  (forall i, reg a1 !! req_DeviceID request = Some i -> lease_expired (req_Now request') i = false) ->
  spec_upsert request' a1 = (Err ErrPreconditionFailed, a1).
Proof.
  intros (Hd & Hk & Ha & Hp) E Hlease. pose proof (spec_upsert_case request a) as H. rewrite E in H.
  inversion H as [| | |Hans Hv Hf E2| | |]; simplify_eq. unfold spec_upsert. rewrite Hd, Hk, Ha, Hp.
  cbn [answers set_reg reg] in *. unfold key_of in Hans. rewrite Hans, Hv. cbn [negb].
  rewrite lookup_partial_alter_eq in *.
  assert (realize (req_Now request') <$> current_intent request a = current_intent request a) as ->.
  { destruct (current_intent request a) as [i|]; [|done]. cbn. unfold realize. by rewrite Hlease. }
  rewrite Hf. f_equal. unfold set_reg. cbn [reg answers]. f_equal. apply map_eq. intros x.
  destruct (decide (x = req_DeviceID request)) as [->|Hx].
  - by rewrite !lookup_partial_alter_eq.
  - by rewrite !lookup_partial_alter_ne.
Qed.

(** What a refused write leaves: nothing changed, or an ended lease realised. *)
Lemma refused_effect request a a1 :
  spec_upsert request a = (Err ErrPreconditionFailed, a1) ->
  a1 = a \/ exists i, reg a !! req_DeviceID request = Some i /\ lease_expired (req_Now request) i = true /\
    a1 = set_reg (insert (req_DeviceID request) (expire_intent (req_Now request) i)) a.
Proof.
  intros E. pose proof (spec_upsert_case request a) as H. rewrite E in H.
  inversion H as [| | |Hans Hv Hf E2| | |]; simplify_eq. unfold current_intent.
  destruct (reg a !! req_DeviceID request) as [i|] eqn:Ei; cbn [fmap option_fmap option_map].
  - destruct (lease_expired (req_Now request) i) eqn:El.
    + right. exists i. split_and!; [done|done|]. unfold set_reg. f_equal. apply map_eq. intros x.
      rewrite lookup_insert. destruct (decide (req_DeviceID request = x)) as [<-|Hx].
      * rewrite lookup_partial_alter_eq. unfold realize. by rewrite El.
      * by rewrite lookup_partial_alter_ne.
    + left. destruct a as [m w]. unfold set_reg. cbn [reg answers] in *. f_equal. apply map_eq. intros x.
      destruct (decide (req_DeviceID request = x)) as [<-|Hx].
      * rewrite lookup_partial_alter_eq. unfold realize. by rewrite El.
      * by rewrite lookup_partial_alter_ne.
  - left. destruct a as [m w]. unfold set_reg. cbn [reg answers] in *. f_equal. apply map_eq. intros x.
    destruct (decide (req_DeviceID request = x)) as [<-|Hx];
      [by rewrite lookup_partial_alter_eq|by rewrite lookup_partial_alter_ne].
Qed.

Lemma expired_no_lease now now' i : lease_expired now' (expire_intent now i) = false.
Proof. done. Qed.

(** C8: At most once: when an upsert reports a storage error, either nothing was
    written, or everything that its fault-free run writes.  In that case either
    the write was accepted: the device's row is the accepted intent and the
    client's retry gets the answer that was lost, without writing again; or it
    was refused: only an ended lease of the device was realised, and the
    client's retry is refused as well, without writing anything. *)
Theorem failed_upsert_is_all_or_nothing n d request request' w fs what s :
  few (S n) -> db_run empty_db n d -> request_ok request -> request_ok request' ->
  retry_of request request' ->
  UpsertIntent request {| durable := d; work := w; faults := fs |} = (Err (ErrStorage what), s) ->
  let q := UpsertIntent request (quiet d w) in
  durable s = d \/
  durable s = durable (snd q) /\
  ((exists res, fst q = Ok res /\ res_Replay res = false /\
      stored (durable s) (req_DeviceID request) = Some (res_Intent res) /\
      exists w', UpsertIntent request' (quiet (durable s) w)
        = (Ok (replay_result request request' (res_Intent res)), quiet (durable s) w')) \/
   (fst q = Err ErrPreconditionFailed /\
    idempotency_requests (durable s) = idempotency_requests d /\
    (forall dev, dev <> req_DeviceID request -> intents (durable s) !! dev = intents d !! dev) /\
    (exists i, stored d (req_DeviceID request) = Some i /\ lease_expired (req_Now request) i = true /\
      stored (durable s) (req_DeviceID request) = Some (expire_intent (req_Now request) i)) /\
    exists w', UpsertIntent request' (quiet (durable s) w)
      = (Err ErrPreconditionFailed, quiet (durable s) w'))).
Proof.
  intros Hn Hrun Hr Hr' Hretry E.
  destruct (db_run_empty n d) as (a & Hs & ->); [unfold few in *; lia|done|].
  pose proof (sd_ok _ _ Hs) as Ha.
  pose proof (upsert_outcome request a {| durable := tables a; work := w; faults := fs |}
    Ha Hr eq_refl) as Ho. rewrite E in Ho. cbn in Ho.
  destruct (UpsertIntent_refines_tables request a w Ha Hr) as [w' ->].
  pose proof (sd_ok _ _ (upsert_sound n a request Hs Hn Hr)) as Ha1. cbn [fst snd durable quiet].
  assert (durable s = tables a \/ durable s = tables (snd (spec_upsert request a))) as [Hd|Hd]
    by (destruct Ho as [[_ Ho]|[_ Ho]]; [by right|done]); [by left|].
  rewrite Hd. destruct (spec_upsert request a) as [r a1] eqn:Es. cbn [fst snd] in *.
  rewrite !stored_tables by done. pose proof (spec_upsert_case request a) as H. rewrite Es in H.
  destruct r as [res|e]; [destruct (res_Replay res) eqn:Hnew|].
  - left. by inversion H; simplify_eq/=.
  - right. split; [done|]. left.
    assert (reg a1 !! req_DeviceID request = Some (res_Intent res)) as Hrow
      by (inversion H; simplify_eq/=; by rewrite lookup_insert_eq).
    exists res. split_and!; try done. apply (retry_run request request' a1); [done..|]. by eapply accepted_answer.
  - assert (a1 = a \/ e = ErrPreconditionFailed) as [->| ->]
      by (inversion H; simplify_eq; first [by left|by right]); [by left|].
    destruct (refused_effect request a a1 Es) as [->|(i & Hi & Hl & Ha1')]; [by left|].
    right. split; [done|]. right.
    assert (reg a1 !! req_DeviceID request = Some (expire_intent (req_Now request) i)) as Hi1
      by (subst a1; apply lookup_insert_eq).
    split; [done|]. split; [by subst a1|]. split; [|split; [by exists i|]].
    + intros dev Hdev. subst a1. rewrite !tables_lookup. cbn [reg set_reg]. by rewrite lookup_insert_ne.
    + destruct (UpsertIntent_refines_tables request' a1 w Ha1 Hr') as [w2 E2].
      rewrite (refused_again request request' a a1) in E2; [by exists w2|done|done|].
      intros j Hj. rewrite Hi1 in Hj. injection Hj as <-. apply expired_no_lease.
Qed.

(** ** Conditional writes *)

Lemma realize_generation now c :
  room 1 c -> Generation (realize now c) = Generation c + (if lease_expired now c then 1 else 0).
Proof.
  intros H. unfold realize. case_match; [|lia]. cbn. by apply next_generation.
Qed.

(** The generation an accepted write of a known device gets. *)
Lemma next_intent_generation request c :
  room 2 c -> let now := req_Now request in
  let shown := if lease_expired now c then [] else Addresses c in
  Generation (next_intent request (CanonicalAddresses (req_Addresses request)) (realize now c))
  = Generation (realize now c) + (if AddressesEqual shown (req_Addresses request)
                                && Before now (LeaseExpiresAt c) then 0 else 1).
Proof.
  intros Hc. cbv zeta. cbn [Generation next_intent]. rewrite <- negb_andb.
  replace (LeaseExpiresAt (realize (req_Now request) c)) with (LeaseExpiresAt c)
    by (unfold realize; by case_match).
  replace (Addresses (realize (req_Now request) c))
    with (if lease_expired (req_Now request) c then [] else Addresses c)
    by (unfold realize; by case_match).
  rewrite !AddressesEqual_canonical, Canonical_idemp.
  destruct (_ && _); cbn [negb]; [lia|]. apply wrap64_id.
  rewrite realize_generation by (by apply (room_weaken 1 2)).
  unfold room, int64_range in *. case_match; lia.
Qed.

Lemma precondition_absent p :
  precondition_valid p = true -> precondition_failed p None = false -> p = RequireAbsent.
Proof.
  destruct p as [g []]; cbn; [|done]. intros H _.
  unfold precondition_valid in H. cbn in H. destruct (Z.eqb_spec g 0) as [E|]; [by rewrite E|done].
Qed.

Lemma precondition_match p c :
  precondition_failed p (Some c) = false ->
  MustBeAbsent p = false /\ ExpectedGeneration p = Generation c.
Proof. unfold precondition_failed. destruct (MustBeAbsent p); [done|]. intros. by simp_bool. Qed.

Lemma conditional_write_spec request a res a1 :
  rooms a -> spec_upsert request a = (Ok res, a1) -> res_Replay res = false ->
  let next := res_Intent res in
  let now := req_Now request in
  reg a1 = <[req_DeviceID request := next]> (reg a) /\
  Addresses next = CanonicalAddresses (req_Addresses request) /\
  LeaseExpiresAt next = Add now (req_LeaseDuration request) /\
  match reg a !! req_DeviceID request with
  | None => req_Precondition request = RequireAbsent /\ Generation next = 1
  | Some c =>
      let g := ExpectedGeneration (req_Precondition request) in
      let shown := if lease_expired now c then [] else Addresses c in
      MustBeAbsent (req_Precondition request) = false /\
      g = Generation c + (if lease_expired now c then 1 else 0) /\
      Generation next = g + (if AddressesEqual shown (req_Addresses request)
                                && Before now (LeaseExpiresAt c) then 0 else 1)
  end.
Proof.
  intros Hroom E Hnew. pose proof (spec_upsert_case request a) as H. rewrite E in H.
  inversion H as [| | | | |? Hv Hf Hc _|c ? Hv Hf Hc]; simplify_eq/=; rewrite Hc.
  - split_and!; try done. by apply precondition_absent.
  - apply precondition_match in Hf as [Hf ->]. apply Hroom in Hc.
    split_and!; try done; [|by apply next_intent_generation].
    apply realize_generation. by apply (room_weaken 1 2).
Qed.

(** C9: A write takes effect only under its precondition: when an upsert that is
    not a replay is answered, the device was absent and must-be-absent was
    asked (generation 1), or its generation, counting the realisation of an
    ended lease, is the expected one; the generation then advances by one
    exactly when the addresses differ or the lease had ended.  The device's row
    is the answered intent, and every other row is untouched. *)
Theorem conditional_write n d request res s w :
  few (S n) -> db_run empty_db n d -> request_ok request ->
  UpsertIntent request (quiet d w) = (Ok res, s) -> res_Replay res = false ->
  let next := res_Intent res in
  let now := req_Now request in
  stored (durable s) (req_DeviceID request) = Some next /\
  (forall dev, dev <> req_DeviceID request -> intents (durable s) !! dev = intents d !! dev) /\
  Addresses next = CanonicalAddresses (req_Addresses request) /\
  LeaseExpiresAt next = Add now (req_LeaseDuration request) /\
  match stored d (req_DeviceID request) with
  | None => req_Precondition request = RequireAbsent /\ Generation next = 1
  | Some c =>
      let g := ExpectedGeneration (req_Precondition request) in
      let shown := if lease_expired now c then [] else Addresses c in
      MustBeAbsent (req_Precondition request) = false /\
      g = Generation c + (if lease_expired now c then 1 else 0) /\
      Generation next = g + (if AddressesEqual shown (req_Addresses request)
                                && Before now (LeaseExpiresAt c) then 0 else 1)
  end.
Proof.
  intros Hn Hrun Hr E Hnew.
  destruct (db_run_empty n d) as (a & Hs & ->); [unfold few in *; lia|done|].
  pose proof (sd_ok _ _ Hs) as Ha. pose proof (upsert_sound n a request Hs Hn Hr) as Hs1.
  assert (rooms a) as Hroom by (eapply sound_rooms; [done|unfold few in *; lia]).
  destruct (UpsertIntent_refines_tables request a w Ha Hr) as [w' E']. rewrite E' in E.
  simplify_eq. cbn [durable quiet] in *. cbv zeta. rewrite !stored_tables by (done || apply Hs1).
  destruct (spec_upsert request a) as [r a1] eqn:Es. cbn [fst snd] in *. subst r.
  destruct (conditional_write_spec request a res a1 Hroom Es Hnew) as (H1 & H2 & H3 & H4).
  rewrite H1, lookup_insert_eq. split_and!; try done.
  intros dev Hdev. by rewrite !tables_lookup, H1, lookup_insert_ne.
Qed.

(** A stale expectation fails the precondition. *)
Lemma stale_precondition request a c :
  reg a !! req_DeviceID request = Some c -> room 1 c ->
  MustBeAbsent (req_Precondition request) = false ->
  0 < ExpectedGeneration (req_Precondition request) < Generation c ->
  answers a !! key_of request = None ->
  fst (spec_upsert request a) = Err ErrPreconditionFailed.
Proof.
  intros Hc Hroom Hm Hg Hk. unfold spec_upsert. unfold key_of in Hk. rewrite Hk.
  unfold precondition_valid, precondition_failed. rewrite Hm, Hc. fsimpl.
  rewrite realize_generation by done. cbn [negb andb orb].
  replace (0 <? _) with true by lia. cbn [negb].
  replace (_ =? _) with false; [done|]. symmetry. case_match; lia.
Qed.

(** C6: No lost update: once a conditional write has moved a device to a new
    generation, then after any calls, under any faults, a write that still
    expects an older generation is refused, so that two writers that read the
    same generation cannot both change it. *)
Theorem no_lost_update n m d d' request request' res s w w' :
  few (n + S (S m)) -> db_run empty_db n d -> request_ok request -> request_ok request' ->
  UpsertIntent request (quiet d w) = (Ok res, s) -> res_Replay res = false ->
  db_run (durable s) m d' ->
  req_DeviceID request' = req_DeviceID request ->
  MustBeAbsent (req_Precondition request') = false ->
  0 < ExpectedGeneration (req_Precondition request') < Generation (res_Intent res) ->
  idempotency_requests d' !! (req_DeviceID request', req_IdempotencyKey request') = None ->
  fst (UpsertIntent request' (quiet d' w')) = Err ErrPreconditionFailed.
Proof.
  intros Hn Hrun Hr Hr' E Hnew Hrun' Hdev Hm Hg Hk.
  destruct (db_run_empty n d) as (a & Hs & ->); [unfold few in *; lia|done|].
  pose proof (upsert_sound n a request Hs ltac:(unfold few in *; lia) Hr) as Hs1.
  assert (rooms a) as Hroom by (eapply sound_rooms; [done|unfold few in *; lia]).
  destruct (UpsertIntent_refines_tables request a w (sd_ok _ _ Hs) Hr) as [w1 E1].
  rewrite E1 in E. simplify_eq. cbn [durable quiet] in *.
  destruct (spec_upsert request a) as [r a1] eqn:Es. cbn [fst snd] in *. subst r.
  destruct (conditional_write_spec request a res a1 Hroom Es Hnew) as (H1 & _).
  destruct (db_run_sound (S n) a1 m d') as (a2 & Hs2 & -> & _ & Hreg);
    [done|unfold few in *; lia|done|].
  destruct (Hreg (req_DeviceID request) (res_Intent res)) as (c & Hc & k & _ & Hmv);
    [by rewrite H1, lookup_insert_eq|].
  pose proof (moved_generation _ _ _ Hmv).
  destruct (UpsertIntent_refines_tables request' a2 w' (sd_ok _ _ Hs2) Hr') as [w2 ->]. cbn [fst].
  apply (stale_precondition _ _ c); [by rewrite Hdev| |done|lia|].
  - pose proof (sd_generation _ _ Hs2 _ _ Hc). unfold room, few in *. lia.
  - rewrite tables_answer in Hk. by destruct (answers a2 !! _).
Qed.

(** C10: A refused write writes nothing but the realisation of an ended lease: the
    answer tables and every other row are as before, and the device's own row
    is as before or with its addresses withdrawn. *)
Theorem refused_write_changes_no_address n d request e s w :
  few (S n) -> db_run empty_db n d -> request_ok request ->
  UpsertIntent request (quiet d w) = (Err e, s) ->
  idempotency_requests (durable s) = idempotency_requests d /\
  (forall dev, dev <> req_DeviceID request -> intents (durable s) !! dev = intents d !! dev) /\
  stored (durable s) (req_DeviceID request) =
    (if decide (e = ErrPreconditionFailed)
     then realize (req_Now request) <$> stored d (req_DeviceID request)
     else stored d (req_DeviceID request)).
Proof.
  intros Hn Hrun Hr E.
  destruct (db_run_empty n d) as (a & Hs & ->); [unfold few in *; lia|done|].
  pose proof (sd_ok _ _ Hs) as Ha. pose proof (upsert_sound n a request Hs Hn Hr) as Hs1.
  destruct (UpsertIntent_refines_tables request a w Ha Hr) as [w1 E1].
  rewrite E1 in E. simplify_eq. cbn [durable quiet] in *.
  rewrite !stored_tables by (done || apply Hs1). clear Hs1.
  pose proof (spec_upsert_case request a) as Hcase.
  destruct (spec_upsert request a) as [r a1] eqn:Es. cbn [fst snd] in *. subst r.
  inversion Hcase; simplify_eq/=; split_and!; try done.
  - intros dev Hdev. by rewrite !lookup_fmap, lookup_partial_alter_ne.
  - by rewrite lookup_partial_alter_eq.
Qed.

(** ** Lease expiry *)

Lemma realize_lease now c : LeaseExpiresAt (realize now c) = LeaseExpiresAt c.
Proof. unfold realize. by case_match. Qed.

Lemma realized_addresses now c : LeaseExpiresAt c <= now -> Addresses (realize now c) = [].
Proof.
  intros Hl. unfold realize. case_match eqn:E; [done|]. unfold lease_expired, Before in E.
  replace (now <? LeaseExpiresAt c) with false in E by lia. cbn [negb] in E.
  rewrite andb_true_r in E. simp_bool. apply Nat.eqb_eq, nil_length_inv in E. done.
Qed.

Lemma realize_running now c :
  now < LeaseExpiresAt c \/ Addresses c = [] -> realize now c = c.
Proof.
  intros H. unfold realize. case_match eqn:E; [exfalso|done].
  unfold lease_expired, Before in E. simp_bool. destruct H as [H|H]; [lia|by rewrite H in *].
Qed.

Lemma lease_expired_realize now c : lease_expired now (realize now c) = false.
Proof. unfold realize. by case_match. Qed.

Lemma spec_expire_idemp now a : spec_expire now (spec_expire now a) = spec_expire now a.
Proof.
  unfold spec_expire, set_reg. cbn. f_equal. rewrite <- map_fmap_compose. apply map_fmap_ext.
  intros d i _. cbn. unfold realize at 1. by rewrite lease_expired_realize.
Qed.

Lemma spec_expired_nil now a : spec_expired now (spec_expire now a) = [].
Proof.
  unfold spec_expired. rewrite (elem_of_nil_inv (List.filter _ _)); [done|].
  intros i [[d Hd]%in_order_elem Hl]%filter_in. cbn in Hd.
  apply lookup_fmap_Some in Hd as (c & <- & _). by rewrite lease_expired_realize in Hl.
Qed.

(** C13: Expiry withdraws every ended lease: afterwards a row whose lease has
    ended holds no address, one whose lease runs is untouched, the answer lists
    exactly the withdrawn intents, and a second expiry at the same instant
    withdraws nothing and changes nothing. *)
Theorem ExpireLeases_withdraws n d now w :
  few (S n) -> db_run empty_db n d -> int64_range now ->
  exists l s, ExpireLeases now (quiet d w) = (Ok l, s) /\
    (forall dev row, intents (durable s) !! dev = Some row ->
       lease_expires_ns row <= now -> addresses_json row = "[]"%string) /\
    (forall dev row, intents d !! dev = Some row ->
       now < lease_expires_ns row \/ addresses_json row = "[]"%string ->
       intents (durable s) !! dev = Some row) /\
    (forall i, i ∈ l <-> exists c, stored d (DeviceID c) = Some c /\
       lease_expired now c = true /\ i = expire_intent now c) /\
    exists s', ExpireLeases now (quiet (durable s) w) = (Ok [], s') /\ durable s' = durable s.
Proof.
  intros Hn Hrun Hnow.
  destruct (db_run_empty n d) as (a & Hs & ->); [unfold few in *; lia|done|].
  pose proof (sd_ok _ _ Hs) as Ha. pose proof (spec_expire_ok now a Ha Hnow) as Ha1.
  destruct (ExpireLeases_refines_tables a now w Ha Hnow) as [w1 E1].
  exists (spec_expired now a), (quiet (tables (spec_expire now a)) w1).
  cbn [durable quiet]. split_and!; [done|..].
  - intros dev row (i & Hi & ->)%tables_row Hl. cbn [addresses_json row_of lease_expires_ns] in *.
    apply lookup_fmap_Some in Hi as (c & <- & Hc). rewrite realized_addresses; [done|].
    by rewrite realize_lease in Hl.
  - intros dev row (i & Hi & ->)%tables_row Hl. rewrite tables_lookup. cbn [reg spec_expire set_reg].
    rewrite lookup_fmap, Hi. cbn [fmap option_fmap option_map]. do 2 f_equal.
    apply realize_running. destruct Hl as [Hl|Hl]; [by left|right].
    cbn [addresses_json row_of] in Hl. apply String.eqb_eq in Hl.
    rewrite encode_empty_iff in Hl by apply (ok_reg a Ha _ _ Hi). by simp_bool.
  - intros i. unfold spec_expired. rewrite list_elem_of_fmap. split.
    + intros (c & -> & [Hc Hl]%filter_in). exists c. rewrite stored_tables by done.
      split_and!; [by apply in_order_reg|done|done].
    + intros (c & Hc & Hl & ->). exists c. split; [done|]. apply filter_in. split; [|done].
      apply in_order_elem. exists (DeviceID c). by rewrite stored_tables in Hc.
  - destruct (ExpireLeases_refines_tables (spec_expire now a) now w Ha1 Hnow) as [w2 E2].
    rewrite spec_expire_idemp, spec_expired_nil in E2. by eexists.
Qed.

(** ** Publication marks and work lists *)

(** Only the row of [dev] may change, and it becomes [f] of itself when [p]. *)
Definition marked (dev : string) (p : IntentRow -> bool) (f : IntentRow -> IntentRow) (d d' : DB)
    : Prop :=
  idempotency_requests d' = idempotency_requests d /\
  (forall dev', dev' <> dev -> intents d' !! dev' = intents d !! dev') /\
  intents d' !! dev = (fun row => if p row then f row else row) <$> intents d !! dev.

Lemma update_marked dev p f d : marked dev p f d (update_intent dev p f d).
Proof.
  unfold marked, update_intent. destruct (intents d !! dev) as [row|] eqn:E; fsimpl.
  - destruct (p row); cbn [with_intents intents idempotency_requests]; [|by rewrite E].
    rewrite lookup_insert_eq. split_and!; [done| |done]. intros. by rewrite lookup_insert_ne.
  - by rewrite E.
Qed.

(** A mark touches the publication fields of its device's row only, and only
    while the row still has the marked generation: a stale publisher's mark
    changes nothing, and a public observation is recorded only once the origin
    has been applied. *)
Theorem marks_current_generation_only d dev g message w :
  marked dev (fun row => generation row =? g)
    (fun row => {| device_id := device_id row; hostname := hostname row;
       addresses_json := addresses_json row; generation := generation row;
       lease_expires_ns := lease_expires_ns row; updated_at_ns := updated_at_ns row;
       origin_applied_generation := g;
       public_observed_generation := public_observed_generation row;
       last_publication_error := "" |})
    d (durable (snd (MarkOriginApplied dev g (quiet d w)))) /\
  marked dev (fun row => (generation row =? g) && (g <=? origin_applied_generation row))
    (fun row => {| device_id := device_id row; hostname := hostname row;
       addresses_json := addresses_json row; generation := generation row;
       lease_expires_ns := lease_expires_ns row; updated_at_ns := updated_at_ns row;
       origin_applied_generation := origin_applied_generation row;
       public_observed_generation := g;
       last_publication_error := last_publication_error row |})
    d (durable (snd (MarkPubliclyObserved dev g (quiet d w)))) /\
  marked dev (fun row => generation row =? g)
    (fun row => {| device_id := device_id row; hostname := hostname row;
       addresses_json := addresses_json row; generation := generation row;
       lease_expires_ns := lease_expires_ns row; updated_at_ns := updated_at_ns row;
       origin_applied_generation := origin_applied_generation row;
       public_observed_generation := public_observed_generation row;
       last_publication_error := message |})
    d (durable (snd (MarkPublicationError dev g message (quiet d w)))).
Proof.
  unfold MarkOriginApplied, MarkPubliclyObserved, MarkPublicationError.
  split_and!; apply update_marked.
Qed.

(** [l] is the work list for [p]: intents of the tables in device order, each
    pending, at most [limit] of them, and all of them when fewer. *)
Definition work_list (d : DB) (p : Intent -> bool) (limit : Z) (l : list Intent) : Prop :=
  let bound := Z.to_nat (if limit <=? 0 then 100 else limit) in
  StronglySorted intent_le l /\ NoDup l /\ (length l <= bound)%nat /\
  (forall i, i ∈ l -> stored d (DeviceID i) = Some i /\ p i = true) /\
  ((length l < bound)%nat -> forall dev i, stored d dev = Some i -> p i = true -> i ∈ l).

#[export] Instance intent_le_total : Total intent_le.
Proof. intros i j. unfold intent_le. apply total, _. Qed.
#[export] Instance intent_le_trans : Transitive intent_le.
Proof. intros i j k. unfold intent_le. apply transitivity. Qed.

Lemma in_order_sorted a : StronglySorted intent_le (in_order a).
Proof. apply StronglySorted_merge_sort; apply _. Qed.

Lemma sublist_sorted {A} (R : relation A) l k :
  l `sublist_of` k -> StronglySorted R k -> StronglySorted R l.
Proof.
  intros H. induction H as [|x l k H IH|x l k H IH]; intros Hs; [done|..];
    apply StronglySorted_inv in Hs as [Hs Hx]; [|by apply IH].
  constructor; [by apply IH|]. rewrite !Forall_forall in *.
  intros y Hy. apply Hx. by eapply elem_of_sublist.
Qed.

Lemma spec_list_work a p limit :
  register_ok a -> work_list (tables a) p limit (spec_list p limit a).
Proof.
  intros Ha. unfold work_list, spec_list. cbv zeta.
  set (bound := Z.to_nat _). set (all := List.filter p (in_order a)).
  assert (take bound all `sublist_of` in_order a) as Hsub
    by (etrans; [apply sublist_take|apply filter_sublist]).
  split_and!.
  - by eapply sublist_sorted, in_order_sorted.
  - eapply sublist_NoDup; [|done]. eapply NoDup_fmap_1, (in_order_devices a Ha).
  - rewrite length_take. lia.
  - intros i [Hi Hp]%take_in%filter_in. rewrite stored_tables by done. split; [|done].
    by apply in_order_reg.
  - intros Hlen dev i Hi Hp. rewrite length_take in Hlen. rewrite take_ge by lia.
    apply filter_in. split; [|done]. apply in_order_elem. exists dev.
    by rewrite stored_tables in Hi.
Qed.

(** C14: The publisher's work lists are exact: [ListOriginPending] returns the
    intents whose zone is behind and [ListObservationPending] those whose zone
    is up to date and public view behind, each once, in device order, up to
    the limit (100 when not positive), and reads without writing. *)
Theorem pending_lists_exact n d limit w :
  few n -> db_run empty_db n d ->
  (exists l, ListOriginPending limit (quiet d w) = (Ok l, quiet d w) /\
     work_list d (fun i => OriginAppliedGeneration i <? Generation i) limit l) /\
  (exists l, ListObservationPending limit (quiet d w) = (Ok l, quiet d w) /\
     work_list d (fun i => (Generation i <=? OriginAppliedGeneration i)
                           && (PublicObservedGeneration i <? Generation i)) limit l).
Proof.
  intros Hn Hrun. destruct (db_run_empty n d Hn Hrun) as (a & Hs & ->).
  pose proof (sd_ok _ _ Hs) as Ha. unfold ListOriginPending, ListObservationPending.
  rewrite (list_refines_tables a _ pending_origin), (list_refines_tables a _ pending_observation)
    by done.
  split; eexists; (split; [done|]); by apply spec_list_work.
Qed.

(** ** The properties at concrete inputs *)

Definition example_address : Addr := Addr6 42541956123769884636017138956568135816 "".

Definition example_request (key : string) (p : IntentPrecondition) (addresses : list Addr)
    (now : time) : UpsertRequest :=
  {| req_DeviceID := "device-1"; req_Hostname := "device-1.example.org";
     req_Addresses := addresses; req_IdempotencyKey := key; req_Precondition := p;
     req_Now := now; req_LeaseDuration := 900 * second; req_RenewAfterSeconds := 300 |}.

(** A first write, a change of it, and the change's competitor. *)
Definition first_write := example_request "k1" RequireAbsent [example_address] 0.
Definition second_write := example_request "k2" (MatchGeneration 1) [] (5 * second).
Definition rival_write := example_request "k3" (MatchGeneration 1) [] (6 * second).

Definition example_db (c : list Call) : DB := durable (snd (calls c (quiet empty_db empty_db))).
Definition one_write := example_db [CallUpsert first_write].
Definition two_writes := example_db [CallUpsert first_write; CallUpsert second_write].

Ltac in_range := vm_compute; split; [discriminate|reflexivity].
Ltac request_ok := split; [reflexivity|in_range|in_range|in_range|reflexivity|reflexivity].

Lemma first_write_ok : request_ok first_write. Proof. request_ok. Qed.
Lemma second_write_ok : request_ok second_write. Proof. request_ok. Qed.
Lemma rival_write_ok : request_ok rival_write. Proof. request_ok. Qed.

Lemma few_small n : (n <= 1000)%nat -> few n.
Proof. unfold few. lia. Qed.

Lemma one_write_run : db_run empty_db 1 one_write.
Proof.
  eapply db_next; [apply db_start|].
  exact (db_call empty_db (CallUpsert first_write) empty_db [] first_write_ok).
Qed.

Lemma second_step : db_step one_write two_writes.
Proof.
  assert (durable (snd (call (CallUpsert second_write) (quiet one_write one_write))) = two_writes)
    as <- by (vm_compute; reflexivity).
  exact (db_call one_write (CallUpsert second_write) one_write [] second_write_ok).
Qed.

Lemma second_write_step : db_run one_write 1 two_writes.
Proof. eapply db_next; [apply db_start|apply second_step]. Qed.

Lemma two_writes_run : db_run empty_db 2 two_writes.
Proof. eapply db_next; [apply one_write_run|apply second_step]. Qed.

Lemma SQLite_implements_contract_witness :
  let cs := [CallUpsert first_write; CallGet "device-1"; CallUpsert second_write;
             CallExpire (2000 * second); CallMarkOrigin "device-1" 2] in
  fst (calls cs (quiet empty_db empty_db)) = fst (calls cs empty_register).
Proof.
  cbv zeta. apply SQLite_implements_contract.
  repeat constructor; try apply first_write_ok; try apply second_write_ok; in_range.
Defined.

(** The commit's reply is lost: the error is reported and the write is there. *)
Lemma SQLite_atomic_witness :
  let s := {| durable := empty_db; work := empty_db;
              faults := [NoFault; NoFault; NoFault; NoFault; NoFault; Lost] |} in
  let o := call (CallUpsert first_write) s in
  is_ok (fst o) = false /\ (durable (snd o) = empty_db \/ durable (snd o)
      = durable (snd (call (CallUpsert first_write) (quiet empty_db empty_db)))).
Proof.
  cbv zeta. split; [reflexivity|].
  destruct (SQLite_atomic 0 empty_db (CallUpsert first_write) empty_db
    [NoFault; NoFault; NoFault; NoFault; NoFault; Lost])
    as [[_ H]|[[_ H]|(now & k & l & H & _)]];
    [apply few_small; lia|apply db_start|apply first_write_ok|right; exact H|exact H|discriminate H].
Defined.

Lemma store_invariant_witness :
  exists row, intents two_writes !! "device-1"%string = Some row /\
    device_id row = "device-1"%string /\ 1 <= generation row <= 5.
Proof.
  destruct (intents two_writes !! "device-1"%string) as [row|] eqn:E; [|by vm_compute in E].
  destruct (proj1 (store_invariant 2 two_writes (few_small 2 ltac:(lia)) two_writes_run)
    "device-1"%string row E) as (Hd & Hg & _).
  exists row. exact (conj eq_refl (conj Hd Hg)).
Defined.

Lemma generation_identifies_addresses_witness :
  exists row row', intents one_write !! "device-1"%string = Some row /\
    intents two_writes !! "device-1"%string = Some row' /\ generation row <= generation row'.
Proof.
  destruct (intents one_write !! "device-1"%string) as [row|] eqn:E; [|by vm_compute in E].
  destruct (generation_identifies_addresses 1 1 one_write two_writes "device-1" row
    ltac:(apply few_small; lia) one_write_run second_write_step E) as (row' & E' & _ & H & _).
  exists row, row'. exact (conj eq_refl (conj E' H)).
Defined.

Lemma two_writes_then_rival :
  is_ok (fst (UpsertIntent rival_write (quiet two_writes empty_db))) = false.
Proof. vm_compute. reflexivity. Qed.

(** The first write again, ten minutes later and after the second. *)
Definition late_retry := example_request "k1" RequireAbsent [example_address] (600 * second).

Lemma late_retry_ok : request_ok late_retry. Proof. request_ok. Qed.

Lemma late_retry_of : retry_of first_write late_retry.
Proof. split_and!; reflexivity. Qed.

Definition first_answer : UpsertResult :=
  {| res_Intent := first_intent first_write [example_address];
     res_RenewAfterSeconds := 300; res_Replay := false |}.

Lemma first_write_runs :
  UpsertIntent first_write (quiet empty_db empty_db) = (Ok first_answer, quiet one_write one_write).
Proof. vm_compute. reflexivity. Qed.

Lemma retry_returns_original_witness :
  exists w', UpsertIntent late_retry (quiet two_writes empty_db) =
    (Ok (replay_result first_write late_retry (first_intent first_write [example_address])),
     quiet two_writes w').
Proof.
  exact (retry_returns_original 0 1 empty_db two_writes first_write late_retry first_answer
    (quiet one_write one_write) empty_db empty_db [] (few_small 2 ltac:(lia)) (db_start empty_db)
    first_write_ok late_retry_ok first_write_runs eq_refl second_write_step late_retry_of).
Defined.

Definition lost_commit : list Fault := [NoFault; NoFault; NoFault; NoFault; NoFault; Lost].

Lemma first_write_lost :
  UpsertIntent first_write {| durable := empty_db; work := empty_db; faults := lost_commit |}
  = (Err (ErrStorage "commit desired state"), quiet one_write one_write).
Proof. vm_compute. reflexivity. Qed.

Lemma failed_upsert_is_all_or_nothing_witness :
  stored one_write "device-1" = Some (first_intent first_write [example_address]) /\
  exists w', UpsertIntent late_retry (quiet one_write empty_db)
    = (Ok (replay_result first_write late_retry (first_intent first_write [example_address])), quiet one_write w').
Proof.
  destruct (failed_upsert_is_all_or_nothing 0 empty_db first_write late_retry empty_db lost_commit
    "commit desired state" (quiet one_write one_write) (few_small 1 ltac:(lia)) (db_start empty_db)
    first_write_ok late_retry_ok late_retry_of first_write_lost) as [H|[_ [H|[H _]]]].
  - apply (f_equal (fun d => size (intents d))) in H. vm_compute in H. discriminate H.
  - destruct H as (res & Hq & _ & Hs & Hr). rewrite first_write_runs in Hq. injection Hq as <-.
    exact (conj Hs Hr).
  - rewrite first_write_runs in H. discriminate H.
Defined.

Definition second_answer : UpsertResult :=
  {| res_Intent := next_intent second_write [] (first_intent first_write [example_address]);
     res_RenewAfterSeconds := 300; res_Replay := false |}.

Lemma second_write_runs :
  UpsertIntent second_write (quiet one_write empty_db)
  = (Ok second_answer, quiet two_writes two_writes).
Proof. vm_compute. reflexivity. Qed.

Lemma conditional_write_witness :
  stored two_writes "device-1" = Some (res_Intent second_answer) /\
  Generation (res_Intent second_answer) = 2.
Proof.
  destruct (conditional_write 1 one_write second_write second_answer (quiet two_writes two_writes)
    empty_db (few_small 2 ltac:(lia)) one_write_run second_write_ok second_write_runs eq_refl)
    as (H & _). split; [exact H|reflexivity].
Defined.

Lemma no_lost_update_witness :
  fst (UpsertIntent rival_write (quiet two_writes empty_db)) = Err ErrPreconditionFailed.
Proof.
  apply (no_lost_update 1 0 one_write two_writes second_write rival_write second_answer
    (quiet two_writes two_writes) empty_db empty_db (few_small 3 ltac:(lia)) one_write_run
    second_write_ok rival_write_ok second_write_runs eq_refl (db_start _) eq_refl eq_refl);
    [vm_compute; split; reflexivity|vm_compute; reflexivity].
Defined.

Lemma rival_write_runs :
  UpsertIntent rival_write (quiet two_writes empty_db)
  = (Err ErrPreconditionFailed, quiet two_writes two_writes).
Proof. vm_compute. reflexivity. Qed.

Lemma refused_write_changes_no_address_witness :
  stored two_writes "device-1" = realize (6 * second) <$> stored two_writes "device-1".
Proof.
  destruct (refused_write_changes_no_address 2 two_writes rival_write ErrPreconditionFailed
    (quiet two_writes two_writes) empty_db (few_small 3 ltac:(lia)) two_writes_run rival_write_ok
    rival_write_runs) as (_ & _ & H). exact H.
Defined.

(** Twenty minutes later the first write's lease has ended. *)
Lemma ExpireLeases_withdraws_witness :
  exists l s, ExpireLeases (1200 * second) (quiet one_write empty_db) = (Ok l, s) /\
    forall dev row, intents (durable s) !! dev = Some row ->
      lease_expires_ns row <= 1200 * second -> addresses_json row = "[]"%string.
Proof.
  destruct (ExpireLeases_withdraws 1 one_write (1200 * second) empty_db (few_small 2 ltac:(lia))
    one_write_run ltac:(in_range)) as (l & s & E & H & _). exists l, s. exact (conj E H).
Defined.

Lemma pending_lists_exact_witness :
  exists l, ListOriginPending 10 (quiet two_writes empty_db) = (Ok l, quiet two_writes empty_db) /\
    work_list two_writes (fun i => OriginAppliedGeneration i <? Generation i) 10 l.
Proof.
  exact (proj1 (pending_lists_exact 2 two_writes 10 empty_db (few_small 2 ltac:(lia)) two_writes_run)).
Defined.
