(* ===== verification/Migrate.v ===== *)
(** * Package store: opening the database

    [OpenSQLite], [execStartupStatement], [sqliteLockContention], [migrate] and
    [migrateIdempotencyTable] of [src/dns/internal/store/sqlite.go].  The tables
    are seen here with their columns, as an older version may have left them;
    SQL statements are functions that may fail, and a failed call of the
    database is one of [Store]'s faults. *)

From S2P Require Export Store.
From Stdlib Require Import String.
#[local] Open Scope Z_scope.
#[local] Abbreviation length := List.length.

(** ** The file *)

(** A table of requests: its columns in order, and rows as cells by column; a
    cell that is not there is NULL. *)
Record Table : Type := { columns : list string; rows : list (gmap string string) }.

Record Disk : Type := {
  d_intents : option (gmap string IntentRow);
  d_requests : option Table;
  d_legacy : option Table;
  d_retention_index : bool;
}.

Definition targetColumns : list string :=
  ["device_id"; "idempotency_key"; "payload_hash"; "precondition_key"; "response_json"]%string.

(** ** Statements *)

(** CREATE TABLE IF NOT EXISTS intents.  The same Exec creates its indexes, which
    no statement's answer depends on: it is one step here. *)
Definition create_intents (d : Disk) : option Disk :=
  Some {| d_intents := Some (default ∅ (d_intents d)); d_requests := d_requests d;
          d_legacy := d_legacy d; d_retention_index := d_retention_index d |}.

(** CREATE TABLE IF NOT EXISTS idempotency_requests. *)
Definition create_requests (d : Disk) : option Disk :=
  Some {| d_intents := d_intents d;
          d_requests := Some (default {| columns := targetColumns; rows := [] |} (d_requests d));
          d_legacy := d_legacy d; d_retention_index := d_retention_index d |}.

(** DROP INDEX IF EXISTS idempotency_retention. *)
Definition drop_retention_index (d : Disk) : option Disk :=
  Some {| d_intents := d_intents d; d_requests := d_requests d; d_legacy := d_legacy d;
          d_retention_index := false |}.

(** ALTER TABLE idempotency_requests RENAME TO idempotency_requests_legacy. *)
Definition rename_requests (d : Disk) : option Disk :=
  match d_requests d, d_legacy d with
  | Some t, None => Some {| d_intents := d_intents d; d_requests := None; d_legacy := Some t;
                            d_retention_index := d_retention_index d |}
  | _, _ => None
  end.

(** What a row selects for the five columns, the precondition from its column or
    as an empty text; [None] when a NULL would be inserted. *)
Definition selected (with_precondition : bool) (row : gmap string string) : option (gmap string string) :=
  device ← row !! "device_id"%string;
  key ← row !! "idempotency_key"%string;
  hash ← row !! "payload_hash"%string;
  precondition ← (if with_precondition then row !! "precondition_key"%string else Some ""%string);
  response ← row !! "response_json"%string;
  Some (<["device_id" := device]> (<["idempotency_key" := key]> (<["payload_hash" := hash]>
    (<["precondition_key" := precondition]> {["response_json" := response]}))))%string.

Definition row_key (row : gmap string string) : option string * option string :=
  (row !! "device_id"%string, row !! "idempotency_key"%string).

(** INSERT of one row: its key must be new. *)
Definition insert_row (t : Table) (row : gmap string string) : option Table :=
  if existsb (fun r => bool_decide (row_key r = row_key row)) (rows t) then None
  else Some {| columns := columns t; rows := rows t ++ [row] |}.

Fixpoint insert_rows (t : Table) (l : list (gmap string string)) : option Table :=
  match l with
  | [] => Some t
  | row :: l' => t' ← insert_row t row; insert_rows t' l'
  end.

(** INSERT INTO idempotency_requests SELECT ... FROM idempotency_requests_legacy:
    every column named must be there. *)
Definition copy_legacy (with_precondition : bool) (d : Disk) : option Disk :=
  match d_requests d, d_legacy d with
  | Some t, Some old =>
      if forallb (fun column => bool_decide (column ∈ columns old)
           || (negb with_precondition && (column =? "precondition_key")%string)) targetColumns
      then
        selection ← mapM (selected with_precondition) (rows old);
        t' ← insert_rows t selection;
        Some {| d_intents := d_intents d; d_requests := Some t'; d_legacy := d_legacy d;
                d_retention_index := d_retention_index d |}
      else None
  | _, _ => None
  end.

(** DROP TABLE idempotency_requests_legacy. *)
Definition drop_legacy (d : Disk) : option Disk :=
  match d_legacy d with
  | Some _ => Some {| d_intents := d_intents d; d_requests := d_requests d; d_legacy := None;
                      d_retention_index := d_retention_index d |}
  | None => None
  end.

(** ** Calls of the database *)

(** Like [Store.M], on a file. *)
Record DiskState : Type := { on_disk : Disk; in_tx : Disk; disk_faults : list Fault }.
Definition DM (A : Type) : Type := DiskState -> result string A * DiskState.

#[export] Instance DM_ret : MRet DM := fun _ a s => (Ok a, s).
#[export] Instance DM_bind : MBind DM := fun _ _ f m s =>
  match m s with
  | (Ok a, s') => f a s'
  | (Err e, s') => (Err e, s')
  end.

Definition disk_fail {A} (what : string) : DM A := fun s => (Err what, s).

Definition disk_fault (s : DiskState) : Fault * DiskState :=
  (default NoFault (head (disk_faults s)),
   {| on_disk := on_disk s; in_tx := in_tx s; disk_faults := tail (disk_faults s) |}).

(** [db.Exec]: a statement of its own. *)
Definition disk_exec (what : string) (f : Disk -> option Disk) : DM unit := fun s =>
  match disk_fault s with
  | (NoFault, s') =>
      match f (on_disk s') with
      | Some d => (Ok tt, {| on_disk := d; in_tx := in_tx s'; disk_faults := disk_faults s' |})
      | None => (Err what, s')
      end
  | (Lost, s') => (Err what, {| on_disk := default (on_disk s') (f (on_disk s')); in_tx := in_tx s';
                               disk_faults := disk_faults s' |})
  | (_, s') => (Err what, s')
  end.

(** [db.Query] and the loop over its rows, which does not look at [rows.Err]: an
    early end goes unnoticed. *)
Definition disk_rows {A} (what : string) (q : Disk -> list A) : DM (list A) := fun s =>
  match disk_fault s with
  | (NoFault, s') => (Ok (q (on_disk s')), s')
  | (Cut n, s') => (Ok (take n (q (on_disk s'))), s')
  | (_, s') => (Err what, s')
  end.

Definition disk_begin (what : string) : DM unit := fun s =>
  match disk_fault s with
  | (NoFault, s') => (Ok tt, {| on_disk := on_disk s'; in_tx := on_disk s'; disk_faults := disk_faults s' |})
  | (_, s') => (Err what, s')
  end.

Definition disk_tx_exec (what : string) (f : Disk -> option Disk) : DM unit := fun s =>
  match disk_fault s with
  | (NoFault, s') =>
      match f (in_tx s') with
      | Some d => (Ok tt, {| on_disk := on_disk s'; in_tx := d; disk_faults := disk_faults s' |})
      | None => (Err what, s')
      end
  | (_, s') => (Err what, s')
  end.

Definition disk_commit (what : string) : DM unit := fun s =>
  match disk_fault s with
  | (NoFault, s') => (Ok tt, {| on_disk := in_tx s'; in_tx := in_tx s'; disk_faults := disk_faults s' |})
  | (Lost, s') => (Err what, {| on_disk := in_tx s'; in_tx := in_tx s'; disk_faults := disk_faults s' |})
  | (_, s') => (Err what, s')
  end.

(** ** Migration *)

(** The names PRAGMA table_info lists. *)
Definition table_info (d : Disk) : list string := default [] (columns <$> d_requests d).

(** The transaction that rebuilds an older table; [inspected] is what was seen
    before it began. *)
Definition rebuild (inspected : gset string) : DM unit :=
  disk_begin "begin idempotency migration" ≫= fun _ =>
  disk_tx_exec "drop legacy idempotency index" drop_retention_index ≫= fun _ =>
  disk_tx_exec "rename legacy idempotency table" rename_requests ≫= fun _ =>
  disk_tx_exec "create current idempotency table" create_requests ≫= fun _ =>
  disk_tx_exec "copy legacy idempotency responses"
    (copy_legacy (bool_decide ("precondition_key"%string ∈ inspected))) ≫= fun _ =>
  disk_tx_exec "drop legacy idempotency table" drop_legacy ≫= fun _ =>
  disk_commit "commit idempotency migration".

(** What is left to do, by the columns seen. *)
Definition migrate_inspected (inspected : gset string) : DM unit :=
  if (size inspected =? 0)%nat then disk_exec "create idempotency table" create_requests else
  if (size inspected =? length targetColumns)%nat
     && forallb (fun column => bool_decide (column ∈ inspected)) targetColumns
  then mret tt else rebuild inspected.

Definition migrateIdempotencyTable : DM unit :=
  disk_rows "inspect idempotency schema" table_info ≫= fun names => migrate_inspected (list_to_set names).

Definition migrate : DM unit :=
  disk_exec "migrate SQLite" create_intents ≫= fun _ => migrateIdempotencyTable.

(** ** Opening *)

(** [sqliteLockContention]: the code of a SQLite error, if it is one. *)
Definition sqliteLockContention (code : option Z) : bool :=
  match code with
  | None => false
  | Some c => let primaryCode := Z.land c 0xff in (primaryCode =? 5) || (primaryCode =? 6)
  end.

(** One execution of a startup statement: [None] when it worked, or the error's
    code, and the instant right after it. *)
Record Attempt : Type := { at_error : option (option Z); at_instant : time }.

(** [execStartupStatement]: tried again while another process holds the lock,
    for five seconds; [None] while it is still trying. *)
Definition retryWindow : duration := 5 * second.
Fixpoint exec_until (deadline : time) (attempts : list Attempt) : option (result (option Z) unit) :=
  match attempts with
  | [] => None
  | a :: rest =>
      match at_error a with
      | None => Some (Ok tt)
      | Some code =>
          if negb (sqliteLockContention code) || negb (Before (at_instant a) deadline)
          then Some (Err code) else exec_until deadline rest
      end
  end.
Definition execStartupStatement (start : time) (attempts : list Attempt) : option (result (option Z) unit) :=
  exec_until (Add start retryWindow) attempts.

Definition startup_statements : list string :=
  ["PRAGMA busy_timeout = 5000"; "PRAGMA journal_mode = WAL"; "PRAGMA synchronous = FULL";
   "PRAGMA foreign_keys = ON"]%string.

(** The loop over the startup statements: each with its start and attempts;
    [None] while one is still trying. *)
Fixpoint configure (statements : list string) (runs : list (time * list Attempt))
    : option (result string unit) :=
  match statements, runs with
  | [], _ => Some (Ok tt)
  | statement :: statements', (start, attempts) :: runs' =>
      match execStartupStatement start attempts with
      | None => None
      | Some (Err _) => Some (Err ("configure SQLite (" +:+ statement +:+ ")"))
      | Some (Ok _) => configure statements' runs'
      end
  | _ :: _, [] => None
  end.

(** [OpenSQLite]: whether the driver opens the file, and how the startup
    statements go; [None] while they are being tried. *)
Definition OpenSQLite (path : string) (opened : bool) (runs : list (time * list Attempt))
    (s : DiskState) : option (result string unit * DiskState) :=
  if (path =? "")%string then Some (Err "SQLite path is required"%string, s) else
  if negb opened then Some (Err "open SQLite"%string, s) else
  match configure startup_statements runs with
  | None => None
  | Some (Err e) => Some (Err e, s)
  | Some (Ok _) => Some (migrate s)
  end.
