(* ===== verification/MigrateTheorems.v ===== *)
(** * What opening a database keeps

    A migration keeps every stored response, whatever fails, and brings any
    older table to the columns of today. *)

From S2P Require Export Migrate StoreTheorems.
From Stdlib Require Import String.
#[local] Open Scope Z_scope.
#[local] Abbreviation length := List.length.

(** ** Transactions *)

(** A transaction's end that takes the tables through [F], or leaves them. *)
Definition commits (m : DM unit) (F : Disk -> option Disk) : Prop := forall s,
  let '(r, s') := m s in
  (r = Ok tt /\ F (in_tx s) = Some (on_disk s')) \/
  ((exists e, r = Err e) /\ (on_disk s' = on_disk s \/ F (in_tx s) = Some (on_disk s'))).

Lemma commits_commit what : commits (disk_commit what) Some.
Proof.
  intros [d w fs]. unfold disk_commit, disk_fault. cbn [disk_faults on_disk in_tx].
  destruct (default NoFault (head fs)); cbn; [by left|right; split; eauto..].
Qed.

Lemma commits_exec what f m F :
  commits m F -> commits (disk_tx_exec what f ≫= fun _ => m) (fun d => d' ← f d; F d').
Proof.
  intros Hm [d w fs]. unfold mbind at 1, DM_bind, disk_tx_exec, disk_fault. cbn [disk_faults on_disk in_tx].
  destruct (default NoFault (head fs)); cbn; try (right; split; eauto; done).
  destruct (f w) as [w'|] eqn:Ef; cbn; [|right; split; eauto].
  apply (Hm {| on_disk := d; in_tx := w'; disk_faults := tail fs |}).
Qed.

(** The whole transaction of [rebuild] on the tables. *)
Definition rebuilt (with_precondition : bool) (d : Disk) : option Disk :=
  d1 ← drop_retention_index d; d2 ← rename_requests d1; d3 ← create_requests d2;
  d4 ← copy_legacy with_precondition d3; d5 ← drop_legacy d4; Some d5.

Definition sees_precondition (inspected : gset string) : bool :=
  bool_decide ("precondition_key"%string ∈ inspected).

Lemma rebuild_cases inspected s :
  let '(r, s') := rebuild inspected s in
  (r = Ok tt /\ rebuilt (sees_precondition inspected) (on_disk s) = Some (on_disk s')) \/
  ((exists e, r = Err e) /\
   (on_disk s' = on_disk s \/ rebuilt (sees_precondition inspected) (on_disk s) = Some (on_disk s'))).
Proof.
  destruct s as [d w fs]. unfold rebuild. unfold mbind at 1, DM_bind, disk_begin, disk_fault.
  cbn [disk_faults on_disk in_tx]. destruct (default NoFault (head fs)); try (right; split; eauto; done).
  exact (commits_exec _ _ _ _ (commits_exec _ _ _ _ (commits_exec _ _ _ _ (commits_exec _ _ _ _
    (commits_exec _ _ _ _ (commits_commit _))))) {| on_disk := d; in_tx := d; disk_faults := tail fs |}).
Qed.

(** Without faults it succeeds when its statements do. *)
Definition calm (d w : Disk) : DiskState := {| on_disk := d; in_tx := w; disk_faults := [] |}.

Lemma calm_exec {A} what f (k : unit -> DM A) d w' w :
  f w = Some w' -> (disk_tx_exec what f ≫= k) (calm d w) = k tt (calm d w').
Proof. intros E. unfold mbind, DM_bind, disk_tx_exec, disk_fault, calm. cbn. by rewrite E. Qed.

Lemma rebuild_calm inspected d w d' :
  rebuilt (sees_precondition inspected) d = Some d' -> rebuild inspected (calm d w) = (Ok tt, calm d' d').
Proof.
  unfold rebuilt, sees_precondition. intros H.
  destruct (drop_retention_index d) as [d1|] eqn:E1; [|done]. cbn [mbind option_bind] in H.
  destruct (rename_requests d1) as [d2|] eqn:E2; [|done]. cbn [mbind option_bind] in H.
  destruct (create_requests d2) as [d3|] eqn:E3; [|done]. cbn [mbind option_bind] in H.
  destruct (copy_legacy _ d3) as [d4|] eqn:E4; [|done]. cbn [mbind option_bind] in H.
  destruct (drop_legacy d4) as [d5|] eqn:E5; [|done]. injection H as <-.
  unfold rebuild. change ((disk_begin ?e ≫= ?k) (calm ?a ?b)) with (k tt (calm a a)). cbv beta.
  rewrite (calm_exec _ _ _ d d1 d), (calm_exec _ _ _ d d2 d1), (calm_exec _ _ _ d d3 d2),
    (calm_exec _ _ _ d d4 d3), (calm_exec _ _ _ d d5 d4) by done. done.
Qed.

(** ** What a rebuilt table holds *)

(** A stored response: device, key, payload hash and response. *)
Definition response_of (row : gmap string string) :=
  (row !! "device_id", row !! "idempotency_key", row !! "payload_hash", row !! "response_json")%string.
(** The precondition a row is bound to; none in a table without the column. *)
Definition bound_to (t : Table) (row : gmap string string) : option string :=
  if bool_decide ("precondition_key"%string ∈ columns t) then row !! "precondition_key"%string
  else Some ""%string.

Definition stored_rows (d : Disk) : list (gmap string string) := default [] (rows <$> d_requests d).
Definition stored_responses (d : Disk) := response_of <$> stored_rows d.
Definition stored_bindings (d : Disk) : list (option string) :=
  match d_requests d with Some t => bound_to t <$> rows t | None => [] end.

(** The bindings of [d'] are those of [d], some perhaps replaced by the empty
    one, which every precondition matches. *)
Definition weakened (d d' : Disk) : Prop :=
  Forall2 (fun b b' => b' = b \/ b' = Some ""%string) (stored_bindings d) (stored_bindings d').

Lemma weakened_eq d d' : stored_bindings d' = stored_bindings d -> weakened d d'.
Proof. unfold weakened. intros ->. induction (stored_bindings d); constructor; auto. Qed.

Lemma insert_rows_Some t l t' :
  insert_rows t l = Some t' -> columns t' = columns t /\ rows t' = rows t ++ l.
Proof.
  revert t. induction l as [|row l IH]; intros t; cbn [insert_rows].
  - intros [= <-]. by rewrite app_nil_r.
  - unfold insert_row. destruct (existsb _ _); [done|]. cbn [mbind option_bind]. intros [Hc Hr]%IH.
    cbn [columns rows] in *. rewrite <- app_assoc in Hr. done.
Qed.

Lemma insert_rows_distinct t l :
  NoDup (row_key <$> rows t ++ l) -> insert_rows t l = Some {| columns := columns t; rows := rows t ++ l |}.
Proof.
  revert t. induction l as [|row l IH]; intros t; cbn [insert_rows].
  - intros _. rewrite app_nil_r. by destruct t.
  - intros Hn. unfold insert_row. replace (existsb _ (rows t)) with false.
    + cbn [mbind option_bind]. rewrite IH; cbn [columns rows]; by rewrite <- app_assoc.
    + symmetry. apply not_true_iff_false. rewrite existsb_exists. intros (r & Hin & Hk%bool_decide_eq_true).
      rewrite fmap_app, NoDup_app, fmap_cons in Hn. destruct Hn as (_ & Hn & _).
      apply (Hn (row_key r)); [by apply list_elem_of_fmap_2, list_elem_of_In|]. rewrite Hk. set_solver.
Qed.

Lemma selected_Some wp row row' :
  selected wp row = Some row' ->
  response_of row' = response_of row /\ row_key row' = row_key row /\
  row' !! "precondition_key"%string = (if wp then row !! "precondition_key"%string else Some ""%string).
Proof.
  unfold selected, response_of, row_key. destruct (row !! "device_id"%string) as [a|] eqn:Ea; [|done].
  cbn [mbind option_bind]. destruct (row !! "idempotency_key"%string) as [b|] eqn:Eb; [|done].
  cbn [mbind option_bind]. destruct (row !! "payload_hash"%string) as [c|] eqn:Ec; [|done].
  cbn [mbind option_bind]. destruct (if wp then _ else _) as [p|] eqn:Ep; [|done].
  cbn [mbind option_bind]. destruct (row !! "response_json"%string) as [e|] eqn:Ee; [|done].
  intros [= <-]. split_and!; [repeat f_equal|repeat f_equal|]; by simplify_map_eq.
Qed.

Lemma selected_all wp l l' :
  mapM (selected wp) l = Some l' ->
  response_of <$> l' = response_of <$> l /\ row_key <$> l' = row_key <$> l /\
  (fun row => row !! "precondition_key"%string) <$> l'
    = (fun row => if wp then row !! "precondition_key"%string else Some ""%string) <$> l.
Proof.
  intros H%mapM_Some. induction H as [|row row' l l' Hr _ (IH1 & IH2 & IH3)]; [done|].
  apply selected_Some in Hr as (H1 & H2 & H3). rewrite !fmap_cons, IH1, IH2, IH3, H1, H2, H3. done.
Qed.

(** A table with the columns of today. *)
Definition current (t : Table) : Prop := forall c, c ∈ columns t <-> c ∈ targetColumns.

Lemma current_target l : current {| columns := targetColumns; rows := l |}.
Proof. done. Qed.

Lemma rebuilt_Some wp d d' :
  d_legacy d = None -> rebuilt wp d = Some d' ->
  d_intents d' = d_intents d /\ d_legacy d' = None /\ stored_responses d' = stored_responses d /\
  weakened d d' /\
  exists t t', d_requests d = Some t /\ d_requests d' = Some t' /\ current t' /\
    (wp = bool_decide ("precondition_key"%string ∈ columns t) -> stored_bindings d' = stored_bindings d).
Proof.
  intros Hl. unfold rebuilt, drop_retention_index. cbn [mbind option_bind].
  unfold rename_requests. cbn [d_requests d_legacy]. rewrite Hl. destruct (d_requests d) as [t|] eqn:Et; [|done].
  cbn [mbind option_bind]. unfold create_requests. cbn [mbind option_bind d_requests default].
  unfold copy_legacy. cbn [d_requests d_legacy]. destruct (forallb _ _) eqn:Eall; [|done].
  destruct (mapM _ _) as [sel|] eqn:Es; [|done]. cbn [mbind option_bind].
  destruct (insert_rows _ sel) as [t'|] eqn:Ei; [|done]. cbn [mbind option_bind].
  unfold drop_legacy. cbn [d_legacy mbind option_bind]. intros [= <-]. cbn [d_intents d_requests d_legacy].
  apply insert_rows_Some in Ei as [Hc Hr]. cbn [columns rows app] in *.
  apply selected_all in Es as (H1 & _ & H3).
  unfold stored_responses, stored_bindings, stored_rows. cbn [d_requests]. rewrite Et. cbn [fmap option_fmap option_map default].
  assert (bound_to t' <$> sel = (fun row => if wp then row !! "precondition_key"%string else Some ""%string) <$> rows t) as Hbound.
  { rewrite <- H3. unfold bound_to. by rewrite Hc. }
  assert (wp = bool_decide ("precondition_key"%string ∈ columns t) -> bound_to t' <$> sel = bound_to t <$> rows t) as Hsame.
  { intros ->. rewrite Hbound. unfold bound_to. by destruct (bool_decide ("precondition_key"%string ∈ columns t)). }
  rewrite Hr. split_and!; [done|done|done| |].
  - destruct wp.
    + apply weakened_eq. unfold stored_bindings. cbn [d_requests]. rewrite Et, Hr. cbn [app]. apply Hsame.
      rewrite forallb_forall in Eall. specialize (Eall "precondition_key"%string ltac:(cbn; tauto)).
      by rewrite andb_false_l, orb_false_r in Eall.
    + unfold weakened, stored_bindings. cbn [d_requests]. rewrite Et, Hr. cbn [app]. rewrite Hbound.
      apply Forall2_fmap, Forall_Forall2_diag, Forall_true. by right.
  - exists t, t'. by split_and!; [|done|unfold current; rewrite Hc|].
Qed.

(** An older table that can be copied: the columns read are there, no cell read
    is NULL, and the keys are distinct. *)
Definition supported (t : Table) : Prop :=
  (forall c, c ∈ targetColumns -> c <> "precondition_key"%string -> c ∈ columns t) /\
  Forall (fun row => forall c, c ∈ targetColumns -> c ∈ columns t -> is_Some (row !! c)) (rows t) /\
  NoDup (row_key <$> rows t).

Lemma selected_defined wp t row :
  (forall c, c ∈ targetColumns -> c <> "precondition_key"%string -> c ∈ columns t) ->
  wp = bool_decide ("precondition_key"%string ∈ columns t) ->
  (forall c, c ∈ targetColumns -> c ∈ columns t -> is_Some (row !! c)) -> is_Some (selected wp row).
Proof.
  intros Hc -> Hrow. unfold selected, targetColumns in *.
  assert (forall c, c ∈ targetColumns -> c <> "precondition_key"%string -> is_Some (row !! c)) as H.
  { intros c H1 H2. apply Hrow; [done|by apply Hc]. }
  unfold targetColumns in H.
  destruct (H "device_id"%string ltac:(set_solver) ltac:(done)) as [a ->].
  destruct (H "idempotency_key"%string ltac:(set_solver) ltac:(done)) as [b ->].
  destruct (H "payload_hash"%string ltac:(set_solver) ltac:(done)) as [k ->].
  destruct (H "response_json"%string ltac:(set_solver) ltac:(done)) as [e Ee]. cbn [mbind option_bind].
  case_bool_decide as Hp; [|cbn [mbind option_bind]; rewrite Ee; by eexists].
  destruct (Hrow "precondition_key"%string ltac:(set_solver) Hp) as [p ->]. cbn [mbind option_bind].
  rewrite Ee. by eexists.
Qed.

Lemma rebuilt_supported t d :
  d_legacy d = None -> d_requests d = Some t -> supported t ->
  is_Some (rebuilt (bool_decide ("precondition_key"%string ∈ columns t)) d).
Proof.
  intros Hl Ht (Hc & Hrows & Hn). unfold rebuilt, drop_retention_index. cbn [mbind option_bind].
  unfold rename_requests. cbn [d_requests d_legacy]. rewrite Hl, Ht. cbn [mbind option_bind].
  unfold create_requests. cbn [mbind option_bind d_requests default].
  unfold copy_legacy. cbn [d_requests d_legacy].
  set (wp := bool_decide ("precondition_key"%string ∈ columns t)).
  replace (forallb _ targetColumns) with true.
  2: { symmetry. apply forallb_forall. intros c Hin%list_elem_of_In.
    destruct (decide (c = "precondition_key"%string)) as [->|Hne].
    - unfold wp. destruct (bool_decide ("precondition_key"%string ∈ columns t)); [done|].
      by rewrite String.eqb_refl, orb_true_r.
    - rewrite bool_decide_eq_true_2; [done|]. by apply Hc. }
  destruct (mapM_is_Some_2 (selected wp) (rows t)) as [sel Es].
  { eapply Forall_impl; [exact Hrows|]. intros row Hrow. by eapply selected_defined. }
  rewrite Es. cbn [mbind option_bind]. apply selected_all in Es as (_ & H2 & _).
  rewrite insert_rows_distinct; [|cbn [rows app]; by rewrite H2].
  cbn [mbind option_bind]. unfold drop_legacy. cbn [d_legacy]. by eexists.
Qed.

(** ** Migration *)

Definition disk_ok (d : Disk) : Prop :=
  d_legacy d = None /\ forall t, d_requests d = Some t -> columns t <> [].

(** From [d] to [d']: nothing stored is lost. *)
Record kept (d d' : Disk) : Prop := {
  kept_legacy : d_legacy d' = None;
  kept_table : is_Some (d_intents d) -> is_Some (d_intents d');
  kept_intents : default ∅ (d_intents d') = default ∅ (d_intents d);
  kept_responses : stored_responses d' = stored_responses d;
}.

Lemma kept_trans d1 d2 d3 : kept d1 d2 -> kept d2 d3 -> kept d1 d3.
Proof. intros [] []. split; [done|auto|congruence|congruence]. Qed.

Definition migrated (d : Disk) : Prop := exists t, d_requests d = Some t /\ current t.

Definition truthful (inspected : gset string) (d : Disk) : Prop :=
  inspected = list_to_set (table_info d).

Lemma kept_refl d : d_legacy d = None -> kept d d.
Proof. done. Qed.

Lemma create_requests_kept d d' :
  d_legacy d = None -> create_requests d = Some d' ->
  kept d d' /\ stored_bindings d' = stored_bindings d /\ (d_requests d = None -> migrated d').
Proof.
  intros Hl [= <-]. unfold stored_bindings. cbn [d_requests]. split_and!.
  - split; [done|done|done|]. unfold stored_responses, stored_rows. cbn [d_requests].
    by destruct (d_requests d).
  - by destruct (d_requests d).
  - intros ->. eexists. split; [done|]. apply current_target.
Qed.

Lemma size_zero_columns (l : list string) : size (list_to_set l : gset string) = 0%nat -> l = [].
Proof. intros H. destruct l as [|c l]; [done|]. apply size_empty_inv in H. set_solver. Qed.

Lemma target_set (l : list string) :
  size (list_to_set l : gset string) = length targetColumns ->
  forallb (fun c => bool_decide (c ∈ (list_to_set l : gset string))) targetColumns = true ->
  forall c, c ∈ l <-> c ∈ targetColumns.
Proof.
  intros Hsize Hall c. assert ((list_to_set targetColumns : gset string) ⊆ list_to_set l) as Hsub.
  { intros x Hx. rewrite forallb_forall in Hall. specialize (Hall x).
    apply bool_decide_eq_true in Hall; [done|]. apply list_elem_of_In. set_solver. }
  assert ((list_to_set targetColumns : gset string) = list_to_set l) as E.
  { apply leibniz_equiv, set_subseteq_size_equiv; [done|]. rewrite Hsize. vm_compute. lia. }
  rewrite <- !(elem_of_list_to_set (C := gset string)), E. done.
Qed.

Lemma migrate_inspected_kept inspected s :
  disk_ok (on_disk s) ->
  let '(r, s') := migrate_inspected inspected s in
  kept (on_disk s) (on_disk s') /\ weakened (on_disk s) (on_disk s') /\
  (truthful inspected (on_disk s) ->
   stored_bindings (on_disk s') = stored_bindings (on_disk s) /\ (r = Ok tt -> migrated (on_disk s'))).
Proof.
  intros [Hl Hcols]. unfold migrate_inspected, truthful.
  destruct (Nat.eqb_spec (size inspected) 0) as [Hz|Hz].
  - assert (inspected = list_to_set (table_info (on_disk s)) -> d_requests (on_disk s) = None) as Hnone.
    { intros ->. apply size_zero_columns in Hz. unfold table_info in Hz.
      destruct (d_requests (on_disk s)) as [t|] eqn:Et; [|done]. by destruct (Hcols t). }
    destruct s as [d w fs]. unfold disk_exec, disk_fault. cbn [disk_faults on_disk in_tx] in *.
    destruct (create_requests_kept d _ Hl eq_refl) as (Hk & Hb & Hm).
    destruct (default NoFault (head fs)); cbn [on_disk default create_requests]; (split; [done|]);
      (split; [by apply weakened_eq|]); intros Ht; (split; [done|]); auto; done.
  - destruct (_ && _) eqn:Ec.
    + split; [by apply kept_refl|]. split; [by apply weakened_eq|]. intros ->. split; [done|]. intros _.
      apply andb_true_iff in Ec as [Hs%Nat.eqb_eq Ha]. pose proof (target_set _ Hs Ha) as Ht.
      unfold table_info in Ht. destruct (d_requests (on_disk s)) as [t|] eqn:Et; [by exists t|].
      exfalso. cbn in Ht. specialize (Ht "device_id"%string). unfold targetColumns in Ht. set_solver.
    + pose proof (rebuild_cases inspected s) as Hcase. destruct (rebuild inspected s) as [r s'].
      assert (rebuilt (sees_precondition inspected) (on_disk s) = Some (on_disk s') ->
        kept (on_disk s) (on_disk s') /\ weakened (on_disk s) (on_disk s') /\ (inspected = list_to_set (table_info (on_disk s)) ->
        stored_bindings (on_disk s') = stored_bindings (on_disk s) /\ migrated (on_disk s'))) as Hdone.
      { intros H. apply rebuilt_Some in H as (H1 & H2 & H3 & Hw & t & t' & Ht & Ht' & Hc & Hb); [|done].
        split; [by split; [|rewrite H1|rewrite H1|]|]. split; [done|]. intros Hi. split; [|by exists t']. apply Hb.
        unfold sees_precondition. apply bool_decide_ext. rewrite Hi. unfold table_info. rewrite Ht. cbn.
        apply elem_of_list_to_set. }
      destruct Hcase as [[-> H]|[[e ->] [E|H]]].
      * destruct (Hdone H) as (Hk & Hw & Hb). split; [done|]. split; [done|]. intros Hi. by destruct (Hb Hi).
      * rewrite E. split; [by apply kept_refl|]. split; [by apply weakened_eq|]. done.
      * destruct (Hdone H) as (Hk & Hw & Hb). split; [done|]. split; [done|]. intros Hi. split; [by apply Hb|done].
Qed.

(** No query ends early unnoticed. *)
Definition uncut (fs : list Fault) : Prop := Forall (fun f => forall n, f <> Cut n) fs.

(** On today's tables there is nothing to do. *)
Lemma migrate_current d w :
  is_Some (d_intents d) -> migrated d -> migrate (calm d w) = (Ok tt, calm d w).
Proof.
  intros [m Hm] (t & Ht & Hc).
  assert (create_intents d = Some d) as Ec by (unfold create_intents; rewrite Hm; destruct d; cbn in *; by subst).
  assert (disk_exec "migrate SQLite" create_intents (calm d w) = (Ok tt, calm d w)) as E1
    by (unfold disk_exec, disk_fault, calm; cbn [disk_faults on_disk in_tx head tail default]; by rewrite Ec).
  unfold migrate. unfold mbind at 1, DM_bind. rewrite E1.
  change (migrateIdempotencyTable (calm d w)) with (migrate_inspected (list_to_set (table_info d)) (calm d w)).
  assert (table_info d = columns t) as -> by (unfold table_info; by rewrite Ht). unfold migrate_inspected.
  assert ((list_to_set (columns t) : gset string) = list_to_set targetColumns) as ->.
  { apply leibniz_equiv. intros c. rewrite !elem_of_list_to_set. apply Hc. }
  replace (size (list_to_set targetColumns : gset string)) with 5%nat by (vm_compute; reflexivity).
  change (length targetColumns) with 5%nat. cbn [Nat.eqb andb].
  replace (forallb _ targetColumns) with true; [done|]. symmetry. apply forallb_forall.
  intros c Hin%list_elem_of_In. apply bool_decide_eq_true, elem_of_list_to_set. done.
Qed.

Lemma migrate_inspected_calm d w :
  disk_ok d -> (forall t, d_requests d = Some t -> supported t) ->
  fst (migrate_inspected (list_to_set (table_info d)) (calm d w)) = Ok tt.
Proof.
  intros [Hl Hcols] Hs. unfold migrate_inspected. destruct (_ =? 0)%nat eqn:Ez; [done|].
  destruct (_ && _); [done|]. destruct (d_requests d) as [t|] eqn:Et.
  2: { unfold table_info in Ez. rewrite Et in Ez. done. }
  destruct (rebuilt_supported t d Hl Et (Hs t eq_refl)) as [d' E].
  assert (sees_precondition (list_to_set (table_info d)) = bool_decide ("precondition_key"%string ∈ columns t)) as Hp.
  { unfold sees_precondition. apply bool_decide_ext. unfold table_info. rewrite Et. apply elem_of_list_to_set. }
  rewrite <- Hp in E. by rewrite (rebuild_calm _ d w d' E).
Qed.

(** What is promised of a migration from [d] under [fs] that ends in [o]. *)
Definition migration_keeps (d : Disk) (fs : list Fault) (o : result string unit * DiskState) : Prop :=
  let d' := on_disk (snd o) in
  kept d d' /\ weakened d d' /\
  (uncut fs -> stored_bindings d' = stored_bindings d /\
     (fst o = Ok tt -> is_Some (d_intents d') /\ migrated d' /\
        forall w, migrate (calm d' w) = (Ok tt, calm d' w))) /\
  (fs = [] -> (forall t, d_requests d = Some t -> supported t) -> fst o = Ok tt).

(** After the intents' table is there. *)
Record prepared (d : Disk) (s : DiskState) : Prop := {
  pr_kept : kept d (on_disk s);
  pr_requests : d_requests (on_disk s) = d_requests d;
  pr_ok : disk_ok (on_disk s);
}.

Lemma create_step d w fs :
  disk_ok d ->
  let '(r, s) := disk_exec "migrate SQLite" create_intents {| on_disk := d; in_tx := w; disk_faults := fs |} in
  prepared d s /\ disk_faults s = tail fs /\ (fs = [] -> r = Ok tt) /\
  (r = Ok tt /\ is_Some (d_intents (on_disk s)) \/ exists e, r = Err e).
Proof.
  intros [Hl Hc]. unfold disk_exec, disk_fault. cbn [disk_faults on_disk in_tx create_intents default].
  assert (prepared d {| on_disk := d; in_tx := w; disk_faults := tail fs |}) as Hsame by done.
  assert (prepared d {| on_disk := {| d_intents := Some (default ∅ (d_intents d)); d_requests := d_requests d;
    d_legacy := d_legacy d; d_retention_index := d_retention_index d |}; in_tx := w; disk_faults := tail fs |}) as Hnew.
  { split; [split; [done|by eexists|done|done]|done|done]. }
  destruct fs as [|[] fs]; cbn [head tail default on_disk in_tx disk_faults];
    (split; [done|]; split; [done|]; split; [done|]); eauto.
Qed.

Lemma inspected_keeps d s fs inspected :
  prepared d s -> is_Some (d_intents (on_disk s)) -> stored_bindings (on_disk s) = stored_bindings d ->
  (uncut fs -> truthful inspected (on_disk s)) -> (fs = [] -> disk_faults s = []) ->
  migration_keeps d fs (migrate_inspected inspected s).
Proof.
  intros [Hk Hq Hok] Hi Hb Htrue Hnil. unfold migration_keeps. cbv zeta.
  pose proof (migrate_inspected_kept inspected s Hok) as H.
  destruct (migrate_inspected inspected s) as [r s'] eqn:Em. destruct H as (Hk1 & Hw1 & Hb1). cbn [fst snd].
  split; [by eapply kept_trans|]. split; [unfold weakened; by rewrite <- Hb|]. split.
  - intros Hu. destruct (Hb1 (Htrue Hu)) as [Hb2 Hm]. split; [congruence|]. intros Hr.
    assert (is_Some (d_intents (on_disk s'))) by (by apply Hk1).
    split; [done|]. split; [by apply Hm|]. intros w'. by apply migrate_current; [|apply Hm].
  - intros Hfs Hsup. assert (uncut fs) as Hu by (subst; constructor). specialize (Htrue Hu).
    unfold truthful in Htrue. destruct s as [d1 w1 fs1]. cbn [on_disk disk_faults] in *.
    rewrite (Hnil Hfs), Htrue in Em.
    pose proof (migrate_inspected_calm d1 w1 Hok ltac:(by rewrite Hq)) as Hc. unfold calm in Hc. by rewrite Em in Hc.
Qed.

Lemma stopped_keeps d s fs e :
  kept d (on_disk s) -> stored_bindings (on_disk s) = stored_bindings d -> fs <> [] ->
  migration_keeps d fs (Err e, s).
Proof. intros Hk Hb Hfs. split; [done|]. split; [by apply weakened_eq|]. split; [by intros _|done]. Qed.

Lemma migrate_keeps d w fs :
  disk_ok d ->
  migration_keeps d fs (migrate {| on_disk := d; in_tx := w; disk_faults := fs |}).
Proof.
  intros Hd. pose proof (create_step d w fs Hd) as H1. unfold migrate. unfold mbind at 1, DM_bind.
  destruct (disk_exec "migrate SQLite" create_intents _) as [r s]. destruct H1 as (Hp & Hf & Hnil & Hr).
  assert (stored_bindings (on_disk s) = stored_bindings d) as Hb
    by (unfold stored_bindings; by rewrite (pr_requests _ _ Hp)).
  destruct Hr as [[-> Hi]|[e ->]].
  2: { apply stopped_keeps; [apply Hp|done|]. intros E. by specialize (Hnil E). }
  unfold migrateIdempotencyTable. unfold mbind, DM_bind. unfold disk_rows, disk_fault. rewrite Hf.
  set (s1 := {| on_disk := on_disk s; in_tx := in_tx s; disk_faults := tail (tail fs) |}).
  assert (prepared d s1) as Hp1 by (split; apply Hp).
  assert (forall f, head (tail fs) = Some f -> fs <> [] /\ (forall n, uncut fs -> f <> Cut n)) as Hhead.
  { intros f Eh. destruct fs as [|f0 [|f1 fs]]; [done|done|]. injection Eh as ->. split; [done|].
    intros n Hu. by inversion_clear Hu as [|? ? _ Hu']; inversion_clear Hu'. }
  assert (fs = [] -> disk_faults s1 = []) as Hs1 by (by intros ->).
  destruct (head (tail fs)) as [f|]; cbn [default from_option id]; [|by apply inspected_keeps].
  destruct (Hhead f eq_refl) as [Hne Hcut]. destruct f as [| | |n]; [by apply inspected_keeps|..].
  1,2: apply stopped_keeps; [apply Hp1|done|done].
  apply inspected_keeps; [done|done|done| |done]. intros Hu. by destruct (Hcut n Hu).
Qed.

(** ** The store on an opened database *)

(** A row of today's table, as the store reads it. *)
Definition request_row (row : gmap string string) : option (string * string * IdempotencyRow) :=
  device ← row !! "device_id"%string;
  key ← row !! "idempotency_key"%string;
  hash ← row !! "payload_hash"%string;
  precondition ← row !! "precondition_key"%string;
  response ← row !! "response_json"%string;
  Some (device, key, {| payload_hash := hash; row_precondition_key := precondition; response_json := response |}).

(** The tables of [Store] that an opened database holds. *)
Definition opened_db (d : Disk) : DB :=
  {| intents := default ∅ (d_intents d); idempotency_requests := list_to_map (omap request_row (stored_rows d)) |}.

Lemma request_row_key row k r : request_row row = Some (k, r) -> row_key row = (Some k.1, Some k.2).
Proof.
  unfold request_row, row_key. destruct (row !! "device_id"%string) as [a|]; [|done]. cbn [mbind option_bind].
  destruct (row !! "idempotency_key"%string) as [b|]; [|done]. cbn [mbind option_bind].
  destruct (row !! "payload_hash"%string); [|done]. cbn [mbind option_bind].
  destruct (row !! "precondition_key"%string); [|done]. cbn [mbind option_bind].
  destruct (row !! "response_json"%string); [|done]. by intros [= <- <-].
Qed.

Lemma request_keys_distinct l : NoDup (row_key <$> l) -> NoDup (omap request_row l).*1.
Proof.
  induction l as [|row l IH]; [constructor|]. rewrite fmap_cons. intros [Hn Hl]%NoDup_cons.
  cbn [omap list_omap]. destruct (request_row row) as [[k r]|] eqn:E; [|by apply IH].
  rewrite fmap_cons. apply NoDup_cons. split; [|by apply IH].
  intros ([k' r'] & Hk & (row' & Hin & E')%list_elem_of_omap)%list_elem_of_fmap. cbn in Hk. subst k'.
  apply Hn. apply list_elem_of_fmap. exists row'. split; [|done].
  apply request_row_key in E, E'. congruence.
Qed.

Lemma opened_lookup d row k r :
  NoDup (row_key <$> stored_rows d) -> row ∈ stored_rows d -> request_row row = Some (k, r) ->
  idempotency_requests (opened_db d) !! k = Some r.
Proof.
  intros Hn Hin E. cbn [opened_db idempotency_requests]. apply elem_of_list_to_map_1.
  - by apply request_keys_distinct.
  - apply list_elem_of_omap. by exists row.
Qed.

Lemma keys_of_responses (l l' : list (gmap string string)) : response_of <$> l = response_of <$> l' -> row_key <$> l = row_key <$> l'.
Proof.
  intros H. assert (forall l : list (gmap string string), row_key <$> l = (fun '(a, b, _, _) => (a, b)) <$> (response_of <$> l)) as E.
  { intros l0. by rewrite <- list_fmap_compose. }
  by rewrite !E, H.
Qed.

(** A row of an older table that answers [request] with [persisted]. *)
Record answers (t : Table) (row : gmap string string) (request : UpsertRequest) (persisted : persistedResult)
    (i : Intent) : Prop := {
  an_row : row ∈ rows t;
  an_device : row !! "device_id"%string = Some (req_DeviceID request);
  an_key : row !! "idempotency_key"%string = Some (req_IdempotencyKey request);
  an_hash : row !! "payload_hash"%string = Some (AddressesHash (CanonicalAddresses (req_Addresses request)));
  an_bound : bound_to t row = Some ""%string \/ bound_to t row = Some (precondition_key (req_Precondition request));
  an_response : exists text, row !! "response_json"%string = Some text /\
    Unmarshal persisted_fields zero_persisted text = (persisted, true);
  an_intent : persisted_intent persisted = Ok i;
}.

(** The answer of a replay; a row without a renewal interval, of an early
    version, takes the request's. *)
Definition answer_again (request : UpsertRequest) (persisted : persistedResult) (i : Intent) : UpsertResult :=
  {| res_Intent := i;
     res_RenewAfterSeconds := if p_RenewAfterSeconds persisted <=? 0 then req_RenewAfterSeconds request
                              else p_RenewAfterSeconds persisted;
     res_Replay := true |}.

Lemma replay_answers request persisted i r text d w :
  payload_hash r = AddressesHash (CanonicalAddresses (req_Addresses request)) ->
  row_precondition_key r = ""%string \/ row_precondition_key r = precondition_key (req_Precondition request) ->
  response_json r = text -> Unmarshal persisted_fields zero_persisted text = (persisted, true) ->
  persisted_intent persisted = Ok i ->
  idempotency_requests d !! (req_DeviceID request, req_IdempotencyKey request) = Some r ->
  exists w', UpsertIntent request (quiet d w) = (Ok (answer_again request persisted i), quiet d w').
Proof.
  intros Hh Hp Ht Hu Hi Hr. rewrite upsert_head. cbv zeta. rewrite Hr. unfold replay.
  rewrite Hh, String.eqb_refl, Ht. clear Hh.
  replace (negb (row_precondition_key r =? "")%string && _) with false.
  2: { destruct Hp as [->| ->]; [done|]. by rewrite String.eqb_refl, andb_false_r. }
  cbn [negb orb]. rewrite Hu. unfold mbind at 1, M_bind, lift. rewrite Hi. by eexists.
Qed.

(** Where the rows of [d] are those of [d'], in today's columns. *)
Lemma migrated_row d d' t row :
  kept d d' -> migrated d' -> stored_bindings d' = stored_bindings d -> d_requests d = Some t ->
  row ∈ rows t -> exists row', row' ∈ stored_rows d' /\ response_of row' = response_of row /\
    row' !! "precondition_key"%string = bound_to t row.
Proof.
  intros Hk (t' & Ht' & Hc) Hb Ht Hin. pose proof (kept_responses _ _ Hk) as Hr.
  apply list_elem_of_lookup in Hin as [n Hn].
  unfold stored_responses, stored_bindings, stored_rows in *. rewrite Ht, Ht' in *.
  cbn [fmap option_fmap option_map default from_option id] in *.
  assert ((response_of <$> rows t') !! n = Some (response_of row)) as H1 by (rewrite Hr, list_lookup_fmap, Hn; done).
  rewrite list_lookup_fmap in H1. destruct (rows t' !! n) as [row'|] eqn:En; [|done].
  exists row'. split; [by eapply list_elem_of_lookup_2|]. split; [by apply (inj Some)|].
  assert ((bound_to t' <$> rows t') !! n = Some (bound_to t row)) as H2 by (rewrite Hb, list_lookup_fmap, Hn; done).
  rewrite list_lookup_fmap, En in H2. apply (inj Some) in H2 as <-. unfold bound_to.
  rewrite bool_decide_eq_true_2; [done|]. apply Hc. unfold targetColumns. set_solver.
Qed.

Lemma migrated_answers d d' t row request persisted i w :
  kept d d' -> migrated d' -> stored_bindings d' = stored_bindings d -> d_requests d = Some t -> supported t ->
  answers t row request persisted i ->
  exists w', UpsertIntent request (quiet (opened_db d') w)
    = (Ok (answer_again request persisted i), quiet (opened_db d') w').
Proof.
  intros Hk Hm Hb Ht (_ & _ & Hn) [Hin Hd Hkey Hh Hp (text & Hx & Hu) Hi].
  destruct (migrated_row d d' t row Hk Hm Hb Ht Hin) as (row' & Hin' & Hr & Hp').
  unfold response_of in Hr. rewrite Hd, Hkey, Hh, Hx in Hr. injection Hr as Hd' Hk' Hh' Hx'.
  assert (exists pre, bound_to t row = Some pre /\
    (pre = ""%string \/ pre = precondition_key (req_Precondition request))) as (pre & Epre & Hpre)
    by (destruct Hp as [H|H]; eexists; eauto).
  rewrite Epre in Hp'.
  eapply replay_answers; [..|exact Hu|exact Hi|eapply opened_lookup; [|exact Hin'|]].
  4: { pose proof (keys_of_responses _ _ (kept_responses _ _ Hk)) as ->. unfold stored_rows. by rewrite Ht. }
  4: { unfold request_row. rewrite Hd', Hk', Hh', Hx', Hp'. reflexivity. }
  all: done.
Qed.

(** ** The property *)

(** C15: Opening a database of any older version loses nothing: whatever call
    fails and wherever it stops, every intent and every stored response stays,
    and each response keeps the precondition it is bound to or, when the rows of
    the columns' inspection end early, may be left with the empty one, which
    every precondition matches.  When that inspection is not cut short, every
    response keeps its precondition, and if the opening succeeds the tables are
    those the store works on, and opening again changes nothing.  Without faults
    it succeeds on every table it supports.  On a database so opened the store
    answers a request of the older version again with its original result. *)
Theorem migration_keeps_responses d w fs (Hd : disk_ok d) :
  let o := migrate {| on_disk := d; in_tx := w; disk_faults := fs |} in
  let d' := on_disk (snd o) in
  default ∅ (d_intents d') = default ∅ (d_intents d) /\
  stored_responses d' = stored_responses d /\
  Forall2 (fun b b' => b' = b \/ b' = Some ""%string) (stored_bindings d) (stored_bindings d') /\
  (uncut fs -> stored_bindings d' = stored_bindings d) /\
  (uncut fs -> fst o = Ok tt ->
     is_Some (d_intents d') /\ d_legacy d' = None /\ migrated d' /\
     (forall w', migrate (calm d' w') = (Ok tt, calm d' w')) /\
     forall t row request persisted i w1,
       d_requests d = Some t -> supported t -> answers t row request persisted i ->
       exists w2, UpsertIntent request (quiet (opened_db d') w1)
         = (Ok (answer_again request persisted i), quiet (opened_db d') w2)) /\
  (fs = [] -> (forall t, d_requests d = Some t -> supported t) -> fst o = Ok tt).
Proof.
  intros o d'. destruct (migrate_keeps d w fs Hd) as (Hk & Hw & Hb & Hc).
  change (on_disk (snd (migrate {| on_disk := d; in_tx := w; disk_faults := fs |}))) with d' in *.
  split; [apply Hk|]. split; [apply Hk|]. split; [exact Hw|]. split; [intros Hu; apply (Hb Hu)|]. split; [|exact Hc].
  intros Hu Hr. destruct (Hb Hu) as (Hb1 & Hm). destruct (Hm Hr) as (Hi & Hm1 & Hagain).
  split; [done|]. split; [apply Hk|]. split; [done|]. split; [done|].
  intros t row request persisted i w1 Ht Hs Ha. by eapply migrated_answers.
Qed.

(** ** A table of an earlier version *)

Definition old_row : gmap string string :=
  <["device_id" := "001"]> (<["idempotency_key" := "boot-1"]> (<["payload_hash" := "00"]>
    (<["response_json" := "{}"]> {["retain_until_ns" := "0"]})))%string.
Definition old_disk : Disk :=
  {| d_intents := Some ∅;
     d_requests := Some {| columns := ["device_id"; "idempotency_key"; "payload_hash"; "response_json";
       "retain_until_ns"]%string; rows := [old_row] |};
     d_legacy := None; d_retention_index := true |}.

Lemma old_disk_ok : disk_ok old_disk.
Proof. split; [done|]. by intros t [= <-]. Qed.

(** The reply to the commit is lost: the rows are in the new table. *)
Definition lost_reply : result string unit * DiskState :=
  migrate {| on_disk := old_disk; in_tx := old_disk; disk_faults := repeat NoFault 8 ++ [Lost] |}.

(** A response of that version, asked for again a year later. *)
Definition pilot_intent : Intent :=
  {| DeviceID := "001"; Hostname := "pi-001.kaiba.network"; Addresses := [Addr4 (8 * 2 ^ 24 + 8 * 2 ^ 16 + 8 * 2 ^ 8 + 8)];
     Generation := 1; LeaseExpiresAt := 24 * 3600 * second; UpdatedAt := 0; OriginAppliedGeneration := 0;
     PublicObservedGeneration := 0; LastPublicationError := "" |}.
Definition pilot_request : UpsertRequest :=
  {| req_DeviceID := "001"; req_Hostname := "pi-001.kaiba.network"; req_Addresses := Addresses pilot_intent;
     req_IdempotencyKey := "legacy"; req_Precondition := RequireAbsent; req_Now := 365 * 24 * 3600 * second;
     req_LeaseDuration := 24 * 3600 * second; req_RenewAfterSeconds := 10800 |}.
Definition pilot_row : gmap string string :=
  <["device_id" := "001"]> (<["idempotency_key" := "legacy"]>
    (<["payload_hash" := AddressesHash (Addresses pilot_intent)]> (<["precondition_key" := "if-none-match:*"]>
    (<["response_json" := print (persisted_json (persistIntent pilot_intent 21600))]>
    {["retain_until_ns" := "0"]}))))%string.
Definition pilot_table : Table :=
  {| columns := ["device_id"; "idempotency_key"; "payload_hash"; "precondition_key"; "response_json";
       "retain_until_ns"]%string; rows := [pilot_row] |}.
Definition pilot_disk : Disk :=
  {| d_intents := None; d_requests := Some pilot_table; d_legacy := None; d_retention_index := true |}.

Lemma pilot_supported : supported pilot_table.
Proof.
  split; [|split].
  - intros c. cbn. set_solver.
  - constructor; [|constructor]. intros c Hc _. unfold targetColumns in Hc. set_unfold.
    repeat destruct Hc as [->|Hc]; try (by eexists; reflexivity). done.
  - apply NoDup_singleton.
Qed.

Lemma migration_keeps_responses_witness :
  (is_ok (fst lost_reply) = false /\
   option_map columns (d_requests (on_disk (snd lost_reply))) = Some targetColumns /\
   stored_responses (on_disk (snd lost_reply)) = stored_responses old_disk) /\
  let o := migrate (calm pilot_disk pilot_disk) in
  exists w, UpsertIntent pilot_request (quiet (opened_db (on_disk (snd o))) empty_db)
    = (Ok {| res_Intent := pilot_intent; res_RenewAfterSeconds := 21600; res_Replay := true |},
       quiet (opened_db (on_disk (snd o))) w).
Proof.
  split.
  { split; [vm_compute; reflexivity|]. split; [vm_compute; reflexivity|].
    exact (proj1 (proj2 (migration_keeps_responses old_disk old_disk (repeat NoFault 8 ++ [Lost]) old_disk_ok))). }
  destruct (migration_keeps_responses pilot_disk pilot_disk []) as (_ & _ & _ & _ & Hopen & _).
  { split; [done|]. by intros t [= <-]. }
  destruct Hopen as (_ & _ & _ & _ & Hagain); [constructor|vm_compute; reflexivity|].
  refine (Hagain pilot_table pilot_row pilot_request (persistIntent pilot_intent 21600) pilot_intent empty_db _ _ _).
  - reflexivity.
  - exact pilot_supported.
  - split; [by left|reflexivity|reflexivity|reflexivity|by right|eexists; split; [reflexivity|vm_compute; reflexivity]|vm_compute; reflexivity].
Defined.

(** An inspection cut short after the first column's row: the precondition is
    replaced by the empty one. *)
Example cut_inspection_forgets_preconditions :
  let o := migrate {| on_disk := pilot_disk; in_tx := pilot_disk; disk_faults := [NoFault; Cut 1] |} in
  fst o = Ok tt /\ stored_bindings pilot_disk = [Some "if-none-match:*"]%string /\
  stored_bindings (on_disk (snd o)) = [Some ""]%string.
Proof. vm_compute. repeat split. Qed.

(** The columns are inspected before the transaction begins: a process that saw
    the old table and goes on after another one has migrated it, and has stored
    a response bound to a precondition, forgets that precondition. *)
Definition bound_row : gmap string string :=
  <["device_id" := "001"]> (<["idempotency_key" := "boot-2"]> (<["payload_hash" := "01"]>
    (<["precondition_key" := "generation:1"]> {["response_json" := "{}"]})))%string.

Example stale_inspection_forgets_preconditions :
  let inspected : gset string := list_to_set (table_info old_disk) in
  let other := on_disk (snd (migrate (calm old_disk old_disk))) in
  let stored := {| d_intents := d_intents other; d_legacy := d_legacy other;
                   d_retention_index := d_retention_index other;
                   d_requests := (fun t => {| columns := columns t; rows := rows t ++ [bound_row] |})
                                 <$> d_requests other |} in
  let '(r, s') := migrate_inspected inspected (calm stored stored) in
  r = Ok tt /\ stored_bindings stored = [Some ""; Some "generation:1"]%string /\
  stored_bindings (on_disk s') = [Some ""; Some ""]%string.
Proof. vm_compute. repeat split. Qed.
