(* ===== verification/Publisher.v ===== *)
(** * Package publisher: desired state to DNS

    [src/dns/internal/publisher/publisher.go], over any store with the
    [DesiredState] interface and any writer and observer with theirs
    ([dnswriter.Writer], [dnswriter.Observer]).  A service runs in a world: the
    states of its store, its DNS server and its observation servers. *)

From S2P Require Export Store.
From Stdlib Require Import String.
#[local] Open Scope Z_scope.
#[local] Abbreviation length := List.length.

(** ** Interfaces *)

Class Writer (W : Type) :=
  ReplaceAddressRRsets : string -> list Addr -> Z -> W -> result string unit * W.

Class Observer (O : Type) :=
  ObserveAddressRRsets : string -> list Addr -> O -> result string bool * O.

(** [Leadership.Acquire]: acquired or not, or an error. *)
Definition Leadership : Type := result string bool.
Definition StaticLeadership : Leadership := Ok true.

(** ** The service *)

(** [Service]; its interfaces may be nil. *)
Record Service : Type := {
  has_Store : bool;
  has_DNS : bool;
  has_Observer : bool;
  leadership : option Leadership;
  TTL : Z;
  BatchSize : Z;
}.

(** [validate] checks the service and fills in its defaults. *)
Definition validate (s : Service) : result string Service :=
  if negb (has_Store s) || negb (has_DNS s)
  then Err "desired-state store and DNS writer are required"%string else
  if TTL s =? 0 then Err "DNS TTL must be positive"%string else
  Ok {| has_Store := has_Store s; has_DNS := has_DNS s; has_Observer := has_Observer s;
        leadership := Some (default StaticLeadership (leadership s)); TTL := TTL s;
        BatchSize := if BatchSize s <=? 0 then 100 else BatchSize s |}.

Definition cloneAddresses (addresses : list Addr) : list Addr := addresses.

(** The errors a run joins. *)
Inductive Failure : Type :=
| ExpireFailed (e : StoreError)
| ListOriginFailed (e : StoreError)
| PublishFailed (deviceID : string) (g : Z) (e : string)
| MarkAppliedFailed (deviceID : string) (g : Z) (e : StoreError)
| ListObservationFailed (e : StoreError)
| ObserveFailed (deviceID : string) (g : Z) (e : string)
| MarkObservedFailed (deviceID : string) (g : Z) (e : StoreError).

Inductive RunError : Type :=
| Invalid (message : string)
| NoLeadership (message : string)
| Failures (l : list Failure).

Section run.
Context {S W O : Type} `{DesiredState S, Writer W, Observer O}.

Record World : Type := { store : S; dns : W; public : O }.

Definition with_store {A} (f : S -> A * S) (x : World) : A * World :=
  let '(a, s) := f (store x) in (a, {| store := s; dns := dns x; public := public x |}).
Definition with_dns {A} (f : W -> A * W) (x : World) : A * World :=
  let '(a, w) := f (dns x) in (a, {| store := store x; dns := w; public := public x |}).
Definition with_public {A} (f : O -> A * O) (x : World) : A * World :=
  let '(a, o) := f (public x) in (a, {| store := store x; dns := dns x; public := o |}).

(** A failed store call as a list of failures, and a successful one as none. *)
Definition failed {A} (f : StoreError -> Failure) (r : result StoreError A) : list Failure :=
  match r with Ok _ => [] | Err e => [f e] end.

(** One pending intent: write it, then mark it; or record why not. *)
Definition publish_one (ttl : Z) (intent : Intent) (x : World) : list Failure * World :=
  let d := DeviceID intent in
  let g := Generation intent in
  let '(written, x) :=
    with_dns (ReplaceAddressRRsets (Hostname intent) (cloneAddresses (Addresses intent)) ttl) x in
  match written with
  | Err e =>
      let '(_, x) := with_store (mark_publication_error d g e) x in ([PublishFailed d g e], x)
  | Ok _ =>
      let '(marked, x) := with_store (mark_origin_applied d g) x in
      (failed (MarkAppliedFailed d g) marked, x)
  end.

Definition observe_one (intent : Intent) (x : World) : list Failure * World :=
  let d := DeviceID intent in
  let g := Generation intent in
  let '(observed, x) :=
    with_public (ObserveAddressRRsets (Hostname intent) (cloneAddresses (Addresses intent))) x in
  match observed with
  | Err e => ([ObserveFailed d g e], x)
  | Ok false => ([], x)
  | Ok true =>
      let '(marked, x) := with_store (mark_publicly_observed d g) x in
      (failed (MarkObservedFailed d g) marked, x)
  end.

(** A loop over intents, collecting failures. *)
Fixpoint for_each (f : Intent -> World -> list Failure * World) (l : list Intent) (x : World)
    : list Failure * World :=
  match l with
  | [] => ([], x)
  | i :: l' =>
      let '(fs, x) := f i x in
      let '(gs, x) := for_each f l' x in
      (fs ++ gs, x)
  end.

(** The body of [RunOnce], as leader. *)
Definition publish (s : Service) (now : time) (x : World) : list Failure * World :=
  let '(expired, x) := with_store (expire_leases now) x in
  let '(pending, x) := with_store (list_origin_pending (BatchSize s)) x in
  let '(published, x) :=
    match pending with
    | Err e => ([ListOriginFailed e], x)
    | Ok l => for_each (publish_one (TTL s)) l x
    end in
  let '(observed, x) :=
    if has_Observer s then
      let '(pending, x) := with_store (list_observation_pending (BatchSize s)) x in
      match pending with
      | Err e => ([ListObservationFailed e], x)
      | Ok l => for_each observe_one l x
      end
    else ([], x) in
  (failed ExpireFailed expired ++ published ++ observed, x).

Definition RunOnce (s : Service) (now : time) (x : World) : result RunError unit * World :=
  match validate s with
  | Err e => (Err (Invalid e), x)
  | Ok s =>
      match default StaticLeadership (leadership s) with
      | Err e => (Err (NoLeadership e), x)
      | Ok false => (Ok tt, x)
      | Ok true =>
          let '(failures, x) := publish s now x in
          (match failures with [] => Ok tt | _ => Err (Failures failures) end, x)
      end
  end.

(** [Run] until the context is done: one run at once, then one per tick; each
    tick comes with its instant and what the environment did to the world
    before it.  Its result is the errors passed to [OnError]. *)
Fixpoint run_ticks (s : Service) (ticks : list (time * (World -> World))) (x : World)
    : list RunError * World :=
  match ticks with
  | [] => ([], x)
  | (now, env) :: ticks' =>
      let '(r, x) := RunOnce s now (env x) in
      let '(es, x) := run_ticks s ticks' x in
      (match r with Ok _ => es | Err e => e :: es end, x)
  end.

Definition Run (s : Service) (interval : duration) (first : time)
    (ticks : list (time * (World -> World))) (x : World) : result string (list RunError) * World :=
  if interval <=? 0 then (Err "poll interval must be positive"%string, x) else
  match validate s with
  | Err e => (Err e, x)
  | Ok s => let '(es, x) := run_ticks s ((first, id) :: ticks) x in (Ok es, x)
  end.
End run.
Arguments World : clear implicits.
