(* ===== verification/System.v ===== *)
(** * Controllers, one publisher and the zone

    The system as a step relation: any calls of controllers on the database,
    under any faults, interleaved with one publisher at the grain of its calls
    (list, write, mark), which may stop at any point and start again.  The
    invariant that makes the published status meaningful: a generation marked
    origin-applied is what the zone holds. *)

From S2P Require Export Publisher StoreTheorems.
From Stdlib Require Import String.
#[local] Open Scope Z_scope.
#[local] Abbreviation length := List.length.

(** ** The writer's contract *)

Definition WithoutZone (x : Addr) : Addr := match x with Addr6 a _ => Addr6 a "" | _ => x end.

(** The address records that publish a list. *)
Definition published (l : list Addr) : gset Addr := list_to_set ((WithoutZone ∘ Unmap) <$> l).

(** What a client may rely on of a writer: a write that succeeds leaves exactly
    the list's records at its name, a failed one leaves the old or the new
    records, and no other name changes. *)
Class WriterSpec (W : Type) `{Writer W} := {
  content : W -> string -> gset Addr;
  dns_name : string -> string;
  write_ok : forall h l ttl w w',
    ReplaceAddressRRsets h l ttl w = (Ok tt, w') -> content w' h = published l;
  write_failed : forall h l ttl w e w',
    ReplaceAddressRRsets h l ttl w = (Err e, w') ->
    content w' h = content w h \/ content w' h = published l;
  write_other : forall h l ttl w h',
    dns_name h' <> dns_name h -> content (snd (ReplaceAddressRRsets h l ttl w)) h' = content w h';
}.

(** ** The machine *)

(** Where the publisher is. *)
Inductive Pc : Type :=
| Idle
| Publishing (l : list Intent)
| Marking (i : Intent) (l : list Intent)
| Recording (i : Intent) (message : string) (l : list Intent).

Section system.
Context {W : Type} `{WriterSpec W}.

Record Sys : Type := { db : DB; zone : W; pc : Pc }.

(** Calls that only the publisher's marking step makes. *)
Definition is_mark_origin (c : Call) : bool := match c with CallMarkOrigin _ _ => true | _ => false end.

(** The database after a call under faults. *)
Definition db_after {A} (m : M A) (d : DB) (w : DB) (fs : list Fault) : DB :=
  durable (snd (m {| durable := d; work := w; faults := fs |})).

(** Hostnames the controllers issue: their DNS names are distinct. *)
Context (issued : string -> Prop).
Definition call_issued (c : Call) : Prop :=
  match c with CallUpsert r => issued (req_Hostname r) | _ => True end.

Inductive sys_step : Sys -> Sys -> Prop :=
| sys_call c d w p work_ fs :
    call_ok c -> call_issued c -> is_mark_origin c = false ->
    sys_step {| db := d; zone := w; pc := p |}
      {| db := durable (snd (call c {| durable := d; work := work_; faults := fs |}));
         zone := w; pc := p |}
| sys_list d w limit work_ fs l s' :
    ListOriginPending limit {| durable := d; work := work_; faults := fs |} = (Ok l, s') ->
    sys_step {| db := d; zone := w; pc := Idle |} {| db := durable s'; zone := w; pc := Publishing l |}
| sys_write d w i l ttl w' :
    ReplaceAddressRRsets (Hostname i) (cloneAddresses (Addresses i)) ttl w = (Ok tt, w') ->
    sys_step {| db := d; zone := w; pc := Publishing (i :: l) |} {| db := d; zone := w'; pc := Marking i l |}
| sys_write_failed d w i l ttl e w' :
    ReplaceAddressRRsets (Hostname i) (cloneAddresses (Addresses i)) ttl w = (Err e, w') ->
    sys_step {| db := d; zone := w; pc := Publishing (i :: l) |} {| db := d; zone := w'; pc := Recording i e l |}
| sys_mark d w i l work_ fs :
    sys_step {| db := d; zone := w; pc := Marking i l |}
      {| db := db_after (MarkOriginApplied (DeviceID i) (Generation i)) d work_ fs;
         zone := w; pc := Publishing l |}
| sys_record d w i e l work_ fs :
    ascii_text e = true ->
    sys_step {| db := d; zone := w; pc := Recording i e l |}
      {| db := db_after (MarkPublicationError (DeviceID i) (Generation i) e) d work_ fs;
         zone := w; pc := Publishing l |}
| sys_done d w :
    sys_step {| db := d; zone := w; pc := Publishing [] |} {| db := d; zone := w; pc := Idle |}
| sys_crash d w p :
    sys_step {| db := d; zone := w; pc := p |} {| db := d; zone := w; pc := Idle |}.

Inductive sys_reach (w0 : W) : nat -> Sys -> Prop :=
| sys_init : sys_reach w0 0 {| db := empty_db; zone := w0; pc := Idle |}
| sys_next n x y : sys_reach w0 n x -> sys_step x y -> sys_reach w0 (S n) y.

(** ** The invariant *)

(** The intents the publisher still holds. *)
Definition held (p : Pc) : list Intent :=
  match p with
  | Idle => []
  | Publishing l => l
  | Marking i l | Recording i _ l => i :: l
  end.

(** A held intent is an earlier state of its row, not yet marked. *)
Definition unmarked (a : Register) (i : Intent) : Prop :=
  exists cur, reg a !! DeviceID i = Some cur /\ later i cur /\
    OriginAppliedGeneration cur < Generation i.

Record consistent (n : nat) (a : Register) (w : W) (p : Pc) : Prop := {
  cs_sound : sound n a;
  cs_issued : forall d i, reg a !! d = Some i -> issued (Hostname i);
  cs_applied : forall d i, reg a !! d = Some i -> OriginAppliedGeneration i = Generation i ->
    content w (Hostname i) = published (Addresses i);
  cs_held : Forall (unmarked a) (held p);
  cs_devices : NoDup (DeviceID <$> held p);
  cs_written : match p with Marking i _ => content w (Hostname i) = published (Addresses i) | _ => True end;
}.

(** A call that is no mark keeps every row's applied generation. *)
Definition same_origin (a a' : Register) : Prop :=
  forall d i i', reg a !! d = Some i -> reg a' !! d = Some i' ->
    OriginAppliedGeneration i' = OriginAppliedGeneration i.

Lemma expire_listed_same_origin now l a :
  register_ok a -> l `sublist_of` in_order a -> same_origin a (expire_listed now l a).
Proof.
  intros Ha Hl d i i' Hi Hi'. rewrite expire_listed_lookup, Hi in Hi'.
  - cbn in Hi'. simplify_eq. by case_match.
  - intros d' j Hj. by apply (ok_reg a Ha).
  - eapply sublist_NoDup; [by apply in_order_devices|]. by apply fmap_sublist.
  - intros j Hj. eapply in_order_reg, elem_of_sublist; done.
Qed.

Lemma realize_origin now i :
  OriginAppliedGeneration (realize now i) = OriginAppliedGeneration i.
Proof. unfold realize. by case_match. Qed.

Lemma upsert_same_origin request a : same_origin a (snd (spec_upsert request a)).
Proof.
  intros d i i' Hi. destruct (spec_upsert_case request a) as [e|e| | |what| |c]; cbn;
    try (intros Hi'; congruence).
  - rewrite lookup_partial_alter. case_decide; [|intros; congruence]. subst.
    unfold current_intent. rewrite Hi. cbn. intros [= <-]. apply realize_origin.
  - rewrite lookup_insert. case_decide; [subst; congruence|intros; congruence].
  - rewrite lookup_insert. case_decide; [subst|intros; congruence].
    intros [= <-]. cbn. rewrite realize_origin. congruence.
Qed.

Lemma mark_same_origin d p f a :
  (forall i, OriginAppliedGeneration (f i) = OriginAppliedGeneration i) -> same_origin a (mark d p f a).
Proof.
  intros Hf d' i i' Hi Hi'. cbn in Hi'. rewrite lookup_alter in Hi'. case_decide; [subst|congruence].
  rewrite Hi in Hi'. cbn in Hi'. simplify_eq. by case_match.
Qed.

Lemma outcome_same_origin c a r a' :
  register_ok a -> call_ok c -> is_mark_origin c = false -> outcome c a r a' -> same_origin a a'.
Proof.
  intros Ha Hc Hm.
  assert (same_origin a a) as Hid by (intros d i i' ? ?; congruence).
  assert (same_origin a (snd (call c a))) as Hdone.
  { destruct c; try done.
    - apply upsert_same_origin.
    - change (same_origin a (spec_expire now a)). rewrite <- expire_listed_all by done.
      apply expire_listed_same_origin; [done|apply filter_sublist].
    - by apply mark_same_origin.
    - by apply mark_same_origin. }
  intros []; [done..|]. apply expire_listed_same_origin; [done|apply expire_first_sublist].
Qed.

Lemma outcome_issued c a r a' :
  register_ok a -> call_ok c -> rooms a -> call_issued c -> outcome c a r a' ->
  (forall d i, reg a !! d = Some i -> issued (Hostname i)) ->
  forall d i, reg a' !! d = Some i -> issued (Hostname i).
Proof.
  intros Ha Hc Hroom Hiss Ho Hall d i' Hi'.
  pose proof (outcome_moved c a r a' d Ha Hc Hroom Ho) as Hm. rewrite Hi' in Hm.
  destruct (reg a !! d) as [i|] eqn:Hi; [rewrite (moved_hostname _ _ _ Hm); by eapply Hall|].
  destruct (outcome_devices c a r a' Ha Ho) as [Hno|(request & -> & _ & E)].
  - by rewrite Hno in Hi'.
  - rewrite E, lookup_insert in Hi'. case_decide; [by simplify_eq/=|congruence].
Qed.

(** Held intents stay unmarked under a call that marks nothing. *)
Lemma unmarked_step c a r a' i :
  register_ok a -> call_ok c -> rooms a -> is_mark_origin c = false -> outcome c a r a' ->
  unmarked a i -> unmarked a' i.
Proof.
  intros Ha Hc Hroom Hno Ho (cur & Hcur & Hl & Hlt).
  pose proof (outcome_moved c a r a' (DeviceID i) Ha Hc Hroom Ho) as Hm. rewrite Hcur in Hm.
  destruct (reg a' !! DeviceID i) as [cur'|] eqn:E; [|done]. exists cur'. split; [done|].
  rewrite (outcome_same_origin c a r a' Ha Hc Hno Ho _ _ _ Hcur E).
  split; [|done]. etrans; [exact Hl|]. by exists 2.
Qed.

(** An applied row stays what the zone holds under a call that marks nothing. *)
Lemma applied_step c a r a' d i' :
  register_ok a -> call_ok c -> rooms a -> is_mark_origin c = false -> outcome c a r a' ->
  (forall d i, reg a !! d = Some i -> OriginAppliedGeneration i <= Generation i) ->
  reg a' !! d = Some i' -> OriginAppliedGeneration i' = Generation i' ->
  exists i, reg a !! d = Some i /\ OriginAppliedGeneration i = Generation i /\
    Hostname i' = Hostname i /\ Addresses i' = Addresses i.
Proof.
  intros Ha Hc Hroom Hno Ho Hle Hi' E.
  pose proof (outcome_moved c a r a' d Ha Hc Hroom Ho) as Hm. rewrite Hi' in Hm.
  destruct (reg a !! d) as [i|] eqn:Hi; [|destruct Hm as (?&?&?); lia].
  pose proof (outcome_same_origin c a r a' Ha Hc Hno Ho d i i' Hi Hi').
  pose proof (moved_generation _ _ _ Hm). specialize (Hle d i Hi).
  exists i. split_and!; [done|lia|by apply Hm|apply Hm; lia].
Qed.

Lemma consistent_rooms n a w p : consistent n a w p -> few (S n) -> rooms a.
Proof. intros Hc Hn. eapply sound_rooms; [apply Hc|unfold few in *; lia]. Qed.

Lemma consistent_origin n a w p :
  consistent n a w p -> forall d i, reg a !! d = Some i -> OriginAppliedGeneration i <= Generation i.
Proof. intros Hc d i Hi. apply (sd_progress _ _ (cs_sound _ _ _ _ Hc)) in Hi. lia. Qed.

Lemma consistent_call n a w p c r a' :
  consistent n a w p -> few (S n) -> call_ok c -> call_issued c -> is_mark_origin c = false ->
  outcome c a r a' -> consistent (S n) a' w p.
Proof.
  intros Hcon Hn Hc Hiss Hno Ho. pose proof (consistent_rooms _ _ _ _ Hcon Hn) as Hroom.
  pose proof (consistent_origin _ _ _ _ Hcon) as Hle.
  destruct Hcon as [Hs Hi Ha Hh Hd Hw]. pose proof (sd_ok _ _ Hs) as Hok. split; [..|done|done].
  - eapply step_sound; [done|unfold few in *; lia|]. exact (step_call c a r a' Hc Ho).
  - by apply (outcome_issued c a r a').
  - intros d i' Hi' E. destruct (applied_step c a r a' d i') as (i & Hi0 & E0 & -> & ->); [done..|].
    by apply (Ha d).
  - eapply Forall_impl; [exact Hh|]. intros i. by apply (unmarked_step c a r a').
Qed.

(** Forgetting part of what is held. *)
Lemma consistent_pc n a w p p' :
  consistent n a w p -> held p' `sublist_of` held p ->
  match p' with Marking i _ => content w (Hostname i) = published (Addresses i) | _ => True end ->
  consistent n a w p'.
Proof.
  intros [Hs Hi Ha Hh Hd _] Hsub Hw. split; [done|done|done| | |done].
  - rewrite Forall_forall in *. intros i Hin. eapply Hh, elem_of_sublist; done.
  - eapply sublist_NoDup; [exact Hd|]. by apply fmap_sublist.
Qed.

Lemma consistent_later n a w p : consistent n a w p -> few (S n) -> consistent (S n) a w p.
Proof.
  intros Hc Hn. apply (consistent_call n a w p (CallGet "") (fst (call (CallGet "") a)) a);
    [done|done|done|done|done|]. exact (outcome_done (CallGet "") a).
Qed.

(** Marking the intent whose addresses the zone holds. *)
Lemma consistent_mark n a w i l :
  consistent n a w (Marking i l) -> few (S n) ->
  consistent (S n) (spec_origin_applied (DeviceID i) (Generation i) a) w (Publishing l).
Proof.
  intros [Hs Hiss Ha Hh Hd Hw] Hn. set (a' := spec_origin_applied _ _ a).
  assert (forall d j', reg a' !! d = Some j' -> exists j, reg a !! d = Some j /\
    (j' = j \/ d = DeviceID i /\ Generation j = Generation i /\
     j' = intent_origin_applied (Generation i) j)) as Hrow.
  { intros d j'. unfold a', spec_origin_applied, mark. cbn [reg set_reg]. rewrite lookup_alter.
    case_decide as E; [subst d|intros; exists j'; auto].
    destruct (reg a !! DeviceID i) as [j|] eqn:Ej; cbn; [|done]. intros [= <-].
    exists j. split; [done|]. case_match eqn:Eg; [|by left]. right. simp_bool. auto. }
  cbn [held] in Hh, Hd. apply Forall_cons in Hh as [(cur & Hcur & (k & _ & Hm) & _) Hh].
  apply NoDup_cons in Hd as [Hnd Hd]. split; cbn [held]; [| | | |done|done].
  - eapply step_sound; [done|unfold few in *; lia|].
    apply (step_call (CallMarkOrigin (DeviceID i) (Generation i)) a
      (fst (call (CallMarkOrigin (DeviceID i) (Generation i)) a))); [done|].
    exact (outcome_done (CallMarkOrigin (DeviceID i) (Generation i)) a).
  - intros d j' Hj'. destruct (Hrow d j' Hj') as (j & Hj & [->|(_ & _ & ->)]); cbn; by eapply Hiss.
  - intros d j' Hj' E. destruct (Hrow d j' Hj') as (j & Hj & [->|(-> & Eg & ->)]); [by apply (Ha d)|].
    cbn. rewrite Hcur in Hj. simplify_eq.
    rewrite (moved_hostname _ _ _ Hm), (moved_addresses _ _ _ Hm Eg). exact Hw.
  - rewrite Forall_forall in *. intros j Hj. destruct (Hh j Hj) as (c & Hc & Hl & Hlt).
    exists c. split; [|done]. unfold a', spec_origin_applied, mark. cbn [reg set_reg].
    rewrite lookup_alter_ne; [done|]. intros E. apply Hnd. rewrite E. by apply list_elem_of_fmap_2.
Qed.

(** The DNS names of issued hostnames are distinct. *)
Context (dns_name_inj : forall h h', issued h -> issued h' -> dns_name h = dns_name h' -> h = h').

(** Writing the records of a held intent, whatever the answer. *)
Lemma write_keeps_applied n a w i l ttl d c :
  consistent n a w (Publishing (i :: l)) -> reg a !! d = Some c ->
  OriginAppliedGeneration c = Generation c ->
  content (snd (ReplaceAddressRRsets (Hostname i) (cloneAddresses (Addresses i)) ttl w)) (Hostname c)
  = published (Addresses c).
Proof.
  intros [Hs Hiss Ha Hh _ _] Hc E. apply Forall_cons in Hh as [(cur & Hcur & (k & _ & Hm) & Hlt) _].
  rewrite write_other; [by apply (Ha d)|]. intros En.
  rewrite <- (moved_hostname _ _ _ Hm) in En. apply dns_name_inj in En; [|by eapply Hiss..].
  assert (d = DeviceID i) as -> by (by apply (sd_names _ _ Hs d (DeviceID i) c cur)).
  rewrite Hcur in Hc. simplify_eq. pose proof (moved_generation _ _ _ Hm). lia.
Qed.

Lemma consistent_write n a w i l ttl p :
  consistent n a w (Publishing (i :: l)) ->
  let w' := snd (ReplaceAddressRRsets (Hostname i) (cloneAddresses (Addresses i)) ttl w) in
  held p = i :: l ->
  match p with Marking i _ => content w' (Hostname i) = published (Addresses i) | _ => True end ->
  consistent n a w' p.
Proof.
  intros Hcon w' Hp Hw. pose proof (write_keeps_applied n a w i l ttl) as Hk.
  split; rewrite ?Hp; try apply Hcon; [|done].
  intros d c Hc Eg. by apply (Hk d c).
Qed.

(** ** Reachable systems are consistent *)

Lemma run_call_outcome c a w fs :
  register_ok a -> call_ok c ->
  exists a', outcome c a (fst (call c {| durable := tables a; work := w; faults := fs |})) a' /\
    durable (snd (call c {| durable := tables a; work := w; faults := fs |})) = tables a'.
Proof. intros Ha Hc. by apply call_outcome. Qed.

Lemma list_pending_run a limit w fs l s' :
  register_ok a ->
  ListOriginPending limit {| durable := tables a; work := w; faults := fs |} = (Ok l, s') ->
  l = spec_list pending_origin limit a /\ durable s' = tables a.
Proof.
  intros Ha E. destruct (list_intents_Faithful origin_pending limit) as [Hf _].
  specialize (Hf {| durable := tables a; work := w; faults := fs |}).
  unfold ListOriginPending in E. rewrite E in Hf. cbn [durable work] in Hf.
  rewrite (list_refines_tables a _ pending_origin) in Hf by done.
  destruct Hf as [(E1 & E2 & _)|[[e ?] _]]; [|done]. cbn in E1, E2. by simplify_eq.
Qed.

Lemma spec_list_pending a limit i :
  register_ok a -> i ∈ spec_list pending_origin limit a ->
  reg a !! DeviceID i = Some i /\ OriginAppliedGeneration i < Generation i.
Proof.
  intros Ha [Hi Hp]%take_in%filter_in. split; [by apply in_order_reg|].
  unfold pending_origin in Hp. by simp_bool.
Qed.

Lemma consistent_list n a w limit :
  consistent n a w Idle -> consistent n a w (Publishing (spec_list pending_origin limit a)).
Proof.
  intros [Hs Hiss Ha _ _ _]. pose proof (sd_ok _ _ Hs) as Hok. split; try done; cbn [held].
  - rewrite Forall_forall. intros i Hi. destruct (spec_list_pending a limit i Hok Hi) as [Hr Hlt].
    by exists i.
  - eapply sublist_NoDup; [by apply in_order_devices|]. apply fmap_sublist. unfold spec_list.
    etrans; [apply sublist_take|apply filter_sublist].
Qed.

Lemma consistent_step n a w p y :
  consistent n a w p -> few (S n) -> sys_step {| db := tables a; zone := w; pc := p |} y ->
  exists a', db y = tables a' /\ consistent (S n) a' (zone y) (pc y).
Proof.
  intros Hcon Hn Hstep. pose proof (sd_ok _ _ (cs_sound _ _ _ _ Hcon)) as Hok.
  inversion Hstep as [c d w1 p1 work_ fs Hc Hiss Hno|d w1 limit work_ fs l s' E
    |d w1 i l ttl w' E|d w1 i l ttl e w' E|d w1 i l work_ fs|d w1 i e l work_ fs Hasc|d w1|d w1 p1];
    subst; cbn [db zone pc].
  - destruct (run_call_outcome c a work_ fs Hok Hc) as (a' & Ho & ->). exists a'. split; [done|].
    by eapply consistent_call.
  - apply list_pending_run in E as [-> ->]; [|done]. exists a. split; [done|].
    apply consistent_later; [by apply consistent_list|done].
  - exists a. split; [done|]. apply consistent_later; [|done].
    pose proof (consistent_write n a w i l ttl (Marking i l) Hcon) as Hw. rewrite E in Hw.
    apply Hw; [done|]. cbn. by eapply write_ok.
  - exists a. split; [done|]. apply consistent_later; [|done].
    pose proof (consistent_write n a w i l ttl (Recording i e l) Hcon) as Hw. rewrite E in Hw.
    by apply Hw.
  - destruct (run_call_outcome (CallMarkOrigin (DeviceID i) (Generation i)) a work_ fs Hok Logic.I)
      as (a' & Ho & E).
    exists a'. split; [exact E|]. inversion Ho; subst; try done.
    + by apply consistent_mark.
    + apply consistent_later; [|done]. eapply consistent_pc; [exact Hcon| |done].
      cbn. by apply sublist_cons.
    + by apply consistent_mark.
  - destruct (run_call_outcome (CallMarkError (DeviceID i) (Generation i) e) a work_ fs Hok Hasc)
      as (a' & Ho & E).
    exists a'. split; [exact E|]. eapply (consistent_pc _ _ _ (Recording i e l)); [| |done].
    + exact (consistent_call n a w _ (CallMarkError (DeviceID i) (Generation i) e) _ a'
        Hcon Hn Hasc I eq_refl Ho).
    + cbn. by apply sublist_cons.
  - exists a. split; [done|]. apply consistent_later; [|done].
    by eapply (consistent_pc _ _ _ (Publishing [])).
  - exists a. split; [done|]. apply consistent_later; [|done].
    eapply consistent_pc; [exact Hcon| |done]. apply sublist_nil_l.
Qed.

Lemma reach_consistent w0 n x :
  sys_reach w0 n x -> few n -> exists a, db x = tables a /\ consistent n a (zone x) (pc x).
Proof.
  induction 1 as [|n x y _ IH Hstep]; intros Hn.
  - exists empty_register. split; [done|]. split; cbn; try done; first [apply empty_sound|constructor].
  - destruct IH as (a & E & Hcon); [unfold few in *; lia|].
    destruct x as [d w p]. cbn in *. subst d. by eapply consistent_step.
Qed.

(** C1: What is marked is what is served: whatever controllers, faults and the
    single publisher do, in whatever order, a row whose current generation is
    marked origin-applied has exactly its addresses' records in the zone. *)
Theorem applied_generation_is_served w0 n x dev row :
  sys_reach w0 n x -> few n -> intents (db x) !! dev = Some row ->
  origin_applied_generation row = generation row ->
  exists l, decodeAddresses (addresses_json row) = Ok l /\
    content (zone x) (hostname row) = published l.
Proof.
  intros Hreach Hn Hd E. destruct (reach_consistent w0 n x Hreach Hn) as (a & Ea & Hcon).
  rewrite Ea in Hd. apply tables_row in Hd as (i & Hi & ->).
  pose proof (ok_reg _ (sd_ok _ _ (cs_sound _ _ _ _ Hcon)) _ _ Hi) as [Hok _].
  exists (Addresses i). split; [|by apply (cs_applied _ _ _ _ Hcon dev)].
  cbn [addresses_json row_of]. rewrite decode_encode_addresses, Canonical_id by apply Hok. done.
Qed.
End system.
