(* ===== verification/Backlog.v ===== *)
(** * The publisher's backlog

    What is left to publish, counted: the rows behind, and the addresses that
    the end of a lease can still put behind.  A run that does not clear the
    backlog works off a full batch of it. *)

From S2P Require Export System.
From Stdlib Require Import String.
#[local] Open Scope Z_scope.
#[local] Abbreviation length := List.length.

(** ** Sets of devices *)

(** The devices whose intent satisfies a test. *)
Definition devices (p : Intent -> bool) (a : Register) : gset string :=
  dom (filter (fun kv => p (snd kv) = true) (reg a)).

Lemma elem_devices p a d : d ∈ devices p a <-> exists i, reg a !! d = Some i /\ p i = true.
Proof.
  unfold devices. rewrite elem_of_dom. split.
  - intros [i [Hi Hp]%map_lookup_filter_Some]. by exists i.
  - intros (i & Hi & Hp). exists i. by apply map_lookup_filter_Some.
Qed.

Definition holding (i : Intent) : bool := negb (length (Addresses i) =? 0)%nat.

Lemma holding_iff i : holding i = true <-> Addresses i <> [].
Proof. unfold holding. by destruct (Addresses i). Qed.

(** The backlog: the rows behind, and the rows with addresses. *)
Definition backlog (a : Register) : nat :=
  (size (devices pending_origin a) + size (devices holding a))%nat.

Lemma devices_size p a : (size (devices p a) <= size (reg a))%nat.
Proof.
  rewrite <- (size_dom (reg a)). apply subseteq_size. intros d (i & Hi & _)%elem_devices.
  by eapply elem_of_dom_2.
Qed.

Lemma backlog_size a : (backlog a <= 2 * size (reg a))%nat.
Proof.
  unfold backlog. pose proof (devices_size pending_origin a). pose proof (devices_size holding a). lia.
Qed.

(** ** Expiry *)

Lemma ended_holding now i : lease_expired now i = true -> holding i = true.
Proof. unfold lease_expired, holding. intros H. simp_bool. by apply negb_true_iff. Qed.

Lemma backlog_expire now a : (backlog (spec_expire now a) <= backlog a)%nat.
Proof.
  set (ended := devices (lease_expired now) a).
  assert (ended ⊆ devices holding a) as Hsub.
  { intros d (i & Hi & He)%elem_devices. apply elem_devices. exists i. split; [done|by apply (ended_holding now)]. }
  assert (devices holding (spec_expire now a) ⊆ devices holding a ∖ ended) as Hh%subseteq_size.
  { intros d (i & Hi & Hp)%elem_devices. cbn in Hi. apply lookup_fmap_Some in Hi as (c & <- & Hc).
    unfold realize in Hp. destruct (lease_expired now c) eqn:El; [done|].
    apply elem_of_difference. split; [apply elem_devices; by exists c|].
    intros (j & Hj & Ej)%elem_devices. congruence. }
  assert (devices pending_origin (spec_expire now a) ⊆ devices pending_origin a ∪ ended) as Hp%subseteq_size.
  { intros d (i & Hi & Hp)%elem_devices. cbn in Hi. apply lookup_fmap_Some in Hi as (c & <- & Hc).
    unfold realize in Hp. apply elem_of_union.
    destruct (lease_expired now c) eqn:El; [right|left]; apply elem_devices; by exists c. }
  rewrite size_difference in Hh by done. rewrite size_union_alt in Hp.
  pose proof (subseteq_size (ended ∖ devices pending_origin a) ended ltac:(set_solver)).
  pose proof (subseteq_size _ _ Hsub). unfold backlog. lia.
Qed.

Lemma size_expire now a : size (reg (spec_expire now a)) = size (reg a).
Proof. cbn. apply map_size_fmap. Qed.

(** ** A batch *)

(** Marking a list of intents, in their state of the moment. *)
Definition mark_all : list Intent -> Register -> Register :=
  update_listed (fun i => intent_origin_applied (Generation i) i).

(** Observing changes the observed generations only. *)
Definition observed_only (a a' : Register) : Prop :=
  forall d i', reg a' !! d = Some i' -> exists i, reg a !! d = Some i /\
    OriginAppliedGeneration i' = OriginAppliedGeneration i /\ Generation i' = Generation i /\
    Addresses i' = Addresses i /\ LeaseExpiresAt i' = LeaseExpiresAt i.

Lemma observed_refl a : observed_only a a.
Proof. intros d i Hi. by exists i. Qed.

Lemma observed_trans a b c : observed_only a b -> observed_only b c -> observed_only a c.
Proof.
  intros Hab Hbc d i Hi. destruct (Hbc d i Hi) as (j & Hj & ? & ? & ? & ?).
  destruct (Hab d j Hj) as (k & Hk & ? & ? & ? & ?). exists k. split_and!; congruence.
Qed.

Lemma observed_mark a d g : observed_only a (spec_publicly_observed d g a).
Proof.
  intros d' i'. unfold spec_publicly_observed, mark. cbn. rewrite lookup_alter.
  case_decide; [subst|intros; by exists i'].
  destruct (reg a !! d') as [i|]; cbn; [|done]. intros [= <-]. exists i. by case_match.
Qed.


Lemma observed_size a a' : observed_only a a' -> (size (reg a') <= size (reg a))%nat.
Proof.
  intros Ho. rewrite <- !size_dom. apply subseteq_size. intros d [i' Hi']%elem_of_dom.
  destruct (Ho d i' Hi') as (i & Hi & _). by eapply elem_of_dom_2.
Qed.

Lemma mark_all_size l a :
  (forall i, i ∈ l -> reg a !! DeviceID i = Some i) -> NoDup (DeviceID <$> l) ->
  size (reg (mark_all l a)) = size (reg a).
Proof.
  revert a. induction l as [|i l IH]; intros a Hl Hnd; [done|]. apply NoDup_cons in Hnd as [Hi Hnd].
  unfold mark_all, update_listed in *. cbn [foldl]. rewrite IH; [|intros j Hj|done].
  - cbn [reg set_reg]. apply map_size_insert_Some. exists i. apply Hl. set_solver.
  - cbn [reg set_reg]. rewrite lookup_insert_ne; [apply Hl; set_solver|].
    intros E. apply Hi. rewrite E. by apply list_elem_of_fmap_2.
Qed.

Section batch.
Context (a : Register) (Ha : register_ok a) (limit : Z) (Hlimit : 0 < limit).
#[local] Abbreviation all := (List.filter pending_origin (in_order a)).
#[local] Abbreviation batch := (spec_list pending_origin limit a).

Lemma pending_devices : devices pending_origin a = list_to_set (DeviceID <$> all).
Proof using Ha.
  apply set_eq. intros d. rewrite elem_devices, elem_of_list_to_set, list_elem_of_fmap. split.
  - intros (i & Hi & Hp). exists i. split; [symmetry; by apply (ok_reg a Ha)|].
    apply filter_in. split; [apply in_order_elem; by exists d|done].
  - intros (i & -> & [Hi Hp]%filter_in). exists i. split; [by apply in_order_reg|done].
Qed.

Lemma all_devices : NoDup (DeviceID <$> all).
Proof using Ha. eapply sublist_NoDup; [by apply (in_order_devices a)|]. apply fmap_sublist, filter_sublist. Qed.

Lemma batch_devices : NoDup (DeviceID <$> batch).
Proof using Ha.
  eapply sublist_NoDup; [apply all_devices|]. apply fmap_sublist, sublist_take.
Qed.

Lemma pending_length : size (devices pending_origin a) = length all.
Proof using Ha. rewrite pending_devices, size_list_to_set by apply all_devices. apply length_fmap. Qed.

Lemma batch_take : batch = take (Z.to_nat limit) all.
Proof using Hlimit. unfold spec_list. by replace (limit <=? 0) with false by lia. Qed.

(** A batch holds every pending intent, or it is full. *)
Lemma batch_all_or_full :
  (forall d i, reg a !! d = Some i -> pending_origin i = true -> i ∈ batch) \/
  limit < Z.of_nat (size (devices pending_origin a)) /\ Z.of_nat (length batch) = limit.
Proof using Ha Hlimit.
  rewrite pending_length, batch_take, length_take. destruct (Z.le_gt_cases (Z.of_nat (length all)) limit).
  - left. intros d i Hi Hp. rewrite take_ge by lia. apply filter_in. split; [|done].
    apply in_order_elem. by exists d.
  - right. lia.
Qed.

(** The register after a batch was marked, and something observed. *)
Context (a' : Register) (Hobs : observed_only (mark_all batch a) a').

Lemma batch_lookup d i' :
  reg a' !! d = Some i' -> exists i, reg a !! d = Some i /\ Addresses i' = Addresses i /\
    LeaseExpiresAt i' = LeaseExpiresAt i /\ Generation i' = Generation i /\
    OriginAppliedGeneration i' = (if bool_decide (i ∈ batch) then Generation i else OriginAppliedGeneration i).
Proof using Ha Hobs.
  intros Hi'. destruct (Hobs d i' Hi') as (j & Hj & -> & -> & -> & ->).
  unfold mark_all in Hj. rewrite update_listed_lookup in Hj; [|done| |apply batch_devices|].
  2: { intros d' i Hi. by apply (ok_reg a Ha). }
  2: { intros i Hi. by apply (spec_list_pending a limit). }
  destruct (reg a !! d) as [i|]; [|done]. cbn in Hj. injection Hj as <-. exists i. by case_bool_decide.
Qed.

(** What was not pending in the batch, and only that, may be pending after it. *)
Lemma batch_pending :
  devices pending_origin a' ⊆ devices pending_origin a ∖ list_to_set (DeviceID <$> batch).
Proof using Ha Hobs.
  intros d (i' & Hi' & Hp)%elem_devices. destruct (batch_lookup d i' Hi') as (i & Hi & _ & _ & Hg & Ho).
  unfold pending_origin in Hp. rewrite Hg, Ho in Hp. case_bool_decide as Hin; [simp_bool; lia|].
  apply elem_of_difference. split; [apply elem_devices; by exists i|].
  rewrite elem_of_list_to_set, list_elem_of_fmap. intros (j & -> & Hj). apply Hin.
  destruct (spec_list_pending a limit j Ha Hj) as [Hj' _]. rewrite Hj' in Hi. by injection Hi as <-.
Qed.

Lemma batch_holding : devices holding a' ⊆ devices holding a.
Proof using Ha Hobs.
  intros d (i' & Hi' & Hp)%elem_devices. destruct (batch_lookup d i' Hi') as (i & Hi & Hl & _).
  apply elem_devices. exists i. split; [done|]. unfold holding in *. by rewrite <- Hl.
Qed.

(** A full batch works off as much of the backlog. *)
Lemma batch_progress :
  Z.of_nat (length batch) = limit ->
  Z.of_nat (backlog a') + limit <= Z.of_nat (backlog a).
Proof using Ha Hobs.
  intros Hfull. pose proof (subseteq_size _ _ batch_pending) as Hp.
  pose proof (subseteq_size _ _ batch_holding) as Hh.
  assert (list_to_set (DeviceID <$> batch) ⊆ devices pending_origin a) as Hsub.
  { intros d. rewrite elem_of_list_to_set, list_elem_of_fmap. intros (i & -> & Hi).
    apply elem_devices. exists i. split; [by apply (spec_list_pending a limit)|].
    by apply take_in, filter_in in Hi as [_ Hi]. }
  rewrite size_difference in Hp by done. pose proof (subseteq_size _ _ Hsub) as Hle.
  rewrite size_list_to_set, length_fmap in Hp, Hle by apply batch_devices. unfold backlog. lia.
Qed.
End batch.

(** Registers with the same tables have the same backlog. *)
Lemma backlog_tables a a' :
  register_ok a -> tables a = tables a' -> (backlog a <= backlog a')%nat.
Proof.
  intros Ha E.
  assert (forall d i, reg a !! d = Some i -> exists i', reg a' !! d = Some i' /\ row_of i = row_of i') as Hrow.
  { intros d i Hi. assert (intents (tables a) !! d = Some (row_of i)) as Hd by (by rewrite tables_lookup, Hi).
    rewrite E in Hd. by apply tables_row in Hd. }
  assert (forall p, (forall i i', intent_ok i -> row_of i = row_of i' -> p i = true -> p i' = true) ->
    devices p a ⊆ devices p a') as Hsub.
  { intros p Hp d (i & Hi & Hpi)%elem_devices. destruct (Hrow d i Hi) as (i' & Hi' & Er).
    apply elem_devices. exists i'. split; [done|]. apply (Hp i); [by apply (ok_reg a Ha d)|done|done]. }
  unfold backlog. apply Nat.add_le_mono; apply subseteq_size, Hsub; intros i i' Hi Er.
  - pose proof (f_equal generation Er) as Eg. pose proof (f_equal origin_applied_generation Er) as Eo.
    cbn in Eg, Eo. unfold pending_origin. by rewrite Eg, Eo.
  - pose proof (f_equal addresses_json Er) as Ej. cbn [row_of addresses_json] in Ej. rewrite !holding_iff.
    intros Hne Hi'. apply Hne. pose proof (encode_empty_iff (Addresses i) (ok_addrs _ Hi)) as He.
    rewrite Ej, Hi' in He. by case_bool_decide.
Qed.
