(* ===== verification/PublisherTheorems.v ===== *)
(** * Publication runs

    [RunOnce] over the SQLite store is a run of the system's machine, and the
    polling loop, while nothing fails, leaves nothing unpublished. *)

From S2P Require Export Backlog.
From Stdlib Require Import String.
#[local] Open Scope Z_scope.
#[local] Abbreviation length := List.length.

(** ** Runs of the machine *)

Section runs.
Context {W O : Type} `{WriterSpec W, Observer O} (issued : string -> Prop).

Inductive sys_run : nat -> Sys (W := W) -> Sys (W := W) -> Prop :=
| run_nil x : sys_run 0 x x
| run_cons k x y z : sys_step issued x y -> sys_run k y z -> sys_run (S k) x z.

Lemma sys_run_app k l x y z : sys_run k x y -> sys_run l y z -> sys_run (k + l) x z.
Proof. induction 1; intros; [done|]. cbn. econstructor; eauto. Qed.

Lemma sys_run_one x y : sys_step issued x y -> sys_run 1 x y.
Proof. intros. econstructor; [done|constructor]. Qed.

Lemma sys_run_reach w0 n k x y :
  sys_reach issued w0 n x -> sys_run k x y -> sys_reach issued w0 (n + k) y.
Proof.
  intros Hx Hr. revert n Hx. induction Hr as [x|k x y z Hs _ IH]; intros n Hx.
  - by rewrite Nat.add_0_r.
  - rewrite Nat.add_succ_r. apply (IH (S n)). by econstructor.
Qed.

(** At most [k] steps. *)
Definition sys_within (k : nat) (x y : Sys) : Prop := exists j, (j <= k)%nat /\ sys_run j x y.

Lemma within_app k l x y z : sys_within k x y -> sys_within l y z -> sys_within (k + l) x z.
Proof. intros (i & ? & ?) (j & ? & ?). exists (i + j)%nat. split; [lia|]. by eapply sys_run_app. Qed.

Lemma within_one x y : sys_step issued x y -> sys_within 1 x y.
Proof. exists 1%nat. split; [lia|]. by apply sys_run_one. Qed.

Lemma within_le k l x y : (k <= l)%nat -> sys_within k x y -> sys_within l x y.
Proof. intros ? (j & ? & ?). exists j. split; [lia|done]. Qed.

(** ** The service's calls as steps *)

Definition at_ (x : World TxState W O) (p : Pc) : Sys :=
  {| db := durable (store x); zone := dns x; pc := p |}.

Lemma call_step {A} (f : A -> Reply) (m : TxState -> result StoreError A * TxState) c x p r x' :
  (forall s, call c s = reply_of f (m s)) ->
  call_ok c -> call_issued issued c -> is_mark_origin c = false ->
  with_store m x = (r, x') -> sys_step issued (at_ x p) (at_ x' p).
Proof.
  intros Hm Hok Hiss Hno E. unfold with_store in E. destruct (m (store x)) as [r0 s0] eqn:Em.
  injection E as -> <-. unfold at_. cbn [store dns].
  pose proof (sys_call issued c (durable (store x)) (dns x) p (work (store x)) (faults (store x))
    Hok Hiss Hno) as Hs.
  replace {| durable := durable (store x); work := work (store x); faults := faults (store x) |}
    with (store x) in Hs by (by destruct (store x)).
  rewrite Hm in Hs. unfold reply_of in Hs. by rewrite Em in Hs.
Qed.

Lemma list_length p limit s l s' :
  list_intents p limit s = (Ok l, s') -> (length l <= Z.to_nat (if limit <=? 0 then 100 else limit)%Z)%nat.
Proof.
  unfold list_intents. rewrite run_bind. destruct (auto_query _ _ s) as [[rows|] s1] eqn:E; [|done].
  rewrite run_lift. intros [= El _].
  assert (length l = length rows) as ->.
  { clear E. revert l El. induction rows as [|row rows IH]; intros l El; cbn in El; [by simplify_eq|].
    destruct (scanIntent row); [|done]. destruct (map_result scanIntent rows) eqn:Er; [|done].
    simplify_eq. cbn. f_equal. by apply IH. }
  unfold auto_query in E. destruct (next_fault s) as [[] ?]; simplify_eq.
  rewrite length_take. lia.
Qed.

Lemma list_step limit (x : World TxState W O) l x' :
  with_store (list_origin_pending limit) x = (Ok l, x') ->
  sys_step issued (at_ x Idle) (at_ x' (Publishing l)).
Proof.
  unfold with_store. destruct (list_origin_pending limit (store x)) as [r s] eqn:E.
  intros [= -> <-]. unfold at_. cbn [store dns].
  apply (sys_list issued _ _ limit (work (store x)) (faults (store x))).
  replace {| durable := durable (store x); work := work (store x); faults := faults (store x) |}
    with (store x) by (by destruct (store x)).
  exact E.
Qed.

Context (write_error_text : forall h l ttl (w : W) e w',
  ReplaceAddressRRsets h l ttl w = (Err e, w') -> ascii_text e = true).

Lemma publish_one_run ttl i l (x : World TxState W O) fs x' :
  publish_one ttl i x = (fs, x') ->
  sys_within 2 (at_ x (Publishing (i :: l))) (at_ x' (Publishing l)).
Proof.
  unfold publish_one, with_dns. destruct (ReplaceAddressRRsets _ _ _ (dns x)) as [[[]|e] w] eqn:Ew.
  - unfold with_store. cbn [store dns]. destruct (mark_origin_applied _ _ _) as [r s] eqn:Em.
    intros [= _ <-]. eapply (within_app 1 1); apply within_one; [by eapply sys_write|].
    unfold at_. cbn [store dns public].
    pose proof (sys_mark issued (durable (store x)) w i l (work (store x)) (faults (store x))) as Hs.
    unfold db_after in Hs.
    replace {| durable := durable (store x); work := work (store x); faults := faults (store x) |}
      with (store x) in Hs by (by destruct (store x)).
    cbn [mark_origin_applied SQLite] in Em. by rewrite Em in Hs.
  - unfold with_store. cbn [store dns]. destruct (mark_publication_error _ _ _ _) as [r s] eqn:Em.
    intros [= _ <-]. eapply (within_app 1 1); apply within_one; [by eapply sys_write_failed|].
    unfold at_. cbn [store dns public].
    pose proof (sys_record issued (durable (store x)) w i e l (work (store x)) (faults (store x))
      (write_error_text _ _ _ _ _ _ Ew)) as Hs.
    unfold db_after in Hs.
    replace {| durable := durable (store x); work := work (store x); faults := faults (store x) |}
      with (store x) in Hs by (by destruct (store x)).
    cbn [mark_publication_error SQLite] in Em. by rewrite Em in Hs.
Qed.

Lemma publish_each_run ttl l (x : World TxState W O) fs x' :
  for_each (publish_one ttl) l x = (fs, x') ->
  sys_within (2 * length l) (at_ x (Publishing l)) (at_ x' (Publishing [])).
Proof.
  revert x fs. induction l as [|i l IH]; intros x fs E.
  - cbn in E. simplify_eq. by exists 0%nat; repeat constructor.
  - cbn [for_each] in E. destruct (publish_one ttl i x) as [fs1 x1] eqn:E1.
    destruct (for_each _ l x1) as [fs2 x2] eqn:E2. simplify_eq.
    apply (within_le (2 + 2 * length l)); [cbn; lia|].
    eapply within_app; [by eapply publish_one_run|by eapply IH].
Qed.

Lemma observe_one_run i (x : World TxState W O) fs x' p :
  observe_one i x = (fs, x') -> sys_within 1 (at_ x p) (at_ x' p).
Proof.
  unfold observe_one, with_public. destruct (ObserveAddressRRsets _ _ _) as [[[]|e] o].
  - destruct (with_store _ _) as [r x1] eqn:E. intros [= _ <-]. apply within_one.
    change (at_ x p) with (at_ {| store := store x; dns := dns x; public := o |} p).
    eapply (call_step (fun _ => ReplyDone) _ (CallMarkObserved (DeviceID i) (Generation i)));
      [|done|done|done|exact E]. done.
  - intros [= _ <-]. exists 0%nat. split; [lia|constructor].
  - intros [= _ <-]. exists 0%nat. split; [lia|constructor].
Qed.

Lemma observe_each_run l (x : World TxState W O) fs x' p :
  for_each observe_one l x = (fs, x') -> sys_within (length l) (at_ x p) (at_ x' p).
Proof.
  revert x fs. induction l as [|i l IH]; intros x fs E.
  - cbn in E. simplify_eq. by exists 0%nat; repeat constructor.
  - cbn [for_each] in E. destruct (observe_one i x) as [fs1 x1] eqn:E1.
    destruct (for_each _ l x1) as [fs2 x2] eqn:E2. simplify_eq.
    apply (within_app 1 (length l) _ (at_ x1 p)); [by eapply observe_one_run|by eapply IH].
Qed.

(** The steps a run may take: an expiry, two lists, two calls per pending intent,
    one per observed one, and the end. *)
Definition run_bound (s : Service) : nat := 3 * Z.to_nat (BatchSize s) + 4.

Lemma publish_run s now (x : World TxState W O) fs x' :
  0 < BatchSize s -> int64_range now -> publish s now x = (fs, x') ->
  sys_within (run_bound s) (at_ x Idle) (at_ x' Idle).
Proof.
  intros Hb Hnow. unfold publish.
  destruct (with_store (expire_leases now) x) as [expired x1] eqn:E1.
  destruct (with_store (list_origin_pending _) x1) as [pending x2] eqn:E2.
  destruct (match pending with Ok l => _ | Err e => _ end) as [published_ x3] eqn:E3.
  destruct (if has_Observer s then _ else _) as [observed x4] eqn:E4. intros [= _ <-].
  assert (sys_within 1 (at_ x Idle) (at_ x1 Idle)) as R1
    by (apply within_one; eapply (call_step ReplyIntents _ (CallExpire now));
        [|done|done|done|exact E1]; done).
  assert (sys_within (2 + 2 * Z.to_nat (BatchSize s)) (at_ x1 Idle) (at_ x3 Idle)) as R2.
  { destruct pending as [l|e]; simplify_eq.
    - assert (length l <= Z.to_nat (BatchSize s))%nat as Hl.
      { unfold with_store in E2. destruct (list_origin_pending _ _) as [r s2] eqn:El. simplify_eq.
        apply list_length in El. by rewrite (proj2 (Z.leb_gt _ _)) in El by lia. }
      apply (within_le (1 + (2 * length l + 1))); [lia|].
      eapply within_app; [apply within_one; by eapply list_step|].
      eapply within_app; [by eapply publish_each_run|]. apply within_one, sys_done.
    - apply (within_le 1); [lia|]. apply within_one.
      eapply (call_step ReplyIntents _ (CallListOrigin (BatchSize s))); [|done|done|done|exact E2]; done. }
  assert (sys_within (1 + Z.to_nat (BatchSize s)) (at_ x3 Idle) (at_ x4 Idle)) as R3.
  { destruct (has_Observer s); [|simplify_eq; exists 0%nat; split; [lia|constructor]].
    destruct (with_store (list_observation_pending _) x3) as [pend y] eqn:E5.
    eapply within_app.
    - apply within_one. eapply (call_step ReplyIntents _ (CallListObservation (BatchSize s)));
        [|done|done|done|exact E5]; done.
    - destruct pend as [l|e]; simplify_eq; [|exists 0%nat; split; [lia|constructor]].
      assert (length l <= Z.to_nat (BatchSize s))%nat as Hl.
      { unfold with_store in E5. destruct (list_observation_pending _ _) as [r s2] eqn:El. simplify_eq.
        apply list_length in El. by rewrite (proj2 (Z.leb_gt _ _)) in El by lia. }
      apply (within_le (length l)); [done|]. by eapply observe_each_run. }
  apply (within_le (1 + ((2 + 2 * Z.to_nat (BatchSize s)) + (1 + Z.to_nat (BatchSize s)))));
    [unfold run_bound; lia|].
  eapply within_app; [exact R1|]. by eapply within_app.
Qed.

(** ** A run without faults *)

Definition world (a : Register) (w : DB) (z : W) (o : O) : World TxState W O :=
  {| store := quiet (tables a) w; dns := z; public := o |}.

(** Marking the current state of a row. *)
Lemma mark_current a i :
  reg a !! DeviceID i = Some i ->
  spec_origin_applied (DeviceID i) (Generation i) a
  = set_reg (insert (DeviceID i) (intent_origin_applied (Generation i) i)) a.
Proof.
  intros Hi. unfold spec_origin_applied, mark, set_reg. f_equal. apply map_eq. intros d.
  rewrite lookup_insert. case_decide as E; [subst d|by rewrite lookup_alter_ne].
  by rewrite lookup_alter_eq, Hi; cbn; rewrite Z.eqb_refl.
Qed.

Lemma publish_one_ok ttl i a w z o :
  fst (ReplaceAddressRRsets (Hostname i) (Addresses i) ttl z) = Ok tt ->
  reg a !! DeviceID i = Some i ->
  exists z', publish_one ttl i (world a w z o)
    = ([], world (set_reg (insert (DeviceID i) (intent_origin_applied (Generation i) i)) a) w z' o).
Proof.
  intros Hz Ha. unfold publish_one, with_dns. cbn [dns world]. unfold cloneAddresses.
  destruct (ReplaceAddressRRsets _ _ _ z) as [r z1]. cbn in Hz. subst r.
  unfold with_store. cbn [store dns public mark_origin_applied SQLite world].
  rewrite MarkOriginApplied_refines_tables, mark_current by done. by exists z1.
Qed.

Lemma publish_each_ok ttl l a w z o :
  (forall i z, i ∈ l -> fst (ReplaceAddressRRsets (Hostname i) (Addresses i) ttl z) = Ok tt) ->
  NoDup (DeviceID <$> l) -> (forall i, i ∈ l -> reg a !! DeviceID i = Some i) ->
  exists z', for_each (publish_one ttl) l (world a w z o) = ([], world (mark_all l a) w z' o).
Proof.
  revert a z. induction l as [|i l IH]; intros a z Hok Hnd Ha; [by exists z|].
  apply NoDup_cons in Hnd as [Hi Hnd]. cbn [for_each].
  destruct (publish_one_ok ttl i a w z o) as [z1 ->]; [apply Hok; set_solver|apply Ha; set_solver|].
  destruct (IH (set_reg (insert (DeviceID i) (intent_origin_applied (Generation i) i)) a) z1)
    as [z2 E].
  - intros j zj Hj. apply Hok. set_solver.
  - done.
  - intros j Hj. cbn. rewrite lookup_insert_ne; [apply Ha; set_solver|].
    intros E. apply Hi. rewrite E. by apply list_elem_of_fmap_2.
  - rewrite E. by exists z2.
Qed.

Lemma observe_one_ok i a w z o :
  exists fs a' o', observe_one i (world a w z o) = (fs, world a' w z o') /\ observed_only a a'.
Proof.
  unfold observe_one, with_public. cbn [public world].
  destruct (ObserveAddressRRsets _ _ o) as [[[]|e] o'].
  - unfold with_store. cbn [store dns public mark_publicly_observed SQLite world].
    rewrite MarkPubliclyObserved_refines_tables.
    eexists _, (spec_publicly_observed (DeviceID i) (Generation i) a), o'.
    split; [reflexivity|apply observed_mark].
  - exists [], a, o'. split; [done|apply observed_refl].
  - eexists _, a, o'. split; [reflexivity|apply observed_refl].
Qed.

Lemma observe_each_ok l a w z o :
  exists fs a' o', for_each observe_one l (world a w z o) = (fs, world a' w z o') /\
    observed_only a a'.
Proof.
  revert a o. induction l as [|i l IH]; intros a o.
  - exists [], a, o. split; [done|apply observed_refl].
  - cbn [for_each]. destruct (observe_one_ok i a w z o) as (fs & a1 & o1 & -> & Ho1).
    destruct (IH a1 o1) as (fs2 & a2 & o2 & -> & Ho2). eexists _, a2, o2.
    split; [done|]. by eapply observed_trans.
Qed.

(** The observations of a run change observed generations only. *)
Lemma observe_batch s a w z o :
  exists fs a' o', (if has_Observer s
     then let '(pending, x) := with_store (list_observation_pending (BatchSize s)) (world a w z o) in
          match pending with Ok l => for_each observe_one l x
          | Err e => ([ListObservationFailed e], x) end
     else ([], world a w z o)) = (fs, world a' w z o') /\ observed_only a a'.
Proof.
  destruct (has_Observer s); [|eexists [], _, o; split; [done|apply observed_refl]].
  unfold with_store. cbn [store dns public list_observation_pending SQLite world].
  unfold ListObservationPending, list_intents. tx.
  destruct (map_result scanIntent _) as [l|e].
  - apply (observe_each_ok l a w z o).
  - eexists _, _, o. split; [done|apply observed_refl].
Qed.

(** A register whose rows are all marked, with the leases ended at [now] withdrawn. *)
Definition settled (now : time) (a : Register) : Prop :=
  forall d i, reg a !! d = Some i -> OriginAppliedGeneration i >= Generation i /\
    (LeaseExpiresAt i <= now -> Addresses i = []).

(** A fault-free leader run, when every write succeeds: it settles the register,
    or it works off a full batch of the backlog. *)
Lemma publish_batch s now a w z o :
  register_ok a -> int64_range now -> 0 < BatchSize s ->
  (forall d i z, reg (spec_expire now a) !! d = Some i ->
     fst (ReplaceAddressRRsets (Hostname i) (Addresses i) (TTL s) z) = Ok tt) ->
  exists fs a' w' z' o', publish s now (world a w z o) = (fs, world a' w' z' o') /\
    (size (reg a') <= size (reg a))%nat /\
    (settled now a' \/
     BatchSize s < Z.of_nat (size (reg a)) /\ BatchSize s < Z.of_nat (backlog a) /\
     Z.of_nat (backlog a') + BatchSize s <= Z.of_nat (backlog a)).
Proof.
  intros Ha Hnow Hb Hwrites. set (a1 := spec_expire now a).
  assert (register_ok a1) as Ha1 by (by apply spec_expire_ok).
  set (l := spec_list pending_origin (BatchSize s) a1).
  assert (forall i, i ∈ l -> reg a1 !! DeviceID i = Some i) as Hl
    by (intros i Hi; by apply (spec_list_pending a1 (BatchSize s))).
  assert (NoDup (DeviceID <$> l)) as Hnd by (by apply batch_devices).
  unfold publish. unfold with_store at 1. cbn [store dns public expire_leases SQLite world].
  destruct (ExpireLeases_refines_tables a now w Ha Hnow) as [w1 ->]. fold a1.
  cbv beta iota zeta. unfold with_store at 1. cbn [store dns public list_origin_pending SQLite].
  unfold ListOriginPending. rewrite (list_refines_tables a1 _ pending_origin) by done.
  cbv beta iota zeta. fold l.
  destruct (publish_each_ok (TTL s) l a1 w1 z o) as [z1 E]; [|done|done|].
  { intros i z0 Hi. by apply (Hwrites (DeviceID i)), Hl. }
  unfold world in E. rewrite E. clear E.
  destruct (observe_batch s (mark_all l a1) w1 z1 o) as (fs & a' & o' & E & Hobs).
  eexists _, a', w1, z1, o'. split; [unfold world in E; rewrite E; done|].
  assert (size (reg (mark_all l a1)) = size (reg a)) as Hsize
    by (rewrite mark_all_size by done; apply size_expire).
  split; [rewrite <- Hsize; by apply observed_size|].
  destruct (batch_all_or_full a1 Ha1 (BatchSize s) Hb) as [Hall|[Hmore Hfull]].
  - left. intros d i' Hi'. destruct (batch_lookup a1 Ha1 (BatchSize s) a' Hobs d i' Hi')
      as (i & Hi & -> & -> & -> & ->). split.
    + case_bool_decide as Hin; [lia|]. destruct (pending_origin i) eqn:Ep.
      * by destruct Hin; apply (Hall d).
      * unfold pending_origin in Ep. simp_bool. lia.
    + cbn in Hi. apply lookup_fmap_Some in Hi as (c & <- & _). rewrite realize_lease. apply realized_addresses.
  - right. pose proof (batch_progress a1 Ha1 (BatchSize s) a' Hobs Hfull) as Hp.
    pose proof (backlog_expire now a) as He. fold a1 in He.
    pose proof (devices_size pending_origin a1) as Hd. unfold a1 in Hd at 2. rewrite size_expire in Hd.
    unfold backlog in He at 1. split; [lia|]. split; [lia|]. unfold backlog in He, Hp |- *. lia.
Qed.

Lemma RunOnce_leader s now (x : World TxState W O) r x' :
  RunOnce s now x = (r, x') ->
  x' = x \/ exists s' fs, validate s = Ok s' /\ 0 < BatchSize s' /\ publish s' now x = (fs, x').
Proof.
  unfold RunOnce. destruct (validate s) as [s'|e] eqn:Ev; [|intros; left; by simplify_eq].
  assert (0 < BatchSize s') as Hb.
  { unfold validate in Ev. repeat case_match; simplify_eq/=; lia. }
  destruct (default _ _) as [[]|e]; [|intros; left; by simplify_eq..].
  destruct (publish s' now x) as [fs y] eqn:Ep. intros [= _ <-]. right. by exists s', fs.
Qed.

(** C23: A publication run is a run of the system: over the SQLite store, under
    any faults of the database and any answers of the writer and the observer,
    [RunOnce] takes the database and the zone through steps of the system's
    machine from idle to idle, within a bound set by the batch size. *)
Theorem RunOnce_is_system_run s now (x : World TxState W O) r x' :
  int64_range now -> RunOnce s now x = (r, x') ->
  sys_within (3 * Z.to_nat (if BatchSize s <=? 0 then 100 else BatchSize s) + 4)
    (at_ x Idle) (at_ x' Idle).
Proof.
  intros Hnow [->|(s' & fs & Hv & Hb & E)]%RunOnce_leader.
  - exists 0%nat. split; [lia|constructor].
  - apply (publish_run s' now x fs x' Hb Hnow) in E. unfold run_bound in E.
    replace (BatchSize s') with (if BatchSize s <=? 0 then 100 else BatchSize s) in E; [done|].
    unfold validate in Hv. by repeat (case_match; try done); simplify_eq/=.
Qed.

Context (dns_name_inj : forall h h', issued h -> issued h' -> dns_name h = dns_name h' -> h = h').

(** Every row is marked and served, and the leases ended at [now] withdrawn. *)
Definition all_served (now : time) (a : Register) (z : W) : Prop :=
  forall dev i, reg a !! dev = Some i -> intent_ok i /\
    OriginAppliedGeneration i = Generation i /\ content z (Hostname i) = published (Addresses i) /\
    (LeaseExpiresAt i <= now -> Addresses i = []).

Lemma settled_served n a a' z now :
  consistent issued n a z Idle -> tables a' = tables a -> settled now a' -> all_served now a z.
Proof.
  intros Hcon Ea Hend dev i Hi.
  pose proof (ok_reg _ (sd_ok _ _ (cs_sound _ _ _ _ _ Hcon)) _ _ Hi) as [Hok _].
  pose proof (sd_progress _ _ (cs_sound _ _ _ _ _ Hcon) _ _ Hi) as Hp.
  assert (intents (tables a) !! dev = Some (row_of i)) as Hd by (rewrite tables_lookup; by rewrite Hi).
  rewrite <- Ea in Hd. destruct (tables_row a' dev _ Hd) as (i' & Hi' & Er').
  destruct (Hend dev i' Hi') as [Hge Hexp].
  pose proof (f_equal addresses_json Er') as Ej. pose proof (f_equal generation Er') as Eg.
  pose proof (f_equal lease_expires_ns Er') as El.
  pose proof (f_equal origin_applied_generation Er') as Eo.
  cbn [row_of origin_applied_generation generation addresses_json hostname lease_expires_ns] in *.
  assert (OriginAppliedGeneration i = Generation i) as E by lia. split; [done|]. split; [done|].
  split; [by apply (cs_applied _ _ _ _ _ Hcon dev)|]. intros Hl.
  rewrite Hexp in Ej by lia. pose proof (encode_empty_iff (Addresses i) (ok_addrs _ Hok)) as He.
  rewrite Ej in He. by case_bool_decide.
Qed.

Lemma tables_size a : size (intents (tables a)) = size (reg a).
Proof. unfold tables. cbn. apply map_size_fmap. Qed.

(** ** The polling loop while nothing fails *)

(** The loop's ticks when nothing else touches the world. *)
Definition ticks_at (nows : list time) : list (time * (World TxState W O -> World TxState W O)) :=
  (fun now => (now, id)) <$> nows.

Section polling.
Context (s s' : Service) (Hv : validate s = Ok s') (Hlead : leadership s' = Some (Ok true)).
Context (Hup : forall h l z, issued h -> fst (ReplaceAddressRRsets h l (TTL s') z) = Ok tt).

(** One run: all is served, or a full batch of the backlog is gone. *)
Lemma RunOnce_step w0 n d wk z o now :
  sys_reach issued w0 n {| db := d; zone := z; pc := Idle |} -> few (n + run_bound s') -> int64_range now ->
  exists r z' o' wk' a a', RunOnce s now {| store := quiet d wk; dns := z; public := o |}
      = (r, world a' wk' z' o') /\ d = tables a /\ register_ok a /\ register_ok a' /\
    sys_within (run_bound s') {| db := d; zone := z; pc := Idle |} {| db := tables a'; zone := z'; pc := Idle |} /\
    (size (reg a') <= size (reg a))%nat /\
    (all_served now a' z' \/
     BatchSize s' < Z.of_nat (size (reg a)) /\ BatchSize s' < Z.of_nat (backlog a) /\
     Z.of_nat (backlog a') + BatchSize s' <= Z.of_nat (backlog a)).
Proof using Type*.
  intros Hreach Hn Hnow.
  destruct (reach_consistent issued dns_name_inj w0 n _ Hreach) as (a & Ea & Hcon);
    [unfold few in *; lia|]. cbn in Ea. subst d.
  pose proof (sd_ok _ _ (cs_sound _ _ _ _ _ Hcon)) as Ha.
  assert (0 < BatchSize s') as Hb by (unfold validate in Hv; repeat case_match; simplify_eq/=; lia).
  destruct (publish_batch s' now a wk z o) as (fs & a' & w' & z' & o' & Ep & Hsize & Hend); try done.
  { intros d i z0 Hi. apply Hup. cbn in Hi. apply lookup_fmap_Some in Hi as (c & <- & Hc).
    replace (Hostname (realize now c)) with (Hostname c) by (unfold realize; by case_match).
    by apply (cs_issued _ _ _ _ _ Hcon d). }
  unfold RunOnce. rewrite Hv, Hlead. cbn [default from_option id].
  change {| store := quiet (tables a) wk; dns := z; public := o |} with (world a wk z o).
  rewrite Ep.
  pose proof (publish_run s' now _ fs _ Hb Hnow Ep) as Hwithin. pose proof Hwithin as (k & Hk & Hrun).
  pose proof (sys_run_reach w0 n k _ _ Hreach Hrun) as Hreach'.
  destruct (reach_consistent issued dns_name_inj w0 (n + k) _ Hreach') as (a2 & Ea & Hcon2);
    [unfold few in *; lia|]. cbn in Ea. pose proof (sd_ok _ _ (cs_sound _ _ _ _ _ Hcon2)) as Ha2.
  eexists _, z', o', w', a, a2. split; [by unfold world; rewrite Ea|]. split_and!; try done.
  { by rewrite <- Ea. }
  { by rewrite <- (tables_size a2), <- Ea, tables_size. }
  destruct Hend as [Hend|(Hsz & Hbl & Hdrop)]; [left; by eapply settled_served|right].
  split; [done|]. split; [done|]. pose proof (backlog_tables a2 a' Ha2 (eq_sym Ea)). lia.
Qed.

(** The loop: enough runs for the backlog end in a run that serves everything. *)
Lemma run_ticks_serves nows w0 n a wk z o :
  sys_reach issued w0 n {| db := tables a; zone := z; pc := Idle |} -> register_ok a ->
  few (n + length nows * run_bound s') -> Forall int64_range nows -> nows <> [] ->
  Z.of_nat (size (reg a)) <= BatchSize s' \/ Z.of_nat (backlog a) <= Z.of_nat (length nows) * BatchSize s' ->
  exists before now after es wk' z' o' a', nows = before ++ now :: after /\
    run_ticks s (ticks_at (before ++ [now])) (world a wk z o) = (es, world a' wk' z' o') /\
    sys_within (length nows * run_bound s') {| db := tables a; zone := z; pc := Idle |}
      {| db := tables a'; zone := z'; pc := Idle |} /\ register_ok a' /\ all_served now a' z'.
Proof using Type*.
  revert n a wk z o. induction nows as [|now nows IH]; intros n a wk z o Hreach Ha Hn Hnows Hne Henough; [done|].
  apply Forall_cons in Hnows as [Hnow Hnows]. cbn [length Nat.mul] in *.
  destruct (RunOnce_step w0 n (tables a) wk z o now) as (r & z' & o' & wk' & a0 & a' & E & Ea & Ha0 & Ha' & Hw & Hsize & Hend);
    [done|unfold few in *; lia|done|].
  change {| store := quiet (tables a) wk; dns := z; public := o |} with (world a wk z o) in E.
  assert (size (reg a0) = size (reg a)) as Hs0 by (by rewrite <- !tables_size, Ea).
  pose proof (backlog_tables a0 a Ha0 (eq_sym Ea)) as Hb0.
  destruct Hend as [Hend|(Hsz & Hbl & Hdrop)].
  - exists [], now, nows. eexists _, wk', z', o', a'. split; [done|]. cbn [app ticks_at fmap list_fmap run_ticks].
    unfold id at 1. rewrite E. split; [done|]. split; [|done]. eapply within_le; [|exact Hw]. lia.
  - destruct Hw as (k & Hk & Hrun). pose proof (sys_run_reach w0 n k _ _ Hreach Hrun) as Hreach'.
    assert (0 < BatchSize s') as Hb by (unfold validate in Hv; repeat case_match; simplify_eq/=; lia).
    destruct (IH (n + k)%nat a' wk' z' o') as (before & now1 & after & es & wk2 & z2 & o2 & a2 & -> & E2 & Hw2 & Ha2 & Hend2);
      [done|done|unfold few in *; lia|done| | |].
    + intros ->. cbn [length] in *. lia.
    + right. destruct Henough; lia.
    + exists (now :: before), now1, after. eexists _, wk2, z2, o2, a2. split; [done|].
      cbn [app ticks_at fmap list_fmap run_ticks]. unfold id at 1. rewrite E.
      fold (ticks_at (before ++ [now1])). rewrite E2. split; [done|]. split; [|done].
      eapply within_app; [|exact Hw2]. by exists k.
Qed.
End polling.

Lemma validate_again s s' : validate s = Ok s' -> validate s' = Ok s'.
Proof.
  unfold validate. intros E. destruct (negb (has_Store s) || negb (has_DNS s)) eqn:E1; [done|].
  destruct (TTL s =? 0) eqn:E2; [done|]. injection E as <-.
  cbn [has_Store has_DNS has_Observer TTL BatchSize leadership default from_option id].
  rewrite E1, E2. by destruct (BatchSize s <=? 0) eqn:Eb; [|rewrite Eb].
Qed.

(** The service's loop, on the register. *)
Lemma Run_serves w0 n a wk z o s s' interval first ticks :
  sys_reach issued w0 n {| db := tables a; zone := z; pc := Idle |} -> register_ok a ->
  few (n + S (length ticks) * run_bound s') -> int64_range first -> Forall int64_range ticks ->
  0 < interval -> validate s = Ok s' -> leadership s' = Some (Ok true) ->
  Z.of_nat (size (reg a)) <= BatchSize s' \/
    2 * Z.of_nat (size (reg a)) <= Z.of_nat (S (length ticks)) * BatchSize s' ->
  (forall h l z, issued h -> fst (ReplaceAddressRRsets h l (TTL s') z) = Ok tt) ->
  exists ran rest es wk' z' o' a', ticks = ran ++ rest /\
    Run s interval first (ticks_at ran) (world a wk z o) = (Ok es, world a' wk' z' o') /\
    sys_within (S (length ticks) * run_bound s') {| db := tables a; zone := z; pc := Idle |}
      {| db := tables a'; zone := z'; pc := Idle |} /\ register_ok a' /\ all_served (List.last ran first) a' z'.
Proof.
  intros Hreach Ha Hn Hfirst Hticks Hint Hv Hlead Hruns Hup.
  destruct (run_ticks_serves s' s' (validate_again s s' Hv) Hlead Hup (first :: ticks) w0 n a wk z o)
    as (before & now & after & es & wk' & z' & o' & a' & El & E & Hw & Ha' & Hend);
    [done|done|done|by constructor|done| |].
  { pose proof (backlog_size a). cbn [length]. lia. }
  assert (exists ran, before ++ [now] = first :: ran /\ ticks = ran ++ after /\ List.last ran first = now)
    as (ran & Eran & Eticks & Elast).
  { destruct before as [|b before]; cbn in El; injection El as -> ->; [by exists []|].
    exists (before ++ [now]). by rewrite last_last, <- app_assoc. }
  exists ran, after, es, wk', z', o', a'. split; [done|]. split; [|by rewrite Elast].
  rewrite Eran in E. unfold Run. rewrite Hv. replace (interval <=? 0) with false by lia.
  change ((first, id) :: ticks_at ran) with (ticks_at (first :: ran)). by rewrite E.
Qed.

(** C22: Publication converges: from any reachable system, while no database call
    fails, nothing else touches the database and every write succeeds, the
    leader's polling loop reaches a run after which every row's current
    generation is marked and served by the zone, and no address is left whose
    lease had ended at that run.  One run is enough when the table has no more
    rows than a batch; otherwise so many are that their batches together hold
    twice the table's rows (a row may be behind, and its lease may still end). *)
Theorem Run_converges w0 n d wk z o s s' interval first ticks :
  sys_reach issued w0 n {| db := d; zone := z; pc := Idle |} ->
  few (n + S (length ticks) * run_bound s') -> int64_range first -> Forall int64_range ticks ->
  0 < interval -> validate s = Ok s' -> leadership s' = Some (Ok true) ->
  Z.of_nat (size (intents d)) <= BatchSize s' \/
    2 * Z.of_nat (size (intents d)) <= Z.of_nat (S (length ticks)) * BatchSize s' ->
  (forall h l z, issued h -> fst (ReplaceAddressRRsets h l (TTL s') z) = Ok tt) ->
  exists ran rest es x', ticks = ran ++ rest /\
    Run s interval first (ticks_at ran) {| store := quiet d wk; dns := z; public := o |} = (Ok es, x') /\
    forall dev row, intents (durable (store x')) !! dev = Some row ->
      origin_applied_generation row = generation row /\
      exists l, decodeAddresses (addresses_json row) = Ok l /\
        content (dns x') (hostname row) = published l /\
        (lease_expires_ns row <= List.last ran first -> l = []).
Proof.
  intros Hreach Hn Hfirst Hticks Hint Hv Hlead Hruns Hup.
  destruct (reach_consistent issued dns_name_inj w0 n _ Hreach) as (a & Ea & Hcon); [unfold few in *; lia|].
  cbn in Ea. subst d. rewrite tables_size in Hruns.
  destruct (Run_serves w0 n a wk z o s s' interval first ticks) as
    (ran & rest & es & wk' & z' & o' & a' & El & E & _ & Ha' & Hall); try done; [apply (cs_sound _ _ _ _ _ Hcon)|].
  exists ran, rest, es, (world a' wk' z' o'). split; [done|]. split; [done|]. intros dev row Hd.
  apply tables_row in Hd as (i & Hi & ->). destruct (Hall dev i Hi) as (Hok & Ho & Hz & Hl).
  split; [done|]. exists (Addresses i). cbn [row_of addresses_json hostname lease_expires_ns].
  rewrite decode_encode_addresses, Canonical_id by apply Hok. done.
Qed.
End runs.

(** ** The properties at concrete inputs *)

(** A zone in memory, whose writes succeed, and an observer that sees nothing. *)
Abbreviation MemoryZone := (gmap string (gset Addr)).

#[export] Instance memory_writer : Writer MemoryZone :=
  fun h l _ z => (Ok tt, <[h := published l]> z).

#[export] Instance memory_spec : WriterSpec MemoryZone.
Proof.
  refine {| content z h := default ∅ (z !! h); dns_name := id |}.
  - intros h l ttl z z' E. apply (f_equal snd) in E. cbn [snd] in E.
    rewrite <- E. cbv beta. unfold ReplaceAddressRRsets, memory_writer. cbn [snd].
    by rewrite lookup_insert_eq.
  - done.
  - intros h l ttl z h' Hne. unfold ReplaceAddressRRsets, memory_writer. cbn [snd].
    rewrite lookup_insert_ne; [done|]. intros ->. done.
Defined.

Lemma memory_errors h l ttl (z : MemoryZone) e z' :
  ReplaceAddressRRsets h l ttl z = (Err e, z') -> ascii_text e = true.
Proof. intros E. apply (f_equal fst) in E. discriminate E. Qed.

#[export] Instance blind_observer : Observer unit := fun _ _ o => (Ok false, o).

Definition every_name (_ : string) : Prop := True.

Lemma memory_names h h' :
  every_name h -> every_name h' -> dns_name (W := MemoryZone) h = dns_name h' -> h = h'.
Proof. done. Qed.

Definition example_service : Service :=
  {| has_Store := true; has_DNS := true; has_Observer := true; leadership := None;
     TTL := 60; BatchSize := 0 |}.

Definition example_validated : Service :=
  {| has_Store := true; has_DNS := true; has_Observer := true;
     leadership := Some StaticLeadership; TTL := 60; BatchSize := 100 |}.

Definition example_system : Sys (W := MemoryZone) :=
  {| db := one_write; zone := ∅; pc := Idle |}.

Lemma example_reach : sys_reach every_name ∅ 1 example_system.
Proof.
  eapply sys_next; [apply sys_init|].
  exact (sys_call every_name (CallUpsert first_write) empty_db (∅ : MemoryZone) Idle empty_db []
    first_write_ok Logic.I eq_refl).
Qed.

(** The same system after one publication run. *)
Definition example_world : World TxState MemoryZone unit :=
  {| store := quiet one_write empty_db; dns := ∅; public := tt |}.
Definition example_published : World TxState MemoryZone unit :=
  snd (publish example_validated (5 * second) example_world).

Lemma example_run :
  exists k, (k <= 304)%nat /\ sys_run every_name k (at_ example_world Idle) (at_ example_published Idle).
Proof.
  apply (publish_run every_name memory_errors example_validated (5 * second) example_world
    (fst (publish example_validated (5 * second) example_world)) example_published); [done|in_range|].
  apply surjective_pairing.
Qed.

Lemma applied_generation_is_served_witness :
  exists row l, intents (durable (store example_published)) !! "device-1"%string = Some row /\
    origin_applied_generation row = generation row /\
    decodeAddresses (addresses_json row) = Ok l /\
    content (dns example_published) (hostname row) = published l.
Proof.
  destruct example_run as (k & Hk & Hrun).
  pose proof (sys_run_reach every_name ∅ 1 k _ _ example_reach Hrun) as Hreach.
  destruct (intents (durable (store example_published)) !! "device-1"%string) as [row|] eqn:Hrow;
    [|by vm_compute in Hrow].
  assert (origin_applied_generation row = generation row) as E
    by (vm_compute in Hrow; injection Hrow as <-; reflexivity).
  destruct (applied_generation_is_served every_name memory_names ∅ (1 + k) _
    "device-1" row Hreach (few_small (1 + k) ltac:(lia)) Hrow E) as (l & Hl & Hz).
  exists row, l. exact (conj eq_refl (conj E (conj Hl Hz))).
Defined.

Lemma RunOnce_is_system_run_witness :
  sys_within every_name 304 (at_ example_world Idle)
    (at_ (snd (RunOnce example_service (5 * second) example_world)) Idle).
Proof.
  apply (RunOnce_is_system_run every_name memory_errors example_service (5 * second) example_world
    (fst (RunOnce example_service (5 * second) example_world))
    (snd (RunOnce example_service (5 * second) example_world))); [in_range|].
  apply surjective_pairing.
Defined.

(** The same service with batches of one: two rows of the table take two runs. *)
Definition narrow_service : Service :=
  {| has_Store := true; has_DNS := true; has_Observer := true; leadership := None;
     TTL := 60; BatchSize := 1 |}.
Definition narrow_validated : Service :=
  {| has_Store := true; has_DNS := true; has_Observer := true;
     leadership := Some StaticLeadership; TTL := 60; BatchSize := 1 |}.

Definition other_write : UpsertRequest :=
  {| req_DeviceID := "device-2"; req_Hostname := "device-2.example.org";
     req_Addresses := req_Addresses first_write; req_IdempotencyKey := "key-2";
     req_LeaseDuration := req_LeaseDuration first_write; req_RenewAfterSeconds := 0;
     req_Precondition := RequireAbsent; req_Now := req_Now first_write |}.

Lemma other_write_ok : request_ok other_write.
Proof. by constructor; try reflexivity; in_range. Qed.

Definition two_devices : DB :=
  Eval vm_compute in durable (snd (call (CallUpsert other_write) (quiet one_write empty_db))).

Lemma two_reach : sys_reach every_name ∅ 2 {| db := two_devices; zone := (∅ : MemoryZone); pc := Idle |}.
Proof.
  eapply sys_next; [exact example_reach|].
  exact (sys_call every_name (CallUpsert other_write) one_write (∅ : MemoryZone) Idle empty_db []
    other_write_ok Logic.I eq_refl).
Qed.

Lemma Run_converges_witness :
  exists ran rest es x', [6 * second; 7 * second; 8 * second] = ran ++ rest /\
    Run narrow_service second (5 * second) (ticks_at ran)
      {| store := quiet two_devices empty_db; dns := (∅ : MemoryZone); public := tt |} = (Ok es, x') /\
    forall dev row, intents (durable (store x')) !! dev = Some row ->
      origin_applied_generation row = generation row.
Proof.
  destruct (Run_converges every_name memory_errors memory_names ∅ 2 two_devices empty_db
    (∅ : MemoryZone) tt narrow_service narrow_validated second (5 * second)
    [6 * second; 7 * second; 8 * second] two_reach)
    as (ran & rest & es & x' & El & E & H).
  - apply few_small. vm_compute. lia.
  - in_range.
  - repeat (apply Forall_cons; split; [in_range|]). apply Forall_nil. exact Logic.I.
  - reflexivity.
  - reflexivity.
  - reflexivity.
  - right. vm_compute. discriminate.
  - intros h l z _. reflexivity.
  - exists ran, rest, es, x'. split; [exact El|]. split; [exact E|]. intros dev row Hd. exact (proj1 (H dev row Hd)).
Defined.
