(* ===== verification/Dnswriter.v ===== *)
(** * Package dnswriter: updates and observations

    [src/dns/internal/dnswriter/dnswriter.go].  The DNS library (miekg/dns) and
    the network are parameters: name normalisation, the wording of response
    codes and of [%q], and the exchange of a message with a server, on a network
    state.  A message is what the code puts in it: the zone and the sequence of
    removals and insertions of an update, the name and type of a question. *)

From S2P Require Export System NetipText.
From Stdlib Require Import String.
#[local] Open Scope Z_scope.
#[local] Abbreviation length := List.length.

(** ** Messages *)

Inductive RRType : Type := TypeA | TypeAAAA.

#[export] Instance RRType_eq_dec : EqDecision RRType.
Proof. solve_decision. Defined.

(** One item of an update's list; a record's data is an address without zone
    ([AsSlice] has none). *)
Inductive Update : Type :=
| RemoveRRset (name : string) (type : RRType)
| Insert (name : string) (type : RRType) (ttl : Z) (data : Addr).

Record Tsig : Type := { tsig_key : string; tsig_algorithm : string; tsig_fudge : Z; tsig_time : Z }.

Record UpdateMsg : Type := { um_zone : string; um_updates : list Update; um_tsig : Tsig }.

Record QueryMsg : Type := {
  qm_name : string; qm_type : RRType; qm_recursion : bool; qm_udp_size : Z }.

(** A record of an answer: its owner, and the octets of an A or AAAA record. *)
Inductive RData : Type := DataA (octets : list Byte.byte) | DataAAAA (octets : list Byte.byte) | DataOther.
Record RR : Type := { rr_name : string; rr_data : RData }.

(** [netip.AddrFromSlice]. *)
Definition octet (b : Byte.byte) : Z := Z.of_N (Byte.to_N b).
Definition AddrFromSlice (slice : list Byte.byte) : option Addr :=
  match length slice with
  | 4%nat => Some (Addr4 (from_base 256 (octet <$> slice)))
  | 16%nat => Some (Addr6 (from_base 256 (octet <$> slice)) "")
  | _ => None
  end.

(** The address whose text a record of an answer contributes. *)
Definition record_address (d : RData) : option Addr :=
  match d with
  | DataA octets => Unmap <$> AddrFromSlice octets
  | DataAAAA octets => AddrFromSlice octets
  | DataOther => None
  end.

Record DnsResponse : Type := {
  Rcode : Z;
  IsTsig : bool;
  IsResponse : bool;
  Opcode : Z;
  Question : list string;
  Truncated : bool;
  Authoritative : bool;
  Answer : list RR;
}.

Definition RcodeSuccess : Z := 0.
Definition RcodeNameError : Z := 3.
Definition OpcodeUpdate : Z := 5.
Definition HmacSHA256 : string := "hmac-sha256.".

(** ** Server names *)

Definition has_char (c : ascii) (s : string) : bool := negb (free_of c s).

(** Before and after the last occurrence of a byte. *)
Fixpoint cut_last (c : ascii) (s : string) : option (string * string) :=
  match s with
  | EmptyString => None
  | String d r =>
      match cut_last c r with
      | Some (a, b) => Some (String d a, b)
      | None => if Ascii.eqb d c then Some (""%string, r) else None
      end
  end.

(** Before and after the first occurrence of a byte. *)
Definition cut_first (c : ascii) (s : string) : option (string * string) :=
  match span (fun d => negb (Ascii.eqb d c)) s with
  | (_, EmptyString) => None
  | (a, String _ b) => Some (a, b)
  end.

(** Whether [net.SplitHostPort] accepts: a port after the last colon, which
    follows the bracketed host if there is one and is the only colon if not,
    and no other bracket. *)
Definition SplitHostPort_ok (hostport : string) : bool :=
  match cut_last ":" hostport with
  | None => false
  | Some (host, port) =>
      match hostport with
      | String "[" rest =>
          match cut_first "]" rest with
          | None => false
          | Some (inner, after) =>
              match after with
              | String ":" p => (p =? port)%string && negb (has_char "[" (inner +:+ after))
                                && negb (has_char "]" after)
              | _ => false
              end
          end
      | _ => negb (has_char ":" host) && negb (has_char "[" hostport) && negb (has_char "]" hostport)
      end
  end.

Definition JoinHostPort (host port : string) : string :=
  if has_char ":" host then "[" +:+ host +:+ "]:" +:+ port else host +:+ ":" +:+ port.

(** [strings.Trim(s, "[]")]. *)
Definition is_bracket (c : ascii) : bool := Ascii.eqb c "[" || Ascii.eqb c "]".
Fixpoint trim_right (p : ascii -> bool) (s : string) : string :=
  match s with
  | EmptyString => ""
  | String c r =>
      match trim_right p r with
      | EmptyString => if p c then ""%string else String c ""
      | t => String c t
      end
  end.
Definition trim_brackets (s : string) : string := trim_right is_bracket (snd (span is_bracket s)).

Definition withDNSPort (server : string) : string :=
  if SplitHostPort_ok server then server else
  match ParseAddr (trim_brackets server) with
  | Some addr => JoinHostPort (AddrString addr) "53"
  | None => JoinHostPort server "53"
  end.

(** ** Address texts *)

#[export] Instance string_le_dec : RelDecision String.le.
Proof. apply _. Defined.

Definition sort_strings : list string -> list string := merge_sort String.le.

Definition addressStrings (addresses : list Addr) : list string :=
  sort_strings ((AddrString ∘ Unmap) <$> addresses).

Fixpoint equal_from (a b : list string) : bool :=
  match a, b with
  | x :: a', y :: b' => (x =? y)%string && equal_from a' b'
  | _, _ => true
  end.

Definition equalStrings (a b : list string) : bool :=
  if negb (length a =? length b)%nat then false else equal_from a b.

(** ** The writer and the observer *)

Record RFC2136 : Type := {
  Server : string;
  Zone_ : string;
  TSIGName : string;
  TSIGSecret : string;
  Algorithm : string;
}.

Section dns.
Context {Net : Type}.
Context (Fqdn : string -> string) (IsSubDomain : string -> string -> bool).
Context (RcodeToString : Z -> string) (Quote : string -> string).
Context (unix_now : Net -> Z).
(** [ExchangeContext] of an update over TCP, with the server's address and the
    secret of the key; of a query, over UDP or TCP. *)
Context (ExchangeUpdate : string -> string -> UpdateMsg -> Net -> result string (option DnsResponse) * Net).
Context (ExchangeQuery : bool -> string -> QueryMsg -> Net -> result string DnsResponse * Net).

(** The insertions of the loop over the addresses. *)
Fixpoint inserts (name : string) (ttl : Z) (addresses : list Addr) : result string (list Update) :=
  match addresses with
  | [] => Ok []
  | a :: rest =>
      let addr := Unmap a in
      if Is4 addr then cons (Insert name TypeA ttl (WithoutZone addr)) <$> inserts name ttl rest
      else if Is6 addr then cons (Insert name TypeAAAA ttl (WithoutZone addr)) <$> inserts name ttl rest
      else Err ("invalid address " +:+ Quote (AddrString addr))
  end.

(** The checks on the server's answer. *)
Definition check_response (zone : string) (response : option DnsResponse) : result string unit :=
  match response with
  | None => Err "RFC 2136 update returned no response"%string
  | Some r =>
      if negb (Rcode r =? RcodeSuccess)
      then Err ("RFC 2136 update refused: " +:+ RcodeToString (Rcode r)) else
      if negb (IsTsig r)
      then Err "RFC 2136 success response was not authenticated with TSIG"%string else
      match Question r with
      | [q] =>
          if negb (IsResponse r) || negb (Opcode r =? OpcodeUpdate) || negb (q =? zone)%string
          then Err "RFC 2136 success response did not match the update request"%string
          else Ok tt
      | _ => Err "RFC 2136 success response did not match the update request"%string
      end
  end.

(** The message of an update: both address types removed, then every address. *)
Definition update_message (w : RFC2136) (zone name : string) (adds : list Update) (now : Z) : UpdateMsg :=
  let algorithm := Fqdn (ToLower (Algorithm w)) in
  {| um_zone := zone;
     um_updates := RemoveRRset name TypeA :: RemoveRRset name TypeAAAA :: adds;
     um_tsig := {| tsig_key := Fqdn (TSIGName w);
                   tsig_algorithm := if (algorithm =? ".")%string then HmacSHA256 else algorithm;
                   tsig_fudge := 300; tsig_time := now |} |}.

Definition replace_rrsets (w : RFC2136) (hostname : string) (addresses : list Addr) (ttl : Z)
    (net : Net) : result string unit * Net :=
  let zone := Fqdn (ToLower (Zone_ w)) in
  let name := Fqdn (ToLower hostname) in
  if negb (IsSubDomain zone name) || (name =? zone)%string
  then (Err ("hostname " +:+ Quote hostname +:+ " is outside update zone " +:+ Quote (Zone_ w)), net)
  else
  if (Server w =? "")%string || (TSIGName w =? "")%string || (TSIGSecret w =? "")%string
  then (Err "DNS server and TSIG credentials are required"%string, net) else
  match inserts name ttl addresses with
  | Err e => (Err e, net)
  | Ok adds =>
      let message := update_message w zone name adds (unix_now net) in
      match ExchangeUpdate (withDNSPort (Server w)) (TrimSpace (TSIGSecret w)) message net with
      | (Err e, net) => (Err ("RFC 2136 update: " +:+ e), net)
      | (Ok response, net) => (check_response zone response, net)
      end
  end.

(** The addresses an answer section gives for a name, and whether every record
    is owned by it. *)
Fixpoint answer_values (name : string) (answers : list RR) : list string * bool :=
  match answers with
  | [] => ([], true)
  | r :: rest =>
      let '(values, owned) := answer_values name rest in
      if negb (rr_name r =? name)%string then (values, false) else
      (match record_address (rr_data r) with
       | Some addr => AddrString addr :: values
       | None => values
       end, owned)
  end.

(** What is taken of a response that is not truncated. *)
Definition accept_response (server hostname : string) (response : DnsResponse)
    : result string (list string * bool) :=
  if negb (Rcode response =? RcodeSuccess) && negb (Rcode response =? RcodeNameError)
  then Err ("observe " +:+ hostname +:+ " at " +:+ server +:+ ": " +:+ RcodeToString (Rcode response))
  else
    let '(values, owned) := answer_values (Fqdn hostname) (Answer response) in
    Ok (values, Authoritative response && owned).

(** One question, repeated over TCP when the answer is truncated. *)
Definition query_type (server hostname : string) (type : RRType) (net : Net)
    : result string (list string * bool) * Net :=
  let message := {| qm_name := Fqdn hostname; qm_type := type; qm_recursion := false;
                    qm_udp_size := 1232 |} in
  match ExchangeQuery false (withDNSPort server) message net with
  | (Err e, net) => (Err ("observe " +:+ hostname +:+ " at " +:+ server +:+ ": " +:+ e), net)
  | (Ok response, net) =>
      if Truncated response then
        match ExchangeQuery true (withDNSPort server) message net with
        | (Err e, net) => (Err ("observe truncated " +:+ hostname +:+ " answer at " +:+ server
                                +:+ " over TCP: " +:+ e), net)
        | (Ok response, net) =>
            if Truncated response
            then (Err ("observe " +:+ hostname +:+ " at " +:+ server +:+ ": TCP answer is truncated"), net)
            else (accept_response server hostname response, net)
        end
      else (accept_response server hostname response, net)
  end.

Definition query (server hostname : string) (net : Net) : result string (list string * bool) * Net :=
  match query_type server hostname TypeA net with
  | (Err e, net) => (Err e, net)
  | (Ok (values4, auth4), net) =>
      match query_type server hostname TypeAAAA net with
      | (Err e, net) => (Err e, net)
      | (Ok (values6, auth6), net) =>
          (Ok (sort_strings (values4 ++ values6), auth4 && auth6), net)
      end
  end.

(** [DNSObserver]: the loop over its servers. *)
Fixpoint observe_servers (servers : list string) (hostname : string) (expected : list string)
    (net : Net) : result string bool * Net :=
  match servers with
  | [] => (Ok true, net)
  | server :: rest =>
      match query server hostname net with
      | (Err e, net) => (Err e, net)
      | (Ok (observed, authoritative), net) =>
          if negb authoritative || negb (equalStrings observed expected) then (Ok false, net)
          else observe_servers rest hostname expected net
      end
  end.

Definition observe_rrsets (servers : list string) (hostname : string) (expected : list Addr)
    (net : Net) : result string bool * Net :=
  match servers with
  | [] => (Err "at least one observation server is required"%string, net)
  | _ => observe_servers servers hostname (addressStrings expected) net
  end.
End dns.
