(* ===== verification/DnswriterTheorems.v ===== *)
(** * Properties of package dnswriter

    The writer against the contract that the system relies on, over a server
    that applies updates atomically, and the observer against the contents that
    its servers serve. *)

From S2P Require Export Dnswriter.
From Stdlib Require Import String.
#[local] Open Scope Z_scope.
#[local] Abbreviation length := List.length.

(** ** Updates on a zone *)

Definition family (x : Addr) : RRType := if Is4 x then TypeA else TypeAAAA.

(** The address records of each name after one item of an update (RFC 2136,
    section 2.5). *)
Definition apply_update (z : string -> gset Addr) (u : Update) : string -> gset Addr :=
  match u with
  | RemoveRRset name type => fun n =>
      if (n =? name)%string then filter (fun x => family x <> type) (z n) else z n
  | Insert name _ _ data => fun n => if (n =? name)%string then {[data]} ∪ z n else z n
  end.

Definition apply_updates (l : list Update) (z : string -> gset Addr) : string -> gset Addr :=
  foldl apply_update z l.

Lemma apply_updates_cons u l z : apply_updates (u :: l) z = apply_updates l (apply_update z u).
Proof. done. Qed.

Lemma inserts_cons Quote name ttl a l adds :
  inserts Quote name ttl (a :: l) = Ok adds ->
  exists ty rest, adds = Insert name ty ttl (WithoutZone (Unmap a)) :: rest /\
    inserts Quote name ttl l = Ok rest.
Proof.
  cbn [inserts]. intros E. destruct (Is4 (Unmap a)); [|destruct (Is6 (Unmap a)); [|done]];
    (destruct (inserts Quote name ttl l) as [rest|]; [|done]); cbn in E; simplify_eq; eauto.
Qed.

Lemma inserts_applied Quote name ttl l adds z n :
  inserts Quote name ttl l = Ok adds ->
  apply_updates adds z n = if (n =? name)%string then published l ∪ z n else z n.
Proof.
  revert adds z. induction l as [|a l IH]; intros adds z E.
  - cbn in E. simplify_eq. unfold published. cbn. case_match; [set_solver|done].
  - apply inserts_cons in E as (ty & rest & -> & E). rewrite apply_updates_cons, (IH _ _ E).
    cbn [apply_update]. destruct (n =? name)%string; [|done]. unfold published. csimpl. set_solver.
Qed.

(** The message of an update, applied: exactly the list's records at the name. *)
Lemma update_applied Fqdn Quote w zone name ttl l adds now z n :
  inserts Quote name ttl l = Ok adds ->
  apply_updates (um_updates (update_message Fqdn w zone name adds now)) z n
  = if (n =? name)%string then published l else z n.
Proof.
  intros E. unfold update_message. cbn [um_updates]. rewrite !apply_updates_cons, (inserts_applied _ _ _ _ _ _ _ E).
  cbn [apply_update]. destruct (n =? name)%string; [|done].
  apply leibniz_equiv. intros x. rewrite elem_of_union, !elem_of_filter.
  destruct (family x) eqn:?; naive_solver.
Qed.

(** ** The writer *)

Section writer.
Context {Net : Type}.
Context (Fqdn : string -> string) (IsSubDomain : string -> string -> bool).
Context (RcodeToString : Z -> string) (Quote : string -> string) (unix_now : Net -> Z).
Context (ExchangeUpdate : string -> string -> UpdateMsg -> Net -> result string (option DnsResponse) * Net).
Context (w : RFC2136).

#[local] Abbreviation replace :=
  (replace_rrsets Fqdn IsSubDomain RcodeToString Quote unix_now ExchangeUpdate w).
#[local] Abbreviation exchange :=
  (ExchangeUpdate (withDNSPort (Server w)) (TrimSpace (TSIGSecret w))).
#[local] Abbreviation zone_name := (Fqdn (ToLower (Zone_ w))).
#[local] Abbreviation record_name h := (Fqdn (ToLower h)).

(** Either nothing is sent, or one update message is and its answer decides. *)
Lemma replace_cases h l ttl net r net' :
  replace h l ttl net = (r, net') ->
  (exists e, r = Err e /\ net' = net) \/
  exists adds answer, inserts Quote (record_name h) ttl l = Ok adds /\
    exchange (update_message Fqdn w zone_name (record_name h) adds (unix_now net)) net = (answer, net') /\
    r = match answer with
        | Err e => Err ("RFC 2136 update: " +:+ e)
        | Ok response => check_response RcodeToString zone_name response
        end.
Proof.
  unfold replace_rrsets. cbv zeta. repeat (case_match; [intros [= <- <-]; left; by eexists|]).
  destruct (inserts _ _ _ _) as [adds|e]; [|intros [= <- <-]; left; by eexists].
  destruct (exchange _ _) as [[response|e] net1] eqn:E; intros [= <- <-]; right; by eexists _, _.
Qed.

(** A response that passes is the authenticated success of the request. *)
Lemma check_response_ok response :
  check_response RcodeToString zone_name response = Ok tt ->
  exists r, response = Some r /\ Rcode r = RcodeSuccess /\ IsTsig r = true /\ IsResponse r = true /\
    Opcode r = OpcodeUpdate /\ Question r = [zone_name].
Proof.
  unfold check_response. destruct response as [r|]; [|done].
  destruct (Rcode r =? RcodeSuccess) eqn:E1; [|done]. destruct (IsTsig r) eqn:E2; [|done]. cbn [negb].
  destruct (Question r) as [|q [|? ?]] eqn:E3; [done| |done].
  destruct (IsResponse r) eqn:E4; [|done]. destruct (Opcode r =? OpcodeUpdate) eqn:E5; [|done].
  destruct (q =? zone_name)%string eqn:E6; [|done]. intros _.
  apply Z.eqb_eq in E1, E5. apply String.eqb_eq in E6. subst q. by exists r.
Qed.

(** The address records that the primary server holds for each name.  It answers
    an update with an authenticated success only when it has applied the whole
    update list, and applies all of it or nothing whatever it answers (RFC 2136,
    sections 3.4 and 3.5). *)
Context (served : Net -> string -> gset Addr).
Context (success_applied : forall m net r net',
  exchange m net = (Ok (Some r), net') ->
  Rcode r = RcodeSuccess -> IsTsig r = true -> IsResponse r = true -> Opcode r = OpcodeUpdate ->
  Question r = [um_zone m] ->
  forall n, served net' n = apply_updates (um_updates m) (served net) n).
Context (all_or_nothing : forall m net answer net',
  exchange m net = (answer, net') ->
  (forall n, served net' n = served net n) \/
  (forall n, served net' n = apply_updates (um_updates m) (served net) n)).

Lemma replace_ok h l ttl net net' :
  replace h l ttl net = (Ok tt, net') -> served net' (record_name h) = published l.
Proof.
  intros E. apply replace_cases in E as [(? & ? & _)|(adds & [response|?] & Ha & E & Hr)]; [done| |done].
  symmetry in Hr. apply check_response_ok in Hr as (r & -> & H1 & H2 & H3 & H4 & H5).
  rewrite (success_applied _ _ _ _ E H1 H2 H3 H4 H5), (update_applied _ _ _ _ _ _ _ _ _ _ _ Ha).
  by rewrite String.eqb_refl.
Qed.

Lemma replace_served h l ttl net n :
  let net' := snd (replace h l ttl net) in
  served net' n = served net n \/ n = record_name h /\ served net' n = published l.
Proof.
  destruct (replace h l ttl net) as [r net'] eqn:E. cbv zeta. cbn [snd].
  apply replace_cases in E as [(? & _ & ->)|(adds & answer & Ha & E & _)]; [by left|].
  destruct (all_or_nothing _ _ _ _ E) as [H|H]; rewrite H; [by left|].
  rewrite (update_applied _ _ _ _ _ _ _ _ _ _ _ Ha).
  destruct (String.eqb_spec n (record_name h)); [by right|by left].
Qed.

(** The writer as the publisher's: the laws of [WriterSpec] hold. *)
Definition rfc2136_writer : Writer Net := replace.
Definition rfc2136_spec : @WriterSpec Net rfc2136_writer.
Proof.
  refine (@Build_WriterSpec Net rfc2136_writer (fun net h => served net (record_name h))
    (fun h => record_name h) replace_ok _ _).
  - intros h l ttl net e net' E. pose proof (replace_served h l ttl net (record_name h)) as Hs.
    unfold ReplaceAddressRRsets, rfc2136_writer in E. rewrite E in Hs. naive_solver.
  - intros h l ttl net h' Hne. destruct (replace_served h l ttl net (record_name h')) as [E|[E _]]; done.
Defined.

(** C24: Over a server that applies updates as RFC 2136 says, the writer keeps the
    contract that the system relies on: a success leaves exactly the list's
    address records at the hostname's name, whatever was there; a failure leaves
    the old or the new ones; no other name changes; and a hostname outside the
    zone, or its apex, is refused before anything is sent. *)
Theorem RFC2136_implements_writer h l ttl net :
  let '(r, net') := replace h l ttl net in
  (r = Ok tt -> served net' (record_name h) = published l) /\
  (served net' (record_name h) = served net (record_name h) \/
   served net' (record_name h) = published l) /\
  (forall n, n <> record_name h -> served net' n = served net n) /\
  (IsSubDomain zone_name (record_name h) = false \/ record_name h = zone_name ->
   net' = net /\ exists e, r = Err e).
Proof.
  destruct (replace h l ttl net) as [r net'] eqn:E.
  pose proof (replace_served h l ttl net) as Hs. rewrite E in Hs. cbn [snd] in Hs. split_and!.
  - intros ->. by eapply replace_ok.
  - destruct (Hs (record_name h)) as [|[]]; auto.
  - intros n Hn. destruct (Hs n) as [|[]]; done.
  - intros Hout. unfold replace_rrsets in E. cbv zeta in E.
    replace (negb (IsSubDomain zone_name (record_name h)) || (record_name h =? zone_name)%string)
      with true in E by (destruct Hout as [->| ->]; [done|by rewrite String.eqb_refl, orb_true_r]).
    simplify_eq. eauto.
Qed.
End writer.

(** ** The observer *)

Lemma octets_range slice : 0 <= from_base 256 (octet <$> slice) < 256 ^ Z.of_nat (length slice).
Proof.
  induction slice as [|b slice IH] using rev_ind; [done|].
  rewrite fmap_app. cbn [fmap list_fmap]. rewrite from_base_snoc, length_app, Nat2Z.inj_add.
  cbn [length Z.of_nat]. change (Z.of_nat (length [b])) with 1.
  rewrite Z.pow_add_r, Z.pow_1_r by lia. pose proof (Byte.to_N_bounded b).
  assert (0 <= octet b < 256) by (unfold octet; lia). nia.
Qed.

(** The address of a record is valid and has no zone. *)
Lemma record_address_ok d x : record_address d = Some x -> addr_wf x = true /\ hasZone x = false.
Proof.
  assert (forall slice y, AddrFromSlice slice = Some y -> addr_wf y = true /\ hasZone y = false) as H.
  { intros slice y. unfold AddrFromSlice. pose proof (octets_range slice) as Hr.
    destruct (length slice) as [|n]; [done|].
    do 16 (try (destruct n as [|n]; [try done; intros [= <-]; (split; [|done])|])); [..|done]; cbn [addr_wf];
      apply andb_true_intro; (split; [apply Z.leb_le|apply Z.ltb_lt]); apply Hr. }
  destruct d as [slice|slice|]; cbn; [|by apply H|done].
  destruct (AddrFromSlice slice) as [y|] eqn:E; [|done]. fsimpl. intros [= <-].
  apply H in E as [Hy Hz]. split; [by apply Unmap_wf|].
  destruct y as [|?|? z]; try done. cbn. by case_match.
Qed.

(** Comparing sorted texts is comparing multisets of texts. *)
Lemma equal_from_eq a b : length a = length b -> equal_from a b = true <-> a = b.
Proof.
  revert b. induction a as [|x a IH]; intros [|y b] E; try done. cbn [equal_from].
  rewrite andb_true_iff, String.eqb_eq, IH by (cbn in E; lia). split; [by intros [-> ->]|by intros [= -> ->]].
Qed.

Lemma equalStrings_eq a b : equalStrings a b = true <-> a = b.
Proof.
  unfold equalStrings. destruct (Nat.eqb_spec (length a) (length b)) as [E|E]; cbn [negb].
  - by apply equal_from_eq.
  - split; [done|]. by intros ->.
Qed.

Lemma sort_strings_eq a b : sort_strings a = sort_strings b <-> a ≡ₚ b.
Proof.
  unfold sort_strings. split; intros E.
  - rewrite <- (merge_sort_Permutation String.le a), E. apply merge_sort_Permutation.
  - apply (StronglySorted_unique String.le).
    + apply (StronglySorted_merge_sort _).
    + apply (StronglySorted_merge_sort _).
    + by rewrite !merge_sort_Permutation.
Qed.

Lemma texts_eq l k :
  Forall (fun x => addr_wf x = true) l -> Forall (fun x => addr_wf x = true) k ->
  AddrString <$> l ≡ₚ AddrString <$> k <-> l ≡ₚ k.
Proof.
  intros Hl Hk. split; [|by intros ->]. intros E.
  apply (omap_Permutation ParseAddr) in E.
  assert (forall m, Forall (fun x => addr_wf x = true) m -> omap ParseAddr (AddrString <$> m) = m) as Hid.
  { induction 1 as [|x m Hx _ IH]; [done|]. cbn [fmap list_fmap omap list_omap].
    rewrite ParseAddr_String by done. f_equal. exact IH. }
  by rewrite !Hid in E.
Qed.

Lemma answer_values_spec name answers :
  answer_values name answers =
  (omap (fun r => if (rr_name r =? name)%string then AddrString <$> record_address (rr_data r) else None) answers,
   forallb (fun r => (rr_name r =? name)%string) answers).
Proof.
  induction answers as [|r answers IH]; [done|]. cbn [answer_values forallb]. rewrite IH.
  cbn [omap list_omap]. destruct (rr_name r =? name)%string; cbn [negb andb]; [|done].
  by destruct (record_address (rr_data r)).
Qed.

Lemma omap_fmap {A B C} (f : B -> option C) (g : A -> B) (l : list A) : omap f (g <$> l) = omap (f ∘ g) l.
Proof.
  induction l as [|x l IH]; [done|]. cbn [fmap list_fmap omap list_omap].
  change ((f ∘ g) x) with (f (g x)). destruct (f (g x)); [f_equal|]; exact IH.
Qed.

Lemma forallb_ext_in {A} (f g : A -> bool) l :
  (forall x, x ∈ l -> f x = g x) -> forallb f l = forallb g l.
Proof.
  induction l as [|x l IH]; intros H; [done|]. cbn [forallb].
  rewrite H, IH by set_solver. done.
Qed.

Section observer.
Context {Net : Type}.
Context (Fqdn : string -> string) (RcodeToString : Z -> string).
Context (ExchangeQuery : bool -> string -> QueryMsg -> Net -> result string DnsResponse * Net).

#[local] Abbreviation query := (query Fqdn RcodeToString ExchangeQuery).
#[local] Abbreviation query_type := (query_type Fqdn RcodeToString ExchangeQuery).
#[local] Abbreviation observe := (observe_rrsets Fqdn RcodeToString ExchangeQuery).
#[local] Abbreviation observe_servers := (observe_servers Fqdn RcodeToString ExchangeQuery).

(** A value that a query collects is the text of a record's address. *)
Definition collected (t : string) : Prop :=
  exists x, t = AddrString x /\ addr_wf x = true /\ hasZone x = false.

Lemma accept_collected server h r values auth :
  accept_response Fqdn RcodeToString server h r = Ok (values, auth) -> Forall collected values.
Proof.
  unfold accept_response. rewrite answer_values_spec. case_match; [done|]. intros E. simplify_eq.
  apply Forall_forall. intros t (rr & _ & Hr)%list_elem_of_omap. case_match; [|done].
  apply fmap_Some in Hr as (x & Ex & ->). apply record_address_ok in Ex. by exists x.
Qed.

Lemma query_type_collected server h ty net values auth net' :
  query_type server h ty net = (Ok (values, auth), net') -> Forall collected values.
Proof.
  unfold Dnswriter.query_type. repeat case_match; intros E; simplify_eq; by eapply accept_collected.
Qed.

Lemma query_collected server h net values auth net' :
  query server h net = (Ok (values, auth), net') -> Forall collected values.
Proof.
  unfold Dnswriter.query. destruct (query_type server h TypeA net) as [[[v4 a4]|?] net1] eqn:E4; [|done].
  destruct (query_type server h TypeAAAA net1) as [[[v6 a6]|?] net2] eqn:E6; [|done].
  intros [= <- _ _]. unfold sort_strings. rewrite merge_sort_Permutation.
  apply Forall_app. by eauto using query_type_collected.
Qed.

(** A successful observation asked every server, each of which answered with
    authority exactly the expected texts. *)
Lemma observed_servers servers h expected net net' :
  observe_servers servers h expected net = (Ok true, net') ->
  Forall (fun server => exists net1 net2, query server h net1 = (Ok (expected, true), net2)) servers.
Proof.
  revert net. induction servers as [|server servers IH]; intros net; [constructor|].
  cbn [Dnswriter.observe_servers].
  destruct (query server h net) as [[[observed auth]|?] net1] eqn:E; [|done].
  destruct auth; cbn [negb orb]; [|done].
  destruct (equalStrings observed expected) eqn:Eo; cbn [negb]; [|done]. apply equalStrings_eq in Eo. subst.
  intros H. constructor; [by exists net, net1|]. by eapply IH.
Qed.

(** What a server that holds the records [S] at a name answers to a question: an
    authoritative answer with one record per address of the asked family. *)
Definition answers_with (S : gset Addr) (m : QueryMsg) (r : DnsResponse) : Prop :=
  (Rcode r = RcodeSuccess \/ Rcode r = RcodeNameError) /\ Authoritative r = true /\
  ((fun rr => (rr_name rr, record_address (rr_data rr))) <$> Answer r)
  ≡ₚ ((fun x => (qm_name m, Some x)) <$> elements (filter (fun x => family x = qm_type m) S)).

(** A server whose records do not change while it is asked; an answer over UDP
    may be truncated, one over TCP is not. *)
Definition steady (S : string -> gset Addr) (server : string) : Prop :=
  forall tcp m net, exists r net', ExchangeQuery tcp (withDNSPort server) m net = (Ok r, net') /\
    ((tcp = false /\ Truncated r = true) \/ (Truncated r = false /\ answers_with (S (qm_name m)) m r)).

Lemma accept_steady server h m r S :
  qm_name m = Fqdn h -> answers_with S m r ->
  exists values, accept_response Fqdn RcodeToString server h r = Ok (values, true) /\
    values ≡ₚ AddrString <$> elements (filter (fun x => family x = qm_type m) S).
Proof.
  intros Hm (Hcode & Hauth & Hp). unfold accept_response. rewrite answer_values_spec, Hauth.
  replace (negb (Rcode r =? RcodeSuccess) && negb (Rcode r =? RcodeNameError)) with false
    by (destruct Hcode as [->| ->]; done).
  assert (forall rr, rr ∈ Answer r -> rr_name rr = Fqdn h) as Hown.
  { intros rr Hrr. apply (list_elem_of_fmap_2 (fun rr => (rr_name rr, record_address (rr_data rr)))) in Hrr.
    rewrite Hp in Hrr. apply list_elem_of_fmap in Hrr as (x & [= -> _] & _). done. }
  replace (forallb _ (Answer r)) with true.
  2:{ symmetry. apply forallb_forall. intros rr Hrr%list_elem_of_In. apply String.eqb_eq. by apply Hown. }
  eexists. split; [done|].
  apply (omap_Permutation (fun p : string * option Addr => AddrString <$> snd p)) in Hp.
  rewrite !omap_fmap in Hp. assert (forall l : list Addr, omap ((fun p : string * option Addr => AddrString <$> snd p)
    ∘ (fun x => (qm_name m, Some x))) l = AddrString <$> l) as Hsome.
  { induction l as [|x l IH]; [done|]. cbn. by f_equal. }
  rewrite Hsome in Hp. rewrite <- Hp.
  match goal with |- ?a ≡ₚ ?b => cut (a = b); [by intros ->|] end.
  apply list_omap_ext, Forall_Forall2_diag, Forall_forall.
  intros rr Hrr. by rewrite (Hown rr Hrr), String.eqb_refl.
Qed.

Lemma query_type_steady S server h ty net :
  steady S server ->
  exists values net', query_type server h ty net = (Ok (values, true), net') /\
    values ≡ₚ AddrString <$> elements (filter (fun x => family x = ty) (S (Fqdn h))).
Proof.
  intros Hs. unfold Dnswriter.query_type. cbv zeta.
  set (m := Build_QueryMsg _ _ _ _).
  destruct (Hs false m net) as (r & net1 & -> & [[_ Ht]|[Ht Ha]]); rewrite Ht.
  - destruct (Hs true m net1) as (r2 & net2 & -> & [[? _]|[Ht2 Ha]]); [done|]. rewrite Ht2.
    destruct (accept_steady server h m r2 _ eq_refl Ha) as (values & -> & Hv). by exists values, net2.
  - destruct (accept_steady server h m r _ eq_refl Ha) as (values & -> & Hv). by exists values, net1.
Qed.

Lemma filter_family (S : gset Addr) :
  elements (filter (fun x => family x = TypeA) S) ++ elements (filter (fun x => family x = TypeAAAA) S)
  ≡ₚ elements S.
Proof.
  rewrite <- elements_disj_union.
  - apply (elements_proper (C := gset Addr)). intros x. rewrite elem_of_union, !elem_of_filter.
    destruct (family x); naive_solver.
  - intros x. rewrite !elem_of_filter. intros [E _] [E' _]. congruence.
Qed.

Lemma query_steady S server h net :
  steady S server ->
  exists net', query server h net = (Ok (sort_strings (AddrString <$> elements (S (Fqdn h))), true), net').
Proof.
  intros Hs. unfold Dnswriter.query.
  destruct (query_type_steady S server h TypeA net Hs) as (v4 & net1 & -> & H4).
  destruct (query_type_steady S server h TypeAAAA net1 Hs) as (v6 & net2 & -> & H6).
  exists net2. cbn [andb]. do 3 f_equal. apply sort_strings_eq.
  by rewrite H4, H6, <- fmap_app, filter_family.
Qed.

(** Every address that a steady server holds is valid. *)
Lemma steady_wf S server name (net : Net) :
  steady S server -> Forall (fun x => addr_wf x = true) (elements (S name)).
Proof.
  intros Hs. apply Forall_forall. intros x Hx.
  set (m := {| qm_name := name; qm_type := family x; qm_recursion := false; qm_udp_size := 1232 |}).
  destruct (Hs true m net) as (r & net1 & _ & [[? _]|[_ (_ & _ & Hp)]]); [done|].
  assert ((name, Some x) ∈ (fun rr => (rr_name rr, record_address (rr_data rr))) <$> Answer r) as Hin.
  { rewrite Hp. apply (list_elem_of_fmap_2 (fun x => (qm_name m, Some x))), elem_of_elements.
    apply elem_of_filter. split; [done|]. by apply elem_of_elements. }
  apply list_elem_of_fmap in Hin as (rr & [= _ Hr] & _). symmetry in Hr.
  by apply record_address_ok in Hr as [? _].
Qed.

Lemma observe_servers_steady (S : string -> string -> gset Addr) servers h expected net :
  Forall (fun server => steady (S server) server) servers ->
  fst (observe_servers servers h expected net)
  = Ok (forallb (fun server =>
      bool_decide (sort_strings (AddrString <$> elements (S server (Fqdn h))) = expected)) servers).
Proof.
  intros Hs. revert net. induction Hs as [|server servers Hone _ IH]; intros net; [done|].
  cbn [Dnswriter.observe_servers forallb].
  destruct (query_steady (S server) server h net Hone) as (net1 & ->). cbn [negb orb].
  destruct (equalStrings _ _) eqn:E; cbn [negb].
  - apply equalStrings_eq in E. rewrite bool_decide_eq_true_2 by done. apply IH.
  - rewrite bool_decide_eq_false_2; [done|]. intros Hn. apply equalStrings_eq in Hn. congruence.
Qed.

(** C25: The observer is exact over servers whose records do not change meanwhile:
    for a canonical list of valid addresses it answers true when every server
    holds exactly those addresses at the hostname, over any truncation of UDP
    answers, and false when one does not. *)
Theorem observer_exact (S : string -> string -> gset Addr) servers h expected net
    (Hne : servers <> []) (Hs : Forall (fun server => steady (S server) server) servers)
    (Hwf : Forall (fun x => addr_wf x = true) expected) (Hc : CanonicalAddresses expected = expected) :
  fst (observe servers h expected net)
  = Ok (forallb (fun server => bool_decide (S server (Fqdn h) = list_to_set expected)) servers).
Proof.
  unfold observe_rrsets. destruct servers as [|server0 servers0]; [done|]. clear Hne.
  rewrite (observe_servers_steady S) by done. f_equal. apply forallb_ext_in.
  intros server Hin. apply bool_decide_ext.
  rewrite Forall_forall in Hs. pose proof (steady_wf _ _ (Fqdn h) net (Hs server Hin)) as HS.
  pose proof (Canonical_canonical expected) as (_ & Hnd & Hun). rewrite Hc in Hnd, Hun. unfold addressStrings. rewrite sort_strings_eq.
  replace ((AddrString ∘ Unmap) <$> expected) with (AddrString <$> expected).
  2:{ apply list_fmap_ext. intros i x Hx. apply list_elem_of_lookup_2 in Hx.
      rewrite Forall_forall in Hun. unfold compose. by rewrite Unmap_id by auto. }
  rewrite texts_eq by done. split; intros E.
  - apply leibniz_equiv. intros x. by rewrite elem_of_list_to_set, <- elem_of_elements, E.
  - rewrite E. by apply elements_list_to_set.
Qed.

(** An address with a zone is never observed: whatever the servers answer, an
    expected list with a zoned address is not found, since a record has none. *)
Theorem zoned_never_observed servers h expected x net
    (Hne : servers <> []) (Hx : x ∈ expected) (Hwf : addr_wf x = true) (Hz : hasZone (Unmap x) = true) :
  fst (observe servers h expected net) <> Ok true.
Proof.
  unfold observe_rrsets. destruct servers as [|server servers]; [done|]. intros E.
  destruct (observe_servers (server :: servers) h (addressStrings expected) net) as [r net'] eqn:Eo.
  cbn in E. subst r. apply observed_servers in Eo.
  apply Forall_inv in Eo as (net1 & net2 & Eq). apply query_collected in Eq.
  rewrite Forall_forall in Eq. destruct (Eq (AddrString (Unmap x))) as (y & Ey & Hy & Hyz).
  - unfold addressStrings, sort_strings. rewrite merge_sort_Permutation.
    by apply (list_elem_of_fmap_2 (AddrString ∘ Unmap)).
  - apply AddrString_inj in Ey; [|by apply Unmap_wf|done]. congruence.
Qed.
End observer.

(** ** Witnesses *)

Definition example_Fqdn (s : string) : string := if HasSuffix s "." then s else s +:+ ".".

Definition example_IsSubDomain (parent child : string) : bool :=
  (parent =? child)%string || HasSuffix child ("." +:+ parent).

(** A server that applies every update and says so. *)
Abbreviation MemoryServer := (string -> gset Addr).
Definition example_success (m : UpdateMsg) : DnsResponse :=
  {| Rcode := 0; IsTsig := true; IsResponse := true; Opcode := 5; Question := [um_zone m];
     Truncated := false; Authoritative := false; Answer := [] |}.
Definition example_update (_ _ : string) (m : UpdateMsg) (net : MemoryServer)
    : result string (option DnsResponse) * MemoryServer :=
  (Ok (Some (example_success m)), apply_updates (um_updates m) net).

Definition example_writer : RFC2136 :=
  {| Server := "192.0.2.53"; Zone_ := "example.test"; TSIGName := "controller"; TSIGSecret := "c2VjcmV0";
     Algorithm := "" |}.
Definition example_address : Addr := Addr4 0x01010101.
Definition example_replace : MemoryServer -> result string unit * MemoryServer :=
  replace_rrsets example_Fqdn example_IsSubDomain (fun _ => ""%string) id (fun _ => 0) example_update
    example_writer "device-1.example.test" [example_address] 60.

Lemma RFC2136_implements_writer_witness :
  fst (example_replace (fun _ => ∅)) = Ok tt /\
  snd (example_replace (fun _ => ∅)) "device-1.example.test."%string = published [example_address].
Proof.
  assert (fst (example_replace (fun _ => ∅)) = Ok tt) as Hr by (vm_compute; reflexivity).
  split; [exact Hr|].
  pose proof (RFC2136_implements_writer example_Fqdn example_IsSubDomain (fun _ => ""%string) id
    (fun _ => 0) example_update example_writer (fun net => net)
    ltac:(intros m net r net' E; unfold example_update in E; simplify_eq; intros _ _ _ _ _ n; reflexivity)
    ltac:(intros m net answer net' E; unfold example_update in E; simplify_eq; right; intros n; reflexivity)
    "device-1.example.test" [example_address] 60 (fun _ => ∅)) as H.
  change (replace_rrsets _ _ _ _ _ _ _ _ _ _ _) with (example_replace (fun _ => ∅)) in H.
  destruct (example_replace (fun _ => ∅)) as [r net']. exact (proj1 H Hr).
Defined.

(** A name server with one A record, whose UDP answers are truncated. *)
Definition example_owner : string := "device-1.example.test.".
Definition example_records (_ name : string) : gset Addr :=
  if (name =? example_owner)%string then {[example_address]} else ∅.
Definition example_answer (tcp : bool) (m : QueryMsg) : DnsResponse :=
  {| Rcode := if (qm_name m =? example_owner)%string then 0 else 3; IsTsig := false; IsResponse := true;
     Opcode := 0; Question := [qm_name m]; Truncated := negb tcp; Authoritative := true;
     Answer := if (qm_name m =? example_owner)%string && bool_decide (qm_type m = TypeA)
               then [{| rr_name := example_owner;
                        rr_data := DataA [Byte.x01; Byte.x01; Byte.x01; Byte.x01] |}]
               else [] |}.
Definition example_query (tcp : bool) (_ : string) (m : QueryMsg) (net : unit)
    : result string DnsResponse * unit := (Ok (example_answer tcp m), net).

Lemma example_answers m : answers_with (example_records "" (qm_name m)) m (example_answer true m).
Proof.
  destruct m as [name ty rd size]. unfold answers_with, example_answer, example_records.
  cbn [Rcode Authoritative Answer qm_name qm_type].
  destruct (String.eqb_spec name example_owner) as [E|E]; cbn [andb].
  - split; [by left|]. split; [done|]. destruct ty.
    + subst name. vm_compute. reflexivity.
    + subst name. vm_compute. reflexivity.
  - split; [by right|]. split; [done|]. vm_compute. reflexivity.
Qed.

Lemma example_steady server : steady example_query (example_records server) server.
Proof.
  intros tcp m net. exists (example_answer tcp m), net. split; [done|].
  destruct tcp; [right|by left]. split; [done|]. apply example_answers.
Qed.

Definition example_observe (expected : list Addr) : result string bool :=
  fst (observe_rrsets example_Fqdn (fun _ => ""%string) example_query ["192.0.2.53"; "192.0.2.54"]%string
    "device-1.example.test" expected tt).

Lemma observer_exact_witness :
  example_observe [example_address] = Ok true /\
  example_observe [example_address] = Ok (forallb (fun server =>
    bool_decide (example_records server example_owner = list_to_set [example_address]))
    ["192.0.2.53"; "192.0.2.54"]%string).
Proof.
  split; [vm_compute; reflexivity|].
  apply (observer_exact example_Fqdn (fun _ => ""%string) example_query example_records
    ["192.0.2.53"; "192.0.2.54"]%string "device-1.example.test" [example_address] tt).
  - discriminate.
  - constructor; [apply example_steady|]. constructor; [apply example_steady|constructor].
  - constructor; [reflexivity|constructor].
  - vm_compute. reflexivity.
Defined.

Lemma zoned_never_observed_witness :
  example_observe [Addr6 0x20010db8000000000000000000000001 "eth0"] <> Ok true.
Proof.
  apply (zoned_never_observed example_Fqdn (fun _ => ""%string) example_query
    ["192.0.2.53"; "192.0.2.54"]%string "device-1.example.test" _
    (Addr6 0x20010db8000000000000000000000001 "eth0") tt).
  - discriminate.
  - by apply list_elem_of_here.
  - vm_compute. reflexivity.
  - vm_compute. reflexivity.
Defined.
