(* ===== verification/Controller.v ===== *)
(** * Package controller: the device API

    [src/dns/internal/controller/controller.go].  The handlers are functions of
    a request, the instant the handler's clock gives, and the state of any
    store that has the [DesiredState] interface; they answer a response and
    the store's new state. *)

From S2P Require Export Address Api Identity StoreTheorems.
From Stdlib Require Import String.
#[local] Open Scope Z_scope.
#[local] Abbreviation length := List.length.

(** ** Requests and responses *)

(** Headers under their canonical names. *)
Definition Header : Type := gmap string (list string).

Definition Values (h : Header) (key : string) : list string := default [] (h !! key).
Definition Get (h : Header) (key : string) : string := default ""%string (head (Values h key)).

Record Request : Type := {
  Method : string;
  Path : string;
  TLS : option ConnectionState;
  Headers : Header;
  Body : string;
}.

(** The errors of [validateAddresses], with the texts their messages quote. *)
Inductive AddressError : Type :=
| NoAddresses
| TooManyAddresses
| NotCanonical (address : string)
| WrongFamily (address family : string)
| NotRoutable (address : string)
| Duplicated (address : string).

(** A message of [api.Error]: fixed text, or an address error's text. *)
Inductive ErrorText : Type :=
| Text (message : string)
| AddressProblem (e : AddressError).

(** What [writeJSON] encodes. *)
Inductive Content : Type :=
| Health
| State (s : DeviceState)
| Problem (code : string) (message : ErrorText)
| NoContent.

Record Response : Type := { StatusCode : Z; ETag : option string; Payload : Content }.

Definition writeJSON (status : Z) (etag : option string) (value : Content) : Response :=
  {| StatusCode := status; ETag := etag; Payload := value |}.

Definition writeError (status : Z) (code : string) (message : ErrorText) : Response :=
  writeJSON status None (Problem code message).

Definition writeAuthenticationError (err : IdentityError) : Response :=
  match err with
  | ErrDenied => writeError 403 "forbidden" (Text "workload is not currently authorized")
  | ErrUnavailable =>
      writeError 503 "authorization_unavailable" (Text "current workload authorization is unavailable")
  | _ => writeError 401 "unauthenticated" (Text "a valid device certificate is required")
  end.

(** ** Configuration *)

(** [Config] without its store and clock; an interface value may be nil. *)
Record Config : Type := {
  cfg_Identity : option Policy;
  cfg_RequestIdentity : option RequestPolicy;
  cfg_LeaseDuration : duration;
  cfg_RenewAfter : duration;
  cfg_AllowNonGlobalAddresses : bool;
}.

Record Handler : Type := {
  identity : option Policy;
  requestIdentity : option RequestPolicy;
  leaseDuration : duration;
  renewAfter : duration;
  allowNonGlobalAddresses : bool;
}.

Definition New (config : Config) (has_store : bool) : result string Handler :=
  if Bool.eqb (bool_decide (cfg_Identity config = None))
       (bool_decide (cfg_RequestIdentity config = None)) || negb has_store
  then Err "exactly one identity policy and a desired-state store are required"%string else
  if (cfg_LeaseDuration config <=? 0) || (cfg_RenewAfter config <=? 0)
     || (cfg_LeaseDuration config <=? cfg_RenewAfter config)
  then Err "renew-after must be positive and shorter than lease-duration"%string else
  Ok {| identity := cfg_Identity config; requestIdentity := cfg_RequestIdentity config;
        leaseDuration := cfg_LeaseDuration config; renewAfter := cfg_RenewAfter config;
        allowNonGlobalAddresses := cfg_AllowNonGlobalAddresses config |}.

(** ** Authentication *)

(** A nil policy is not called by a handler that [New] made. *)
Definition authenticate (h : Handler) (request : Request) : result IdentityError Device :=
  match requestIdentity h with
  | Some policy => policy (TLS request)
  | None =>
      match TLS request with
      | Some {| VerifiedChains := (leaf :: _) :: _ |} =>
          match identity h with
          | Some policy => policy (Some leaf)
          | None => Err (ErrOther "nil policy")
          end
      | _ => Err (ErrOther "a verified client certificate is required")
      end
  end.

(** ** Parsing a write *)

Definition maxRequestBytes : nat := Z.to_nat (Z.shiftl 64 10).

(** [^[A-Za-z0-9][A-Za-z0-9._:-]{0,127}$] *)
Definition is_alnum (c : ascii) : bool := is_upper c || is_lower c || is_digit c.
Definition key_char (c : ascii) : bool :=
  is_alnum c || Ascii.eqb c "." || Ascii.eqb c "_" || Ascii.eqb c ":" || Ascii.eqb c "-".
Definition idempotencyKeyPattern (s : string) : bool :=
  match s with
  | EmptyString => false
  | String c r => is_alnum c && string_forallb key_char r && (String.length r <=? 127)%nat
  end.

(** [ensureEOF]: what is left after the document must be white space up to the
    true end of the body; [cut] when the size limit came first. *)
Definition ensureEOF (rest : string) (cut : bool) : bool := (skip_ws rest =? "")%string && negb cut.

Definition is_null (j : json) : bool := match j with JNull => true | _ => false end.

(** The request body behind [http.MaxBytesReader], decoded with unknown fields
    refused.  A bare [null] that ends where the limit cuts is not complete. *)
Definition decode_body (body : string) : result string EndpointRequest :=
  let readable := String.substring 0 maxRequestBytes body in
  let cut := (maxRequestBytes <? String.length body)%nat in
  match DecodeNext readable with
  | None => Err "request must be one JSON endpoint document"%string
  | Some (j, rest) =>
      if cut && (rest =? "")%string && is_null j
      then Err "request must be one JSON endpoint document"%string else
      match decode_struct true EndpointRequest_fields j [] with
      | (_, false) => Err "request must be one JSON endpoint document"%string
      | (payload, true) =>
          if ensureEOF rest cut then Ok payload
          else Err "request must contain exactly one JSON document"%string
      end
  end.

Definition expectedFamily (addr : Addr) : string := if Is4 addr then "ipv4" else "ipv6".

(** The loop of [validateAddresses]; [addresses] in reverse order of arrival. *)
Fixpoint validate_each (allow : bool) (input : list Address) (addresses : list Addr)
    : result AddressError (list Addr) :=
  match input with
  | [] => Ok (CanonicalAddresses (reverse addresses))
  | item :: rest =>
      match ParseAddr (AddressText item) with
      | None => Err (NotCanonical (AddressText item))
      | Some addr =>
          if Is4In6 addr then Err (NotCanonical (AddressText item)) else
          if negb (Family item =? expectedFamily addr)%string
          then Err (WrongFamily (AddressText item) (Family item)) else
          if negb allow && negb (IsPubliclyRoutable addr)
          then Err (NotRoutable (AddressText item)) else
          if bool_decide (addr ∈ addresses) then Err (Duplicated (AddressText item))
          else validate_each allow rest (addr :: addresses)
      end
  end.

Definition validateAddresses (h : Handler) (input : list Address)
    : result AddressError (list Addr) :=
  if (length input =? 0)%nat then Err NoAddresses else
  if (32 <? length input)%nat then Err TooManyAddresses else
  validate_each (allowNonGlobalAddresses h) input [].

(** The status of the error and its text, or the precondition. *)
Definition parseWritePrecondition (headers : Header) : result (Z * string) IntentPrecondition :=
  let ifMatch := Values headers "If-Match" in
  let ifNoneMatch := Values headers "If-None-Match" in
  if ((length ifMatch =? 0)%nat && (length ifNoneMatch =? 0)%nat)
     || ((0 <? length ifMatch)%nat && (0 <? length ifNoneMatch)%nat)
  then Err (428, "exactly one of If-Match or If-None-Match is required"%string) else
  match ifMatch with
  | [value] =>
      match ParseGenerationETag (TrimSpace value) with
      | Ok generation => Ok (MatchGeneration generation)
      | Err e => Err (400, "invalid If-Match: " +:+ e)
      end
  | _ :: _ => Err (400, "If-Match must contain exactly one generation ETag"%string)
  | [] =>
      match ifNoneMatch with
      | [value] => if (TrimSpace value =? "*")%string then Ok RequireAbsent
                   else Err (400, "If-None-Match must be exactly *"%string)
      | _ => Err (400, "If-None-Match must be exactly *"%string)
      end
  end.

Definition deviceState (intent : Intent) (renewAfterSeconds : Z) : DeviceState :=
  {| ds_DeviceID := DeviceID intent; ds_Hostname := Hostname intent;
     ds_Addresses := AddressesFromNetIP (Addresses intent); ds_Generation := Generation intent;
     ds_Status := Model.Status intent; ds_LeaseExpiresAt := LeaseExpiresAt intent;
     ds_RenewAfterSeconds := renewAfterSeconds |}.

(** [int64(h.renewAfter / time.Second)] *)
Definition renewAfterSeconds (h : Handler) : Z := Z.quot (renewAfter h) second.

(** ** Handlers *)

(** The store request of a write that passed every check. *)
Definition upsert_of (h : Handler) (device : Device) (request : Request) (addresses : list Addr)
    (precondition : IntentPrecondition) (now : time) : UpsertRequest :=
  {| req_DeviceID := ID device; req_Hostname := DeviceHostname device;
     req_Addresses := addresses; req_IdempotencyKey := Get (Headers request) "Idempotency-Key";
     req_Precondition := precondition; req_Now := now;
     req_LeaseDuration := leaseDuration h; req_RenewAfterSeconds := renewAfterSeconds h |}.

(** What the store's result is answered with. *)
Definition put_response (result : result StoreError UpsertResult) : Response :=
  match result with
  | Err ErrIdempotencyConflict => writeError 409 "idempotency_conflict"
      (Text "idempotency key is already bound to a different request")
  | Err ErrPreconditionRequired => writeError 428 "precondition_required"
      (Text "a desired-state write precondition is required")
  | Err ErrPreconditionFailed => writeError 412 "precondition_failed"
      (Text "desired-state write precondition failed")
  | Err _ => writeError 500 "storage_error" (Text "desired state could not be persisted")
  | Ok r => writeJSON 202 (Some (GenerationETag (Generation (res_Intent r))))
              (State (deviceState (res_Intent r) (res_RenewAfterSeconds r)))
  end.

Section handlers.
Context {S : Type} `{DesiredState S}.

Definition putEndpoints (h : Handler) (request : Request) (now : time) (s : S) : Response * S :=
  match authenticate h request with
  | Err err => (writeAuthenticationError err, s)
  | Ok device =>
  if negb (idempotencyKeyPattern (Get (Headers request) "Idempotency-Key"))
  then (writeError 400 "invalid_idempotency_key"
          (Text "Idempotency-Key is required and must contain 1-128 safe characters"), s) else
  match decode_body (Body request) with
  | Err message => (writeError 400 "invalid_json" (Text message), s)
  | Ok payload =>
  match validateAddresses h payload with
  | Err e => (writeError 400 "invalid_addresses" (AddressProblem e), s)
  | Ok addresses =>
  match parseWritePrecondition (Headers request) with
  | Err (status, message) =>
      (writeError status (if status =? 428 then "precondition_required" else "invalid_precondition")
         (Text message), s)
  | Ok precondition =>
      let '(result, s) := upsert_intent (upsert_of h device request addresses precondition now) s in
      (put_response result, s)
  end end end end.

Definition getStatus (h : Handler) (request : Request) (now : time) (s : S) : Response * S :=
  match authenticate h request with
  | Err err => (writeAuthenticationError err, s)
  | Ok device =>
  let unreadable := writeError 500 "storage_error" (Text "desired state could not be read") in
  let show intent := writeJSON 200 (Some (GenerationETag (Generation intent)))
                       (State (deviceState intent (renewAfterSeconds h))) in
  match get_intent (ID device) s with
  | (Err ErrNotFound, s) =>
      (writeError 404 "not_found" (Text "this device has no desired state"), s)
  | (Err _, s) => (unreadable, s)
  | (Ok intent, s) =>
      if negb (length (Addresses intent) =? 0)%nat && negb (Before now (LeaseExpiresAt intent)) then
        match expire_leases now s with
        | (Err _, s) => (writeError 500 "storage_error"
            (Text "expired desired state could not be reconciled"), s)
        | (Ok _, s) =>
            match get_intent (ID device) s with
            | (Err _, s) => (unreadable, s)
            | (Ok intent, s) => (show intent, s)
            end
        end
      else (show intent, s)
  end end.

Definition health : Response := writeJSON 200 None Health.

(** The routes of [New]; the mux answers HEAD as GET and refuses the rest.  A
    path that the mux would first clean, and answer with a redirection, is among
    the rest here: no route has such a path. *)
Definition ServeHTTP (h : Handler) (request : Request) (now : time) (s : S) : Response * S :=
  let is_get := (Method request =? "GET")%string || (Method request =? "HEAD")%string in
  if (Path request =? "/healthz")%string then
    if is_get then (health, s) else (writeJSON 405 None NoContent, s)
  else if (Path request =? "/v1/devices/self/endpoints")%string then
    if (Method request =? "PUT")%string then putEndpoints h request now s
    else (writeJSON 405 None NoContent, s)
  else if (Path request =? "/v1/devices/self/status")%string then
    if is_get then getStatus h request now s else (writeJSON 405 None NoContent, s)
  else (writeJSON 404 None NoContent, s).
End handlers.

(** ** Lemmas *)

(** An address the API accepts for an item. *)
Definition valid_item (allow : bool) (item : Address) (addr : Addr) : Prop :=
  ParseAddr (AddressText item) = Some addr /\ Is4In6 addr = false /\
  Family item = expectedFamily addr /\ (allow = true \/ IsPubliclyRoutable addr = true).

Lemma validate_each_Ok allow input seen l :
  NoDup seen ->
  (validate_each allow input seen = Ok l <->
   exists addrs, Forall2 (valid_item allow) input addrs /\ NoDup (reverse seen ++ addrs) /\
     l = CanonicalAddresses (reverse seen ++ addrs)).
Proof.
  revert seen. induction input as [|item input IH]; intros seen Hs.
  - cbn. split.
    + intros [= <-]. exists []. rewrite app_nil_r. split_and!; [constructor| |done].
      by rewrite reverse_Permutation.
    + intros (addrs & H%Forall2_nil_inv_l & _ & ->). subst. by rewrite app_nil_r.
  - cbn [validate_each]. split.
    + destruct (ParseAddr _) as [a|] eqn:Ep; [|done]. destruct (Is4In6 a) eqn:E4; [done|].
      destruct (_ =? _)%string eqn:Ef; [|done]. destruct (negb allow && _) eqn:Er; [done|].
      case_bool_decide as Hin; [done|]. cbn [negb]. intros H.
      apply IH in H as (addrs & H & Hn & ->); [|by constructor].
      exists (a :: addrs). rewrite reverse_cons, <- app_assoc in *. split_and!; try done.
      constructor; [|done]. apply String.eqb_eq in Ef. split_and!; try done.
      destruct allow; [by left|right]. by destruct (IsPubliclyRoutable a).
    + intros (addrs & H & Hn & ->). apply Forall2_cons_inv_l in H as (a & addrs' & Hv & H & ->).
      destruct Hv as (-> & -> & -> & Hr). rewrite String.eqb_refl. cbn [negb].
      replace (negb allow && _) with false
        by (destruct allow; [done|]; destruct Hr as [?| ->]; done).
      rewrite bool_decide_eq_false_2.
      * apply IH.
        -- constructor; [|done]. intros Hin. apply NoDup_app in Hn as (_ & Hn & _).
           apply (Hn a); [by apply elem_of_reverse|set_solver].
        -- exists addrs'. by rewrite reverse_cons, <- app_assoc.
      * intros Hin. apply NoDup_app in Hn as (_ & Hn & _).
        apply (Hn a); [by apply elem_of_reverse|set_solver].
Qed.

Lemma parseWritePrecondition_Ok headers p :
  parseWritePrecondition headers = Ok p <->
  (exists v g, Values headers "If-Match" = [v] /\ Values headers "If-None-Match" = [] /\
     TrimSpace v = GenerationETag g /\ 0 < g < 2 ^ 63 /\ p = MatchGeneration g) \/
  (exists v, Values headers "If-Match" = [] /\ Values headers "If-None-Match" = [v] /\
     TrimSpace v = "*"%string /\ p = RequireAbsent).
Proof.
  unfold parseWritePrecondition. split.
  - destruct (Values headers "If-Match") as [|v [|]] eqn:E1,
      (Values headers "If-None-Match") as [|w [|]] eqn:E2; cbn; try done.
    + destruct (_ =? _)%string eqn:E; [|done]. intros [= <-]. right. exists w.
      by apply String.eqb_eq in E.
    + destruct (ParseGenerationETag _) as [g|] eqn:E; [|done]. intros [= <-].
      apply ParseGenerationETag_Ok in E as [E ?]. left. by exists v, g.
  - intros [(v & g & -> & -> & E & Hg & ->)|(v & -> & -> & E & ->)]; cbn; rewrite E; [|done].
    by rewrite ParseGenerationETag_Format.
Qed.

Lemma parseWritePrecondition_status headers status message :
  parseWritePrecondition headers = Err (status, message) -> status = 400 \/ status = 428.
Proof.
  unfold parseWritePrecondition. intros H. repeat case_match; simplify_eq; auto.
Qed.

Lemma parseWritePrecondition_valid headers p :
  parseWritePrecondition headers = Ok p -> precondition_valid p = true.
Proof.
  intros [(v & g & _ & _ & _ & Hg & ->)|(v & _ & _ & _ & ->)]%parseWritePrecondition_Ok; [|done].
  unfold precondition_valid. cbn. apply Z.ltb_lt. lia.
Qed.

(** A request that passed every check of the handler. *)
Record checked (h : Handler) (request : Request) (device : Device) (addresses : list Addr)
    (p : IntentPrecondition) : Prop := {
  ck_device : authenticate h request = Ok device;
  ck_key : idempotencyKeyPattern (Get (Headers request) "Idempotency-Key") = true;
  ck_addresses : exists payload, decode_body (Body request) = Ok payload /\
    validateAddresses h payload = Ok addresses;
  ck_precondition : parseWritePrecondition (Headers request) = Ok p;
}.

(** What validated addresses are. *)
Lemma validateAddresses_Ok h input l :
  validateAddresses h input = Ok l ->
  exists addrs, Forall2 (valid_item (allowNonGlobalAddresses h)) input addrs /\ NoDup addrs /\
    l = CanonicalAddresses addrs.
Proof.
  unfold validateAddresses. case_match; [done|]. case_match; [done|].
  intros Hv. by apply validate_each_Ok in Hv; [|constructor].
Qed.

Lemma validated_canonical h input l :
  validateAddresses h input = Ok l -> CanonicalAddresses l = l.
Proof. intros (addrs & _ & _ & ->)%validateAddresses_Ok. apply Canonical_idemp. Qed.

Lemma validated_routable h input l :
  validateAddresses h input = Ok l ->
  Forall (fun a => Is4In6 a = false /\
    (allowNonGlobalAddresses h = true \/ IsPubliclyRoutable a = true)) l.
Proof.
  intros (addrs & Hv & _ & ->)%validateAddresses_Ok. apply Forall_forall. intros x.
  rewrite Canonical_elem, list_elem_of_fmap. intros (y & -> & Hy).
  apply (Forall2_Forall_r _ (fun a => Is4In6 a = false /\
    (allowNonGlobalAddresses h = true \/ IsPubliclyRoutable a = true)) input) in Hv.
  - rewrite Forall_forall in Hv. specialize (Hv y Hy). by rewrite Unmap_id by apply Hv.
  - apply Forall_forall. intros item _ a (_ & H4 & _ & Hr). done.
Qed.

(** The statuses of a request that fails a check. *)
Definition refused_status : list Z := [400; 401; 403; 428; 503].

Ltac refused :=
  refine (ex_intro _ _ (conj _ (conj _ (fun s => eq_refl)))); [cbn; unfold refused_status; set_solver|done].

Section put.
Context {S : Type} `{DesiredState S}.

Lemma putEndpoints_cases h request now :
  (exists response, StatusCode response ∈ refused_status /\ ETag response = None /\
     forall s, putEndpoints h request now s = (response, s)) \/
  (exists device addresses p, checked h request device addresses p /\
     forall s, let o := upsert_intent (upsert_of h device request addresses p now) s in
       putEndpoints h request now s = (put_response (fst o), snd o)).
Proof.
  unfold putEndpoints.
  destruct (authenticate h request) as [device|err] eqn:Ea.
  2: { left. destruct err; refused. }
  destruct (idempotencyKeyPattern _) eqn:Ek; cbn [negb].
  2: { left. refused. }
  destruct (decode_body _) as [payload|] eqn:Eb.
  2: { left. refused. }
  destruct (validateAddresses _ _) as [addresses|] eqn:Ev.
  2: { left. refused. }
  destruct (parseWritePrecondition _) as [p|[status message]] eqn:Ep.
  - right. exists device, addresses, p. split.
    + split; try done. by exists payload.
    + intros s. cbv zeta. by destruct (upsert_intent _ s).
  - left. apply parseWritePrecondition_status in Ep as [-> | ->]; refused.
Qed.

Lemma putEndpoints_checked h request device addresses p now (s : S) :
  checked h request device addresses p ->
  let o := upsert_intent (upsert_of h device request addresses p now) s in
  putEndpoints h request now s = (put_response (fst o), snd o).
Proof.
  intros [Ha Hk (payload & Hb & Hv) Hp]. unfold putEndpoints. rewrite Ha, Hk, Hb, Hv, Hp.
  cbn [negb]. cbv zeta. by destruct (upsert_intent _ s).
Qed.
End put.

Lemma put_response_202 r : StatusCode (put_response r) = 202 <-> exists res, r = Ok res.
Proof.
  split; [|by intros [res ->]]. destruct r as [res|[]]; cbn; intros; [by eexists|done..].
Qed.

(** ** Properties *)

(** C20: A write's address list is accepted exactly when it has 1 to 32 items, each
    the text of an address that is not IPv4-mapped, under its own family's name
    and publicly routable (unless the handler allows others), with no address
    twice; the result is the canonical list of those addresses. *)
Theorem validateAddresses_correct h input l :
  validateAddresses h input = Ok l <->
  (1 <= length input <= 32)%nat /\
  exists addrs, NoDup addrs /\ l = CanonicalAddresses addrs /\
    Forall2 (fun item addr => ParseAddr (AddressText item) = Some addr /\ Is4In6 addr = false /\
      Family item = (if Is4 addr then "ipv4" else "ipv6")%string /\
      (allowNonGlobalAddresses h = true \/ IsPubliclyRoutable addr = true)) input addrs.
Proof.
  unfold validateAddresses. destruct (Nat.eqb_spec (length input) 0) as [E|E].
  { split; [done|]. lia. }
  destruct (Nat.ltb_spec 32 (length input)); [split; [done|lia]|].
  rewrite validate_each_Ok by constructor. cbn. split.
  - intros (addrs & Hv & Hn & ->). split; [lia|]. by exists addrs.
  - intros (_ & addrs & Hn & -> & Hv). by exists addrs.
Qed.

(** C21: The precondition of a write is read exactly from one generation ETag in
    If-Match with no If-None-Match, or from a single [*] in If-None-Match with
    no If-Match; anything else, and nothing else, is refused, with 428 when
    neither or both headers are given and with 400 otherwise. *)
Theorem parseWritePrecondition_exact headers :
  let ifMatch := Values headers "If-Match" in
  let ifNoneMatch := Values headers "If-None-Match" in
  (forall p, parseWritePrecondition headers = Ok p <->
     (exists v g, ifMatch = [v] /\ ifNoneMatch = [] /\
        TrimSpace v = GenerationETag g /\ 0 < g < 2 ^ 63 /\ p = MatchGeneration g) \/
     (exists v, ifMatch = [] /\ ifNoneMatch = [v] /\ TrimSpace v = "*"%string /\ p = RequireAbsent)) /\
  (forall status message, parseWritePrecondition headers = Err (status, message) ->
     (status = 428 <-> (ifMatch = [] <-> ifNoneMatch = [])) /\ (status = 428 \/ status = 400)).
Proof.
  cbv zeta. split; [intros p; by rewrite parseWritePrecondition_Ok|]. intros status message.
  unfold parseWritePrecondition. destruct (Values headers "If-Match") as [|v [|v' l]], (Values headers "If-None-Match") as [|w [|w' l']];
    cbn [length Nat.eqb Nat.ltb Nat.leb andb orb];
    repeat case_match; intros; simplify_eq; (split; [split; [try done|]; naive_solver|auto]).
Qed.

(** C16: A device writes only its own record, on any store: a write either fails a
    check, leaving the store untouched, or is one upsert under the
    authenticated device's id and hostname, of validated addresses under a
    valid precondition, and it is answered 202 exactly when the store accepts. *)
Theorem putEndpoints_writes_own_record {S} `{DesiredState S} h request now (s : S) :
  let '(response, s') := putEndpoints h request now s in
  (s' = s /\ StatusCode response ∈ refused_status /\ ETag response = None) \/
  exists device r,
    authenticate h request = Ok device /\ s' = snd (upsert_intent r s) /\
    req_DeviceID r = ID device /\ req_Hostname r = DeviceHostname device /\
    req_IdempotencyKey r = Get (Headers request) "Idempotency-Key" /\ req_Now r = now /\
    precondition_valid (req_Precondition r) = true /\
    CanonicalAddresses (req_Addresses r) = req_Addresses r /\
    Forall (fun a => Is4In6 a = false /\
      (allowNonGlobalAddresses h = true \/ IsPubliclyRoutable a = true)) (req_Addresses r) /\
    (StatusCode response = 202 <-> exists res, fst (upsert_intent r s) = Ok res).
Proof.
  destruct (putEndpoints_cases h request now) as [(response & Hs & He & E)|(device & l & p & Hc & E)];
    specialize (E s).
  - rewrite E. by left.
  - cbv zeta in E. rewrite E. right. exists device, (upsert_of h device request l p now).
    destruct Hc as [Ha _ (payload & _ & Hv) Hp]. cbn [upsert_of req_DeviceID req_Hostname req_Addresses
      req_IdempotencyKey req_Now req_Precondition].
    split_and!; try done; [by eapply parseWritePrecondition_valid|..].
    + by eapply validated_canonical.
    + by eapply validated_routable.
    + apply put_response_202.
Qed.
