(* ===== verification/ControllerTheorems.v ===== *)
(** * The device API over the SQLite store

    What the handlers guarantee when their store is the SQLite store, in any
    database reachable from the empty one: repeated writes, status reads, and
    the status-then-write cycle of a client. *)

From S2P Require Export Controller.
From Stdlib Require Import String.
#[local] Open Scope Z_scope.
#[local] Abbreviation length := List.length.

(** The store request a checked write becomes is one the store can carry. *)
Definition carried (h : Handler) (request : Request) (now : time) : Prop :=
  forall device l p, checked h request device l p -> request_ok (upsert_of h device request l p now).

Lemma checked_unique h request device l p device' l' p' :
  checked h request device l p -> checked h request device' l' p' ->
  device = device' /\ l = l' /\ p = p'.
Proof.
  intros [Ha _ (b & Hb & Hv) Hp] [Ha' _ (b' & Hb' & Hv') Hp']. split_and!; congruence.
Qed.

Lemma put_accepted_checked h request now (s s' : TxState) response :
  putEndpoints h request now s = (response, s') -> StatusCode response = 202 ->
  exists device l p res, checked h request device l p /\
    UpsertIntent (upsert_of h device request l p now) s = (Ok res, s') /\
    response = put_response (Ok res).
Proof.
  intros E H202. destruct (putEndpoints_cases h request now (S := TxState))
    as [(r & Hs & _ & E')|(device & l & p & Hc & E')].
  - rewrite E' in E. simplify_eq. rewrite H202 in Hs. unfold refused_status in Hs. set_solver.
  - specialize (E' s). cbv zeta in E'. rewrite E' in E. simplify_eq.
    apply put_response_202 in H202 as [res Hres]. exists device, l, p, res.
    split_and!; [done| |by rewrite Hres]. cbn [upsert_intent SQLite] in *.
    by destruct (UpsertIntent _ s); simplify_eq/=.
Qed.

Lemma put_checked_run h request now (s s' : TxState) device l p r :
  checked h request device l p ->
  UpsertIntent (upsert_of h device request l p now) s = (r, s') ->
  putEndpoints h request now s = (put_response r, s').
Proof.
  intros Hc E. rewrite (putEndpoints_checked h request device l p now s Hc).
  cbn [upsert_intent SQLite]. by rewrite E.
Qed.

(** C17: A write is idempotent end to end: once a PUT was answered 202, repeating
    it later, after any calls on the store under any faults, is answered with
    the same response and leaves the database unchanged. *)
Theorem put_is_idempotent n m d d' h request now now' w w0 fs response s :
  few (n + S m) -> db_run empty_db n d -> carried h request now -> carried h request now' ->
  putEndpoints h request now {| durable := d; work := w; faults := fs |} = (response, s) ->
  StatusCode response = 202 -> db_run (durable s) m d' ->
  exists w', putEndpoints h request now' (quiet d' w0) = (response, quiet d' w').
Proof.
  intros Hn Hrun Hc Hc' E H202 Hrun'.
  destruct (put_accepted_checked h request now _ s response E H202)
    as (device & l & p & res & Hck & Eu & ->).
  destruct (db_run_empty n d) as (a & Hs & ->); [unfold few in *; lia|done|].
  set (r := upsert_of h device request l p now) in *.
  pose proof (Hc _ _ _ Hck) as Hr. fold r in Hr.
  destruct (upsert_outcome r a {| durable := tables a; work := w; faults := fs |}
    (sd_ok _ _ Hs) Hr eq_refl) as [[E1 E2]|[[e E1] _]]; rewrite Eu in *; cbn in *; [|done].
  pose proof (upsert_sound n a r Hs ltac:(unfold few in *; lia) Hr) as Hs1.
  destruct (spec_upsert r a) as [r0 a1] eqn:Es. cbn in E1, E2, Hs1. subst r0. rewrite E2 in Hrun'.
  destruct (db_run_sound (S n) a1 m d') as (a2 & Hs2 & -> & Hans & _);
    [done|unfold few in *; lia|done|].
  pose proof (spec_upsert_again r (upsert_of h device request l p now') a res a1 a2
    ltac:(done) eq_refl Es Hans) as E3.
  destruct (UpsertIntent_refines_tables (upsert_of h device request l p now') a2 w0
    (sd_ok _ _ Hs2) (Hc' _ _ _ Hck)) as [w' E4]. rewrite E3 in E4.
  exists w'. by rewrite (put_checked_run _ _ _ _ _ _ _ _ _ Hck E4).
Qed.

(** ** Status *)

(** What a 200 status shows of an intent. *)
Definition shown (h : Handler) (i : Intent) : Response :=
  {| StatusCode := 200; ETag := Some (GenerationETag (Generation i));
     Payload := State (deviceState i (renewAfterSeconds h)) |}.

Lemma getStatus_run h request now a w device :
  register_ok a -> int64_range now -> authenticate h request = Ok device ->
  exists w', getStatus h request now (quiet (tables a) w) =
    match reg a !! ID device with
    | None => (writeError 404 "not_found" (Text "this device has no desired state"),
               quiet (tables a) w')
    | Some c => (shown h (realize now c),
                 quiet (tables (if lease_expired now c then spec_expire now a else a)) w')
    end.
Proof.
  intros Ha Hn Hauth. unfold getStatus. rewrite Hauth.
  cbn [get_intent expire_leases SQLite]. rewrite GetIntent_refines_tables by done.
  unfold spec_get. destruct (reg a !! ID device) as [c|] eqn:Ec; cbn [of_option]; [|by exists w].
  fold (lease_expired now c). unfold realize. destruct (lease_expired now c) eqn:El; [|by exists w].
  destruct (ExpireLeases_refines_tables a now w Ha Hn) as [w1 ->].
  rewrite GetIntent_refines_tables by (by apply spec_expire_ok).
  unfold spec_get. cbn [reg spec_expire set_reg]. rewrite lookup_fmap, Ec. cbn.
  unfold realize. rewrite El. by exists w1.
Qed.

(** C19: A status never shows an expired lease: a 200 answer is the device's stored
    intent after the call, its ETag is that generation's, and it shows no
    address whose lease has ended at that instant; without an intent the answer
    is 404. *)
Theorem status_never_shows_expired n d h request now w device :
  few n -> db_run empty_db n d -> int64_range now -> authenticate h request = Ok device ->
  exists response s, getStatus h request now (quiet d w) = (response, s) /\
    match stored d (ID device) with
    | None => StatusCode response = 404 /\ durable s = d
    | Some _ => exists i,
        stored (durable s) (ID device) = Some i /\ StatusCode response = 200 /\
        ETag response = Some (GenerationETag (Generation i)) /\
        Payload response = State (deviceState i (renewAfterSeconds h)) /\
        (ds_Addresses (deviceState i (renewAfterSeconds h)) = [] \/ now < LeaseExpiresAt i)
    end.
Proof.
  intros Hn Hrun Hnow Hauth. destruct (db_run_empty n d Hn Hrun) as (a & Hs & ->).
  pose proof (sd_ok _ _ Hs) as Ha.
  destruct (getStatus_run h request now a w device Ha Hnow Hauth) as [w' E].
  rewrite stored_tables by done.
  destruct (reg a !! ID device) as [c|] eqn:Ec; (eexists _, _; split; [exact E|]); [|done].
  exists (realize now c). cbn [durable quiet]. rewrite stored_tables.
  2: { case_match; [by apply spec_expire_ok|done]. }
  split_and!; try done.
  - unfold realize. destruct (lease_expired now c) eqn:El; [|done].
    cbn. rewrite lookup_fmap, Ec. cbn. unfold realize. by rewrite El.
  - cbn [ds_Addresses deviceState]. pose proof (lease_expired_realize now c) as El.
    unfold lease_expired, Before in El. destruct (Addresses (realize now c)); [by left|right].
    cbn in El. lia.
Qed.

Lemma expire_sound n a now :
  sound n a -> few (S n) -> int64_range now -> sound (S n) (spec_expire now a).
Proof.
  intros Hs Hn Hnow. eapply step_sound; [done|unfold few in *; lia|].
  apply (step_call (CallExpire now) a (fst (call (CallExpire now) a))); [done|].
  exact (outcome_done (CallExpire now) a).
Qed.

Lemma sound_later n a : sound n a -> few (S n) -> sound (S n) a.
Proof.
  intros Hs Hn. eapply step_sound; [done|unfold few in *; lia|].
  apply (step_call (CallGet "") a (fst (call (CallGet "") a))); [done|].
  exact (outcome_done (CallGet "") a).
Qed.

(** The store a 200 status leaves, and its ETag. *)
Lemma status_state h request now n a w device response s i :
  sound n a -> few (S n) -> int64_range now -> authenticate h request = Ok device ->
  getStatus h request now (quiet (tables a) w) = (response, s) -> StatusCode response = 200 ->
  stored (durable s) (ID device) = Some i ->
  exists a1 w1, sound (S n) a1 /\ s = quiet (tables a1) w1 /\ reg a1 !! ID device = Some i /\
    ETag response = Some (GenerationETag (Generation i)).
Proof.
  intros Hs Hn Hnow Hauth E H200 Hi. pose proof (sd_ok _ _ Hs) as Ha.
  destruct (getStatus_run h request now a w device Ha Hnow Hauth) as [w' E'].
  rewrite E' in E. destruct (reg a !! ID device) as [c|] eqn:Ec; simplify_eq.
  set (a1 := if lease_expired now c then spec_expire now a else a) in *.
  assert (sound (S n) a1) as Hs1
    by (unfold a1; destruct (lease_expired now c); [by apply expire_sound|by apply sound_later]).
  cbn [durable quiet] in Hi. rewrite stored_tables in Hi by apply Hs1.
  assert (realize now c = i) as <-; [|by exists a1, w'].
  revert Hi. unfold a1, realize. destruct (lease_expired now c) eqn:El; [|congruence].
  cbn. rewrite lookup_fmap, Ec. cbn. unfold realize. rewrite El. congruence.
Qed.

Lemma TrimSpace_ETag g : TrimSpace (GenerationETag g) = GenerationETag g.
Proof.
  unfold GenerationETag. pose proof (TrimSpace_quoted ("g-" +:+ FormatInt g)) as E.
  by rewrite !app_assoc_s in E.
Qed.

(** A generation's ETag in If-Match is that generation's precondition. *)
Lemma checked_etag h request device l p g :
  0 < g < 2 ^ 63 -> checked h request device l p ->
  Values (Headers request) "If-Match" = [GenerationETag g] -> p = MatchGeneration g.
Proof.
  intros Hg Hck Hv. apply ck_precondition, parseWritePrecondition_Ok in Hck.
  destruct Hck as [(v & g' & E & _ & Ht & Hg' & ->)|(v & E & _)]; rewrite Hv in E; simplify_eq.
  rewrite TrimSpace_ETag in Ht. pose proof (ParseGenerationETag_Format g Hg) as H1.
  rewrite Ht, ParseGenerationETag_Format in H1 by done. by simplify_eq.
Qed.

(** A write whose precondition is the current generation of a running lease. *)
Lemma upsert_current r a i :
  reg a !! req_DeviceID r = Some i -> answers a !! key_of r = None -> 0 < Generation i ->
  req_Precondition r = MatchGeneration (Generation i) -> Hostname i = req_Hostname r ->
  Addresses i = [] \/ req_Now r < LeaseExpiresAt i ->
  spec_upsert r a = accept r (next_intent r (wanted r) i) a.
Proof.
  intros Hi Hk Hg Hp Hh Hl. unfold spec_upsert. unfold key_of in Hk. rewrite Hk, Hp.
  unfold precondition_valid. cbn [MustBeAbsent ExpectedGeneration MatchGeneration negb andb orb].
  replace (0 <? Generation i) with true by lia. rewrite Hi. fsimpl.
  rewrite realize_running by (destruct Hl; auto).
  unfold precondition_failed. cbn [MustBeAbsent ExpectedGeneration MatchGeneration negb].
  by rewrite Z.eqb_refl, Hh, String.eqb_refl.
Qed.

(** C18: The client's cycle works: a status's ETag, sent back as If-Match with a new
    key in a well-formed write before the shown lease ends, is accepted when
    nothing else wrote in between, and moves the generation by at most one. *)
Theorem status_then_put n d h status_request request now now' w device response s i :
  few (S (S n)) -> db_run empty_db n d -> int64_range now -> carried h request now' ->
  authenticate h status_request = Ok device ->
  getStatus h status_request now (quiet d w) = (response, s) -> StatusCode response = 200 ->
  stored (durable s) (ID device) = Some i -> Hostname i = DeviceHostname device ->
  Addresses i = [] \/ now' < LeaseExpiresAt i ->
  (exists l p, checked h request device l p) ->
  Values (Headers request) "If-Match" = option_list (ETag response) ->
  idempotency_requests (durable s) !! (ID device, Get (Headers request) "Idempotency-Key") = None ->
  exists response' s', putEndpoints h request now' s = (response', s') /\
    StatusCode response' = 202 /\
    exists i', stored (durable s') (ID device) = Some i' /\
      ETag response' = Some (GenerationETag (Generation i')) /\
      Generation i <= Generation i' <= Generation i + 1.
Proof.
  intros Hn Hrun Hnow Hc Hauth E H200 Hi Hhost Hlease (l & p & Hck) Hm Hk.
  destruct (db_run_empty n d) as (a & Hs & ->); [unfold few in *; lia|done|].
  destruct (status_state h status_request now n a w device response s i)
    as (a1 & w1 & Hs1 & -> & Hreg & He); [done|unfold few in *; lia|done..|].
  assert (rooms a1) as Hroom by (eapply sound_rooms; [done|unfold few in *; lia]).
  pose proof (sd_generation _ _ Hs1 _ _ Hreg) as Hgen. pose proof (Hroom _ _ Hreg) as Hroomi.
  pose proof (checked_etag _ _ _ _ _ (Generation i) ltac:(unfold room in Hroomi; lia) Hck
    ltac:(by rewrite Hm, He)) as ->.
  pose proof (Hc _ _ _ Hck) as Hr. set (r := upsert_of h device request l _ now') in *.
  assert (answers a1 !! key_of r = None) as Hans
    by (cbn [durable quiet] in Hk; rewrite tables_answer in Hk; by destruct (answers a1 !! _)).
  pose proof (upsert_current r a1 i Hreg Hans ltac:(lia) eq_refl Hhost Hlease) as Es.
  destruct (UpsertIntent_refines_tables r a1 w1 (sd_ok _ _ Hs1) Hr) as [w2 E2].
  pose proof (upsert_sound _ _ r Hs1 Hn Hr) as Hs2. rewrite Es in E2, Hs2.
  rewrite (put_checked_run _ _ _ _ _ _ _ _ _ Hck E2).
  eexists _, _. split; [done|]. split; [done|]. eexists. cbn [durable quiet fst snd].
  rewrite stored_tables by apply Hs2. cbn [reg snd accept]. rewrite lookup_insert_eq.
  split; [done|]. split; [done|].
  pose proof (moved_generation _ _ _ (moved_next r (wanted r) i ltac:(by apply (room_weaken 1 2))
    (ok_canonical _ (proj1 (ok_reg _ (sd_ok _ _ Hs1) _ _ Hreg))) (Canonical_canonical _))). lia.
Qed.

(** ** The properties at concrete inputs *)

Definition example_handler : Handler :=
  {| identity := Some (Resolve example_policy); requestIdentity := None;
     leaseDuration := 900 * second; renewAfter := 300 * second;
     allowNonGlobalAddresses := false |}.

Definition example_device : Device := {| ID := "001"; DeviceHostname := "pi-001.example.org" |}.

(** A request of that device: its headers and the addresses of its body. *)
Definition example_http (method path : string) (headers : list (string * list string))
    (addresses : list Addr) : Request :=
  {| Method := method; Path := path;
     TLS := Some {| PeerCertificates := []; VerifiedChains := [[example_certificate]] |};
     Headers := list_to_map headers;
     Body := print (EndpointRequest_json (AddressesFromNetIP addresses)) |}.

Definition example_put : Request :=
  example_http "PUT" "/v1/devices/self/endpoints"
    [("Idempotency-Key", ["boot-1"]); ("If-None-Match", ["*"])]%string [example_address].
Definition example_get : Request := example_http "GET" "/v1/devices/self/status" [] [].
Definition example_renewal : Request :=
  example_http "PUT" "/v1/devices/self/endpoints"
    [("Idempotency-Key", ["boot-2"]); ("If-Match", [GenerationETag 1])]%string [example_address].

Lemma example_checked request p :
  authenticate example_handler request = Ok example_device ->
  idempotencyKeyPattern (Get (Headers request) "Idempotency-Key") = true ->
  Body request = Body example_put -> parseWritePrecondition (Headers request) = Ok p ->
  checked example_handler request example_device [example_address] p.
Proof.
  intros Ha Hk Hb Hp. split; [done|done| |done]. exists (AddressesFromNetIP [example_address]).
  rewrite Hb. by vm_compute.
Qed.

Lemma example_put_checked :
  checked example_handler example_put example_device [example_address] RequireAbsent.
Proof. by apply example_checked. Qed.
Lemma example_renewal_checked :
  checked example_handler example_renewal example_device [example_address] (MatchGeneration 1).
Proof. by apply example_checked. Qed.

Lemma example_carried request p now :
  checked example_handler request example_device [example_address] p ->
  int64_range now -> now <= 10 ^ 18 -> carried example_handler request now.
Proof.
  intros Hc Hn Hle device l q Hc'. destruct (checked_unique _ _ _ _ _ _ _ _ Hc Hc') as (<- & <- & <-).
  split; [reflexivity|done| |in_range|reflexivity|reflexivity].
  revert Hn. unfold int64_range. cbn. unfold Add, second. lia.
Qed.

Definition put_db : DB :=
  durable (snd (putEndpoints example_handler example_put 0 (quiet empty_db empty_db))).

Definition example_response : Response :=
  put_response (Ok {| res_Intent := {| DeviceID := "001"; Hostname := "pi-001.example.org";
        Addresses := [example_address]; Generation := 1; LeaseExpiresAt := 900 * second;
        UpdatedAt := 0; OriginAppliedGeneration := 0; PublicObservedGeneration := 0;
        LastPublicationError := "" |}; res_RenewAfterSeconds := 300; res_Replay := false |}).

Lemma example_put_response :
  putEndpoints example_handler example_put 0 (quiet empty_db empty_db)
  = (example_response, quiet put_db put_db).
Proof. vm_compute. reflexivity. Qed.

Lemma put_db_run : db_run empty_db 1 put_db.
Proof.
  eapply db_next; [apply db_start|].
  assert (durable (snd (call (CallUpsert (upsert_of example_handler example_device example_put
    [example_address] RequireAbsent 0)) (quiet empty_db empty_db))) = put_db) as <-
    by (vm_compute; reflexivity).
  apply db_call. apply (example_carried _ _ _ example_put_checked); [in_range|lia|].
  exact example_put_checked.
Qed.

Lemma put_is_idempotent_witness :
  exists w', putEndpoints example_handler example_put (600 * second) (quiet put_db empty_db)
    = (example_response, quiet put_db w').
Proof.
  apply (put_is_idempotent 0 0 empty_db put_db example_handler example_put 0 (600 * second)
    empty_db empty_db [] example_response (quiet put_db put_db)).
  - apply few_small. lia.
  - apply db_start.
  - apply (example_carried _ _ _ example_put_checked); [in_range|lia].
  - apply (example_carried _ _ _ example_put_checked); [in_range|vm_compute; discriminate].
  - exact example_put_response.
  - reflexivity.
  - cbn [durable quiet]. apply db_start.
Defined.

(** After the lease, the status shows the withdrawal. *)
Lemma status_never_shows_expired_witness :
  exists response s,
    getStatus example_handler example_get (1000 * second) (quiet put_db empty_db) = (response, s) /\
    stored put_db "001" <> None.
Proof.
  destruct (status_never_shows_expired 1 put_db example_handler example_get (1000 * second) empty_db
    example_device (few_small 1 ltac:(lia)) put_db_run ltac:(in_range) eq_refl)
    as (response & s & E & _).
  exists response, s. split; [exact E|]. vm_compute. discriminate.
Defined.

Lemma status_then_put_witness :
  exists response' s',
    putEndpoints example_handler example_renewal (60 * second)
      (snd (getStatus example_handler example_get (30 * second) (quiet put_db empty_db)))
      = (response', s') /\ StatusCode response' = 202.
Proof.
  destruct (status_then_put 1 put_db example_handler example_get example_renewal (30 * second)
    (60 * second) empty_db example_device
    (fst (getStatus example_handler example_get (30 * second) (quiet put_db empty_db)))
    (snd (getStatus example_handler example_get (30 * second) (quiet put_db empty_db)))
    {| DeviceID := "001"; Hostname := "pi-001.example.org"; Addresses := [example_address];
       Generation := 1; LeaseExpiresAt := 900 * second; UpdatedAt := 0;
       OriginAppliedGeneration := 0; PublicObservedGeneration := 0; LastPublicationError := "" |})
    as (response' & s' & E & H & _).
  - apply few_small. lia.
  - exact put_db_run.
  - in_range.
  - apply (example_carried _ _ _ example_renewal_checked); [in_range|vm_compute; discriminate].
  - reflexivity.
  - by destruct (getStatus _ _ _ _).
  - vm_compute. reflexivity.
  - vm_compute. reflexivity.
  - reflexivity.
  - right. vm_compute. reflexivity.
  - exists [example_address], (MatchGeneration 1). exact example_renewal_checked.
  - vm_compute. reflexivity.
  - vm_compute. reflexivity.
  - exists response', s'. exact (conj E H).
Defined.
