(* ===== verification/Agent.v ===== *)
(** * Package agent: the device's side

    [src/dns/internal/agent/agent.go].  The agent is a program that interacts
    with its host: files, the network, the clock, randomness.  A program is a
    tree of the effects it asks for, each with a continuation on its answer; it
    can be stopped between any two.  Durations and timeouts of requests are the
    host's: a request that is out of time is one whose effect fails. *)

From S2P Require Export Address ApiText Controller GoFloat.
From Stdlib Require Import String.
#[local] Open Scope Z_scope.
#[local] Abbreviation length := List.length.

(** ** Effects *)

(** An [error] of package os. *)
Record FileError : Type := { not_exist : bool; file_message : string }.

(** The URL of the controller, as [url.Parse] splits it; a request keeps its
    scheme and host, and has its own path, no query and no fragment. *)
Record Endpoint : Type := { ep_Scheme : string; ep_Host : string }.

Record ClientRequest : Type := {
  cr_Method : string;
  cr_Endpoint : Endpoint;
  cr_Path : string;
  cr_Headers : Header;
  cr_Body : string;
}.

(** A response: its status, its ETag header, the bytes of its body, and whether
    an error follows them instead of the end. *)
Record ClientResponse : Type := {
  hr_StatusCode : Z;
  hr_ETag : string;
  hr_Body : string;
  hr_BodyFails : bool;
}.

(** [net.Interface], as far as it is read. *)
Record NetworkInterface : Type := { ni_Name : string; ni_Up : bool; ni_Loopback : bool }.

(** The errors of the agent: an [HTTPError] anywhere in the chain, or any other. *)
Record HTTPError : Type := { he_StatusCode : Z; he_Code : string; he_Message : string }.
Inductive AgentError : Type := HTTPFailure (e : HTTPError) | Failure (message : string).

Inductive Effect : Type -> Type :=
| ReadFile (path : string) : Effect (result FileError string)
| MkdirParent (path : string) : Effect (result FileError unit)
| WriteFile (path payload : string) : Effect (result FileError unit)
| Rename (from to : string) : Effect (result FileError unit)
| Remove (path : string) : Effect (result FileError unit)
| Do (request : ClientRequest) : Effect (result string ClientResponse)
| RandRead (n : nat) : Effect (result string (list Z))
| CustomKey : Effect (result string string)
| Now : Effect time
| Interfaces : Effect (result string (list NetworkInterface))
| InterfaceAddrs (name : string) : Effect (result string (list string))
| OnError (e : AgentError) : Effect unit
| Wait (d : duration) : Effect (option string).

Inductive Prog (A : Type) : Type :=
| Ret (a : A)
| Vis {X : Type} (e : Effect X) (k : X -> Prog A).
Arguments Ret {_} _.
Arguments Vis {_ _} _ _.

Fixpoint prog_bind {A B} (p : Prog A) (f : A -> Prog B) : Prog B :=
  match p with
  | Ret a => f a
  | Vis e k => Vis e (fun x => prog_bind (k x) f)
  end.

(** A step whose error is returned at once. *)
Definition Fallible (A : Type) : Type := Prog (result AgentError A).
Definition succeed {A} (a : A) : Fallible A := Ret (Ok a).
Definition give_error {A} (e : AgentError) : Fallible A := Ret (Err e).
Definition try_bind {A B} (m : Fallible A) (f : A -> Fallible B) : Fallible B :=
  prog_bind m (fun r => match r with Ok a => f a | Err e => give_error e end).

Declare Scope agent_scope.
#[local] Open Scope agent_scope.
Notation "'try' x := m 'in' k" := (try_bind m (fun x => k))
  (at level 10, x name, m at level 200, k at level 200) : agent_scope.

(** An effect with an error of its own kind, wrapped. *)
Definition attempt {E A} (e : Effect (result E A)) (wrap : E -> AgentError) : Fallible A :=
  Vis e (fun r => Ret (match r with Ok a => Ok a | Err x => Err (wrap x) end)).

Definition file_failure (what : string) (e : FileError) : AgentError :=
  Failure (what +:+ ": " +:+ file_message e).

(** ** Configuration *)

(** [Config]; of the functions only whether they are set. *)
Record AgentConfig : Type := {
  ac_Endpoint : option Endpoint;
  ac_Addresses : list Addr;
  ac_Interfaces : list string;
  ac_StatePath : string;
  ac_has_HTTPClient : bool;
  ac_RenewInterval : duration;
  ac_RequestTimeout : duration;
  ac_Once : bool;
  ac_has_NewIdempotencyKey : bool;
  ac_has_OnError : bool;
}.

Definition NewAgent (config : AgentConfig) : result string AgentConfig :=
  match ac_Endpoint config with
  | None => Err "endpoint must be an absolute HTTPS URL"%string
  | Some endpoint =>
      if negb (ep_Scheme endpoint =? "https")%string || (ep_Host endpoint =? "")%string
      then Err "endpoint must be an absolute HTTPS URL"%string else
      if negb (ac_has_HTTPClient config) then Err "HTTP client is required"%string else
      if (ac_StatePath config =? "")%string then Err "idempotency state path is required"%string else
      if ac_RenewInterval config <=? 0 then Err "renew interval must be positive"%string else
      Ok {| ac_Endpoint := ac_Endpoint config; ac_Addresses := ac_Addresses config;
            ac_Interfaces := ac_Interfaces config; ac_StatePath := ac_StatePath config;
            ac_has_HTTPClient := true; ac_RenewInterval := ac_RenewInterval config;
            ac_RequestTimeout := if ac_RequestTimeout config <=? 0 then 30 * second
                                 else ac_RequestTimeout config;
            ac_Once := ac_Once config; ac_has_NewIdempotencyKey := ac_has_NewIdempotencyKey config;
            ac_has_OnError := ac_has_OnError config |}
  end.

(** [HTTPError.Retryable] and [isRetryable]. *)
Definition Retryable (e : HTTPError) : bool :=
  (he_StatusCode e =? 412) || (he_StatusCode e =? 429) || (500 <=? he_StatusCode e).
Definition isRetryable (e : AgentError) : bool :=
  match e with HTTPFailure h => Retryable h | Failure _ => true end.

(** ** Addresses *)

(** What one assigned address contributes. *)
Definition discovered (value : string) : option Addr :=
  match ParsePrefix value with
  | Some prefix => if IsPubliclyRoutable (pfx_addr prefix) then Some (pfx_addr prefix) else None
  | None =>
      match ParseAddr value with
      | Some addr => if IsPubliclyRoutable addr then Some addr else None
      | None => None
      end
  end.

Fixpoint discover (allowed : list string) (interfaces : list NetworkInterface) (found : list Addr)
    : Fallible (list Addr) :=
  match interfaces with
  | [] => succeed found
  | i :: rest =>
      if (0 <? length allowed)%nat && negb (bool_decide (ni_Name i ∈ allowed)) then discover allowed rest found else
      if negb (ni_Up i) || ni_Loopback i then discover allowed rest found else
      try assigned := attempt (InterfaceAddrs (ni_Name i))
        (fun e => Failure ("read addresses for " +:+ ni_Name i +:+ ": " +:+ e)) in
      discover allowed rest (found ++ omap discovered assigned)
  end.

Definition DiscoverAddresses (interfaceNames : list string) : Fallible (list Addr) :=
  try interfaces := attempt Interfaces (fun e => Failure ("list network interfaces: " +:+ e)) in
  try found := discover interfaceNames interfaces [] in
  succeed (merge_sort addr_le (CanonicalAddresses found)).

Definition addresses (c : AgentConfig) : Fallible (list Addr) :=
  if (0 <? length (ac_Addresses c))%nat then succeed (CanonicalAddresses (ac_Addresses c))
  else DiscoverAddresses (ac_Interfaces c).

(** ** The state file *)

Record pendingState : Type := {
  PayloadHash : string;
  PendingKey : string;
  IfMatch : string;
  IfNoneMatch : bool;
}.

Definition zero_pending : pendingState := Build_pendingState "" "" "" false.

Definition pending_json (p : pendingState) : json :=
  JObj ([("payload_hash"%string, JStr (PayloadHash p)); ("idempotency_key"%string, JStr (PendingKey p))]
        ++ (if (IfMatch p =? "")%string then [] else [("if_match"%string, JStr (IfMatch p))])
        ++ (if IfNoneMatch p then [("if_none_match"%string, JBool true)] else [])).

Definition pending_fields : fields pendingState :=
  [("payload_hash"%string, fun j p => let 'Build_pendingState a b c d := p in
      (fun v => Build_pendingState v b c d) <$> decode_string j a);
   ("idempotency_key"%string, fun j p => let 'Build_pendingState a b c d := p in
      (fun v => Build_pendingState a v c d) <$> decode_string j b);
   ("if_match"%string, fun j p => let 'Build_pendingState a b c d := p in
      (fun v => Build_pendingState a b v d) <$> decode_string j c);
   ("if_none_match"%string, fun j p => let 'Build_pendingState a b c d := p in
      (fun v => Build_pendingState a b c v) <$> decode_bool j d)].

Definition validPrecondition (p : pendingState) : bool :=
  if IfNoneMatch p then (IfMatch p =? "")%string else
  if (IfMatch p =? "")%string then false else is_ok (ParseGenerationETag (IfMatch p)).

(** [apply]: the precondition's header. *)
Definition apply_precondition (p : pendingState) (h : Header) : Header :=
  if IfNoneMatch p then <["If-None-Match"%string := ["*"%string]]> h
  else <["If-Match"%string := [IfMatch p]]> h.

(** A stored state that can be used for a payload. *)
Definition usable (payload hash : string) : option pendingState :=
  match Unmarshal pending_fields zero_pending payload with
  | (p, true) =>
      if (PayloadHash p =? hash)%string && negb (PendingKey p =? "")%string && validPrecondition p
      then Some p else None
  | (_, false) => None
  end.

Definition writePending (path : string) (p : pendingState) : Fallible unit :=
  try _ := attempt (MkdirParent path) (file_failure "create idempotency state directory") in
  let temporary := path +:+ ".tmp" in
  try _ := attempt (WriteFile temporary (print (pending_json p))) (file_failure "write idempotency state") in
  attempt (Rename temporary path) (file_failure "commit idempotency state").

Definition clearPending (c : AgentConfig) : Fallible unit :=
  Vis (Remove (ac_StatePath c)) (fun r =>
    match r with
    | Err e => if not_exist e then succeed tt
               else give_error (file_failure "remove completed idempotency state" e)
    | Ok _ => succeed tt
    end).

(** ** Keys *)

(** [randomID]: sixteen random bytes as a version 4 UUID. *)
Definition uuid_bytes (value : list Z) : list Z :=
  alter (fun b => Z.lor (Z.land b 0x3f) 0x80) 8%nat
    (alter (fun b => Z.lor (Z.land b 0x0f) 0x40) 6%nat value).

Definition uuid_text (value : list Z) : string :=
  let encoded := hex_encode (uuid_bytes value) in
  String.substring 0 8 encoded +:+ "-" +:+ String.substring 8 4 encoded +:+ "-"
  +:+ String.substring 12 4 encoded +:+ "-" +:+ String.substring 16 4 encoded +:+ "-"
  +:+ String.substring 20 12 encoded.

Definition randomID : Fallible string :=
  try value := attempt (RandRead 16) (fun e => Failure ("generate idempotency key: " +:+ e)) in
  succeed (uuid_text value).

Definition NewIdempotencyKey (c : AgentConfig) : Fallible string :=
  if ac_has_NewIdempotencyKey c then attempt CustomKey Failure else randomID.

(** ** Requests *)

(** [io.ReadAll(io.LimitReader(body, 64<<10))]. *)
Definition maxResponseBytes : nat := Z.to_nat (Z.shiftl 64 10).
Definition read_body (r : ClientResponse) : result AgentError string :=
  if (maxResponseBytes <=? String.length (hr_Body r))%nat
  then Ok (String.substring 0 maxResponseBytes (hr_Body r))
  else if hr_BodyFails r then Err (Failure "read response body") else Ok (hr_Body r).

Definition zero_Error : Error := Build_Error "" "".

Definition responseError (statusCode : Z) (responseBody : string) : AgentError :=
  let apiError := fst (Unmarshal Error_fields zero_Error responseBody) in
  HTTPFailure {| he_StatusCode := statusCode;
    he_Code := if (Code apiError =? "")%string then "unexpected_response" else Code apiError;
    he_Message := if (Message apiError =? "")%string then TrimSpace responseBody else Message apiError |}.

(** The parsed endpoint of an agent that [New] made. *)
Definition endpoint_of (c : AgentConfig) : Endpoint := default (Build_Endpoint "" "") (ac_Endpoint c).

Definition status_request (c : AgentConfig) : ClientRequest :=
  {| cr_Method := "GET"; cr_Endpoint := endpoint_of c; cr_Path := "/v1/devices/self/status";
     cr_Headers := {["User-Agent"%string := ["kaiba-agent/1"%string]]}; cr_Body := "" |}.

Definition put_request (c : AgentConfig) (pending : pendingState) (payloadJSON : string) : ClientRequest :=
  {| cr_Method := "PUT"; cr_Endpoint := endpoint_of c; cr_Path := "/v1/devices/self/endpoints";
     cr_Headers := apply_precondition pending
       (<["User-Agent"%string := ["kaiba-agent/1"%string]]>
       (<["Idempotency-Key"%string := [PendingKey pending]]>
       {["Content-Type"%string := ["application/json"%string]]}));
     cr_Body := payloadJSON |}.

(** The two fields of a pending state that a status determines. *)
Definition fetched (ifMatch : string) (ifNoneMatch : bool) : pendingState :=
  {| PayloadHash := ""; PendingKey := ""; IfMatch := ifMatch; IfNoneMatch := ifNoneMatch |}.

Definition status_precondition (response : ClientResponse) (responseBody : string)
    : result AgentError pendingState :=
  if hr_StatusCode response =? 404 then Ok (fetched "" true) else
  if negb (hr_StatusCode response =? 200) then Err (responseError (hr_StatusCode response) responseBody) else
  match ParseGenerationETag (hr_ETag response) with
  | Err e => Err (Failure ("controller status has an invalid ETag: " +:+ e))
  | Ok generation =>
      match Unmarshal DeviceState_fields zero_DeviceState responseBody with
      | (_, false) => Err (Failure "decode controller status")
      | (state, true) =>
          if negb (doc_Generation state =? generation)
          then Err (Failure "controller status body and ETag generations differ")
          else Ok (fetched (hr_ETag response) false)
      end
  end.

Definition fetchPrecondition (c : AgentConfig) : Fallible pendingState :=
  try response := attempt (Do (status_request c)) (fun e => Failure ("read controller status: " +:+ e)) in
  try responseBody := Ret (read_body response) in
  Ret (status_precondition response responseBody).

Definition new_pending (hash key : string) (precondition : pendingState) : pendingState :=
  {| PayloadHash := hash; PendingKey := key; IfMatch := IfMatch precondition;
     IfNoneMatch := IfNoneMatch precondition |}.

Definition create_pending (c : AgentConfig) (hash : string) : Fallible pendingState :=
  try precondition := fetchPrecondition c in
  try key := NewIdempotencyKey c in
  let state := new_pending hash key precondition in
  try _ := writePending (ac_StatePath c) state in
  succeed state.

Definition loadOrCreatePending (c : AgentConfig) (hash : string) : Fallible pendingState :=
  Vis (ReadFile (ac_StatePath c)) (fun r =>
    match r with
    | Ok payload =>
        match usable payload hash with
        | Some state => succeed state
        | None => create_pending c hash
        end
    | Err e => if not_exist e then create_pending c hash
               else give_error (file_failure "read idempotency state" e)
    end).

(** ** An update *)

(** The checks on a 202 answer, before its lease is looked at. *)
Definition accepted_state (response : ClientResponse) (responseBody : string)
    : result AgentError DeviceStateDoc :=
  match Unmarshal DeviceState_fields zero_DeviceState responseBody with
  | (_, false) => Err (Failure "decode controller response")
  | (state, true) =>
      match ParseGenerationETag (hr_ETag response) with
      | Ok responseGeneration =>
          if negb (responseGeneration =? doc_Generation state)
          then Err (Failure "controller response has a missing or inconsistent generation ETag")
          else Ok state
      | Err _ => Err (Failure "controller response has a missing or inconsistent generation ETag")
      end
  end.

(** [updateOnce], with what it does to refresh stale state, if it may. *)
Definition update_with (c : AgentConfig) (refresh : option (Fallible DeviceStateDoc))
    : Fallible DeviceStateDoc :=
  try found := addresses c in
  if (length found =? 0)%nat then give_error (Failure "no endpoint addresses were discovered") else
  let payloadJSON := print (EndpointRequest_json (AddressesFromNetIP found)) in
  let hash := AddressesHash found in
  try pending := loadOrCreatePending c hash in
  try response := attempt (Do (put_request c pending payloadJSON))
    (fun e => Failure ("submit endpoint update: " +:+ e)) in
  try responseBody := Ret (read_body response) in
  let status := hr_StatusCode response in
  if negb (status =? 202) then
    let httpError := responseError status responseBody in
    if status =? 409 then prog_bind (clearPending c) (fun _ => give_error httpError) else
    if status =? 412 then
      try _ := clearPending c in
      match refresh with Some again => again | None => give_error httpError end
    else give_error httpError
  else
  try state := Ret (accepted_state response responseBody) in
  try _ := clearPending c in
  Vis Now (fun now =>
    if IsZero (doc_LeaseExpiresAt state) || negb (After (doc_LeaseExpiresAt state) now) then
      match refresh with
      | Some again => again
      | None => give_error (Failure "controller acknowledged an already-expired lease")
      end
    else succeed state).

Definition updateOnce (c : AgentConfig) (refreshStaleState : bool) : Fallible DeviceStateDoc :=
  update_with c (if refreshStaleState then Some (update_with c None) else None).

Definition UpdateOnce (c : AgentConfig) : Fallible DeviceStateDoc := updateOnce c true.

(** ** The loop *)

(** The constants 0.9 and 0.2. *)
Definition float_0_9 : float := fdiv (to_float 9) (to_float 10).
Definition float_0_2 : float := fdiv (to_float 2) (to_float 10).
Definition jittered (d : duration) (value : list Z) : duration :=
  let number := foldl (fun n octet => Z.lor (Z.shiftl n 8 mod 2 ^ 64) octet) 0 value in
  let fraction := fdiv (to_float number) (to_float (2 ^ 64 - 1)) in
  to_int (fmul (to_float d) (fadd float_0_9 (fmul float_0_2 fraction))).

Definition jitter (d : duration) : Prog duration :=
  Vis (RandRead 8) (fun r => Ret (match r with Ok value => jittered d value | Err _ => d end)).

Definition minute : duration := 60 * second.

(** What is asked of the host between two updates: [None] to go on. *)
Definition wait (d : duration) : Prog (option AgentError) :=
  Vis (Wait d) (fun r => Ret (Failure <$> r)).

(** [Run], for at most [rounds] updates; [None] when it has not returned yet. *)
Fixpoint run_rounds (c : AgentConfig) (rounds : nat) (backoff : duration)
    : Prog (option (result AgentError unit)) :=
  match rounds with
  | O => Ret None
  | S n =>
      prog_bind (UpdateOnce c) (fun r =>
        match r with
        | Ok _ =>
            if ac_Once c then Ret (Some (Ok tt)) else
            prog_bind (jitter (ac_RenewInterval c)) (fun d =>
            prog_bind (wait d) (fun w =>
              match w with Some e => Ret (Some (Err e)) | None => run_rounds c n second end))
        | Err err =>
            prog_bind (if ac_has_OnError c then Vis (OnError err) Ret else Ret tt) (fun _ =>
            if ac_Once c || negb (isRetryable err) then Ret (Some (Err err)) else
            prog_bind (jitter backoff) (fun d =>
            prog_bind (wait d) (fun w =>
              match w with
              | Some e => Ret (Some (Err e))
              | None =>
                  let backoff := backoff * 2 in
                  run_rounds c n (if minute <? backoff then minute else backoff)
              end)))
        end)
  end.

Definition Run (c : AgentConfig) (rounds : nat) : Prog (option (result AgentError unit)) :=
  run_rounds c rounds second.
