(* ===== verification/AgentHost.v ===== *)
(** * The agent on a host

    What a host may answer to each effect, and reasoning on the agent's programs
    by weakest preconditions.  Every effect may fail: a failed write leaves any
    text in its file, a failed rename or removal may have happened.  No other
    process writes the agent's files; the server is anything that relates a
    request to an answer. *)

From S2P Require Export Agent.
From Stdlib Require Import String.
#[local] Open Scope Z_scope.
#[local] Abbreviation length := List.length.

Section host.
Context {Srv : Type}.
(** The server's side of a request: lost, or answered, and what it did. *)
Context (serve : ClientRequest -> Srv -> result string ClientResponse -> Srv -> Prop).

Record Host : Type := { files : gmap string string; server : Srv }.

Definition with_files (f : gmap string string) (h : Host) : Host := {| files := f; server := server h |}.

(** A generated key and the texts of assigned addresses are ASCII. *)
Definition ascii_result {A} (f : A -> bool) (r : result string A) : Prop :=
  match r with Ok a => f a = true | Err _ => True end.

Definition octets (n : nat) (l : list Z) : bool :=
  (length l =? n)%nat && forallb (fun b => (0 <=? b) && (b <? 256)) l.

Definition host_answers {X} (e : Effect X) (h : Host) : X -> Host -> Prop :=
  match e in Effect X return X -> Host -> Prop with
  | ReadFile path => fun r h' => h' = h /\
      match r with
      | Ok payload => files h !! path = Some payload
      | Err err => not_exist err = true -> files h !! path = None
      end
  | MkdirParent _ => fun _ h' => h' = h
  | WriteFile path payload => fun r h' =>
      match r with
      | Ok _ => h' = with_files (<[path := payload]> (files h)) h
      | Err _ => exists text, h' = with_files (partial_alter (fun _ => text) path (files h)) h
      end
  | Rename from to => fun r h' =>
      (exists text, files h !! from = Some text /\
         h' = with_files (<[to := text]> (delete from (files h))) h) \/
      (h' = h /\ is_ok r = false)
  | Remove path => fun r h' =>
      (h' = with_files (delete path (files h)) h \/ h' = h) /\
      match r with
      | Ok _ => files h' !! path = None
      | Err err => not_exist err = true -> files h' !! path = None
      end
  | Do request => fun r h' => exists s, serve request (server h) r s /\
      h' = {| files := files h; server := s |}
  | RandRead n => fun r h' => h' = h /\ ascii_result (octets n) r
  | CustomKey => fun r h' => h' = h /\ ascii_result ascii_text r
  | Now => fun _ h' => h' = h
  | Interfaces => fun _ h' => h' = h
  | InterfaceAddrs _ => fun r h' => h' = h /\ ascii_result (forallb ascii_text) r
  | OnError _ => fun _ h' => h' = h
  | Wait _ => fun _ h' => h' = h
  end.

(** From a program in a host to where it can be, stopped at any effect. *)
Inductive stops {A} : Prog A -> Host -> Prog A -> Host -> Prop :=
| stops_here p h : stops p h p h
| stops_after {X} (e : Effect X) k h x h' q h'' :
    host_answers e h x h' -> stops (k x) h' q h'' -> stops (Vis e k) h q h''.

(** ** Weakest preconditions *)

(** What must hold when an effect is asked for. *)
Definition Guard : Type := forall X, Effect X -> Host -> Prop.

Fixpoint wp {A} (G : Guard) (p : Prog A) (Q : A -> Host -> Prop) (h : Host) : Prop :=
  match p with
  | Ret a => Q a h
  | Vis e k => G _ e h /\ forall x h', host_answers e h x h' -> wp G (k x) Q h'
  end.

Lemma wp_stops {A} (G : Guard) (p : Prog A) Q h q h' : wp G p Q h -> stops p h q h' -> wp G q Q h'.
Proof. intros Hw Hs. induction Hs as [|X e k h x h1 q h2 Ha Hs IH]; [done|]. apply IH, Hw, Ha. Qed.

Lemma wp_mono {A} (G : Guard) (p : Prog A) (Q R : A -> Host -> Prop) h :
  wp G p Q h -> (forall a h', Q a h' -> R a h') -> wp G p R h.
Proof.
  intros Hw HQ. revert h Hw. induction p as [a|X e k IH]; intros h; cbn; [apply HQ|].
  intros [Hg Hk]. split; [done|]. intros x h' Ha. apply IH, Hk, Ha.
Qed.

Lemma wp_bind {A B} (G : Guard) (p : Prog A) (f : A -> Prog B) Q h :
  wp G p (fun a h' => wp G (f a) Q h') h -> wp G (prog_bind p f) Q h.
Proof.
  revert h. induction p as [a|X e k IH]; intros h; cbn; [done|].
  intros [Hg Hk]. split; [done|]. intros x h' Ha. apply IH, Hk, Ha.
Qed.

(** For programs with an error, what is to be shown of the error and the value. *)
Definition outcome_of {A} (E : Host -> Prop) (Q : A -> Host -> Prop) (r : result AgentError A) (h : Host) : Prop :=
  match r with Ok a => Q a h | Err _ => E h end.

Lemma wp_try {A B} (G : Guard) (m : Fallible A) (f : A -> Fallible B) E Q h :
  wp G m (outcome_of E (fun a h' => wp G (f a) (outcome_of E Q) h')) h ->
  wp G (try_bind m f) (outcome_of E Q) h.
Proof. intros H. apply wp_bind. eapply wp_mono; [exact H|]. by intros [a|e] h'. Qed.

Lemma wp_attempt {A Er} (G : Guard) (e : Effect (result Er A)) wrap (E : Host -> Prop) (Q : A -> Host -> Prop) h :
  G _ e h ->
  (forall a h', host_answers e h (Ok a) h' -> Q a h') ->
  (forall x h', host_answers e h (Err x) h' -> E h') ->
  wp G (attempt e wrap) (outcome_of E Q) h.
Proof. intros Hg HQ HE. split; [done|]. intros [a|x] h' Ha; cbn; [by apply HQ|by apply (HE x)]. Qed.
End host.

(** ** Invariants of the server *)

Section invariant.
Context {Srv : Type} (serve : ClientRequest -> Srv -> result string ClientResponse -> Srv -> Prop).
Context (J : Srv -> Prop) (HJ : forall r s answer s', J s -> serve r s answer s' -> J s').

Definition serve_within (r : ClientRequest) (s : Srv) (answer : result string ClientResponse) (s' : Srv) : Prop :=
  J s /\ serve r s answer s'.

Lemma answers_within {X} (e : Effect X) h x h' :
  J (server h) -> host_answers serve e h x h' ->
  host_answers serve_within e h x h' /\ J (server h').
Proof using HJ.
  intros Hj. destruct e; cbn [host_answers]; try (intros ->; done); try (intros [-> ?]; done).
  - destruct x; [intros ->; done|]. intros [text ->]. split; [by exists text|done].
  - intros [(text & Ht & ->)|[-> Hr]]; (split; [|done]); [left; by exists text|by right].
  - intros [Hh Hr]. split; [done|]. by destruct Hh as [-> | ->].
  - intros (s & Hs & ->). split; [by exists s|]. by eapply HJ.
Qed.

Lemma stops_within {A} (p : Prog A) h q h' :
  J (server h) -> stops serve p h q h' -> stops serve_within p h q h' /\ J (server h').
Proof using HJ.
  intros Hj Hs. revert Hj. induction Hs as [|X e k h x h1 q h2 Ha Hs IH]; intros Hj; [split; [constructor|done]|].
  apply answers_within in Ha as [Ha Hj1]; [|done]. destruct (IH Hj1) as [Hs' Hj2]. split; [|done].
  by eapply stops_after.
Qed.
End invariant.
Arguments Host : clear implicits.
Arguments Guard : clear implicits.
