(* ===== verification/AgentTheorems.v ===== *)
(** * What the agent does on any host

    Whatever the host and the server answer, and wherever the agent is stopped:
    a write is sent only as it stands in the state file, an update makes a
    bounded number of requests, and the loop waits between its bounds. *)

From S2P Require Export AgentHost NetipRange.
From Stdlib Require Import String.
#[local] Open Scope Z_scope.
#[local] Abbreviation length := List.length.
#[local] Abbreviation slen := String.length.

(** ** The state file reads back *)

Definition pending_ok (p : pendingState) : Prop :=
  ascii_text (PayloadHash p) = true /\ ascii_text (PendingKey p) = true /\ ascii_text (IfMatch p) = true.

Lemma Unmarshal_pending p :
  pending_ok p -> Unmarshal pending_fields zero_pending (print (pending_json p)) = (p, true).
Proof.
  destruct p as [hash key m none]. intros (Hh & Hk & Hm). cbn [PayloadHash PendingKey IfMatch] in *.
  assert (json_ok (pending_json (Build_pendingState hash key m none))) as Hj.
  { unfold pending_json. cbn [PayloadHash PendingKey IfMatch IfNoneMatch].
    destruct (m =? "")%string, none; cbn -[ascii_text]; by repeat split. }
  unfold Unmarshal. rewrite parse_print by done.
  unfold pending_json, decode_struct, zero_pending. cbn [PayloadHash PendingKey IfMatch IfNoneMatch].
  destruct (String.eqb_spec m "") as [->|]; destruct none; cbn [app];
    repeat (eapply decode_member; [reflexivity|reflexivity|]); reflexivity.
Qed.

Definition is_octet (b : Z) : Prop := 0 <= b < 256.

Lemma hex_char_ascii d : 0 <= d < 16 -> is_ascii (hex_char d) = true.
Proof.
  intros H. unfold hex_char. destruct (Z.ltb_spec d 10); [apply digit_char_ascii; lia|].
  unfold is_ascii. rewrite code_ascii_of_N by lia. apply Z.ltb_lt. lia.
Qed.

Lemma hex_ascii l : Forall is_octet l -> ascii_text (hex_encode l) = true.
Proof.
  unfold ascii_text. induction 1 as [|b l Hb _ IH]; [done|]. cbn [hex_encode string_forallb].
  unfold is_octet in Hb. rewrite !hex_char_ascii, IH; [done|..]; Z.to_euclidean_division_equations; lia.
Qed.

Lemma be_bytes_octets n w : Forall is_octet (be_bytes n w).
Proof.
  revert w. induction n as [|n IH]; intros w; cbn [be_bytes]; [constructor|].
  apply Forall_app. split; [apply IH|]. constructor; [|constructor].
  change 0xff with (Z.ones 8). rewrite Z.land_ones by lia. apply Z.mod_pos_bound. lia.
Qed.

Lemma Sum256_octets s : Forall is_octet (Sum256 s).
Proof. unfold Sum256. apply Forall_bind, Forall_forall. intros w _. apply be_bytes_octets. Qed.

Lemma AddressesHash_ascii l : ascii_text (AddressesHash l) = true.
Proof. apply hex_ascii, Sum256_octets. Qed.

(** ** Keys *)

Lemma hex_encode_length l : slen (hex_encode l) = (2 * length l)%nat.
Proof. induction l as [|b l IH]; [done|]. cbn [hex_encode String.length length]. rewrite IH. lia. Qed.

Lemma hex_key_char d : 0 <= d < 16 -> key_char (hex_char d) = true /\ is_alnum (hex_char d) = true.
Proof.
  intros H. assert (is_alnum (hex_char d) = true) as Ha; [|unfold key_char; by rewrite Ha].
  unfold is_alnum, hex_char. destruct (Z.ltb_spec d 10).
  - rewrite is_digit_char by lia. by rewrite orb_true_r.
  - unfold is_lower. rewrite code_ascii_of_N by lia.
    replace ((97 <=? Z.of_N (Z.to_N (d + 87))) && (Z.of_N (Z.to_N (d + 87)) <=? 122)) with true; [by rewrite orb_true_r|].
    symmetry. apply andb_true_intro. split; apply Z.leb_le; lia.
Qed.

Lemma hex_key_chars l : Forall is_octet l -> string_forallb key_char (hex_encode l) = true.
Proof.
  induction 1 as [|b l Hb _ IH]; [done|]. cbn [hex_encode string_forallb]. unfold is_octet in Hb.
  rewrite IH, (proj1 (hex_key_char (b / 16) ltac:(Z.to_euclidean_division_equations; lia))),
    (proj1 (hex_key_char (b mod 16) ltac:(Z.to_euclidean_division_equations; lia))). done.
Qed.

Lemma uuid_bytes_ok value : Forall is_octet value -> length value = 16%nat ->
  Forall is_octet (uuid_bytes value) /\ length (uuid_bytes value) = 16%nat.
Proof.
  intros Hv Hl. unfold uuid_bytes. rewrite !length_alter. split; [|done].
  assert (forall b m o, is_octet b -> 0 <= m < 256 -> 0 <= o < 256 -> is_octet (Z.lor (Z.land b m) o)) as Hb.
  { intros b m o Hb Hm Ho. unfold is_octet in *.
    assert (0 <= Z.lor (Z.land b m) o) as Hpos by (apply Z.lor_nonneg; split; [apply Z.land_nonneg; lia|lia]).
    split; [done|]. destruct (Z.eq_dec (Z.lor (Z.land b m) o) 0) as [->|Hne]; [done|].
    change 256 with (2 ^ 8). apply Z.log2_lt_pow2; [lia|]. rewrite Z.log2_lor by (try apply Z.land_nonneg; lia).
    assert (forall z, 0 <= z < 256 -> Z.log2 z < 8) as Hlog.
    { intros z Hz. destruct (Z.eq_dec z 0) as [->|]; [done|]. apply Z.log2_lt_pow2; [lia|]. change (2 ^ 8) with 256. lia. }
    pose proof (Z.log2_land b m ltac:(lia) ltac:(lia)). pose proof (Hlog b ltac:(lia)).
    pose proof (Hlog o ltac:(lia)). lia. }
  apply Forall_alter; [apply Forall_alter|]; try done; intros b _ ?; apply Hb; (done || lia).
Qed.

Lemma substring_chars p n m s : string_forallb p s = true -> string_forallb p (String.substring n m s) = true.
Proof.
  revert n m. induction s as [|c s IH]; intros n m; cbn; [by destruct n, m|].
  rewrite andb_true_iff. intros [Hc Hs]. destruct n as [|n]; [destruct m as [|m]; [done|]|].
  - cbn. rewrite Hc. by apply IH.
  - by apply IH.
Qed.

Lemma substring_slen n m s : (n + m <= slen s)%nat -> slen (String.substring n m s) = m.
Proof.
  revert n m. induction s as [|c s IH]; intros n m; cbn.
  - destruct n, m; cbn; lia.
  - intros H. destruct n as [|n]; [destruct m as [|m]; [done|cbn; rewrite IH; lia]|]. apply IH. lia.
Qed.

(** A generated key is one that the controller accepts. *)
Lemma uuid_key value :
  octets 16 value = true -> idempotencyKeyPattern (uuid_text value) = true /\ slen (uuid_text value) = 36%nat.
Proof.
  unfold octets. rewrite andb_true_iff, Nat.eqb_eq. intros [Hl Hv].
  assert (Forall is_octet value) as Ho.
  { apply Forall_forall. intros b Hb%list_elem_of_In. rewrite forallb_forall in Hv. specialize (Hv b Hb).
    simp_bool. by split. }
  destruct (uuid_bytes_ok value Ho Hl) as [Hu Hul]. pose proof (hex_key_chars _ Hu) as Hk.
  pose proof (hex_encode_length (uuid_bytes value)) as Hlen. rewrite Hul in Hlen.
  set (encoded := hex_encode (uuid_bytes value)) in *.
  assert (exists c t, encoded = String c t /\ is_alnum c = true) as (c & t & Ee & Hc).
  { unfold encoded. destruct (uuid_bytes value) as [|b bs]; [done|]. apply Forall_cons in Hu as [Hb _].
    unfold is_octet in Hb. cbn [hex_encode]. eexists _, _. split; [done|].
    apply hex_key_char. Z.to_euclidean_division_equations; lia. }
  assert (slen (uuid_text value) = 36%nat) as H36.
  { unfold uuid_text. fold encoded. rewrite !length_app_s, !substring_slen by lia. done. }
  assert (string_forallb key_char (uuid_text value) = true) as Hchars.
  { unfold uuid_text. fold encoded. rewrite !string_forallb_app.
    by rewrite !(substring_chars key_char _ _ encoded Hk). }
  split; [|exact H36].
  assert (exists r, uuid_text value = String c r) as [r Er].
  { unfold uuid_text. fold encoded. rewrite Ee. by eexists. }
  rewrite Er in *. cbn [idempotencyKeyPattern string_forallb] in *. apply andb_true_iff in Hchars as [_ ->].
  rewrite Hc. cbn in H36. apply Nat.leb_le. lia.
Qed.

(** ** Write-ahead

    What every part of an update guarantees of its requests and its outcome,
    against any server. *)

Lemma GenerationETag_ascii g : 0 < g -> ascii_text (GenerationETag g) = true.
Proof.
  intros Hg. unfold GenerationETag. rewrite !ascii_app, FormatInt_pos by lia.
  assert (ascii_text (FormatUint g) = true) as ->; [|done].
  eapply string_forallb_mono, FormatUint_digits; [|lia]. intros c. unfold is_digit, is_ascii. lia.
Qed.

Lemma key_ascii key : idempotencyKeyPattern key = true -> ascii_text key = true.
Proof.
  destruct key as [|c s]; [done|]. cbn [idempotencyKeyPattern]. intros H. simp_bool.
  assert (forall d, is_alnum d = true -> is_ascii d = true) as Ha.
  { intros d. unfold is_alnum, is_upper, is_lower, is_digit, is_ascii. lia. }
  unfold ascii_text. cbn [string_forallb]. rewrite Ha by done. cbn [andb].
  eapply string_forallb_mono; [|done]. intros d. unfold key_char. intros Hd. destruct (is_alnum d) eqn:E; [by apply Ha|].
  destruct d as [[] [] [] [] [] [] [] []]; first [discriminate Hd|reflexivity].
Qed.

Lemma ParseAddr_ok s x : ParseAddr s = Some x -> ascii_text s = true -> addr_ok x = true.
Proof.
  intros [Hx Hz]%ParseAddr_spec Hs. unfold addr_ok. rewrite Hx. destruct Hz as [->|[body ->]]; [done|].
  rewrite ascii_app in Hs. by apply andb_true_iff in Hs as [_ ->].
Qed.

(** An address an agent discovers: publicly routable, and one that texts carry. *)
Definition endpoint_ok (a : Addr) : Prop := IsPubliclyRoutable a = true /\ addr_ok a = true.

Lemma discovered_ok value addr : ascii_text value = true -> discovered value = Some addr -> endpoint_ok addr.
Proof.
  intros Ha. unfold discovered, endpoint_ok. destruct (ParsePrefix value) as [p|] eqn:Ep.
  - apply ParsePrefix_spec in Ep as (Hw & Hz & _).
    destruct (IsPubliclyRoutable (pfx_addr p)) eqn:E; [|done]. intros [= <-]. split; [done|].
    unfold addr_ok. by rewrite Hw, Hz.
  - destruct (ParseAddr value) as [a|] eqn:Ep'; [|done]. apply ParseAddr_ok in Ep'; [|done].
    destruct (IsPubliclyRoutable a) eqn:E; [|done]. intros [= <-]. done.
Qed.

Lemma routable_unmapped a : IsPubliclyRoutable a = true -> Unmap a = a.
Proof. intros H. apply Unmap_id. unfold IsPubliclyRoutable in H. by destruct (Is4In6 a); [rewrite orb_true_r in H|]. Qed.

(** The addresses an agent submits: its configured ones, in canonical form, or
    discovered ones, all publicly routable. *)
Definition submittable (c : AgentConfig) (found : list Addr) : Prop :=
  canonical found /\
  if (0 <? length (ac_Addresses c))%nat then found = CanonicalAddresses (ac_Addresses c)
  else Forall endpoint_ok found.

Definition request_body (found : list Addr) : string :=
  print (EndpointRequest_json (AddressesFromNetIP found)).

Section write_ahead.
Context {Srv : Type} (serve : ClientRequest -> Srv -> result string ClientResponse -> Srv -> Prop).
Context (c : AgentConfig).

(** The pending state stands in the state file. *)
Definition on_file (p : pendingState) (h : Host Srv) : Prop :=
  exists payload, files h !! ac_StatePath c = Some payload /\
    Unmarshal pending_fields zero_pending payload = (p, true).

(** A pending state for a list of addresses; only a configured generator of
    keys can give the empty one. *)
Definition pending_for (found : list Addr) (p : pendingState) : Prop :=
  submittable c found /\ found <> [] /\ PayloadHash p = AddressesHash found /\
  validPrecondition p = true /\ (ac_has_NewIdempotencyKey c = false -> PendingKey p <> ""%string).

Definition puts (found : list Addr) (p : pendingState) (r : ClientRequest) : Prop :=
  pending_for found p /\ r = put_request c p (request_body found).

Definition write_ahead_guard : Guard Srv := fun X e h =>
  match e with
  | Do r => cr_Method r = "PUT"%string -> exists found p, on_file p h /\ puts found p r
  | _ => True
  end.

(** A state that a 202 answer to a PUT, the last request, brought. *)
Definition acknowledged (state : DeviceStateDoc) (h : Host Srv) : Prop :=
  exists found p r s response body, puts found p r /\
    serve r s (Ok response) (server h) /\ hr_StatusCode response = 202 /\
    read_body response = Ok body /\ accepted_state response body = Ok state.

#[local] Abbreviation WP p := (wp serve write_ahead_guard p).
#[local] Abbreviation any := (fun _ : Host Srv => True).

Lemma wp_discover allowed interfaces found h :
  Forall endpoint_ok found ->
  WP (discover allowed interfaces found) (outcome_of any (fun l _ => Forall endpoint_ok l)) h.
Proof.
  revert found h. induction interfaces as [|i rest IH]; intros found h Hf; [done|]. cbn [discover].
  destruct (_ && _); [by apply IH|]. destruct (negb _ || _); [by apply IH|].
  apply wp_try, wp_attempt; [done| |done]. intros assigned h' [_ Ha]. apply IH, Forall_app. split; [done|].
  cbn in Ha. rewrite forallb_forall in Ha.
  apply Forall_forall. intros a (v & Hin & Hv)%list_elem_of_omap.
  eapply discovered_ok; [|done]. by apply Ha, list_elem_of_In.
Qed.

Lemma wp_addresses h : WP (addresses c) (outcome_of any (fun found _ => submittable c found)) h.
Proof.
  unfold addresses, submittable, DiscoverAddresses. destruct (0 <? _)%nat.
  - split; [apply Canonical_canonical|done].
  - apply wp_try, wp_attempt; [done| |done]. intros interfaces h1 _. apply wp_try.
    eapply wp_mono; [by apply wp_discover|]. intros [found|e] h2; [|done]. cbn [outcome_of]. intros Hf.
    rewrite Forall_forall in Hf. destruct (Canonical_canonical found) as (Hs & Hn & Hm).
    assert (merge_sort addr_le (CanonicalAddresses found) = CanonicalAddresses found) as E.
    { apply (StronglySorted_unique addr_le); [apply (StronglySorted_merge_sort _)|done|].
      by rewrite merge_sort_Permutation. }
    unfold succeed. cbn [wp outcome_of]. rewrite E. split; [done|].
    apply Forall_forall. intros a. rewrite Canonical_elem, list_elem_of_fmap.
    intros (b & -> & Hb). rewrite routable_unmapped by (by apply Hf). by apply Hf.
Qed.

Lemma status_precondition_Ok response body p :
  status_precondition response body = Ok p -> validPrecondition p = true /\ ascii_text (IfMatch p) = true.
Proof.
  unfold status_precondition. destruct (_ =? 404); [by intros [= <-]|]. destruct (negb _); [done|].
  destruct (ParseGenerationETag (hr_ETag response)) as [g|] eqn:E; [|done].
  destruct (Unmarshal _ _ _) as [state []]; [|done]. destruct (negb _); [done|]. intros [= <-].
  pose proof (ParseGenerationETag_Ok _ _ E) as [Ee ?]. unfold validPrecondition, fetched. cbn [IfNoneMatch IfMatch].
  rewrite E, Ee. split; [done|]. apply GenerationETag_ascii. lia.
Qed.

Lemma wp_fetch h :
  WP (fetchPrecondition c)
    (outcome_of any (fun p _ => validPrecondition p = true /\ ascii_text (IfMatch p) = true)) h.
Proof.
  apply wp_try, wp_attempt; [done| |done]. intros response h' _. apply wp_try.
  destruct (read_body response) as [body|e]; [|done]. cbn.
  destruct (status_precondition response body) as [p|] eqn:E; [|done]. by eapply status_precondition_Ok.
Qed.

Lemma wp_key h :
  WP (NewIdempotencyKey c) (outcome_of any (fun key _ => ascii_text key = true /\
    (ac_has_NewIdempotencyKey c = false -> key <> ""%string))) h.
Proof.
  unfold NewIdempotencyKey. destruct (ac_has_NewIdempotencyKey c).
  - apply wp_attempt; [done| |done]. by intros key h' [_ Hk].
  - apply wp_try, wp_attempt; [done| |done]. intros value h' [_ Hv].
    destruct (uuid_key value Hv) as [Hk _]. split; [by apply key_ascii|]. intros _ E. by rewrite E in Hk.
Qed.

Lemma wp_write p h :
  pending_ok p -> WP (writePending (ac_StatePath c) p) (outcome_of any (fun _ => on_file p)) h.
Proof.
  intros Hp. apply wp_try, wp_attempt; [done| |done]. intros u1 h1 _. apply wp_try, wp_attempt; [done| |done].
  intros u2 h2 ->. apply wp_attempt; [done| |done]. intros u3 h3 [(text & Ht & ->)|[_ ?]]; [|done].
  cbn [files with_files] in Ht. rewrite lookup_insert_eq in Ht. injection Ht as <-.
  eexists. split; [cbn [files with_files]; by rewrite lookup_insert_eq|by apply Unmarshal_pending].
Qed.

Lemma wp_create found h :
  submittable c found -> found <> [] ->
  WP (create_pending c (AddressesHash found)) (outcome_of any (fun p h' => on_file p h' /\ pending_for found p)) h.
Proof.
  intros Hs Hne. apply wp_try. eapply wp_mono; [apply wp_fetch|]. intros [q|] h1; [|done]. intros [Hq Ha].
  apply wp_try. eapply wp_mono; [apply wp_key|]. intros [key|] h2; [|done]. intros [Hk Hne'].
  apply wp_try. eapply wp_mono; [apply wp_write|].
  { split_and!; [apply AddressesHash_ascii|done|done]. }
  intros [u|] h3; [|done]. intros Hf. split; [done|]. by split_and!.
Qed.

Lemma usable_Some payload hash p :
  usable payload hash = Some p ->
  Unmarshal pending_fields zero_pending payload = (p, true) /\ PayloadHash p = hash /\
  validPrecondition p = true /\ PendingKey p <> ""%string.
Proof.
  unfold usable. destruct (Unmarshal _ _ _) as [q []]; [|done].
  destruct (_ && _) eqn:E; [|done]. intros [= <-]. rewrite !andb_true_iff, negb_true_iff in E.
  destruct E as [[Eh Ek] Ev]. apply String.eqb_eq in Eh. apply String.eqb_neq in Ek. done.
Qed.

Lemma wp_load found h :
  submittable c found -> found <> [] ->
  WP (loadOrCreatePending c (AddressesHash found))
    (outcome_of any (fun p h' => on_file p h' /\ pending_for found p)) h.
Proof.
  intros Hs Hne. split; [done|]. intros r h1 [-> Hr]. destruct r as [payload|e].
  - destruct (usable payload _) as [p|] eqn:E; [|by apply wp_create].
    apply usable_Some in E as (Hu & Hh & Hv & Hk). split; [by exists payload|by split_and!].
  - destruct (not_exist e); [by apply wp_create|done].
Qed.

Lemma wp_clear (Q : Host Srv -> Prop) h :
  (forall h', server h' = server h -> Q h') -> WP (clearPending c) (outcome_of any (fun _ => Q)) h.
Proof.
  intros HQ. split; [done|]. intros r h' [Hh Hr]. assert (Q h') by (apply HQ; by destruct Hh as [->| ->]).
  destruct r as [[]|e]; [done|]. by destruct (not_exist e).
Qed.

Lemma wp_update refresh h :
  (forall again h', refresh = Some again -> WP again (outcome_of any acknowledged) h') ->
  WP (update_with c refresh) (outcome_of any acknowledged) h.
Proof.
  intros Hr. apply wp_try. eapply wp_mono; [apply wp_addresses|]. intros [found|] h1; [|done].
  cbn [outcome_of]. intros Hs.
  destruct (Nat.eqb_spec (length found) 0) as [|Hne]; [done|].
  assert (found <> []) as Hf by (by intros ->). apply wp_try.
  eapply wp_mono; [by apply wp_load|]. intros [p|] h2; [|done]. cbn [outcome_of]. intros [Hp Hfor].
  assert (puts found p (put_request c p (request_body found))) as Hputs by done.
  apply wp_try, wp_attempt; [by exists found, p| |done]. intros response h3 (s & Hserve & ->).
  apply wp_try. destruct (read_body response) as [body|] eqn:Eb; [|done]. cbn [wp outcome_of].
  destruct (Z.eqb_spec (hr_StatusCode response) 202) as [E202|]; cbn [negb].
  - apply wp_try. destruct (accepted_state response body) as [state|] eqn:Ea; [|done]. cbn [wp outcome_of].
    apply wp_try, wp_clear. intros h4 Hh4. split; [done|]. intros now h5 ->.
    destruct (_ || _); [destruct refresh; [by apply Hr|done]|].
    exists found, p, (put_request c p (request_body found)), (server h2), response, body.
    rewrite Hh4. by split_and!.
  - destruct (_ =? 409); [|destruct (_ =? 412); [|done]].
    + apply wp_bind. eapply wp_mono; [by apply (wp_clear any)|]. by intros [] h4.
    + apply wp_try, wp_clear. intros h4 _. destruct refresh; [by apply Hr|done].
Qed.

Lemma wp_updateOnce again h : WP (updateOnce c again) (outcome_of any acknowledged) h.
Proof.
  apply wp_update. intros q h'. destruct again; [|done]. intros [= <-]. by apply wp_update.
Qed.
End write_ahead.

(** ** Retries *)

(** An update that begins by reading the state file and, once it is read, sends
    the request. *)
Definition sends_first {Srv} (serve : ClientRequest -> Srv -> result string ClientResponse -> Srv -> Prop)
    (path : string) (r : ClientRequest) (program : Fallible DeviceStateDoc) (h : Host Srv) : Prop :=
  exists k, program = Vis (ReadFile path) k /\
    forall payload h', host_answers serve (ReadFile path) h (Ok payload) h' ->
      exists k', k (Ok payload) = Vis (Do r) k'.

Lemma usable_recorded payload p hash :
  Unmarshal pending_fields zero_pending payload = (p, true) -> PayloadHash p = hash ->
  PendingKey p <> ""%string -> validPrecondition p = true -> usable payload hash = Some p.
Proof.
  intros Hu <- Hk%String.eqb_neq Hv. unfold usable. by rewrite Hu, String.eqb_refl, Hk, Hv.
Qed.

(** What an update does once it has its addresses. *)
Lemma recorded_resent {Srv} serve c again found p r :
  PendingKey p <> ""%string -> puts c found p r ->
  exists rest, updateOnce c again = try_bind (addresses c) rest /\
    forall h : Host Srv, on_file c p h -> sends_first serve (ac_StatePath c) r (rest found) h.
Proof.
  intros Hkey [(_ & Hne & Hh & Hv & _) ->].
  unfold updateOnce, update_with. eexists. split; [reflexivity|]. intros h (payload & Hf & Hu).
  assert ((length found =? 0)%nat = false) as El by (clear -Hne; by destruct found).
  unfold sends_first. cbv beta. rewrite El. eexists. split; [reflexivity|].
  intros text h' [_ Ht]. rewrite Hf in Ht. injection Ht as <-.
  cbv beta. rewrite (usable_recorded payload p) by auto. eexists. reflexivity.
Qed.

(** Configured addresses are always the same. *)
Lemma configured_addresses c found rest again :
  (0 < length (ac_Addresses c))%nat -> submittable c found ->
  updateOnce c again = try_bind (addresses c) rest -> updateOnce c again = rest found.
Proof.
  intros Hl%Nat.ltb_lt [_ Hs] ->. rewrite Hl in Hs. unfold addresses. by rewrite Hl, Hs.
Qed.

(** C26: Write-ahead: whenever the agent is about to send an update, whatever the
    host answered before, the request is exactly the one its state file
    records, with a valid precondition and the hash of the addresses sent; and an
    agent restarted on that file after the request was sent, lost or served first
    looks for its addresses again, and if it finds the same ones sends the same
    request, key and precondition included, before anything else.  Configured
    addresses are found the same; discovered ones may have changed, and then the
    record is of another update.  The key must not be empty, which only a
    configured generator of keys can make it. *)
Theorem update_is_recorded {Srv} serve c again r k (h h' : Host Srv)
    (Hstop : stops serve (updateOnce c again) h (Vis (Do r) k) h') (Hput : cr_Method r = "PUT"%string) :
  exists found p, on_file c p h' /\ puts c found p r /\
    (ac_has_NewIdempotencyKey c = false -> PendingKey p <> ""%string) /\
    (PendingKey p <> ""%string -> forall again',
       (exists rest, updateOnce c again' = try_bind (addresses c) rest /\
          forall h'', files h'' = files h' -> sends_first serve (ac_StatePath c) r (rest found) h'') /\
       ((0 < length (ac_Addresses c))%nat -> forall h'', files h'' = files h' ->
          sends_first serve (ac_StatePath c) r (updateOnce c again') h'')).
Proof.
  destruct (wp_stops _ _ _ _ _ _ _ (wp_updateOnce serve c again h) Hstop) as [Hg _]. destruct (Hg Hput) as (found & p & Hf & Hp).
  exists found, p. split_and!; [done|done|apply Hp|]. intros Hkey again'.
  destruct (recorded_resent serve c again' found p r Hkey Hp) as (rest & E & Hrest).
  assert (forall h'', files h'' = files h' -> sends_first serve (ac_StatePath c) r (rest found) h'') as Hsends
    by (intros h'' Eh; apply Hrest; unfold on_file; by rewrite Eh).
  split; [by exists rest|]. intros Hl.
  by rewrite (configured_addresses c found rest again' Hl (proj1 (proj1 Hp)) E).
Qed.

(** An agent with one address, no state file, and a controller that does not
    know the device. *)
Definition example_agent : AgentConfig :=
  {| ac_Endpoint := Some (Build_Endpoint "https" "controller.example"); ac_Addresses := [Addr4 0x08080808];
     ac_Interfaces := []; ac_StatePath := "/state"; ac_has_HTTPClient := true; ac_RenewInterval := 600 * second;
     ac_RequestTimeout := 30 * second; ac_Once := false; ac_has_NewIdempotencyKey := false;
     ac_has_OnError := false |}.

Definition example_octets : list Z := [0; 17; 34; 51; 68; 85; 102; 119; 136; 153; 170; 187; 204; 221; 238; 255].

Definition example_pending : pendingState :=
  new_pending (AddressesHash [Addr4 0x08080808]) (uuid_text example_octets) (fetched "" true).

Definition example_put : ClientRequest := put_request example_agent example_pending (request_body [Addr4 0x08080808]).

Definition unknown_device : ClientResponse :=
  {| hr_StatusCode := 404; hr_ETag := ""; hr_Body := ""; hr_BodyFails := false |}.

Definition example_serve : ClientRequest -> unit -> result string ClientResponse -> unit -> Prop :=
  fun r _ response _ => (cr_Method r = "GET"%string /\ response = Ok unknown_device) \/
    (cr_Method r = "PUT"%string /\ response = Err "connection reset"%string).

Definition example_host (state : option string) : Host unit :=
  {| files := from_option (fun text => {["/state"%string := text]}) ∅ state; server := tt |}.

Lemma example_stop : exists k,
  stops example_serve (updateOnce example_agent true) (example_host None)
    (Vis (Do example_put) k) (example_host (Some (print (pending_json example_pending)))).
Proof.
  eexists. apply (stops_after _ (ReadFile "/state") _ _
    (Err {| not_exist := true; file_message := "" |}) (example_host None)); [by split|].
  apply (stops_after _ (Do (status_request example_agent)) _ _ (Ok unknown_device) (example_host None)).
  { exists tt. split; [by left|done]. }
  apply (stops_after _ (RandRead 16) _ _ (Ok example_octets) (example_host None)); [by split|].
  apply (stops_after _ (MkdirParent "/state") _ _ (Ok tt) (example_host None)); [done|].
  apply (stops_after _ (WriteFile "/state.tmp" (print (pending_json example_pending))) _ _ (Ok tt)
    (with_files {["/state.tmp"%string := print (pending_json example_pending)]} (example_host None))).
  { done. }
  apply (stops_after _ (Rename "/state.tmp" "/state") _ _ (Ok tt)
    (example_host (Some (print (pending_json example_pending))))).
  { left. eexists. split; [apply lookup_insert_eq|]. unfold example_host, with_files. cbn [files server from_option].
    by rewrite delete_singleton_eq. }
  apply stops_here.
Qed.

Lemma update_is_recorded_witness : exists found p,
  on_file example_agent p (example_host (Some (print (pending_json example_pending)))) /\
  puts example_agent found p example_put /\
  sends_first example_serve "/state" example_put (updateOnce example_agent true)
    (example_host (Some (print (pending_json example_pending)))).
Proof.
  destruct example_stop as [k Hs].
  destruct (update_is_recorded _ _ _ _ _ _ _ Hs eq_refl) as (found & p & Hf & Hp & Hk & Hr).
  exists found, p. split_and!; [exact Hf|exact Hp|].
  apply (proj2 (Hr (Hk eq_refl) true)); [cbn; lia|reflexivity].
Defined.
