(* ===== verification/AgentLoop.v ===== *)
(** * The agent's requests and its loop

    How many requests an update makes, and what [Run] reports and how long it
    waits: its observable events follow a schedule that resets on success and
    doubles the wait, up to a minute, on each failure in a row. *)

From S2P Require Export AgentTheorems.
From Stdlib Require Import String.
#[local] Open Scope Z_scope.
#[local] Abbreviation length := List.length.

(** ** Counting effects *)

Definition EffectClass : Type := forall X, Effect X -> bool.

(** On every path, at most [n] effects of the class. *)
Fixpoint at_most {A} (P : EffectClass) (n : nat) (p : Prog A) : Prop :=
  match p with
  | Ret _ => True
  | Vis e k =>
      if P _ e then match n with O => False | S m => forall x, at_most P m (k x) end
      else forall x, at_most P n (k x)
  end.

Definition requests_with (method : string) : EffectClass := fun X e =>
  match e with Do r => (cr_Method r =? method)%string | _ => false end.
(** A request to anything but the two resources the controller serves. *)
Definition other_requests : EffectClass := fun X e =>
  match e with
  | Do r =>
      negb ((cr_Method r =? "GET")%string && (cr_Path r =? "/v1/devices/self/status")%string
        || (cr_Method r =? "PUT")%string && (cr_Path r =? "/v1/devices/self/endpoints")%string)
  | _ => false
  end.
Definition loop_effects : EffectClass := fun X e =>
  match e with OnError _ => true | Wait _ => true | _ => false end.

Lemma at_most_mono {A} P n m (p : Prog A) : (n <= m)%nat -> at_most P n p -> at_most P m p.
Proof.
  revert n m. induction p as [a|X e k IH]; intros n m Hle; [done|]. cbn.
  destruct (P X e).
  - destruct n as [|n]; [done|]. destruct m as [|m]; [lia|]. intros H x. by apply (IH x n); [lia|].
  - intros H x. by apply (IH x n).
Qed.

Lemma at_most_bind {A B} P n m (p : Prog A) (f : A -> Prog B) :
  at_most P n p -> (forall a, at_most P m (f a)) -> at_most P (n + m) (prog_bind p f).
Proof.
  intros Hp Hf. revert n Hp. induction p as [a|X e k IH]; intros n Hp; cbn in *.
  - eapply at_most_mono; [|apply Hf]. lia.
  - destruct (P X e); [destruct n as [|n]; [done|]|]; intros x; by apply IH.
Qed.

Lemma at_most_try {A B} P n m (p : Fallible A) (f : A -> Fallible B) :
  at_most P n p -> (forall a, at_most P m (f a)) -> at_most P (n + m) (try_bind p f).
Proof. intros Hp Hf. apply at_most_bind; [done|]. intros [a|e]; [apply Hf|done]. Qed.

(** What is neither a request nor an event of the loop. *)
Definition local_effect : EffectClass := fun X e =>
  match e with Do _ => false | OnError _ => false | Wait _ => false | _ => true end.

Lemma at_most_attempt {Er A} P n (e : Effect (result Er A)) wrap :
  at_most P n (Vis e Ret) -> at_most P n (attempt e wrap).
Proof. cbn. destruct (P _ e); [destruct n; done|done]. Qed.

Section counts.
Context (P : EffectClass) (gets puts : nat) (c : AgentConfig).
Context (Hlocal : forall X (e : Effect X), local_effect X e = true -> P X e = false).
Context (Hget : at_most P gets (Vis (Do (status_request c)) Ret)).
Context (Hput : forall p body, at_most P puts (Vis (Do (put_request c p body)) Ret)).

Lemma at_most_local {Er A} n (e : Effect (result Er A)) wrap :
  local_effect _ e = true -> at_most P n (attempt e wrap).
Proof using Hlocal. intros H. apply at_most_attempt. cbn. by rewrite (Hlocal _ _ H). Qed.

Lemma at_most_discover allowed interfaces found : at_most P 0 (discover allowed interfaces found).
Proof using Hlocal.
  revert found. induction interfaces as [|i rest IH]; intros found; [done|]. cbn [discover].
  destruct (_ && _); [apply IH|]. destruct (negb _ || _); [apply IH|].
  apply (at_most_try P 0 0); [by apply at_most_local|]. intros assigned. apply IH.
Qed.

Lemma at_most_addresses : at_most P 0 (addresses c).
Proof using Hlocal.
  unfold addresses. destruct (0 <? _)%nat; [done|].
  apply (at_most_try P 0 0); [by apply at_most_local|]. intros interfaces.
  apply (at_most_try P 0 0); [apply at_most_discover|done].
Qed.

Lemma at_most_key : at_most P 0 (NewIdempotencyKey c).
Proof using Hlocal.
  unfold NewIdempotencyKey. destruct (ac_has_NewIdempotencyKey c); [by apply at_most_local|].
  apply (at_most_try P 0 0); [by apply at_most_local|done].
Qed.

Lemma at_most_write path p : at_most P 0 (writePending path p).
Proof using Hlocal. repeat (apply (at_most_try P 0 0); [by apply at_most_local|intros _]). by apply at_most_local. Qed.

Lemma at_most_clear : at_most P 0 (clearPending c).
Proof using Hlocal.
  cbn. rewrite Hlocal by done. intros [u|e]; [done|]. by destruct (not_exist e).
Qed.

Lemma at_most_load hash : at_most P gets (loadOrCreatePending c hash).
Proof using Hlocal Hget.
  assert (at_most P gets (create_pending c hash)) as Hc.
  { replace gets with (gets + 0)%nat by lia. apply at_most_try.
    - replace gets with (gets + 0)%nat by lia. apply at_most_try; [by apply at_most_attempt|].
      intros response. apply (at_most_try P 0 0); done.
    - intros q. apply (at_most_try P 0 0); [apply at_most_key|]. intros key.
      apply (at_most_try P 0 0); [apply at_most_write|done]. }
  unfold loadOrCreatePending. cbn [at_most]. rewrite Hlocal by done. intros [payload|e].
  - by destruct (usable payload hash).
  - by destruct (not_exist e).
Qed.

Lemma at_most_update n refresh :
  (forall again, refresh = Some again -> at_most P n again) ->
  at_most P (gets + puts + n) (update_with c refresh).
Proof using Hlocal Hget Hput.
  intros Hr. apply (at_most_try P 0); [apply at_most_addresses|]. intros found.
  destruct (_ =? 0)%nat; [done|]. rewrite <- Nat.add_assoc. apply at_most_try; [apply at_most_load|]. intros p.
  apply at_most_try; [by apply at_most_attempt|]. intros response.
  apply (at_most_try P 0); [done|]. intros body.
  assert (forall e, at_most P n (match refresh with Some again => again | None => give_error e end)) as Hagain.
  { intros e. destruct refresh; [by apply Hr|done]. }
  cbv zeta. destruct (negb (hr_StatusCode response =? 202)).
  - destruct (hr_StatusCode response =? 409); [|destruct (hr_StatusCode response =? 412); [|done]].
    + apply (at_most_bind P 0); [apply at_most_clear|done].
    + apply (at_most_try P 0); [apply at_most_clear|]. intros _. apply Hagain.
  - apply (at_most_try P 0); [done|]. intros state. apply (at_most_try P 0); [apply at_most_clear|].
    intros _. cbn [at_most]. rewrite Hlocal by done. intros now. destruct (IsZero (doc_LeaseExpiresAt state) || negb (After (doc_LeaseExpiresAt state) now)); [apply Hagain|done].
Qed.

Lemma at_most_updateOnce : at_most P (2 * (gets + puts)) (UpdateOnce c).
Proof using Hlocal Hget Hput.
  replace (2 * (gets + puts))%nat with (gets + puts + (gets + puts + 0))%nat by lia.
  apply at_most_update. intros again [= <-]. by apply at_most_update.
Qed.
End counts.

(** C28: An update talks to the controller only by reading the device's status and
    putting its endpoints, and does each at most twice, whatever is answered. *)
Theorem update_is_bounded c :
  at_most (requests_with "GET") 2 (UpdateOnce c) /\ at_most (requests_with "PUT") 2 (UpdateOnce c) /\
  at_most other_requests 0 (UpdateOnce c).
Proof.
  split_and!.
  - by apply (at_most_updateOnce (requests_with "GET") 1 0); [intros ? []|..].
  - by apply (at_most_updateOnce (requests_with "PUT") 0 1); [intros ? []|..].
  - by apply (at_most_updateOnce other_requests 0 0); [intros ? []|..].
Qed.

Lemma update_silent c : at_most loop_effects 0 (UpdateOnce c).
Proof. by apply (at_most_updateOnce loop_effects 0 0); [intros ? []|..]. Qed.

(** ** The loop's events *)

(** An error reported, or a wait and what ended it early. *)
Inductive LoopEvent : Type :=
| Reported (e : AgentError)
| Waited (d : duration) (cancelled : option string).

Definition event_of {X} (e : Effect X) : X -> list LoopEvent :=
  match e in Effect X return X -> list LoopEvent with
  | OnError err => fun _ => [Reported err]
  | Wait d => fun r => [Waited d r]
  | _ => fun _ => []
  end.

(** A delay near [base]: jittered with eight random bytes, or [base] itself when
    there are none. *)
Definition delay (base d : duration) : Prop :=
  d = base \/ exists value, octets 8 value = true /\ d = jittered base value.

(** The wait after [k] failures in a row, before jitter. *)
Definition backoff_after (k : nat) : duration := Z.min minute (2 ^ Z.of_nat k * second).

(** What a loop that reports its errors and does not stop after one update may
    show, after [k] failures in a row, and what it has returned, if it has. *)
Inductive schedule (c : AgentConfig) : nat -> list LoopEvent -> option (result AgentError unit) -> Prop :=
| updating k : schedule c k [] None
| renewed k d events out :
    delay (ac_RenewInterval c) d -> schedule c 0 events out -> schedule c k (Waited d None :: events) out
| renewal_cancelled k d m :
    delay (ac_RenewInterval c) d -> schedule c k [Waited d (Some m)] (Some (Err (Failure m)))
| reported k e : schedule c k [Reported e] None
| gave_up k e : isRetryable e = false -> schedule c k [Reported e] (Some (Err e))
| retried k e d events out :
    isRetryable e = true -> delay (backoff_after k) d -> schedule c (S k) events out ->
    schedule c k (Reported e :: Waited d None :: events) out
| retry_cancelled k e d m :
    isRetryable e = true -> delay (backoff_after k) d ->
    schedule c k [Reported e; Waited d (Some m)] (Some (Err (Failure m))).

Definition returned {A} (p : Prog (option A)) : option A :=
  match p with Ret r => r | Vis _ _ => None end.

Section traces.
Context {Srv : Type} (serve : ClientRequest -> Srv -> result string ClientResponse -> Srv -> Prop).

(** The stopping points of a program, with the events on the way. *)
Fixpoint traces {A} (p : Prog A) (h : Host Srv) (events : list LoopEvent) (q : Prog A) (h' : Host Srv) : Prop :=
  (events = [] /\ q = p /\ h' = h) \/
  match p with
  | Ret _ => False
  | Vis e k => exists x h1 rest, host_answers serve e h x h1 /\
      events = event_of e x ++ rest /\ traces (k x) h1 rest q h'
  end.

Lemma traces_here {A} (p : Prog A) h : traces p h [] p h.
Proof. destruct p; by left. Qed.

Lemma traces_ret {A} (a : A) h events q h' : traces (Ret a) h events q h' -> events = [] /\ q = Ret a /\ h' = h.
Proof. by intros [?|[]]. Qed.

Lemma traces_bind {A B} (p : Prog A) (f : A -> Prog B) h events q h' :
  traces (prog_bind p f) h events q h' ->
  (exists q0, q = prog_bind q0 f /\ traces p h events q0 h' /\ forall a, q0 <> Ret a) \/
  (exists a e1 e2 h1, events = e1 ++ e2 /\ traces p h e1 (Ret a) h1 /\ traces (f a) h1 e2 q h').
Proof.
  revert h events. induction p as [a|X e k IH]; intros h events Ht; cbn [prog_bind] in Ht.
  - right. exists a, [], events, h. split_and!; [done|apply traces_here|done].
  - destruct Ht as [(-> & -> & ->)|(x & h1 & rest & Ha & -> & Hk)].
    + left. exists (Vis e k). split_and!; [done|apply traces_here|done].
    + apply IH in Hk as [(q0 & -> & Hq & Hne)|(a & e1 & e2 & h2 & -> & H1 & H2)].
      * left. exists q0. split_and!; [done|right; by exists x, h1, rest|done].
      * right. exists a, (event_of e x ++ e1), e2, h2. split_and!; [by rewrite app_assoc| |done].
        right. by exists x, h1, e1.
Qed.

Lemma traces_silent {A} (p : Prog A) h events q h' :
  at_most loop_effects 0 p -> traces p h events q h' -> events = [].
Proof.
  revert h events. induction p as [a|X e k IH]; intros h events Hs Ht; [by apply traces_ret in Ht as [-> _]|].
  destruct Ht as [[-> _]|(x & h1 & rest & Ha & -> & Hk)]; [done|]. cbn in Hs.
  destruct (loop_effects X e) eqn:E; [done|]. rewrite (IH x h1 rest) by done. by destruct e.
Qed.

(** A silent part of the loop, then the rest. *)
Lemma traces_after_silent {A B} (p : Prog A) (f : A -> Prog B) h events q h' :
  at_most loop_effects 0 p -> traces (prog_bind p f) h events q h' ->
  (events = [] /\ forall b, q <> Ret b) \/
  (exists a h1 h2, traces p h [] (Ret a) h1 /\ traces (f a) h1 events q h2 /\ h2 = h').
Proof.
  intros Hs [(q0 & -> & Hq & Hne)|(a & e1 & e2 & h1 & -> & H1 & H2)]%traces_bind.
  - left. split; [by eapply traces_silent|]. destruct q0 as [a|X e k]; [by destruct (Hne a)|done].
  - right. assert (e1 = []) as -> by (by eapply traces_silent). by exists a, h1, h'.
Qed.

(** ** The loop follows its schedule *)

Lemma backoff_next k :
  (if minute <? backoff_after k * 2 then minute else backoff_after k * 2) = backoff_after (S k).
Proof.
  unfold backoff_after. rewrite Nat2Z.inj_succ, Z.pow_succ_r by lia.
  change minute with (60 * second). assert (0 < second) by done.
  destruct (Z.ltb_spec (60 * second) (Z.min (60 * second) (2 ^ Z.of_nat k * second) * 2)); nia.
Qed.

(** The wait of the loop, and what follows it. *)
Lemma traces_pause base (f : option AgentError -> Prog (option (result AgentError unit))) h events q h' :
  traces (prog_bind (jitter base) (fun d => prog_bind (wait d) f)) h events q h' ->
  (events = [] /\ returned q = None) \/
  (exists d r rest h1, delay base d /\ events = Waited d r :: rest /\ traces (f (Failure <$> r)) h1 rest q h').
Proof.
  intros Ht. cbn in Ht. destruct Ht as [(-> & -> & _)|(x & h1 & rest & (-> & Hx) & -> & Hk)]; [by left|].
  destruct Hk as [(-> & -> & _)|(r & h2 & rest' & _ & -> & Hk)]; [by left|].
  right. eexists _, r, rest', h2. split_and!; [|done|done].
  destruct x as [value|e]; [right; by exists value|by left].
Qed.

Lemma run_schedule c n k h events q h' :
  ac_Once c = false -> ac_has_OnError c = true ->
  traces (run_rounds c n (backoff_after k)) h events q h' -> schedule c k events (returned q).
Proof.
  intros Honce Hreport. revert k h events. induction n as [|n IH]; intros k h events Ht.
  { apply traces_ret in Ht as (-> & -> & _). constructor. }
  cbn [run_rounds] in Ht. rewrite Honce, Hreport in Ht.
  apply (traces_after_silent _ _ _ _ _ _ (update_silent c)) in Ht as [[-> Hq]|(r & h1 & ? & _ & Ht & ->)].
  { destruct q as [b|X e k']; [by destruct (Hq b)|constructor]. }
  destruct r as [state|err].
  - apply traces_pause in Ht as [[-> ->]|(d & r & rest & h2 & Hd & -> & Ht)]; [constructor|].
    destruct r as [m|]; cbn [fmap option_fmap option_map] in Ht.
    + apply traces_ret in Ht as (-> & -> & _). by constructor.
    + constructor; [done|]. apply (IH 0%nat) in Ht. done.
  - cbn [prog_bind] in Ht. destruct Ht as [(-> & -> & _)|(u & h2 & rest & _ & -> & Ht)]; [constructor|].
    cbn [event_of app orb] in *. destruct (isRetryable err) eqn:Er; cbn [negb] in Ht.
    + apply traces_pause in Ht as [[-> ->]|(d & r & rest' & h3 & Hd & -> & Ht)]; [constructor|].
      destruct r as [m|]; cbn [fmap option_fmap option_map] in Ht.
      * apply traces_ret in Ht as (-> & -> & _). by constructor.
      * rewrite backoff_next in Ht. apply retried; [done..|]. by eapply IH.
    + apply traces_ret in Ht as (-> & -> & _). by constructor.
Qed.
End traces.

(** C27: The loop of a service keeps its schedule, whatever the host answers:
    after a success it waits about the renewal interval and the back-off starts
    again at a second; every failure is reported, and it is retried after a wait
    that doubles with each failure in a row up to a minute, or, when the
    controller refused for good, ends the loop with that error; the only other
    end is that of the context. *)
Theorem Run_keeps_schedule {Srv} serve c n (h : Host Srv) events q h'
    (Honce : ac_Once c = false) (Hreport : ac_has_OnError c = true)
    (Htrace : traces serve (Run c n) h events q h') :
  schedule c 0 events (returned q).
Proof. by apply (run_schedule serve c n 0 h events q h'). Qed.

(** The two ends of the jitter, for the first and the last back-off. *)
Example jitter_ends :
  (jittered second (repeat 0 8), jittered second (repeat 255 8)) = (900000000, 1100000000) /\
  (jittered minute (repeat 0 8), jittered minute (repeat 255 8)) = (54000000000, 66000000000).
Proof. vm_compute. done. Qed.

(** The loop's agent, on a host that cannot read the state file and has no
    randomness, until its context ends. *)
Definition example_daemon : AgentConfig :=
  {| ac_Endpoint := ac_Endpoint example_agent; ac_Addresses := ac_Addresses example_agent;
     ac_Interfaces := []; ac_StatePath := "/state"; ac_has_HTTPClient := true;
     ac_RenewInterval := 600 * second; ac_RequestTimeout := 30 * second; ac_Once := false;
     ac_has_NewIdempotencyKey := false; ac_has_OnError := true |}.

Definition unreadable : AgentError := Failure "read idempotency state: permission denied".
Definition example_events : list LoopEvent :=
  [Reported unreadable; Waited second None; Reported unreadable;
   Waited (2 * second) (Some "context canceled"%string)].

Lemma trace_step {Srv X A} serve (e : Effect X) (k : X -> Prog A) (h : Host Srv) x h1 events rest q h' :
  host_answers serve e h x h1 -> events = event_of e x ++ rest -> traces serve (k x) h1 rest q h' ->
  traces serve (Vis e k) h events q h'.
Proof. intros Ha -> Hk. right. by exists x, h1, rest. Qed.

Lemma example_trace : traces example_serve (Run example_daemon 2) (example_host None) example_events
  (Ret (Some (Err (Failure "context canceled")))) (example_host None).
Proof.
  do 2 (eapply (trace_step _ (ReadFile "/state") _ _
      (Err {| not_exist := false; file_message := "permission denied" |})); [by split|done|];
    eapply (trace_step _ (OnError unreadable) _ _ tt); [done|done|];
    eapply (trace_step _ (RandRead 8) _ _ (Err "no entropy"%string)); [by split|done|];
    (eapply (trace_step _ (Wait second) _ _ None); [done|reflexivity|]) ||
    (eapply (trace_step _ (Wait (2 * second)) _ _ (Some "context canceled"%string)); [done|reflexivity|])).
  apply traces_here.
Qed.

Lemma Run_keeps_schedule_witness :
  schedule example_daemon 0 example_events (Some (Err (Failure "context canceled"))).
Proof.
  exact (Run_keeps_schedule _ example_daemon _ _ _ _ _ eq_refl eq_refl example_trace).
Defined.
