(* ===== verification/EndToEnd.v ===== *)
(** * Agent, controller and store together

    The agent's programs on a host whose server is the controller's handler over
    the SQLite store.  Between any two points other callers may use the store,
    under any faults; a request may be lost before or after it is served, and an
    answer may be cut short. *)

From S2P Require Export ControllerTheorems AgentLoop JsonPrefix.
From Stdlib Require Import String.
#[local] Open Scope Z_scope.
#[local] Abbreviation length := List.length.
#[local] Abbreviation slen := String.length.

(** ** The controller as the agent's server *)

(** The tables, and a bound on the calls on them so far. *)
Record Site : Type := { site_db : DB; site_calls : nat }.

(** What [writeJSON] writes of a value; the text of an error is left open. *)
Definition encoded (value : Content) (text : string) : Prop :=
  match value with
  | State s => text = print (DeviceState_json s) +:+ newline
  | Health => text = print (JObj [("status"%string, JStr "ok")]) +:+ newline
  | Problem _ _ => True
  | NoContent => True
  end.

(** What becomes of a response on its way: it is lost, or its body arrives up to
    some point, with an error unless that is the end. *)
Definition delivered (response : Response) (answer : result string ClientResponse) : Prop :=
  match answer with
  | Err _ => True
  | Ok a => hr_StatusCode a = StatusCode response /\ hr_ETag a = default ""%string (ETag response) /\
      exists text rest, encoded (Payload response) text /\ text = hr_Body a +:+ rest /\
        (hr_BodyFails a = false -> rest = ""%string)
  end.

(** ** Texts on their way *)

Lemma substring_split n s : exists q, s = String.substring 0 n s +:+ q.
Proof.
  revert n. induction s as [|c s IH]; intros n; [by exists ""%string; destruct n|].
  destruct n as [|n]; [by exists (String c s)|]. destruct (IH n) as [q E]. exists q. cbn. by f_equal.
Qed.

Lemma substring_all n s : (slen s <= n)%nat -> String.substring 0 n s = s.
Proof.
  revert n. induction s as [|c s IH]; intros n Hn; [by destruct n|]. destruct n as [|n]; cbn in *; [lia|].
  rewrite IH by lia. done.
Qed.

Lemma substring_short n s : (n < slen s)%nat -> String.substring 0 n s <> s.
Proof. intros Hn E. apply (f_equal slen) in E. rewrite substring_slen in E by lia. lia. Qed.

(** Where the last byte of a text falls when the text is split. *)
Lemma split_last a c b q :
  a +:+ String c "" = b +:+ q ->
  (q = ""%string /\ b = a +:+ String c "") \/ (exists q', q = q' +:+ String c "" /\ a = b +:+ q').
Proof.
  revert a. induction b as [|d b IH]; intros a E.
  - right. by exists a.
  - destruct a as [|x a]; cbn in E; injection E as <- E.
    + left. by destruct b, q.
    + destruct (IH a E) as [[-> ->]|(q' & -> & ->)]; [by left|right; by exists q'].
Qed.

Lemma read_body_prefix a body : read_body a = Ok body -> exists q, hr_Body a = body +:+ q.
Proof.
  unfold read_body. generalize maxResponseBytes as n. intros n. destruct (n <=? slen (hr_Body a))%nat.
  - intros [= <-]. apply substring_split.
  - destruct (hr_BodyFails a); [done|]. intros [= <-]. exists ""%string. by rewrite app_nil_r_s.
Qed.

(** What the agent takes for the accepted state is what the controller sent. *)
Lemma accepted_sent s a text rest body state :
  state_ok s -> text = print (DeviceState_json s) +:+ newline -> text = hr_Body a +:+ rest ->
  read_body a = Ok body -> accepted_state a body = Ok state -> state = doc_of s.
Proof.
  intros Hs -> Et [p Hq]%read_body_prefix Ha.
  assert (exists q, print (DeviceState_json s) +:+ newline = body +:+ q) as [q Eq].
  { exists (p +:+ rest). by rewrite Et, Hq, app_assoc_s. }
  assert (Unmarshal DeviceState_fields zero_DeviceState body = (doc_of s, true) \/ parse body = None) as Hu.
  { apply split_last in Eq as [[-> ->]|(q' & -> & Eq)].
    - left. apply Unmarshal_DeviceState; [done|by right].
    - destruct q' as [|c q'].
      + left. rewrite app_nil_r_s in Eq. rewrite <- Eq, <- (app_nil_r_s (print _)).
        apply Unmarshal_DeviceState; [done|by left].
      + right. eapply parse_cut; [by apply DeviceState_json_ok|exact Eq|done]. }
  unfold accepted_state in Ha. destruct Hu as [Hu|Hp].
  - rewrite Hu in Ha. destruct (ParseGenerationETag _); [|done]. destruct (negb _); [done|]. by injection Ha as <-.
  - unfold Unmarshal in Ha. rewrite Hp in Ha. done.
Qed.

(** ** The request read by the controller *)

Lemma request_json_ok l : addrs_ok l = true -> json_ok (EndpointRequest_json (AddressesFromNetIP l)).
Proof.
  intros Hl. apply Canonical_ok, addrs_ok_Forall in Hl. unfold EndpointRequest_json.
  assert (json_ok (JArr (address_json <$> AddressesFromNetIP l))) as Hj; [|cbn -[AddressesFromNetIP]; by repeat split].
  apply json_ok_arr_2, Forall_fmap, Forall_fmap. eapply Forall_impl; [exact Hl|].
  intros x Hx. cbn -[ascii_text AddrString]. rewrite AddrString_ascii by done. by destruct (Is4 x).
Qed.

Lemma decode_request_body l payload :
  addrs_ok l = true -> decode_body (request_body l) = Ok payload -> payload = AddressesFromNetIP l.
Proof.
  intros Hl. pose proof (request_json_ok l Hl) as Hj. unfold decode_body, request_body. cbv zeta.
  set (text := print (EndpointRequest_json (AddressesFromNetIP l))) in *.
  assert (DecodeNext (String.substring 0 maxRequestBytes text) = Some (EndpointRequest_json (AddressesFromNetIP l), ""%string)
    \/ DecodeNext (String.substring 0 maxRequestBytes text) = None) as Hd.
  { destruct (le_lt_dec (slen text) maxRequestBytes) as [Hle|Hlt].
    - left. rewrite substring_all by done. unfold DecodeNext, text. rewrite <- (app_nil_r_s (print _)).
      rewrite parse_value_print; [done|done| |done].
      unfold text_fuel. pose proof (need_length _ Hj). rewrite app_nil_r_s. lia.
    - right. destruct (substring_split maxRequestBytes text) as [q Eq].
      eapply DecodeNext_cut; [exact Hj|exact Eq|]. intros ->. rewrite app_nil_r_s in Eq.
      by apply (substring_short maxRequestBytes text). }
  destruct Hd as [-> | ->]; [|done]. cbn [is_null EndpointRequest_json]. rewrite andb_false_r.
  unfold EndpointRequest_json. cbn [decode_struct foldl].
  assert (forall old, old = [] -> set_member true EndpointRequest_fields (old, true)
    ("addresses"%string, JArr (address_json <$> AddressesFromNetIP l)) = (AddressesFromNetIP l, true)) as Hset.
  { intros old ->. unfold set_member. cbn [snd fst]. 
    change (find_field EndpointRequest_fields "addresses") with
      (Some (decode_list zero_Address (decode_nested true Address_fields))). cbn iota.
    by rewrite decode_addresses. }
  rewrite Hset by done. destruct (ensureEOF _ _); [|done]. by intros [= <-].
Qed.

Lemma validate_request_body h l validated :
  addrs_ok l = true -> canonical l -> validateAddresses h (AddressesFromNetIP l) = Ok validated -> validated = l.
Proof.
  intros Hl Hc (addrs & Hv & _ & ->)%validateAddresses_Ok. trans (CanonicalAddresses l); [|by apply Canonical_id]. f_equal.
  unfold AddressesFromNetIP in Hv. rewrite (Canonical_id l Hc) in Hv. apply addrs_ok_Forall in Hl.
  clear Hc. revert addrs Hv. induction Hl as [|x l Hx Hl IH]; intros addrs Hv.
  - by apply Forall2_nil_inv_l in Hv as ->.
  - cbn [fmap list_fmap] in Hv. apply Forall2_cons_inv_l in Hv as (y & addrs' & (Hy & _) & Hv & ->).
    cbn [AddressText] in Hy. unfold addr_ok in Hx. apply andb_true_iff in Hx as [Hx _].
    rewrite ParseAddr_String in Hy by done. injection Hy as <-. f_equal. by apply IH.
Qed.

Section site.
Context (h : Handler) (conn : option ConnectionState).

Definition http_request (r : ClientRequest) : Request :=
  {| Method := cr_Method r; Path := cr_Path r; TLS := conn; Headers := cr_Headers r; Body := cr_Body r |}.

(** A handler makes at most three calls on its store. *)
Inductive serve (r : ClientRequest) (s : Site) : result string ClientResponse -> Site -> Prop :=
| request_lost n d m : db_run (site_db s) n d ->
    serve r s (Err m) {| site_db := d; site_calls := n + site_calls s |}
| request_served n d now w fs response x m d' answer :
    db_run (site_db s) n d -> int64_range now -> carried h (http_request r) now ->
    ServeHTTP h (http_request r) now {| durable := d; work := w; faults := fs |} = (response, x) ->
    db_run (durable x) m d' -> delivered response answer ->
    serve r s answer {| site_db := d'; site_calls := m + (3 + (n + site_calls s)) |}.

(** ** Every state of the site is a run's *)

Lemma db_run_trans d n d1 m d2 : db_run d n d1 -> db_run d1 m d2 -> db_run d (m + n) d2.
Proof. intros H1 H2. induction H2; [done|]. by eapply db_next. Qed.

Lemma call_db_step c s : call_ok c -> db_step (durable s) (durable (snd (call c s))).
Proof. destruct s. by apply db_call. Qed.

Lemma one_call c s : call_ok c -> db_run (durable s) 1 (durable (snd (call c s))).
Proof. intros Hc. eapply db_next; [apply db_start|by apply call_db_step]. Qed.

Definition within (k : nat) (d d' : DB) : Prop := exists n, (n <= k)%nat /\ db_run d n d'.

Lemma within_refl k d : within k d d.
Proof. exists 0%nat. split; [lia|constructor]. Qed.
Lemma within_mono k l d d' : (k <= l)%nat -> within k d d' -> within l d d'.
Proof. intros H (n & ? & ?). exists n. split; [lia|done]. Qed.
Lemma within_trans k l d d1 d2 : within k d d1 -> within l d1 d2 -> within (k + l) d d2.
Proof. intros (n & ? & H1) (m & ? & H2). exists (m + n)%nat. split; [lia|]. by eapply db_run_trans. Qed.

Lemma within_get dev (s : TxState) : within 1 (durable s) (durable (snd (get_intent dev s))).
Proof.
  exists 1%nat. split; [done|]. pose proof (one_call (CallGet dev) s I) as H.
  cbn [call] in H. unfold reply_of in H. by destruct (get_intent dev s) as [[]].
Qed.

Lemma within_expire now (s : TxState) :
  int64_range now -> within 1 (durable s) (durable (snd (expire_leases now s))).
Proof.
  intros Hn. exists 1%nat. split; [done|]. pose proof (one_call (CallExpire now) s Hn) as H.
  cbn [call] in H. unfold reply_of in H. by destruct (expire_leases now s) as [[]].
Qed.

Lemma within_upsert r (s : TxState) :
  request_ok r -> within 1 (durable s) (durable (snd (upsert_intent r s))).
Proof.
  intros Hr. exists 1%nat. split; [done|]. pose proof (one_call (CallUpsert r) s Hr) as H.
  cbn [call] in H. unfold reply_of in H. by destruct (upsert_intent r s) as [[]].
Qed.

Lemma getStatus_within request now (s : TxState) :
  int64_range now -> within 3 (durable s) (durable (snd (getStatus h request now s))).
Proof.
  intros Hn. unfold getStatus. destruct (authenticate h request) as [device|]; [|apply within_refl].
  pose proof (within_get (ID device) s) as H1. destruct (get_intent (ID device) s) as [[i|e] s1]; cbn [snd] in *.
  2: { destruct e; (eapply within_mono; [|exact H1]; lia). }
  destruct (_ && _); [|eapply within_mono; [|exact H1]; lia].
  pose proof (within_expire now s1 Hn) as H2. destruct (expire_leases now s1) as [[l|e] s2]; cbn [snd] in *.
  2: { eapply (within_mono 2 3), (within_trans 1 1); [lia|done|done]. }
  pose proof (within_get (ID device) s2) as H3. destruct (get_intent (ID device) s2) as [[j|e] s3]; cbn [snd] in *;
    (eapply (within_trans 1 2); [done|]; by eapply (within_trans 1 1)).
Qed.

Lemma putEndpoints_within request now (s : TxState) :
  carried h request now -> within 3 (durable s) (durable (snd (putEndpoints h request now s))).
Proof.
  intros Hc. destruct (putEndpoints_cases h request now (S := TxState))
    as [(response & _ & _ & E)|(device & l & p & Hck & E)]; specialize (E s).
  - rewrite E. apply within_refl.
  - cbv zeta in E. rewrite E. cbn [snd]. eapply within_mono; [|apply within_upsert]; [lia|].
    by eapply Hc.
Qed.

Lemma ServeHTTP_within request now (s : TxState) :
  int64_range now -> carried h request now ->
  within 3 (durable s) (durable (snd (ServeHTTP h request now s))).
Proof.
  intros Hn Hc. unfold ServeHTTP.
  repeat case_match; try apply within_refl; [by apply putEndpoints_within|by apply getStatus_within].
Qed.

Definition accounted (s : Site) : Prop := within (site_calls s) empty_db (site_db s).

Lemma serve_accounted r s answer s' : accounted s -> serve r s answer s' -> accounted s'.
Proof.
  intros Hs [n d m Hd|n d now w fs response x m d' a Hd Hn Hc E Hx _]; unfold accounted in *; cbn [site_db site_calls].
  - rewrite Nat.add_comm. eapply within_trans; [done|]. by exists n.
  - pose proof (ServeHTTP_within (http_request r) now {| durable := d; work := w; faults := fs |} Hn Hc) as H3.
    rewrite E in H3. cbn [snd durable] in H3.
    replace (m + (3 + (n + site_calls s)))%nat with (site_calls s + (n + (3 + m)))%nat by lia.
    eapply within_trans; [done|]. eapply within_trans; [by exists n|]. eapply within_trans; [done|by exists m].
Qed.
End site.

(** ** What an acceptance means *)

(** The intent of an accepted write: it has the hash of the addresses asked for,
    and the register holds what it became. *)
Lemma accepted_intent n a r res a1 :
  sound n a -> few (S n) -> request_ok r -> spec_upsert r a = (Ok res, a1) ->
  sound (S n) a1 /\ intent_ok (res_Intent res) /\ int64_range (res_RenewAfterSeconds res) /\
  DeviceID (res_Intent res) = req_DeviceID r /\
  AddressesHash (Addresses (res_Intent res)) = AddressesHash (wanted r) /\
  exists i, reg a1 !! req_DeviceID r = Some i /\ later (res_Intent res) i.
Proof.
  intros Hs Hn Hr E. pose proof (upsert_sound n a r Hs Hn Hr) as Hs1. rewrite E in Hs1. cbn [snd] in Hs1.
  split; [done|]. pose proof (spec_upsert_case r a) as Hcase. rewrite E in Hcase.
  assert (forall next, a1 = snd (accept r next a) -> Addresses next = wanted r -> res_Intent res = next ->
    res_RenewAfterSeconds res = req_RenewAfterSeconds r ->
    intent_ok (res_Intent res) /\ int64_range (res_RenewAfterSeconds res) /\
    DeviceID (res_Intent res) = req_DeviceID r /\
    AddressesHash (Addresses (res_Intent res)) = AddressesHash (wanted r) /\
    exists i, reg a1 !! req_DeviceID r = Some i /\ later (res_Intent res) i) as Hnew.
  { intros next -> Hw <- Hrenew.
    assert (reg (snd (accept r (res_Intent res) a)) !! req_DeviceID r = Some (res_Intent res)) as Hi
      by apply lookup_insert_eq.
    destruct (ok_reg _ (sd_ok _ _ Hs1) _ _ Hi) as [Hok Hd].
    rewrite Hw, Hrenew. split; [done|]. split; [apply Hr|]. split; [done|]. split; [done|]. by exists (res_Intent res). }
  inversion Hcase as [e He Hsame| | | | |? ? ? ? ? Eq|c ? ? ? ? Eq]; subst.
  - destruct (sd_answers _ _ Hs1 _ _ _ He) as [Hhash _ (i & Hi & Hl)].
    destruct (ok_answers _ (sd_ok _ _ Hs1) _ _ He) as [Hok Hren]. cbn [replayed res_Intent res_RenewAfterSeconds].
    split; [done|]. split; [case_match; [apply Hr|done]|]. split; [|split; [|by exists i]].
    + destruct Hl as (k & _ & Hm). rewrite <- (moved_device _ _ _ Hm).
      by destruct (ok_reg _ (sd_ok _ _ Hs1) _ _ Hi).
    + unfold same_request in Hsame. apply andb_true_iff in Hsame as [Eh%String.eqb_eq _]. congruence.
  - by eapply Hnew.
  - by eapply Hnew.
Qed.

Lemma shown_state_ok i renew : intent_ok i -> int64_range renew -> state_ok (deviceState i renew).
Proof.
  intros Hi Hr. split; cbn [deviceState ds_DeviceID ds_Hostname ds_Addresses ds_Generation ds_LeaseExpiresAt
    ds_RenewAfterSeconds]; try apply Hi; [|by apply int64_printable, Hi|done].
  unfold AddressesFromNetIP. rewrite Canonical_id by apply Hi. apply Forall_fmap.
  pose proof (ok_addrs _ Hi) as Ha. apply addrs_ok_Forall in Ha. eapply Forall_impl; [exact Ha|].
  intros x Hx. split; [cbn; by destruct (Is4 x)|by apply AddrString_ascii].
Qed.

(** The device a connection identifies. *)
Definition identified (h : Handler) (conn : option ConnectionState) : result IdentityError Device :=
  authenticate h {| Method := ""; Path := ""; TLS := conn; Headers := ∅; Body := "" |}.

(** A 202 answer to the agent's PUT, and the tables when it arrives. *)
Lemma served_put h conn c found p s answer s' body state :
  accounted s -> few (site_calls s') -> addrs_ok found = true -> canonical found ->
  serve h conn (put_request c p (request_body found)) s (Ok answer) s' ->
  hr_StatusCode answer = 202 -> read_body answer = Ok body -> accepted_state answer body = Ok state ->
  exists device a' i j renew, identified h conn = Ok device /\ register_ok a' /\ site_db s' = tables a' /\
    reg a' !! ID device = Some j /\ later i j /\ intent_ok i /\ DeviceID i = ID device /\
    AddressesHash (Addresses i) = AddressesHash found /\ state = doc_of (deviceState i renew).
Proof.
  intros (k & Hk & Hrun0) Hfew Hfound Hcan Hserve H202 Hb Ha.
  remember (Ok answer) as o eqn:Eo. destruct Hserve as [|n d now w fs response x m d' o Hd Hnow Hc E Hx Hdel]; [done|].
  subst o. destruct Hdel as (Hs & _ & text & rest & Htext & Et & _). cbn [site_db site_calls] in *.
  change (ServeHTTP h ?r ?t ?s) with (putEndpoints h r t s) in E.
  rewrite Hs in H202. destruct (put_accepted_checked h _ now _ _ _ E H202) as (device & l & q & res & Hck & Eu & ->).
  assert (l = found) as ->.
  { destruct (ck_addresses _ _ _ _ _ Hck) as (payload & Hpay & Hv). cbn [Body http_request put_request cr_Body] in Hpay.
    apply decode_request_body in Hpay as ->; [|done]. by apply validate_request_body in Hv. }
  pose proof (Hc _ _ _ Hck) as Hr. set (r := upsert_of h device _ found q now) in *.
  pose proof (db_run_trans _ _ _ _ _ Hrun0 Hd) as Hrun.
  destruct (db_run_empty (n + k) d ltac:(unfold few in *; lia) Hrun) as (a & Hsound & ->).
  destruct (upsert_outcome r a {| durable := tables a; work := w; faults := fs |} (sd_ok _ _ Hsound) Hr eq_refl)
    as [[E1 E2]|[[e E1] _]]; rewrite Eu in *; cbn [fst snd] in *; [|done].
  destruct (spec_upsert r a) as [r0 a1] eqn:Es. cbn [fst snd] in *. subst r0.
  destruct (accepted_intent (n + k) a r res a1 Hsound ltac:(unfold few in *; lia) Hr Es)
    as (Hs1 & Hok & Hren & Hdev & Hhash & i1 & Hi1 & Hlater).
  rewrite E2 in Hx. destruct (db_run_sound (S (n + k)) a1 m d' Hs1 ltac:(unfold few in *; lia) Hx) as (a2 & Hs2 & -> & _ & Hreg).
  destruct (Hreg _ _ Hi1) as (j & Hj & Hl2).
  exists device, a2, (res_Intent res), j, (res_RenewAfterSeconds res).
  cbn [put_response Payload writeJSON] in Htext.
  split; [exact (ck_device _ _ _ _ _ Hck)|]. split; [apply Hs2|]. split; [done|]. split; [done|].
  split; [by etrans|]. split; [done|]. split; [done|].
  split; [by rewrite Hhash; unfold wanted; cbn [req_Addresses upsert_of r]; rewrite Canonical_id|].
  eapply accepted_sent; [by apply shown_state_ok|exact Htext|exact Et|exact Hb|exact Ha].
Qed.

(** An update the agent reports as accepted, on the register of the tables. *)
Lemma acknowledged h conn c again (host host' : Host Site) state :
  accounted (server host) -> few (site_calls (server host')) -> addrs_ok (ac_Addresses c) = true ->
  stops (serve h conn) (updateOnce c again) host (Ret (Ok state)) host' ->
  exists device found a i j renew,
    identified h conn = Ok device /\ submittable c found /\ found <> [] /\ addrs_ok found = true /\
    register_ok a /\ site_db (server host') = tables a /\ reg a !! ID device = Some j /\ later i j /\
    intent_ok i /\ DeviceID i = ID device /\ AddressesHash (Addresses i) = AddressesHash found /\
    state = doc_of (deviceState i renew).
Proof.
  intros Hsite Hfew Hconfig Hstop.
  destruct (stops_within (serve h conn) accounted (serve_accounted h conn) _ _ _ _ Hsite Hstop) as [Hs _].
  destruct (wp_stops _ _ _ _ _ _ _ (wp_updateOnce _ c again host) Hs) as
    (found & p & r & s & answer & body & [Hfor ->] & [Hacc Hserve] & H202 & Hb & Ha).
  destruct Hfor as ((Hcan & Hsub) & Hne & _).
  assert (addrs_ok found = true) as Hfound.
  { destruct (0 <? length (ac_Addresses c))%nat; [rewrite Hsub; by apply Canonical_ok|].
    apply addrs_ok_Forall. eapply Forall_impl; [exact Hsub|]. by intros x [_ ?]. }
  destruct (served_put h conn c found p s answer _ body state Hacc Hfew Hfound Hcan Hserve H202 Hb Ha)
    as (device & a & i & j & renew & H1 & H2 & H3 & H4 & H5 & H6 & H7 & H8 & H9).
  exists device, found, a, i, j, renew. exact (conj H1 (conj (conj Hcan Hsub) (conj Hne (conj Hfound
    (conj H2 (conj H3 (conj H4 (conj H5 (conj H6 (conj H7 (conj H8 H9))))))))))).
Qed.

(** Addresses with one hash are the same, where SHA-256 does not collide. *)
Lemma same_payload l found :
  addrs_ok l = true -> addrs_ok found = true -> canonical l -> canonical found ->
  hash_payload l = hash_payload found -> l = found.
Proof.
  intros Hl Hf Hcl Hcf. unfold hash_payload. rewrite !Canonical_id by done. by apply address_document_inj.
Qed.

(** ** Properties *)

(** C3: An update the agent reports as accepted is stored: on any host whose
    server is the controller over the SQLite store, with requests and answers
    lost or cut short and other callers using the store at any time, when an
    update returns a state, then the tables hold a record of the agent's own
    device at that generation or a later one, the addresses shown are those
    the agent submitted (unless SHA-256 collides on the two lists), and the
    record still has them if its generation is the one shown. *)
Theorem acknowledged_update_is_stored h conn c again (host host' : Host Site) state
    (Hsite : accounted (server host)) (Hfew : few (site_calls (server host')))
    (Hconfig : addrs_ok (ac_Addresses c) = true)
    (Hstop : stops (serve h conn) (updateOnce c again) host (Ret (Ok state)) host') :
  exists device found shown record,
    identified h conn = Ok device /\ submittable c found /\ found <> [] /\
    stored (site_db (server host')) (ID device) = Some record /\
    doc_DeviceID state = ID device /\ doc_Hostname state = Hostname record /\
    doc_Generation state <= Generation record /\ doc_Addresses state = AddressesFromNetIP shown /\
    (hash_payload shown = hash_payload found -> shown = found) /\
    AddressesHash shown = AddressesHash found /\
    (Generation record = doc_Generation state -> Addresses record = shown).
Proof.
  destruct (acknowledged h conn c again host host' state Hsite Hfew Hconfig Hstop)
    as (device & found & a & i & j & renew & Hid & Hsub & Hne & Hfound & Hreg & Edb & Hj & (k & _ & Hm) & Hok & Hdev & Hhash & ->).
  exists device, found, (Addresses i), j. rewrite Edb, stored_tables by done.
  cbn [doc_of deviceState doc_DeviceID doc_Hostname doc_Generation doc_Addresses
    ds_DeviceID ds_Hostname ds_Generation ds_Addresses].
  split; [done|]. split; [done|]. split; [done|]. split; [done|]. split; [done|].
  split; [symmetry; apply Hm|]. split; [apply Hm|]. split; [done|]. split; [|split; [done|apply Hm]].
  apply same_payload; [apply Hok|done|apply Hok|apply Hsub].
Qed.

(** ** The property at a concrete input: a first registration *)

Definition example_config : AgentConfig :=
  {| ac_Endpoint := Some (Build_Endpoint "https" "controller.example"); ac_Addresses := [example_address];
     ac_Interfaces := []; ac_StatePath := "/state"; ac_has_HTTPClient := true; ac_RenewInterval := 300 * second;
     ac_RequestTimeout := 30 * second; ac_Once := true; ac_has_NewIdempotencyKey := false;
     ac_has_OnError := false |}.

Definition example_conn : option ConnectionState :=
  Some {| PeerCertificates := []; VerifiedChains := [[example_certificate]] |}.

Definition first_pending : pendingState :=
  new_pending (AddressesHash [example_address]) (uuid_text example_octets) (fetched "" true).

Definition first_put : ClientRequest := put_request example_config first_pending (request_body [example_address]).

(** A site, and the site after a request at an instant. *)
Definition example_site (d : DB) (n : nat) : Site := {| site_db := d; site_calls := n |}.
Definition example_served (r : ClientRequest) (now : time) (d : DB) : Response * TxState :=
  ServeHTTP example_handler (http_request example_conn r) now (quiet d d).

Definition first_answer_text : string :=
  match Payload (fst (example_served first_put 0 empty_db)) with
  | State s => print (DeviceState_json s) +:+ newline
  | _ => ""
  end.
Definition first_answer_response : ClientResponse :=
  {| hr_StatusCode := 202; hr_ETag := GenerationETag 1; hr_Body := first_answer_text; hr_BodyFails := false |}.
Definition first_db : DB := durable (snd (example_served first_put 0 empty_db)).

Lemma first_put_checked :
  checked example_handler (http_request example_conn first_put) example_device [example_address] RequireAbsent.
Proof.
  split; [reflexivity|vm_compute; reflexivity| |vm_compute; reflexivity].
  exists (AddressesFromNetIP [example_address]). vm_compute. split; reflexivity.
Qed.

Lemma first_answer_shape :
  StatusCode (fst (example_served first_put 0 empty_db)) = 202 /\
  ETag (fst (example_served first_put 0 empty_db)) = Some (GenerationETag 1) /\
  encoded (Payload (fst (example_served first_put 0 empty_db))) first_answer_text.
Proof. vm_compute. repeat split. Qed.

Lemma first_put_served :
  serve example_handler example_conn first_put (example_site empty_db 3) (Ok first_answer_response)
    (example_site first_db 6).
Proof.
  destruct first_answer_shape as (Hs & He & Ht).
  apply (request_served example_handler example_conn first_put (example_site empty_db 3) 0 empty_db 0 empty_db []
    (fst (example_served first_put 0 empty_db)) (snd (example_served first_put 0 empty_db)) 0 first_db).
  - constructor.
  - in_range.
  - apply (example_carried _ _ _ first_put_checked); [in_range|lia].
  - change {| durable := empty_db; work := empty_db; faults := [] |} with (quiet empty_db empty_db).
    fold (example_served first_put 0 empty_db). by destruct (example_served _ _ _).
  - constructor.
  - split; [by rewrite Hs|]. split; [by rewrite He|]. exists first_answer_text, ""%string.
    split; [done|]. split; [|done]. by rewrite app_nil_r_s.
Qed.

Definition unregistered : ClientResponse :=
  {| hr_StatusCode := 404; hr_ETag := ""; hr_Body := ""; hr_BodyFails := false |}.

Lemma first_status_served :
  serve example_handler example_conn (status_request example_config) (example_site empty_db 0) (Ok unregistered)
    (example_site empty_db 3).
Proof.
  apply (request_served example_handler example_conn (status_request example_config) (example_site empty_db 0)
    0 empty_db 0 empty_db []
    (writeError 404 "not_found" (Text "this device has no desired state")) (quiet empty_db empty_db)
    0 empty_db (Ok unregistered)).
  - constructor.
  - in_range.
  - intros device l p Hck. destruct Hck as [_ Hk _ _]. discriminate Hk.
  - vm_compute. reflexivity.
  - constructor.
  - split; [done|]. split; [done|]. exists ""%string, ""%string. done.
Qed.

Definition site_host (f : gmap string string) (s : Site) : Host Site := {| files := f; server := s |}.

Definition first_state : DeviceStateDoc :=
  {| doc_DeviceID := "001"; doc_Hostname := "pi-001.example.org";
     doc_Addresses := AddressesFromNetIP [example_address]; doc_Generation := 1; doc_Status := "accepted";
     doc_LeaseExpiresAt := 900 * second; doc_RenewAfterSeconds := 300 |}.

Lemma first_answer_accepted :
  read_body first_answer_response = Ok first_answer_text /\
  accepted_state first_answer_response first_answer_text = Ok first_state.
Proof. vm_compute. repeat split. Qed.

Lemma first_update_stops :
  stops (serve example_handler example_conn) (updateOnce example_config true)
    (site_host ∅ (example_site empty_db 0)) (Ret (Ok first_state)) (site_host ∅ (example_site first_db 6)).
Proof.
  set (state_text := print (pending_json first_pending)).
  apply (stops_after _ (ReadFile "/state") _ _ (Err {| not_exist := true; file_message := "" |})
    (site_host ∅ (example_site empty_db 0))); [by split|].
  apply (stops_after _ (Do (status_request example_config)) _ _ (Ok unregistered)
    (site_host ∅ (example_site empty_db 3))).
  { eexists. split; [exact first_status_served|done]. }
  apply (stops_after _ (RandRead 16) _ _ (Ok example_octets) (site_host ∅ (example_site empty_db 3))); [by split|].
  apply (stops_after _ (MkdirParent "/state") _ _ (Ok tt) (site_host ∅ (example_site empty_db 3))); [done|].
  apply (stops_after _ (WriteFile "/state.tmp" state_text) _ _ (Ok tt)
    (site_host {["/state.tmp"%string := state_text]} (example_site empty_db 3))); [done|].
  apply (stops_after _ (Rename "/state.tmp" "/state") _ _ (Ok tt)
    (site_host {["/state"%string := state_text]} (example_site empty_db 3))).
  { left. eexists. split; [apply lookup_insert_eq|]. unfold site_host, with_files. cbn [files server].
    by rewrite delete_singleton_eq. }
  apply (stops_after _ (Do first_put) _ _ (Ok first_answer_response)
    (site_host {["/state"%string := state_text]} (example_site first_db 6))).
  { eexists. split; [exact first_put_served|done]. }
  cbv beta iota. cbn [prog_bind]. destruct first_answer_accepted as [Eb Ea].
  rewrite Eb. change (hr_StatusCode first_answer_response) with 202. unfold try_bind at 1. cbn [prog_bind].
  cbv zeta. change (negb (202 =? 202)) with false. cbv iota. rewrite Ea. unfold try_bind at 1. cbn [prog_bind].
  apply (stops_after _ (Remove "/state") _ _ (Ok tt) (site_host ∅ (example_site first_db 6))).
  { split; [|done]. left. unfold site_host, with_files. cbn [files server]. by rewrite delete_singleton_eq. }
  apply (stops_after _ Now _ _ (60 * second) (site_host ∅ (example_site first_db 6))); [done|].
  apply stops_here.
Qed.

Lemma acknowledged_update_is_stored_witness : exists shown record,
  stored first_db "001" = Some record /\ doc_Addresses first_state = AddressesFromNetIP shown /\
  AddressesHash shown = AddressesHash [example_address] /\
  (Generation record = 1 -> Addresses record = shown).
Proof.
  destruct (acknowledged_update_is_stored example_handler example_conn example_config true
      (site_host ∅ (example_site empty_db 0)) (site_host ∅ (example_site first_db 6)) first_state)
    as (device & found & shown & record & Hid & [_ Hf] & _ & Hr & _ & _ & _ & Hshown & _ & Hh & Ha).
  - exists 0%nat. split; [cbn; lia|constructor].
  - apply few_small. cbn. lia.
  - reflexivity.
  - exact first_update_stops.
  - assert (device = example_device) as -> by (injection Hid as <-; reflexivity).
    assert (found = [example_address]) as -> by exact Hf.
    exists shown, record. split; [exact Hr|]. split; [exact Hshown|]. split; [exact Hh|exact Ha].
Defined.
