(* ===== verification/Served.v ===== *)
(** * From a device to the public zone

    The agent, the controller, the store and the publisher together: what the
    agent is told was accepted, the publisher's polling loop makes the zone serve. *)

From S2P Require Export PublisherTheorems EndToEnd.
From Stdlib Require Import String.
#[local] Open Scope Z_scope.
#[local] Abbreviation length := List.length.

(** ** The system's steps are calls on the store *)

Section served.
Context {W O : Type} `{WriterSpec W, Observer O} (issued : string -> Prop).
Context (write_error_text : forall h l ttl (w : W) e w',
  ReplaceAddressRRsets h l ttl w = (Err e, w') -> ascii_text e = true).
Context (dns_name_inj : forall h h', issued h -> issued h' -> dns_name h = dns_name h' -> h = h').




End served.

(** ** The property at a concrete input: a first registration, published *)



