(* ===== verification/Commands.v ===== *)
(** * The commands

    [src/dns/cmd]: the agent, the controller and the publisher, from the
    environment and the command line to the services they run.  An option's
    default comes from the environment, the command line overrides it, and the
    options that may be repeated add to it.  An error ends a command before its
    service starts. *)

From S2P Require Export Clock Cliutil FlagTheorems Transport Authorization Migrate Dnswriter Agent Publisher.
From Stdlib Require Import String.
#[local] Open Scope Z_scope.
#[local] Abbreviation length := List.length.

Definition hour : duration := 3600 * second.

(** How a command ends early: [log.Fatal] exits with 1, package flag with 2, or
    with 0 after printing the usage it was asked for. *)
Inductive Exit : Type := Fatal (message : string) | Usage (e : ParseError).

Definition exit_status (e : Exit) : Z :=
  match e with Fatal _ => 1 | Usage ErrHelp => 0 | Usage (Misuse _) => 2 end.

(** The values of declared options after parsing: [main]'s variables. *)
Definition string_of (flags : FlagSet) (name : string) : option string :=
  match flags !! name with Some (StringValue s) => Some s | _ => None end.
Definition bool_of (flags : FlagSet) (name : string) : option bool :=
  match flags !! name with Some (BoolValue b) => Some b | _ => None end.
Definition duration_of (flags : FlagSet) (name : string) : option duration :=
  match flags !! name with Some (DurationValue d) => Some d | _ => None end.
Definition uint_of (flags : FlagSet) (name : string) : option Z :=
  match flags !! name with Some (UintValue n) => Some n | _ => None end.
Definition list_of (flags : FlagSet) (name : string) : option (list string) :=
  match flags !! name with Some (ListValue l) => Some l | _ => None end.

(** A command's options: declared from the environment, then parsed. *)
Definition parse_command {O} (env : gmap string string) (args : list string)
    (declared_in : gmap string string -> result string (list (string * FlagValue)))
    (options : FlagSet -> option O) : result Exit O :=
  l ← map_err Fatal (declared_in env);
  flags ← of_option (Fatal "flag redefined") (declare l);
  flags ← map_err Usage (Parse flags args);
  of_option (Fatal "undeclared option") (options flags).

(** ** kaiba-agent *)

Record AgentOptions : Type := {
  ao_endpoint : string;
  ao_certFile : string;
  ao_keyFile : string;
  ao_caFile : string;
  ao_identityMode : string;
  ao_socket : string;
  ao_controllerID : string;
  ao_addresses : list string;
  ao_interfaces : list string;
  ao_statePath : string;
  ao_renewInterval : duration;
  ao_requestTimeout : duration;
  ao_once : bool;
}.

(** The declared options and their defaults. *)
Definition agent_flags (env : gmap string string) : result string (list (string * FlagValue)) :=
  renewDefault ← EnvDuration env "KAIBA_AGENT_RENEW_INTERVAL" (6 * hour);
  timeoutDefault ← EnvDuration env "KAIBA_AGENT_REQUEST_TIMEOUT" (30 * second);
  onceDefault ← EnvBool env "KAIBA_AGENT_ONCE" false;
  Ok [("endpoint", StringValue (Env env "KAIBA_AGENT_ENDPOINT" ""));
      ("client-cert", StringValue (Env env "KAIBA_AGENT_CLIENT_CERT" ""));
      ("client-key", StringValue (Env env "KAIBA_AGENT_CLIENT_KEY" ""));
      ("ca", StringValue (Env env "KAIBA_AGENT_CA" ""));
      ("identity-mode", StringValue (Env env "KAIBA_AGENT_IDENTITY_MODE" "file"));
      ("workload-api-socket", StringValue (Env env "KAIBA_AGENT_WORKLOAD_API_SOCKET" ""));
      ("controller-spiffe-id", StringValue (Env env "KAIBA_AGENT_CONTROLLER_SPIFFE_ID" ""));
      ("address", ListValue (CSVEnv env "KAIBA_AGENT_ADDRESSES"));
      ("interface", ListValue (CSVEnv env "KAIBA_AGENT_INTERFACES"));
      ("idempotency-state", StringValue (Env env "KAIBA_AGENT_IDEMPOTENCY_STATE" "/var/lib/kaiba-agent/idempotency.json"));
      ("renew-interval", DurationValue renewDefault);
      ("request-timeout", DurationValue timeoutDefault);
      ("once", BoolValue onceDefault)]%string.

Definition agent_options (flags : FlagSet) : option AgentOptions :=
  endpoint ← string_of flags "endpoint";
  certFile ← string_of flags "client-cert";
  keyFile ← string_of flags "client-key";
  caFile ← string_of flags "ca";
  identityMode ← string_of flags "identity-mode";
  socket ← string_of flags "workload-api-socket";
  controllerID ← string_of flags "controller-spiffe-id";
  addresses ← list_of flags "address";
  interfaces ← list_of flags "interface";
  statePath ← string_of flags "idempotency-state";
  renewInterval ← duration_of flags "renew-interval";
  requestTimeout ← duration_of flags "request-timeout";
  once ← bool_of flags "once";
  Some {| ao_endpoint := endpoint; ao_certFile := certFile; ao_keyFile := keyFile; ao_caFile := caFile;
          ao_identityMode := identityMode; ao_socket := socket; ao_controllerID := controllerID;
          ao_addresses := addresses; ao_interfaces := interfaces; ao_statePath := statePath;
          ao_renewInterval := renewInterval; ao_requestTimeout := requestTimeout; ao_once := once |}.

Definition agent_parse (env : gmap string string) (args : list string) : result Exit AgentOptions :=
  parse_command env args agent_flags agent_options.

(** The explicit addresses; an IPv4-mapped one is refused. *)
Fixpoint parsedAddresses (values : list string) : result string (list Addr) :=
  match values with
  | [] => Ok []
  | value :: rest =>
      match ParseAddr value with
      | None => Err ("invalid --address " +:+ value)
      | Some addr =>
          if Is4In6 addr then Err ("invalid --address " +:+ value) else
          addrs ← parsedAddresses rest; Ok (addr :: addrs)
      end
  end.

Definition is_empty (s : string) : bool := (s =? "")%string.

Section agent.
(** [agent.NewHTTPClient], [identity.NewWorkloadSource] and
    [identity.WorkloadHTTPClient] on this host, and [url.Parse]. *)
Context (file_client : string -> string -> string -> duration -> result string HTTPClient).
Context (workload_source : string -> duration -> result string unit).
Context (workload_client : string -> duration -> result string HTTPClient).
Context (parse_endpoint : string -> option Endpoint).

Definition agent_client (o : AgentOptions) : result string HTTPClient :=
  if (ao_identityMode o =? "file")%string then
    if is_empty (ao_certFile o) || is_empty (ao_keyFile o) || is_empty (ao_caFile o)
       || negb (is_empty (ao_socket o)) || negb (is_empty (ao_controllerID o))
    then Err "file mode requires --client-cert, --client-key, --ca and forbids SPIFFE options"%string
    else file_client (ao_certFile o) (ao_keyFile o) (ao_caFile o) (ao_requestTimeout o)
  else if (ao_identityMode o =? "spiffe")%string then
    if negb (is_empty (ao_certFile o)) || negb (is_empty (ao_keyFile o)) || negb (is_empty (ao_caFile o))
       || is_empty (ao_controllerID o)
    then Err "spiffe mode requires --controller-spiffe-id and --workload-api-socket and forbids file credentials"%string
    else
      _ ← workload_source (ao_socket o) (ao_requestTimeout o);
      workload_client (ao_controllerID o) (ao_requestTimeout o)
  else Err "--identity-mode must be file or spiffe"%string.

(** [main] up to [service.Run]: the client and the agent's configuration. *)
Definition agent_main (o : AgentOptions) : result string (HTTPClient * AgentConfig) :=
  if is_empty (ao_endpoint o) then Err "--endpoint is required"%string else
  addresses ← parsedAddresses (ao_addresses o);
  client ← agent_client o;
  service ← NewAgent
    {| ac_Endpoint := parse_endpoint (ao_endpoint o); ac_Addresses := addresses;
       ac_Interfaces := ao_interfaces o; ac_StatePath := ao_statePath o; ac_has_HTTPClient := true;
       ac_RenewInterval := ao_renewInterval o; ac_RequestTimeout := ao_requestTimeout o;
       ac_Once := ao_once o; ac_has_NewIdempotencyKey := false; ac_has_OnError := true |};
  Ok (client, service).

Definition agent_command (env : gmap string string) (args : list string) : result Exit (HTTPClient * AgentConfig) :=
  o ← agent_parse env args; map_err Fatal (agent_main o).
End agent.

(** ** kaiba-controller *)

Record ControllerOptions : Type := {
  co_listen : string;
  co_database : string;
  co_certFile : string;
  co_keyFile : string;
  co_clientCAFile : string;
  co_Mode : string;
  co_Socket : string;
  co_TrustDomain : string;
  co_FleetURL : string;
  co_FleetID : string;
  co_zone : string;
  co_clockFile : string;
  co_leaseDuration : duration;
  co_renewAfter : duration;
  co_allowNonGlobal : bool;
}.

Definition controller_flags (env : gmap string string) : result string (list (string * FlagValue)) :=
  leaseDefault ← EnvDuration env "KAIBA_CONTROLLER_LEASE_DURATION" (24 * hour);
  renewDefault ← EnvDuration env "KAIBA_CONTROLLER_RENEW_AFTER" (6 * hour);
  allowDefault ← EnvBool env "KAIBA_CONTROLLER_ALLOW_NON_GLOBAL_ADDRESSES" false;
  Ok [("listen", StringValue (Env env "KAIBA_CONTROLLER_LISTEN" ":8443"));
      ("db", StringValue (Env env "KAIBA_CONTROLLER_DB" "/var/lib/kaiba-controller/controller.db"));
      ("tls-cert", StringValue (Env env "KAIBA_CONTROLLER_TLS_CERT" ""));
      ("tls-key", StringValue (Env env "KAIBA_CONTROLLER_TLS_KEY" ""));
      ("client-ca", StringValue (Env env "KAIBA_CONTROLLER_CLIENT_CA" ""));
      ("identity-mode", StringValue (Env env "KAIBA_CONTROLLER_IDENTITY_MODE" "file"));
      ("workload-api-socket", StringValue (Env env "KAIBA_CONTROLLER_WORKLOAD_API_SOCKET" ""));
      ("spiffe-trust-domain", StringValue (Env env "KAIBA_CONTROLLER_SPIFFE_TRUST_DOMAIN" ""));
      ("fleet-authorization-url", StringValue (Env env "KAIBA_CONTROLLER_FLEET_AUTHORIZATION_URL" ""));
      ("fleet-server-spiffe-id", StringValue (Env env "KAIBA_CONTROLLER_FLEET_SERVER_SPIFFE_ID" ""));
      ("zone", StringValue (Env env "KAIBA_CONTROLLER_ZONE" "kaiba.network"));
      ("clock-file", StringValue (Env env "KAIBA_CONTROLLER_CLOCK_FILE" ""));
      ("lease-duration", DurationValue leaseDefault);
      ("renew-after", DurationValue renewDefault);
      ("allow-non-global-addresses", BoolValue allowDefault)]%string.

Definition controller_options (flags : FlagSet) : option ControllerOptions :=
  listen ← string_of flags "listen";
  database ← string_of flags "db";
  certFile ← string_of flags "tls-cert";
  keyFile ← string_of flags "tls-key";
  clientCAFile ← string_of flags "client-ca";
  mode ← string_of flags "identity-mode";
  socket ← string_of flags "workload-api-socket";
  domain ← string_of flags "spiffe-trust-domain";
  fleetURL ← string_of flags "fleet-authorization-url";
  fleetID ← string_of flags "fleet-server-spiffe-id";
  zone ← string_of flags "zone";
  clockFile ← string_of flags "clock-file";
  leaseDuration ← duration_of flags "lease-duration";
  renewAfter ← duration_of flags "renew-after";
  allowNonGlobal ← bool_of flags "allow-non-global-addresses";
  Some {| co_listen := listen; co_database := database; co_certFile := certFile; co_keyFile := keyFile;
          co_clientCAFile := clientCAFile; co_Mode := mode; co_Socket := socket; co_TrustDomain := domain;
          co_FleetURL := fleetURL; co_FleetID := fleetID; co_zone := zone; co_clockFile := clockFile;
          co_leaseDuration := leaseDuration; co_renewAfter := renewAfter; co_allowNonGlobal := allowNonGlobal |}.

Definition controller_parse (env : gmap string string) (args : list string) : result Exit ControllerOptions :=
  parse_command env args controller_flags controller_options.

(** How long a server waits for a client. *)
Record ServerTimeouts : Type := {
  ReadHeaderTimeout : duration;
  ReadTimeout : duration;
  WriteTimeout : duration;
  IdleTimeout : duration;
}.

Record HTTPServer : Type := {
  srv_Addr : string;
  srv_Handler : Handler;
  srv_TLS : TLSSettings;
  srv_Timeouts : ServerTimeouts;
}.

Section controller.
(** The host: the clock's file, the database, certificates, the Workload API,
    its bundles, and the fleet's authorizer made for a URL, an id, a zone and a
    timeout. *)
Context (clock : string -> result string unit) (open_database : string -> result string unit).
Context (load_pair : string -> string -> result string unit) (read_file : string -> result string string).
Context (append_certs : string -> bool).
Context (workload_source : string -> duration -> result string unit).
Context {Bundles : Type} (bundles : Bundles) (Verify : list Certificate -> Bundles -> time -> option SpiffeID).
Context (fleet_authorizer : string -> string -> string -> duration ->
           result string (SpiffeID -> result IdentityError Device)).
(** The wall clock, at a request. *)
Context (wall_now : time).

(** What a mode gives: the TLS settings and the two policies. *)
Definition controller_identity (o : ControllerOptions)
    : result string (TLSSettings * option Policy * option RequestPolicy) :=
  if (co_Mode o =? "file")%string then
    if is_empty (co_certFile o) || is_empty (co_keyFile o) || is_empty (co_clientCAFile o)
       || negb (is_empty (co_Socket o)) || negb (is_empty (co_TrustDomain o))
       || negb (is_empty (co_FleetURL o)) || negb (is_empty (co_FleetID o))
    then Err "file mode requires --tls-cert, --tls-key, --client-ca and forbids SPIFFE options"%string else
    _ ← map_err (fun e => "load controller certificate: " +:+ e) (load_pair (co_certFile o) (co_keyFile o));
    caPEM ← map_err (fun e => "read device CA: " +:+ e) (read_file (co_clientCAFile o));
    if negb (append_certs caPEM) then Err "device CA file contains no certificates"%string else
    Ok (TLSConfig (co_certFile o) (co_clientCAFile o),
        Some (Resolve {| PolicyTrustDomain := "kaiba.network"; PolicyZone := co_zone o |}), None)
  else if (co_Mode o =? "spiffe")%string then
    if negb (is_empty (co_certFile o)) || negb (is_empty (co_keyFile o)) || negb (is_empty (co_clientCAFile o))
       || is_empty (co_FleetURL o) || is_empty (co_FleetID o) || negb (ValidTrustDomain (co_TrustDomain o))
    then Err "spiffe mode requires workload socket, canonical trust domain, fleet URL and exact fleet server ID; file credentials are forbidden"%string else
    _ ← workload_source (co_Socket o) (20 * second);
    authorizer ← fleet_authorizer (co_FleetURL o) (co_FleetID o) (co_zone o) (5 * second);
    tlsConfig ← WorkloadServerTLS (co_TrustDomain o);
    Ok (tlsConfig, None,
        Some (ResolveRequest Verify {| wp_Bundles := Some bundles; wp_TrustDomain := co_TrustDomain o;
                                wp_Authorizer := Some authorizer |} wall_now))
  else Err "--identity-mode must be file or spiffe"%string.

(** [run] up to [ListenAndServeTLS]. *)
Definition controller_run (o : ControllerOptions) : result string HTTPServer :=
  _ ← clock (co_clockFile o);
  _ ← open_database (co_database o);
  '(tlsConfig, policy, request_policy) ← controller_identity o;
  handler ← New {| cfg_Identity := policy; cfg_RequestIdentity := request_policy;
                   cfg_LeaseDuration := co_leaseDuration o; cfg_RenewAfter := co_renewAfter o;
                   cfg_AllowNonGlobalAddresses := co_allowNonGlobal o |} true;
  Ok {| srv_Addr := co_listen o; srv_Handler := handler; srv_TLS := tlsConfig;
        srv_Timeouts := {| ReadHeaderTimeout := 10 * second; ReadTimeout := 30 * second;
                           WriteTimeout := 30 * second; IdleTimeout := 90 * second |} |}.

Definition controller_command (env : gmap string string) (args : list string) : result Exit HTTPServer :=
  o ← controller_parse env args; map_err Fatal (controller_run o).
End controller.

(** ** kaiba-publisher *)

Record PublisherOptions : Type := {
  po_database : string;
  po_clockFile : string;
  po_dnsServer : string;
  po_zone : string;
  po_tsigName : string;
  po_tsigAlgorithm : string;
  po_tsigSecretFile : string;
  po_ttl : Z;
  po_pollInterval : duration;
  po_observeServers : list string;
  po_once : bool;
}.

Definition publisher_flags (env : gmap string string) : result string (list (string * FlagValue)) :=
  pollDefault ← EnvDuration env "KAIBA_PUBLISHER_POLL_INTERVAL" (5 * second);
  ttlDefault ← EnvUint32 env "KAIBA_PUBLISHER_TTL" 300;
  onceDefault ← EnvBool env "KAIBA_PUBLISHER_ONCE" false;
  Ok [("db", StringValue (Env env "KAIBA_PUBLISHER_DB" "/var/lib/kaiba-controller/controller.db"));
      ("clock-file", StringValue (Env env "KAIBA_PUBLISHER_CLOCK_FILE" ""));
      ("dns-server", StringValue (Env env "KAIBA_PUBLISHER_DNS_SERVER" ""));
      ("zone", StringValue (Env env "KAIBA_PUBLISHER_ZONE" "kaiba.network"));
      ("tsig-name", StringValue (Env env "KAIBA_PUBLISHER_TSIG_NAME" ""));
      ("tsig-algorithm", StringValue (Env env "KAIBA_PUBLISHER_TSIG_ALGORITHM" "hmac-sha256."));
      ("tsig-secret-file", StringValue (Env env "KAIBA_PUBLISHER_TSIG_SECRET_FILE" ""));
      ("ttl", UintValue ttlDefault);
      ("poll-interval", DurationValue pollDefault);
      ("observe-server", ListValue (CSVEnv env "KAIBA_PUBLISHER_OBSERVE_SERVERS"));
      ("once", BoolValue onceDefault)]%string.

Definition publisher_options (flags : FlagSet) : option PublisherOptions :=
  database ← string_of flags "db";
  clockFile ← string_of flags "clock-file";
  dnsServer ← string_of flags "dns-server";
  zone ← string_of flags "zone";
  tsigName ← string_of flags "tsig-name";
  tsigAlgorithm ← string_of flags "tsig-algorithm";
  tsigSecretFile ← string_of flags "tsig-secret-file";
  ttl ← uint_of flags "ttl";
  pollInterval ← duration_of flags "poll-interval";
  observeServers ← list_of flags "observe-server";
  once ← bool_of flags "once";
  Some {| po_database := database; po_clockFile := clockFile; po_dnsServer := dnsServer; po_zone := zone;
          po_tsigName := tsigName; po_tsigAlgorithm := tsigAlgorithm; po_tsigSecretFile := tsigSecretFile;
          po_ttl := ttl; po_pollInterval := pollInterval; po_observeServers := observeServers; po_once := once |}.

Definition publisher_parse (env : gmap string string) (args : list string) : result Exit PublisherOptions :=
  parse_command env args publisher_flags publisher_options.

(** The service of the options, its writer, and its observation servers. *)
Record PublisherService : Type := {
  ps_service : Service;
  ps_DNS : RFC2136;
  ps_observe : list string;
  ps_Once : bool;
  ps_interval : duration;
}.

Section publisher.
Context (clock : string -> result string unit) (open_database : string -> result string unit).
Context (read_file : string -> result string string).

(** [main] up to the service's run. *)
Definition publisher_main (o : PublisherOptions) : result string PublisherService :=
  if is_empty (po_dnsServer o) || is_empty (po_tsigName o) || is_empty (po_tsigSecretFile o)
  then Err "--dns-server, --tsig-name, and --tsig-secret-file are required"%string else
  if (po_ttl o =? 0) || (2 ^ 32 - 1 <? po_ttl o) then Err "--ttl must be between 1 and 4294967295"%string else
  secret ← map_err (fun e => "read TSIG secret: " +:+ e) (read_file (po_tsigSecretFile o));
  _ ← clock (po_clockFile o);
  _ ← open_database (po_database o);
  Ok {| ps_service := {| has_Store := true; has_DNS := true;
                         has_Observer := (0 <? length (po_observeServers o))%nat;
                         leadership := Some StaticLeadership; TTL := po_ttl o mod 2 ^ 32; BatchSize := 0 |};
        ps_DNS := {| Server := po_dnsServer o; Zone_ := po_zone o; TSIGName := po_tsigName o;
                     TSIGSecret := TrimSpace secret; Algorithm := po_tsigAlgorithm o |};
        ps_observe := po_observeServers o; ps_Once := po_once o; ps_interval := po_pollInterval o |}.

Definition publisher_command (env : gmap string string) (args : list string) : result Exit PublisherService :=
  o ← publisher_parse env args; map_err Fatal (publisher_main o).
End publisher.

(** ** What a started service has *)

Lemma parsedAddresses_Ok values addrs :
  parsedAddresses values = Ok addrs ->
  Forall2 (fun value addr => ParseAddr value = Some addr /\ Is4In6 addr = false) values addrs.
Proof.
  revert addrs. induction values as [|value rest IH]; intros addrs; cbn [parsedAddresses]; [by intros [= <-]|].
  destruct (ParseAddr value) as [addr|] eqn:Ep; [|done]. destruct (Is4In6 addr) eqn:E4; [done|].
  destruct (parsedAddresses rest) as [l|]; [|done]. intros [= <-]. constructor; [done|]. by apply IH.
Qed.

Lemma agent_client_modes file_client source client o c :
  agent_client file_client source client o = Ok c ->
  (ao_identityMode o = "file"%string /\ ao_socket o = ""%string /\ ao_controllerID o = ""%string /\
   file_client (ao_certFile o) (ao_keyFile o) (ao_caFile o) (ao_requestTimeout o) = Ok c) \/
  (ao_identityMode o = "spiffe"%string /\ ao_certFile o = ""%string /\ ao_keyFile o = ""%string /\
   ao_caFile o = ""%string /\ client (ao_controllerID o) (ao_requestTimeout o) = Ok c).
Proof.
  unfold agent_client, is_empty. destruct (String.eqb_spec (ao_identityMode o) "file").
  - destruct (_ || _) eqn:E; [done|]. rewrite !orb_false_iff, !negb_false_iff, !String.eqb_eq in E.
    left. destruct E as [[_ ?] ?]. by split_and!.
  - destruct (String.eqb_spec (ao_identityMode o) "spiffe"); [|done].
    destruct (_ || _) eqn:E; [done|]. destruct (source _ _); [|done]. cbn [mbind result_bind].
    rewrite !orb_false_iff, !negb_false_iff, !String.eqb_eq in E.
    right. destruct E as [[[? ?] ?] _]. by split_and!.
Qed.

Lemma NewAgent_Ok config c :
  NewAgent config = Ok c ->
  ac_Addresses c = ac_Addresses config /\ (exists e, ac_Endpoint c = Some e /\ ep_Scheme e = "https"%string /\ ep_Host e <> ""%string) /\
  0 < ac_RenewInterval c /\ 0 < ac_RequestTimeout c /\ ac_StatePath c <> ""%string /\
  ac_has_NewIdempotencyKey c = ac_has_NewIdempotencyKey config /\ ac_has_OnError c = ac_has_OnError config.
Proof.
  unfold NewAgent. destruct (ac_Endpoint config) as [e|] eqn:Ee; [|done].
  destruct (_ || _) eqn:Eh; [done|]. destruct (negb (ac_has_HTTPClient config)); [done|].
  destruct (String.eqb_spec (ac_StatePath config) ""); [done|].
  destruct (Z.leb_spec (ac_RenewInterval config) 0); [done|]. intros [= <-].
  cbn [ac_Addresses ac_Endpoint ac_RenewInterval ac_RequestTimeout ac_StatePath ac_has_NewIdempotencyKey ac_has_OnError].
  apply orb_false_iff in Eh as [E1 E2]. apply negb_false_iff, String.eqb_eq in E1. apply String.eqb_neq in E2.
  split_and!; try done; [by exists e|]. unfold second. destruct (Z.leb_spec (ac_RequestTimeout config) 0); lia.
Qed.

(** What New gives a controller that started. *)
Lemma New_Ok config b handler :
  New config b = Ok handler ->
  b = true /\ identity handler = cfg_Identity config /\ requestIdentity handler = cfg_RequestIdentity config /\
  (cfg_Identity config = None <-> cfg_RequestIdentity config <> None) /\
  allowNonGlobalAddresses handler = cfg_AllowNonGlobalAddresses config /\
  0 < renewAfter handler < leaseDuration handler.
Proof.
  unfold New. destruct (_ || negb b) eqn:E; [done|]. destruct (_ || _ || _) eqn:E2; [done|]. intros [= <-].
  cbn [identity requestIdentity allowNonGlobalAddresses renewAfter leaseDuration].
  apply orb_false_iff in E as [Ei Eb]. apply negb_false_iff in Eb.
  rewrite !orb_false_iff, !Z.leb_gt in E2.
  split; [done|]. split; [done|]. split; [done|]. split; [|split; [done|lia]].
  destruct (cfg_Identity config), (cfg_RequestIdentity config); naive_solver.
Qed.

(** ** Properties *)

(** C29: A controller that starts, from any environment and command line,
    authenticates every device in exactly one way: it
    speaks TLS 1.3 only and requires a client certificate; with file
    credentials no SPIFFE option is set and certificates are checked against
    the client CA and resolved in the pilot's trust domain, with SPIFFE no file
    credential is set and peers must be workloads of the configured trust domain
    whose requests the fleet authorizes; leases outlast renewals. *)
Theorem controller_starts_authenticated {Bundles} clock open_database load_pair read_file append_certs
    workload_source (bundles : Bundles) Verify fleet_authorizer wall_now env args srv
    (Hrun : controller_command clock open_database load_pair read_file append_certs workload_source bundles Verify
              fleet_authorizer wall_now env args = Ok srv) :
  exists o, controller_parse env args = Ok o /\
  MinVersion (srv_TLS srv) = VersionTLS13 /\ ClientCertificateRequired (srv_TLS srv) = true /\
  0 < renewAfter (srv_Handler srv) < leaseDuration (srv_Handler srv) /\
  allowNonGlobalAddresses (srv_Handler srv) = co_allowNonGlobal o /\
  ((co_Mode o = "file"%string /\ co_Socket o = ""%string /\ co_TrustDomain o = ""%string /\
    co_FleetURL o = ""%string /\ co_FleetID o = ""%string /\
    peer (srv_TLS srv) = VerifiedAgainst (co_clientCAFile o) /\ requestIdentity (srv_Handler srv) = None /\
    identity (srv_Handler srv)
    = Some (Resolve {| PolicyTrustDomain := "kaiba.network"; PolicyZone := co_zone o |})) \/
   (co_Mode o = "spiffe"%string /\ co_certFile o = ""%string /\ co_keyFile o = ""%string /\
    co_clientCAFile o = ""%string /\ ValidTrustDomain (co_TrustDomain o) = true /\
    peer (srv_TLS srv) = AuthorizeMemberOf (co_TrustDomain o) /\ identity (srv_Handler srv) = None /\
    exists authorizer,
      fleet_authorizer (co_FleetURL o) (co_FleetID o) (co_zone o) (5 * second) = Ok authorizer /\
      requestIdentity (srv_Handler srv)
      = Some (ResolveRequest Verify {| wp_Bundles := Some bundles; wp_TrustDomain := co_TrustDomain o;
                                       wp_Authorizer := Some authorizer |} wall_now))).
Proof.
  revert Hrun. unfold controller_command. destruct (controller_parse env args) as [o|]; [|done].
  cbn [mbind result_bind]. intros Hrun. exists o. split; [done|].
  revert Hrun. unfold controller_run. destruct (clock _); [|done]. destruct (open_database _); [|done].
  cbn [mbind result_bind]. destruct (controller_identity _ _ _ _ _ _ _ _ o) as [[[tls policy] request]|] eqn:Ei; [|done].
  cbn [mbind result_bind]. destruct (New _ true) as [handler|] eqn:En; [|done]. cbn [map_err]. intros [= <-].
  apply New_Ok in En as (_ & Hid & Hreq & _ & Hallow & Hlease). cbn [srv_TLS srv_Handler].
  cbn [cfg_Identity cfg_RequestIdentity cfg_AllowNonGlobalAddresses] in *. rewrite Hid, Hreq, Hallow.
  revert Ei. unfold controller_identity, is_empty. destruct (String.eqb_spec (co_Mode o) "file") as [Hm|_].
  - destruct (_ || _) eqn:E; [done|]. rewrite !orb_false_iff, !negb_false_iff, !String.eqb_eq in E.
    destruct (load_pair _ _); [|done]. destruct (read_file _); [|done]. cbn [map_err mbind result_bind].
    destruct (negb _); [done|]. intros [= <- <- <-]. destruct E as [[[[_ ?] ?] ?] ?].
    split; [done|]. split; [done|]. split; [done|]. split; [done|]. left. by split_and!.
  - destruct (String.eqb_spec (co_Mode o) "spiffe") as [Hm|_]; [|done].
    destruct (_ || _) eqn:E; [done|]. rewrite !orb_false_iff, !negb_false_iff, !String.eqb_eq in E.
    destruct (workload_source _ _); [|done]. cbn [mbind result_bind].
    destruct (fleet_authorizer _ _ _ _) as [authorizer|] eqn:Ef; [|done]. cbn [mbind result_bind].
    unfold WorkloadServerTLS. destruct E as [[[[[? ?] ?] _] _] Ht]. rewrite Ht. cbn [negb mbind result_bind].
    intros [= <- <- <-]. split; [done|]. split; [done|]. split; [done|]. split; [done|]. right.
    split_and!; [done..|]. by exists authorizer.
Qed.

(** File credentials, the renewal interval from the environment and the client
    CA from the command line. *)
Definition example_environment : gmap string string :=
  (<["KAIBA_CONTROLLER_TLS_CERT" := "/cert"]> (<["KAIBA_CONTROLLER_TLS_KEY" := "/key"]>
    (<["KAIBA_CONTROLLER_CLIENT_CA" := "/old-ca"]> {["KAIBA_CONTROLLER_RENEW_AFTER" := "90m"]})))%string.
Definition example_arguments : list string := ["--client-ca"; "/ca"; "-lease-duration=12h"]%string.

Definition example_command : result Exit HTTPServer :=
  controller_command (fun _ => Ok tt) (fun _ => Ok tt) (fun _ _ => Ok tt) (fun _ => Ok "PEM"%string) (fun _ => true)
    (fun _ _ => Ok tt) tt (fun _ _ _ => None) (fun _ _ _ _ => Err "unused"%string) 0
    example_environment example_arguments.

Lemma example_command_starts : exists srv, example_command = Ok srv.
Proof.
  assert (is_ok example_command = true) as H by (vm_compute; reflexivity).
  destruct example_command as [srv|]; [by exists srv|done].
Qed.

Lemma controller_starts_authenticated_witness :
  (fun o => (co_clientCAFile o, co_renewAfter o, co_leaseDuration o))
    <$> controller_parse example_environment example_arguments
  = Ok ("/ca"%string, 5400 * second, 12 * hour) /\
  exists srv, example_command = Ok srv /\ MinVersion (srv_TLS srv) = VersionTLS13 /\
    ClientCertificateRequired (srv_TLS srv) = true.
Proof.
  split; [vm_compute; reflexivity|]. destruct example_command_starts as [srv E]. exists srv. split; [exact E|].
  destruct (controller_starts_authenticated _ _ _ _ _ _ _ _ _ _ _ _ _ E) as (o & _ & Hv & Hc & _).
  exact (conj Hv Hc).
Defined.

(** What the commands do with their command lines. *)
Example command_lines :
  agent_parse ∅ ["-h"]%string = Err (Usage ErrHelp) /\
  is_ok (agent_parse ∅ ["--once"; "--"; "-unknown"]%string) = true /\
  agent_parse ∅ ["--once"; "-unknown"]%string = Err (Usage (Misuse "flag provided but not defined: -unknown")) /\
  agent_parse {["KAIBA_AGENT_ONCE" := "maybe"]}%string ["-h"]%string = Err (Fatal "KAIBA_AGENT_ONCE") /\
  ao_addresses <$> agent_parse {["KAIBA_AGENT_ADDRESSES" := "192.0.2.1, ,192.0.2.2"]}%string ["-address=2001:db8::1"]%string
  = Ok ["192.0.2.1"; "192.0.2.2"; "2001:db8::1"]%string /\
  po_ttl <$> publisher_parse ∅ ["-ttl"; "0x3c"; "now"; "-ttl"; "5"]%string = Ok 60.
Proof. vm_compute. repeat split. Qed.
