(* ===== verification/CommandOptions.v ===== *)
(** * What the commands read from their environments and command lines

    Every option of the three commands, with its name, its variable and its
    default, and that the commands read exactly these: the specification names
    no declaration of [Commands]. *)

From S2P Require Export Commands.
From Stdlib Require Import String.
#[local] Open Scope Z_scope.
#[local] Abbreviation length := List.length.

(** ** The options of each command *)

(** Options, each with whether it is a boolean. *)
Definition option_kinds (l : list (string * bool)) : gmap string bool := list_to_map l.

(** A variable that is set to a text that cannot be read. *)
Definition unread {A} (parse : string -> option A) (env : gmap string string) (variable : string) : Prop :=
  exists text, env !! variable = Some text /\ parse text = None.

Section settings.
(** The environment, and the options that the command line spells. *)
Context (env : gmap string string) (spelled : list (string * string)).

(** The last text given, or the variable, or the default. *)
Definition reads_text (name variable fallback : string) (value : string) : Prop :=
  value = List.last (given name spelled) (default fallback (env !! variable)).

(** The variable's items and then every text given; none may be empty. *)
Definition reads_list (name variable : string) (value : list string) : Prop :=
  Forall (fun text => text <> ""%string) (given name spelled) /\
  value = CSVEnv env variable ++ given name spelled.

(** As a text; the variable and every text given must be readable. *)
Definition reads_parsed {A} (parse_variable parse : string -> option A)
    (name variable : string) (fallback : A) (value : A) : Prop :=
  exists base values,
    match env !! variable with Some text => parse_variable text = Some base | None => base = fallback end /\
    Forall2 (fun text v => parse text = Some v) (given name spelled) values /\
    value = List.last values base.

Definition reads_duration := reads_parsed ParseDuration ParseDuration.
Definition reads_bool := reads_parsed ParseBool ParseBool.
Definition reads_uint32 := reads_parsed (ParseUint 32) (ParseUint0 64).

Definition agent_reads (o : AgentOptions) : Prop :=
  reads_text "endpoint" "KAIBA_AGENT_ENDPOINT" "" (ao_endpoint o) /\
  reads_text "client-cert" "KAIBA_AGENT_CLIENT_CERT" "" (ao_certFile o) /\
  reads_text "client-key" "KAIBA_AGENT_CLIENT_KEY" "" (ao_keyFile o) /\
  reads_text "ca" "KAIBA_AGENT_CA" "" (ao_caFile o) /\
  reads_text "identity-mode" "KAIBA_AGENT_IDENTITY_MODE" "file" (ao_identityMode o) /\
  reads_text "workload-api-socket" "KAIBA_AGENT_WORKLOAD_API_SOCKET" "" (ao_socket o) /\
  reads_text "controller-spiffe-id" "KAIBA_AGENT_CONTROLLER_SPIFFE_ID" "" (ao_controllerID o) /\
  reads_list "address" "KAIBA_AGENT_ADDRESSES" (ao_addresses o) /\
  reads_list "interface" "KAIBA_AGENT_INTERFACES" (ao_interfaces o) /\
  reads_text "idempotency-state" "KAIBA_AGENT_IDEMPOTENCY_STATE" "/var/lib/kaiba-agent/idempotency.json" (ao_statePath o) /\
  reads_duration "renew-interval" "KAIBA_AGENT_RENEW_INTERVAL" (6 * 3600 * second) (ao_renewInterval o) /\
  reads_duration "request-timeout" "KAIBA_AGENT_REQUEST_TIMEOUT" (30 * second) (ao_requestTimeout o) /\
  reads_bool "once" "KAIBA_AGENT_ONCE" false (ao_once o).

Definition controller_reads (o : ControllerOptions) : Prop :=
  reads_text "listen" "KAIBA_CONTROLLER_LISTEN" ":8443" (co_listen o) /\
  reads_text "db" "KAIBA_CONTROLLER_DB" "/var/lib/kaiba-controller/controller.db" (co_database o) /\
  reads_text "tls-cert" "KAIBA_CONTROLLER_TLS_CERT" "" (co_certFile o) /\
  reads_text "tls-key" "KAIBA_CONTROLLER_TLS_KEY" "" (co_keyFile o) /\
  reads_text "client-ca" "KAIBA_CONTROLLER_CLIENT_CA" "" (co_clientCAFile o) /\
  reads_text "identity-mode" "KAIBA_CONTROLLER_IDENTITY_MODE" "file" (co_Mode o) /\
  reads_text "workload-api-socket" "KAIBA_CONTROLLER_WORKLOAD_API_SOCKET" "" (co_Socket o) /\
  reads_text "spiffe-trust-domain" "KAIBA_CONTROLLER_SPIFFE_TRUST_DOMAIN" "" (co_TrustDomain o) /\
  reads_text "fleet-authorization-url" "KAIBA_CONTROLLER_FLEET_AUTHORIZATION_URL" "" (co_FleetURL o) /\
  reads_text "fleet-server-spiffe-id" "KAIBA_CONTROLLER_FLEET_SERVER_SPIFFE_ID" "" (co_FleetID o) /\
  reads_text "zone" "KAIBA_CONTROLLER_ZONE" "kaiba.network" (co_zone o) /\
  reads_text "clock-file" "KAIBA_CONTROLLER_CLOCK_FILE" "" (co_clockFile o) /\
  reads_duration "lease-duration" "KAIBA_CONTROLLER_LEASE_DURATION" (24 * 3600 * second) (co_leaseDuration o) /\
  reads_duration "renew-after" "KAIBA_CONTROLLER_RENEW_AFTER" (6 * 3600 * second) (co_renewAfter o) /\
  reads_bool "allow-non-global-addresses" "KAIBA_CONTROLLER_ALLOW_NON_GLOBAL_ADDRESSES" false (co_allowNonGlobal o).

Definition publisher_reads (o : PublisherOptions) : Prop :=
  reads_text "db" "KAIBA_PUBLISHER_DB" "/var/lib/kaiba-controller/controller.db" (po_database o) /\
  reads_text "clock-file" "KAIBA_PUBLISHER_CLOCK_FILE" "" (po_clockFile o) /\
  reads_text "dns-server" "KAIBA_PUBLISHER_DNS_SERVER" "" (po_dnsServer o) /\
  reads_text "zone" "KAIBA_PUBLISHER_ZONE" "kaiba.network" (po_zone o) /\
  reads_text "tsig-name" "KAIBA_PUBLISHER_TSIG_NAME" "" (po_tsigName o) /\
  reads_text "tsig-algorithm" "KAIBA_PUBLISHER_TSIG_ALGORITHM" "hmac-sha256." (po_tsigAlgorithm o) /\
  reads_text "tsig-secret-file" "KAIBA_PUBLISHER_TSIG_SECRET_FILE" "" (po_tsigSecretFile o) /\
  reads_uint32 "ttl" "KAIBA_PUBLISHER_TTL" 300 (po_ttl o) /\
  reads_duration "poll-interval" "KAIBA_PUBLISHER_POLL_INTERVAL" (5 * second) (po_pollInterval o) /\
  reads_list "observe-server" "KAIBA_PUBLISHER_OBSERVE_SERVERS" (po_observeServers o) /\
  reads_bool "once" "KAIBA_PUBLISHER_ONCE" false (po_once o).
End settings.

Definition agent_kinds : gmap string bool := option_kinds
  [("endpoint", false); ("client-cert", false); ("client-key", false); ("ca", false); ("identity-mode", false);
   ("workload-api-socket", false); ("controller-spiffe-id", false); ("address", false); ("interface", false);
   ("idempotency-state", false); ("renew-interval", false); ("request-timeout", false); ("once", true)]%string.

Definition controller_kinds : gmap string bool := option_kinds
  [("listen", false); ("db", false); ("tls-cert", false); ("tls-key", false); ("client-ca", false);
   ("identity-mode", false); ("workload-api-socket", false); ("spiffe-trust-domain", false);
   ("fleet-authorization-url", false); ("fleet-server-spiffe-id", false); ("zone", false); ("clock-file", false);
   ("lease-duration", false); ("renew-after", false); ("allow-non-global-addresses", true)]%string.

Definition publisher_kinds : gmap string bool := option_kinds
  [("db", false); ("clock-file", false); ("dns-server", false); ("zone", false); ("tsig-name", false);
   ("tsig-algorithm", false); ("tsig-secret-file", false); ("ttl", false); ("poll-interval", false);
   ("observe-server", false); ("once", true)]%string.

(** The variables that can stop a command. *)
Definition agent_unread (env : gmap string string) (v : string) : Prop :=
  (v = "KAIBA_AGENT_RENEW_INTERVAL"%string /\ unread ParseDuration env v) \/
  (v = "KAIBA_AGENT_REQUEST_TIMEOUT"%string /\ unread ParseDuration env v) \/
  (v = "KAIBA_AGENT_ONCE"%string /\ unread ParseBool env v).
Definition controller_unread (env : gmap string string) (v : string) : Prop :=
  (v = "KAIBA_CONTROLLER_LEASE_DURATION"%string /\ unread ParseDuration env v) \/
  (v = "KAIBA_CONTROLLER_RENEW_AFTER"%string /\ unread ParseDuration env v) \/
  (v = "KAIBA_CONTROLLER_ALLOW_NON_GLOBAL_ADDRESSES"%string /\ unread ParseBool env v).
Definition publisher_unread (env : gmap string string) (v : string) : Prop :=
  (v = "KAIBA_PUBLISHER_POLL_INTERVAL"%string /\ unread ParseDuration env v) \/
  (v = "KAIBA_PUBLISHER_TTL"%string /\ unread (ParseUint 32) env v) \/
  (v = "KAIBA_PUBLISHER_ONCE"%string /\ unread ParseBool env v).

(** A command reads the options that the command line spells in its grammar,
    stops on an unreadable variable, naming it, and otherwise with a usage
    error. *)
Definition reads_exactly {O} (parsed : result Exit O) (kinds : gmap string bool) (args : list string)
    (reads : list (string * string) -> O -> Prop) (unread : string -> Prop) : Prop :=
  (forall o, parsed = Ok o <-> exists spelled, spells kinds args spelled /\ reads spelled o) /\
  (forall message, parsed = Err (Fatal message) -> unread message) /\
  (forall variable, unread variable -> exists message, parsed = Err (Fatal message)).

(** ** Declared options *)

(** A declared option, found by its name. *)
Fixpoint declared (l : list (string * FlagValue)) (name : string) : option FlagValue :=
  match l with
  | [] => None
  | (n, v) :: l' => if (n =? name)%string then Some v else declared l' name
  end.

Lemma declare_lookup l flags name : declare l = Some flags -> flags !! name = declared l name.
Proof.
  revert flags. induction l as [|[n w] l IH]; intros flags; cbn [declare declared].
  { intros [= <-]. apply lookup_empty. }
  destruct (declare l) as [fs|] eqn:Ed; [|done]. cbn [mbind option_bind].
  destruct (fs !! n) eqn:En; [done|]. intros [= <-]. destruct (String.eqb_spec n name) as [->|Hn].
  - apply lookup_insert_eq.
  - rewrite lookup_insert_ne by done. by apply IH.
Qed.

Lemma declare_total l : NoDup l.*1 -> exists flags, declare l = Some flags.
Proof.
  induction l as [|[n v] l IH]; cbn [declare fmap list_fmap fst]; [by eexists|].
  intros [Hn Hl]%NoDup_cons. destruct (IH Hl) as [flags Hf]. rewrite Hf. cbn [mbind option_bind].
  rewrite (declare_lookup _ _ n Hf). assert (declared l n = None) as ->; [|by eexists].
  clear - Hn. induction l as [|[m w] l IH]; cbn [declared]; [done|].
  destruct (String.eqb_spec m n) as [->|]; [by destruct Hn; left|]. apply IH. intros H. apply Hn. by right.
Qed.

(** Every declared option has a value of its kind after parsing; a list starts
    with the environment's. *)
Section parsed.
Context (l : list (string * FlagValue)) (args : list string) (flags flags' : FlagSet).
Context (Hd : declare l = Some flags) (Hp : Parse flags args = Ok flags').

Lemma parsed_value name v : declared l name = Some v -> exists w, flags' !! name = Some w /\ same_kind v w.
Proof. intros Hv. eapply Parse_lookup; [done|]. by rewrite (declare_lookup l). Qed.

Lemma string_of_parsed name s : declared l name = Some (StringValue s) -> exists s', string_of flags' name = Some s'.
Proof. intros (w & Hw & Hk)%parsed_value. unfold string_of. rewrite Hw. destruct w; try done. by eexists. Qed.
Lemma bool_of_parsed name b : declared l name = Some (BoolValue b) -> exists b', bool_of flags' name = Some b'.
Proof. intros (w & Hw & Hk)%parsed_value. unfold bool_of. rewrite Hw. destruct w; try done. by eexists. Qed.
Lemma duration_of_parsed name d : declared l name = Some (DurationValue d) -> exists d', duration_of flags' name = Some d'.
Proof. intros (w & Hw & Hk)%parsed_value. unfold duration_of. rewrite Hw. destruct w; try done. by eexists. Qed.
Lemma uint_of_parsed name n : declared l name = Some (UintValue n) -> exists n', uint_of flags' name = Some n'.
Proof. intros (w & Hw & Hk)%parsed_value. unfold uint_of. rewrite Hw. destruct w; try done. by eexists. Qed.
Lemma list_of_parsed name items :
  declared l name = Some (ListValue items) -> exists more, list_of flags' name = Some (items ++ more).
Proof.
  intros (w & Hw & Hk)%parsed_value. unfold list_of. rewrite Hw. destruct w; try done.
  destruct Hk as [more ->]. by exists more.
Qed.
End parsed.

(** One option of a command has its value: it is declared. *)
Ltac option_value Hd Hp :=
  match goal with
  | |- context [string_of ?fs ?name] =>
      let v := fresh "v" in
      edestruct (string_of_parsed _ _ _ _ Hd Hp name) as [v ->]; [reflexivity|]
  | |- context [bool_of ?fs ?name] =>
      let v := fresh "v" in
      edestruct (bool_of_parsed _ _ _ _ Hd Hp name) as [v ->]; [reflexivity|]
  | |- context [duration_of ?fs ?name] =>
      let v := fresh "v" in
      edestruct (duration_of_parsed _ _ _ _ Hd Hp name) as [v ->]; [reflexivity|]
  | |- context [uint_of ?fs ?name] =>
      let v := fresh "v" in
      edestruct (uint_of_parsed _ _ _ _ Hd Hp name) as [v ->]; [reflexivity|]
  | |- context [list_of ?fs ?name] =>
      let v := fresh "v" in
      edestruct (list_of_parsed _ _ _ _ Hd Hp name) as [v ->]; [reflexivity|]
  end; cbn [mbind option_bind].


(** ** Setting options *)

Lemma set_all_parsed {A} (K : A -> FlagValue) (parse : string -> option A) x texts :
  (forall x s, Flag.Set_ (K x) s = K <$> parse s) ->
  set_all (K x) texts = (fun values => K (List.last values x)) <$> mapM parse texts.
Proof.
  intros HK. revert x. induction texts as [|t texts IH]; intros x; [done|]. cbn [set_all mapM]. rewrite HK.
  destruct (parse t) as [y|]; [|done]. cbn [fmap option_fmap option_map mbind option_bind]. rewrite IH.
  destruct (mapM parse texts) as [values|]; [|done]. cbn [fmap option_fmap option_map mret option_ret mbind option_bind].
  by rewrite last_cons_default.
Qed.

Lemma set_all_listed l texts :
  Forall (fun text => text <> ""%string) texts -> set_all (ListValue l) texts = Some (ListValue (l ++ texts)).
Proof.
  intros H. revert l. induction H as [|t texts Ht _ IH]; intros l; cbn [set_all Flag.Set_]; [by rewrite app_nil_r|].
  unfold StringList_Set. apply String.eqb_neq in Ht as ->. cbn [mbind option_bind]. by rewrite IH, <- app_assoc.
Qed.

Lemma set_all_nonempty l texts w :
  set_all (ListValue l) texts = Some w -> Forall (fun text => text <> ""%string) texts.
Proof.
  revert l. induction texts as [|t texts IH]; intros l; cbn [set_all Flag.Set_]; [by constructor|].
  unfold StringList_Set. destruct (String.eqb_spec t ""); [done|]. cbn [mbind option_bind]. intros H%IH. by constructor.
Qed.

Lemma given_cons name n s l :
  given name ((n, s) :: l) = if (n =? name)%string then s :: given name l else given name l.
Proof. unfold given. cbn [List.filter fst]. by destruct (n =? name)%string. Qed.

(** Options that are declared and whose texts can be set can be set in order. *)
Lemma set_each_Some flags l :
  (forall n s, (n, s) ∈ l -> is_Some (flags !! n)) ->
  (forall name v, flags !! name = Some v -> is_Some (set_all v (given name l))) ->
  is_Some (set_each flags l).
Proof.
  revert flags. induction l as [|[n s] l IH]; intros flags Hin Hset; cbn [set_each]; [by eexists|].
  destruct (Hin n s) as [v Hv]; [by left|]. pose proof (Hset n v Hv) as Hn.
  rewrite given_cons, String.eqb_refl in Hn. cbn [set_all] in Hn. rewrite Hv. cbn [mbind option_bind].
  destruct (Flag.Set_ v s) as [v'|] eqn:Es; [|by destruct Hn]. cbn [mbind option_bind] in *. apply IH.
  - intros n' s' Hin'. destruct (decide (n' = n)) as [->|]; [rewrite lookup_insert_eq; by eexists|].
    rewrite lookup_insert_ne by done. eapply Hin. by right.
  - intros name w. destruct (decide (n = name)) as [->|Hne].
    + rewrite lookup_insert_eq. by intros [= <-].
    + rewrite lookup_insert_ne by done. intros Hw. specialize (Hset name w Hw).
      rewrite given_cons in Hset. by apply String.eqb_neq in Hne as Hne'; rewrite Hne' in Hset.
Qed.

Lemma spells_known kinds args l n s : spells kinds args l -> (n, s) ∈ l -> is_Some (kinds !! n).
Proof.
  induction 1 as [| | |]; intros Hin; [by apply elem_of_nil in Hin|..];
    apply elem_of_cons in Hin as [[= -> ->]|Hin]; auto; by eexists.
Qed.

Lemma declare_map l flags : declare l = Some flags -> flags = list_to_map l.
Proof.
  revert flags. induction l as [|[n v] l IH]; intros flags; cbn [declare list_to_map foldr]; [by intros [= <-]|].
  destruct (declare l) as [fs|]; [|done]. cbn [mbind option_bind]. destruct (fs !! n); [done|].
  intros [= <-]. by rewrite (IH fs).
Qed.

Lemma kinds_of_declared l flags :
  declare l = Some flags -> kinds_of flags = option_kinds (prod_map id IsBoolFlag <$> l).
Proof. intros ->%declare_map. unfold kinds_of, option_kinds. by rewrite list_to_map_fmap. Qed.

Lemma declared_in_list l name v : declared l name = Some v -> (name, v) ∈ l.
Proof.
  induction l as [|[n w] l IH]; cbn [declared]; [done|].
  destruct (String.eqb_spec n name) as [->|]; [intros [= ->]; by left|]. right. by apply IH.
Qed.

(** The values after parsing. *)
Definition valued (l : list (string * FlagValue)) (spelled : list (string * string)) (flags : FlagSet) : Prop :=
  forall name v, declared l name = Some v -> flags !! name = set_all v (given name spelled).

Lemma set_each_valued l flags spelled flags' :
  declare l = Some flags -> set_each flags spelled = Some flags' -> valued l spelled flags'.
Proof. intros Hd Hs name v Hv. eapply set_each_lookup; [done|]. by rewrite (declare_lookup _ _ _ Hd). Qed.

(** ** One option *)

Section option.
Context (env : gmap string string) (l : list (string * FlagValue)) (spelled : list (string * string)).
Context (flags : FlagSet) (Hflags : valued l spelled flags).

Lemma reads_text_of name variable fallback s :
  declared l name = Some (StringValue (Env env variable fallback)) ->
  string_of flags name = Some s <-> reads_text env spelled name variable fallback s.
Proof using Hflags.
  intros Hd. unfold string_of, reads_text. rewrite (Hflags _ _ Hd), set_all_string. unfold Env.
  split; [by intros [= <-]|by intros ->].
Qed.

Lemma reads_list_of name variable items :
  declared l name = Some (ListValue (CSVEnv env variable)) ->
  list_of flags name = Some items <-> reads_list env spelled name variable items.
Proof using Hflags.
  intros Hd. unfold list_of, reads_list. rewrite (Hflags _ _ Hd). split.
  - destruct (set_all _ _) as [w|] eqn:E; [|done]. pose proof (set_all_nonempty _ _ _ E).
    apply set_all_list in E as ->. by intros [= <-].
  - intros [Hne ->]. by rewrite set_all_listed.
Qed.

(** The environment's value of a setting. *)
Definition variable_is {A} (parse : string -> option A) (variable : string) (fallback base : A) : Prop :=
  match env !! variable with Some text => parse text = Some base | None => base = fallback end.

Lemma reads_parsed_of {A} (K : A -> FlagValue) (get : FlagValue -> option A) parse_variable parse
    name variable fallback base value :
  (forall x s, Flag.Set_ (K x) s = K <$> parse s) -> (forall x, get (K x) = Some x) ->
  declared l name = Some (K base) -> variable_is parse_variable variable fallback base ->
  (flags !! name ≫= get) = Some value <->
  reads_parsed env spelled parse_variable parse name variable fallback value.
Proof using Hflags.
  intros HK Hget Hd Hbase. rewrite (Hflags _ _ Hd), (set_all_parsed K parse) by done. unfold reads_parsed. split.
  - destruct (mapM parse _) as [values|] eqn:E; [|done]. cbn [fmap option_fmap option_map mbind option_bind].
    rewrite Hget. intros [= <-]. exists base, values. split; [exact Hbase|]. split; [by apply mapM_Some|done].
  - intros (b & values & Hb & Hvalues%mapM_Some & ->). rewrite Hvalues.
    cbn [fmap option_fmap option_map mbind option_bind]. rewrite Hget. do 2 f_equal.
    unfold variable_is in Hbase. destruct (env !! variable); congruence.
Qed.
End option.

Lemma EnvDuration_is env variable fallback base :
  EnvDuration env variable fallback = Ok base <-> variable_is env ParseDuration variable fallback base.
Proof.
  unfold EnvDuration, variable_is. destruct (env !! variable) as [text|]; [|split; [by intros [= <-]|by intros ->]].
  destruct (ParseDuration text); split; by intros [= <-].
Qed.
Lemma EnvBool_is env variable fallback base :
  EnvBool env variable fallback = Ok base <-> variable_is env ParseBool variable fallback base.
Proof.
  unfold EnvBool, variable_is. destruct (env !! variable) as [text|]; [|split; [by intros [= <-]|by intros ->]].
  destruct (ParseBool text); split; by intros [= <-].
Qed.
Lemma EnvUint32_is env variable fallback base :
  EnvUint32 env variable fallback = Ok base <-> variable_is env (ParseUint 32) variable fallback base.
Proof.
  unfold EnvUint32, variable_is. destruct (env !! variable) as [text|]; [|split; [by intros [= <-]|by intros ->]].
  destruct (ParseUint 32 text); split; by intros [= <-].
Qed.

(** A setting of the environment that cannot be read is named. *)
Lemma EnvDuration_Err env variable fallback m :
  EnvDuration env variable fallback = Err m <-> m = variable /\ unread ParseDuration env variable.
Proof.
  unfold EnvDuration, unread. destruct (env !! variable) as [text|]; [|naive_solver].
  destruct (ParseDuration text) eqn:E; naive_solver.
Qed.
Lemma EnvBool_Err env variable fallback m :
  EnvBool env variable fallback = Err m <-> m = variable /\ unread ParseBool env variable.
Proof.
  unfold EnvBool, unread. destruct (env !! variable) as [text|]; [|naive_solver].
  destruct (ParseBool text) eqn:E; naive_solver.
Qed.
Lemma EnvUint32_Err env variable fallback m :
  EnvUint32 env variable fallback = Err m <-> m = variable /\ unread (ParseUint 32) env variable.
Proof.
  unfold EnvUint32, unread. destruct (env !! variable) as [text|]; [|naive_solver].
  destruct (ParseUint 32 text) eqn:E; naive_solver.
Qed.

Section kinds.
Context (env : gmap string string) (l : list (string * FlagValue)) (spelled : list (string * string)).
Context (flags : FlagSet) (Hflags : valued l spelled flags).

Lemma reads_duration_of name variable fallback base value :
  declared l name = Some (DurationValue base) -> EnvDuration env variable fallback = Ok base ->
  duration_of flags name = Some value <-> reads_duration env spelled name variable fallback value.
Proof using Hflags.
  intros Hd Hb%EnvDuration_is.
  rewrite <- (reads_parsed_of env l spelled flags Hflags DurationValue
    (fun v => match v with DurationValue d => Some d | _ => None end) ParseDuration ParseDuration
    name variable fallback base value); [|done..].
  unfold duration_of. by destruct (flags !! name) as [[]|].
Qed.
Lemma reads_bool_of name variable fallback base value :
  declared l name = Some (BoolValue base) -> EnvBool env variable fallback = Ok base ->
  bool_of flags name = Some value <-> reads_bool env spelled name variable fallback value.
Proof using Hflags.
  intros Hd Hb%EnvBool_is.
  rewrite <- (reads_parsed_of env l spelled flags Hflags BoolValue
    (fun v => match v with BoolValue b => Some b | _ => None end) ParseBool ParseBool
    name variable fallback base value); [|done..].
  unfold bool_of. by destruct (flags !! name) as [[]|].
Qed.
Lemma reads_uint32_of name variable fallback base value :
  declared l name = Some (UintValue base) -> EnvUint32 env variable fallback = Ok base ->
  uint_of flags name = Some value <-> reads_uint32 env spelled name variable fallback value.
Proof using Hflags.
  intros Hd Hb%EnvUint32_is.
  rewrite <- (reads_parsed_of env l spelled flags Hflags UintValue
    (fun v => match v with UintValue n => Some n | _ => None end) (ParseUint 32) (ParseUint0 64)
    name variable fallback base value); [|done..].
  unfold uint_of. by destruct (flags !! name) as [[]|].
Qed.
End kinds.

(** What is read can be set. *)
Definition settable (spelled : list (string * string)) (p : string * FlagValue) : Prop :=
  is_Some (set_all (snd p) (given (fst p) spelled)).

Lemma text_settable spelled name s : settable spelled (name, StringValue s).
Proof. unfold settable. cbn [fst snd]. rewrite set_all_string. by eexists. Qed.
Lemma list_settable env spelled name variable l items :
  reads_list env spelled name variable items -> settable spelled (name, ListValue l).
Proof. intros [H _]. unfold settable. cbn [fst snd]. rewrite set_all_listed by done. by eexists. Qed.
Lemma parsed_settable {A} (K : A -> FlagValue) parse_variable parse env spelled name variable fallback value base :
  (forall x s, Flag.Set_ (K x) s = K <$> parse s) ->
  reads_parsed env spelled parse_variable parse name variable fallback value -> settable spelled (name, K base).
Proof.
  intros HK (b & values & _ & Hv%mapM_Some & _). unfold settable. cbn [fst snd].
  rewrite (set_all_parsed K parse), Hv by done. by eexists.
Qed.
Lemma duration_settable env spelled name variable fallback value base :
  reads_duration env spelled name variable fallback value -> settable spelled (name, DurationValue base).
Proof. by apply (parsed_settable DurationValue). Qed.
Lemma bool_settable env spelled name variable fallback value base :
  reads_bool env spelled name variable fallback value -> settable spelled (name, BoolValue base).
Proof. by apply (parsed_settable BoolValue). Qed.
Lemma uint_settable env spelled name variable fallback value base :
  reads_uint32 env spelled name variable fallback value -> settable spelled (name, UintValue base).
Proof. by apply (parsed_settable UintValue). Qed.

Create HintDb settings.
#[export] Hint Resolve text_settable list_settable duration_settable bool_settable uint_settable : settings.

(** ** A command *)

(** What is left to show of a command, given what it declares. *)
Record describes {O} (l : list (string * FlagValue)) (options : FlagSet -> option O) (kinds : gmap string bool)
    (reads : list (string * string) -> O -> Prop) : Prop := {
  de_names : NoDup l.*1;
  de_kinds : option_kinds (prod_map id IsBoolFlag <$> l) = kinds;
  de_settable : forall spelled o, reads spelled o -> Forall (settable spelled) l;
  de_options : forall spelled flags, valued l spelled flags -> forall o, options flags = Some o <-> reads spelled o;
  de_total : forall flags flags' args, declare l = Some flags -> Parse flags args = Ok flags' -> is_Some (options flags');
}.

Lemma command_reads {O} env args declared_in (options : FlagSet -> option O) kinds reads unread :
  (forall m, declared_in env = Err m -> unread m) ->
  (forall v, unread v -> exists m, declared_in env = Err m) ->
  (forall spelled o, reads spelled o -> is_ok (declared_in env) = true) ->
  (forall l, declared_in env = Ok l -> describes l options kinds reads) ->
  reads_exactly (parse_command env args declared_in options) kinds args reads unread.
Proof.
  intros Herr Hun Hok Hl. unfold reads_exactly, parse_command.
  destruct (declared_in env) as [l|m]; cbn [map_err mbind result_bind].
  2: { split; [|split; [intros message [= <-]; by apply Herr|by intros v _; eexists]].
       intros o. split; [done|]. intros (spelled & _ & Hr). by specialize (Hok _ _ Hr). }
  specialize (Hl l eq_refl). destruct Hl as [Hn Hk Hset Hopt Htot].
  destruct (declare_total l Hn) as [flags Hf]. rewrite Hf. cbn [of_option mbind result_bind].
  pose proof (kinds_of_declared l flags Hf) as Hkinds. rewrite Hk in Hkinds. split; [|split].
  - intros o. split.
    + destruct (Parse flags args) as [flags'|] eqn:Ep; cbn [map_err mbind result_bind]; [|done].
      intros E. apply Parse_grammar in Ep as (spelled & Hs & He). rewrite Hkinds in Hs. exists spelled. split; [done|].
      apply (Hopt spelled flags'); [by eapply set_each_valued|].
      by destruct (options flags'); [injection E as <-|].
    + intros (spelled & Hs & Hr). destruct (set_each_Some flags spelled) as [flags' He].
      * intros n s Hin. apply (spells_known _ _ _ n s Hs) in Hin. rewrite <- Hkinds, kinds_lookup in Hin.
        by destruct (flags !! n); [eexists|destruct Hin].
      * intros name v Hv. rewrite (declare_lookup l) in Hv by done. apply declared_in_list in Hv.
        specialize (Hset _ _ Hr). rewrite Forall_forall in Hset. exact (Hset _ Hv).
      * assert (Parse flags args = Ok flags') as -> by (apply Parse_grammar; exists spelled; by rewrite Hkinds).
        cbn [map_err mbind result_bind].
        by rewrite (proj2 (Hopt spelled flags' (set_each_valued _ _ _ _ Hf He) o) Hr).
  - destruct (Parse flags args) as [flags'|] eqn:Ep; cbn [map_err mbind result_bind]; [|done].
    by destruct (Htot flags flags' args Hf Ep) as [o ->].
  - intros v Hv. by destruct (Hun v Hv).
Qed.

(** ** The three commands *)

Lemma and_congr (A A' B B' : Prop) : (A <-> A') -> (B <-> B') -> A /\ B <-> A' /\ B'.
Proof. tauto. Qed.

(** Options are all there when each of them is. *)
Ltac each_field :=
  let Hf := fresh "Hf" in
  split; intros Hf;
  [repeat (apply bind_Some in Hf as (? & ? & Hf)); injection Hf as <-; by split_and!
  |repeat match goal with Hg : _ /\ _ |- _ => destruct Hg as [? Hg] end;
   repeat match goal with Hg : _ = Some _ |- _ => rewrite Hg; clear Hg; cbn [mbind option_bind] end].

Lemma agent_fields flags o :
  agent_options flags = Some o <->
  string_of flags "endpoint" = Some (ao_endpoint o) /\ string_of flags "client-cert" = Some (ao_certFile o) /\
  string_of flags "client-key" = Some (ao_keyFile o) /\ string_of flags "ca" = Some (ao_caFile o) /\
  string_of flags "identity-mode" = Some (ao_identityMode o) /\
  string_of flags "workload-api-socket" = Some (ao_socket o) /\
  string_of flags "controller-spiffe-id" = Some (ao_controllerID o) /\
  list_of flags "address" = Some (ao_addresses o) /\ list_of flags "interface" = Some (ao_interfaces o) /\
  string_of flags "idempotency-state" = Some (ao_statePath o) /\
  duration_of flags "renew-interval" = Some (ao_renewInterval o) /\
  duration_of flags "request-timeout" = Some (ao_requestTimeout o) /\ bool_of flags "once" = Some (ao_once o).
Proof. unfold agent_options. each_field. by destruct o. Qed.

Lemma controller_fields flags o :
  controller_options flags = Some o <->
  string_of flags "listen" = Some (co_listen o) /\ string_of flags "db" = Some (co_database o) /\
  string_of flags "tls-cert" = Some (co_certFile o) /\ string_of flags "tls-key" = Some (co_keyFile o) /\
  string_of flags "client-ca" = Some (co_clientCAFile o) /\ string_of flags "identity-mode" = Some (co_Mode o) /\
  string_of flags "workload-api-socket" = Some (co_Socket o) /\
  string_of flags "spiffe-trust-domain" = Some (co_TrustDomain o) /\
  string_of flags "fleet-authorization-url" = Some (co_FleetURL o) /\
  string_of flags "fleet-server-spiffe-id" = Some (co_FleetID o) /\ string_of flags "zone" = Some (co_zone o) /\
  string_of flags "clock-file" = Some (co_clockFile o) /\
  duration_of flags "lease-duration" = Some (co_leaseDuration o) /\
  duration_of flags "renew-after" = Some (co_renewAfter o) /\
  bool_of flags "allow-non-global-addresses" = Some (co_allowNonGlobal o).
Proof. unfold controller_options. each_field. by destruct o. Qed.

Lemma publisher_fields flags o :
  publisher_options flags = Some o <->
  string_of flags "db" = Some (po_database o) /\ string_of flags "clock-file" = Some (po_clockFile o) /\
  string_of flags "dns-server" = Some (po_dnsServer o) /\ string_of flags "zone" = Some (po_zone o) /\
  string_of flags "tsig-name" = Some (po_tsigName o) /\ string_of flags "tsig-algorithm" = Some (po_tsigAlgorithm o) /\
  string_of flags "tsig-secret-file" = Some (po_tsigSecretFile o) /\ uint_of flags "ttl" = Some (po_ttl o) /\
  duration_of flags "poll-interval" = Some (po_pollInterval o) /\
  list_of flags "observe-server" = Some (po_observeServers o) /\ bool_of flags "once" = Some (po_once o).
Proof. unfold publisher_options. each_field. by destruct o. Qed.

(** The settings a command reads from the environment. *)
Ltac environment_values H :=
  repeat match type of H with
  | context [EnvDuration ?env ?name ?d] => let E := fresh "E" in destruct (EnvDuration env name d) eqn:E; [|done]
  | context [EnvBool ?env ?name ?b] => let E := fresh "E" in destruct (EnvBool env name b) eqn:E; [|done]
  | context [EnvUint32 ?env ?name ?n] => let E := fresh "E" in destruct (EnvUint32 env name n) eqn:E; [|done]
  end; cbn [mbind result_bind] in H; injection H as <-.

(** An option is read as it is declared. *)
Ltac as_declared Hv :=
  first [eapply (reads_text_of _ _ _ _ Hv); reflexivity
        |eapply (reads_list_of _ _ _ _ Hv); reflexivity
        |eapply (reads_duration_of _ _ _ _ Hv); [reflexivity|eassumption]
        |eapply (reads_bool_of _ _ _ _ Hv); [reflexivity|eassumption]
        |eapply (reads_uint32_of _ _ _ _ Hv); [reflexivity|eassumption]].

Ltac declared_settings fields :=
  constructor;
  [cbn [fmap list_fmap fst]; by apply (bool_decide_unpack _); vm_compute
  |reflexivity
  |intros ? ? ?; unfold agent_reads, controller_reads, publisher_reads in *; repeat match goal with Hg : _ /\ _ |- _ => destruct Hg as [? Hg] end;
   repeat (apply Forall_cons; split; [solve [eauto with settings nocore]|]); apply Forall_nil; exact Logic.I
  |intros ? ? Hv o; rewrite fields; unfold agent_reads, controller_reads, publisher_reads; repeat (apply and_congr; [as_declared Hv|]); as_declared Hv
  |intros ? ? ? Hd Hp].

Lemma agent_describes env l : agent_flags env = Ok l -> describes l agent_options agent_kinds (agent_reads env).
Proof.
  unfold agent_flags. intros Hl. environment_values Hl. declared_settings agent_fields.
  unfold agent_options. repeat option_value Hd Hp. by eexists.
Qed.

Lemma controller_describes env l :
  controller_flags env = Ok l -> describes l controller_options controller_kinds (controller_reads env).
Proof.
  unfold controller_flags. intros Hl. environment_values Hl. declared_settings controller_fields.
  unfold controller_options. repeat option_value Hd Hp. by eexists.
Qed.

Lemma publisher_describes env l :
  publisher_flags env = Ok l -> describes l publisher_options publisher_kinds (publisher_reads env).
Proof.
  unfold publisher_flags. intros Hl. environment_values Hl. declared_settings publisher_fields.
  unfold publisher_options. repeat option_value Hd Hp. by eexists.
Qed.

Lemma reads_duration_Env env spelled name variable fallback value :
  reads_duration env spelled name variable fallback value -> is_ok (EnvDuration env variable fallback) = true.
Proof. intros (base & _ & Hb%EnvDuration_is & _). by rewrite Hb. Qed.
Lemma reads_bool_Env env spelled name variable fallback value :
  reads_bool env spelled name variable fallback value -> is_ok (EnvBool env variable fallback) = true.
Proof. intros (base & _ & Hb%EnvBool_is & _). by rewrite Hb. Qed.
Lemma reads_uint32_Env env spelled name variable fallback value :
  reads_uint32 env spelled name variable fallback value -> is_ok (EnvUint32 env variable fallback) = true.
Proof. intros (base & _ & Hb%EnvUint32_is & _). by rewrite Hb. Qed.

(** Three settings read one after another. *)
Section three.
Context {A B C L : Type} (a : result string A) (b : result string B) (c : result string C) (f : A -> B -> C -> L).
Definition three : result string L := x ← a; y ← b; z ← c; Ok (f x y z).

Lemma three_ok : is_ok a = true -> is_ok b = true -> is_ok c = true -> is_ok three = true.
Proof. unfold three. by destruct a, b, c. Qed.

Lemma three_Err m : three = Err m -> a = Err m \/ b = Err m \/ c = Err m.
Proof. unfold three. destruct a, b, c; cbn; intros; simplify_eq; auto. Qed.

Lemma three_stops : (exists m, a = Err m \/ b = Err m \/ c = Err m) -> exists m, three = Err m.
Proof. unfold three. intros (m & [E|[E|E]]); rewrite E; destruct a, b; cbn; by eexists. Qed.
End three.

(** ** Property *)

(** C30: Every command reads exactly its options.  It ends with options if and
    only if its command line spells, in the grammar of package flag, texts for
    its own options under which every option is read from its own variable and
    default: a text is the last one given, or the variable, or the default;
    durations, booleans and the TTL as well, where every text must be readable;
    addresses, interfaces and observation servers are the variable's items and
    then all texts given.  It stops on a variable that cannot be read, naming
    one of them, if and only if there is one, and otherwise with a usage error. *)
Theorem command_options env args :
  reads_exactly (agent_parse env args) agent_kinds args (agent_reads env) (agent_unread env) /\
  reads_exactly (controller_parse env args) controller_kinds args (controller_reads env) (controller_unread env) /\
  reads_exactly (publisher_parse env args) publisher_kinds args (publisher_reads env) (publisher_unread env).
Proof.
  split_and!; apply command_reads.
  - intros m Hm%three_Err. rewrite !EnvDuration_Err, EnvBool_Err in Hm. unfold agent_unread. naive_solver.
  - intros v Hv. apply three_stops. exists v. rewrite !EnvDuration_Err, EnvBool_Err. unfold agent_unread in Hv. naive_solver.
  - intros spelled o (_ & _ & _ & _ & _ & _ & _ & _ & _ & _ & Hr & Ht & Ho). apply three_ok;
      [exact (reads_duration_Env _ _ _ _ _ _ Hr)|exact (reads_duration_Env _ _ _ _ _ _ Ht)|by eapply reads_bool_Env].
  - apply agent_describes.
  - intros m Hm%three_Err. rewrite !EnvDuration_Err, EnvBool_Err in Hm. unfold controller_unread. naive_solver.
  - intros v Hv. apply three_stops. exists v. rewrite !EnvDuration_Err, EnvBool_Err. unfold controller_unread in Hv. naive_solver.
  - intros spelled o (_ & _ & _ & _ & _ & _ & _ & _ & _ & _ & _ & _ & Hl & Hr & Ha). apply three_ok;
      [exact (reads_duration_Env _ _ _ _ _ _ Hl)|exact (reads_duration_Env _ _ _ _ _ _ Hr)|by eapply reads_bool_Env].
  - apply controller_describes.
  - intros m Hm%three_Err. rewrite EnvDuration_Err, EnvUint32_Err, EnvBool_Err in Hm. unfold publisher_unread. naive_solver.
  - intros v Hv. apply three_stops. exists v. rewrite EnvDuration_Err, EnvUint32_Err, EnvBool_Err.
    unfold publisher_unread in Hv. naive_solver.
  - intros spelled o (_ & _ & _ & _ & _ & _ & _ & Ht & Hp & _ & Ho). apply three_ok;
      [exact (reads_duration_Env _ _ _ _ _ _ Hp)|by eapply reads_uint32_Env|by eapply reads_bool_Env].
  - apply publisher_describes.
Qed.
